(* ===== verification/_CoqProject ===== *)
-Q . S2P
Prelude.v
GoMap.v
GoSort.v
GoStrings.v
Float64.v
GoFmt.v
Sha256.v
DnsName.v
GoTime.v
Kube.v
Claims.v
Plugin.v
Reason.v
UnionFind.v
Links.v
Topology.v
Uniform.v
Discovery.v
Device.v
Footprint.v
NodeInfo.v
Accounting.v
TopologyDomain.v
DomainSpec.v
Affinity.v
Request.v
Admission.v
AdmissionSpec.v
Scoring.v
SubsetSearch.v
DemoNode.v
Numa.v
Tiered.v
TieredSpec.v
Allocator.v
AllocatorSpec.v
Placement.v
NodeBuild.v
EndToEnd.v
Endpoint.v
RemoteGpu.v
EndpointSpec.v
NodeCheck.v
Dra.v
ClaimShare.v
ClaimShareSpec.v
ClaimGuard.v
ClaimGuardSpec.v
Partitions.v
PartitionsSpec.v
Validate.v
ValidateSpec.v
Gate.v
Client.v
Batch.v
Filter.v
DryRun.v
FilterSpec.v
Bind.v
Commit.v
Cluster.v
ClusterDemo.v
Preempt.v
PreemptSpec.v
PreemptDemo.v
Demos.v
