(* ===== verification/Prelude.v ===== *)
(** * vgpu-manager: a verification development

    vgpu-manager shares NVIDIA GPUs between the containers of a Kubernetes
    cluster.  A scheduler extender decides, pod by pod, which GPUs a pod gets;
    it writes its decision into the pod's annotations, and the device plugin
    of the node hands out exactly those GPUs.  Admission webhooks prepare the
    pods, and can turn their vGPU resources into resource claims instead,
    which a kubelet plugin serves.  This library models the decision-making
    parts of that program as executable functions and proves what the rest of
    the system relies on: no GPU is promised twice, topology promises are
    kept, what is written is what is read back, and results do not depend on
    Go's map iteration order or on goroutine scheduling.

    ** Parts of the program and the files that model them

    The Go language and its libraries:
    - [Prelude] (this file): results of fallible code, 64-bit wrap-around,
      sums and maxima, list lemmas;
    - [GoMap]: maps ranged over in an arbitrary order (class [MapOrder]);
      [GoSort]: [sort.Slice] and comparator chains; [GoStrings]: [strings] and
      [strconv]; [Float64]: binary64 arithmetic; [GoFmt]: %v and %q;
      [GoTime]: durations; [Sha256]: the hash, with its test vectors.

    The data ([src/pkg/util], [src/pkg/device/types.go], [src/pkg/client]):
    - [Kube]: pods, nodes, annotation keys and the helpers that read them;
    - [Claims]: the text codec of the allocation annotations;
    - [Reason]: structured rejection reasons and their texts;
    - [UnionFind], [Links], [Topology], [Uniform]: peer-to-peer links and the
      connectivity components of a node, tier by tier;
    - [Discovery] ([src/pkg/device/gpuallocator]): the probes of the driver
      library that find these links, and the linked device list;
    - [DnsName]: the names of generated objects;
    - [Device], [Footprint]: one GPU and its counters; a pod's lifecycle peak;
    - [NodeInfo], [Accounting], [Affinity]: a node built from its annotations
      and its pods, the accounting of pods, the elections of a gang's domain;
    - [Client]: the patches that move a pod through its phases, the pod cache.

    The allocator ([src/pkg/device/allocator]):
    - [Request], [Scoring], [SubsetSearch], [Numa], [Tiered], [Allocator]:
      one file per source file, the allocator in a state monad whose outcomes
      are a pod, a reason or an internal error;
    - [TieredSpec], [AllocatorSpec], [Placement], [NodeBuild], [EndToEnd],
      [DryRun]: what these functions guarantee, alone and composed.

    The scheduler extender ([src/pkg/scheduler]):
    - [Endpoint], [RemoteGpu] ([src/pkg/util/endpoint],
      [src/pkg/device/remotegpu]): the endpoints of remote GPU servers;
      [EndpointSpec]: what is published is what is read;
    - [NodeCheck], [Gate], [Batch], [Filter]: the filter verb with its node
      checks, capacity gate, parallel construction of candidates and commit;
      [FilterSpec]: its verdicts, dry runs, independence of scheduling;
    - [Bind]: the bind verb;
    - [Preempt]: the preempt verb; [PreemptSpec]: its victims make room and
      are the shortest acceptable choice;
    - [Commit]: what a filter call adds to the pod cache; [Cluster]: the
      extender as a step relation over the clock and the pods.

    Admission ([src/pkg/webhook], [src/pkg/claimresolve]):
    - [Admission], [AdmissionSpec]: the mutating webhook for pods;
    - [Dra]: resource claims, vGPU requests and how they are built;
    - [ClaimShare], [ClaimShareSpec]: which containers of a pod may share a
      vGPU request; [Validate], [ValidateSpec]: the validating webhook for
      pods and the claims it creates;
    - [ClaimGuard], [ClaimGuardSpec]: allocated claims, the pods that hold
      them, and the webhook on claims;
    - [Partitions], [PartitionsSpec]: the parts of a claim that containers
      share, found by a depth-first search.

    The node ([src/pkg/deviceplugin/vgpu], [src/pkg/kubeletplugin],
    [src/pkg/device/manager]):
    - [Plugin]: preferred allocation;
    - [TopologyDomain], [DomainSpec]: the topology the device plugin publishes
      and the interconnect domains the kubelet plugin publishes.

    [DemoNode], [Demos], [ClusterDemo], [PreemptDemo] and the [...Demo]
    modules hold concrete inputs and the witnesses: theorems with hypotheses
    are applied to them.

    ** How the model corresponds to the code

    A Go function is a Rocq function of the same name; a method on a struct
    that is mutated returns the new value; loops are folds or structural
    recursion over what the loop ranges over, and a loop body is a definition
    of its own when it is more than a line.  Loops without such a bound carry
    fuel: [uf_find] as many steps as there are elements, which is enough since
    every step moves strictly up a forest, the enumeration of combinations
    one step per combination, and [walk] one step per edge end, since a node
    pushes its neighbours once; lemmas show that the fuel is never exhausted.
    [int] and [int64] are integers with [wrap64] at every operation that can
    overflow; float64 is IEEE binary64.  A Go map is a [gmap] read through
    [range], which permutes it arbitrarily.  A panic is a value
    ([ErrPanic], [Broken], [ErrCrash]).

    Code outside the repository is a parameter: the JSON decoders of node
    annotations ([NodeDecoders]), the clock and the domain of the annotation
    keys ([Env]), label selectors and taint matching ([KubeLib]), URL and
    address parsing ([EndpointLib]), the remote-agent ([AgentLib]), the API server ([ApiServer], [BindApi],
    [ResourceApi], [ClaimWriter]), helpers of the Kubernetes libraries
    ([KubeletTypes], [PdbLister], [PodHelpers], [ValidateLib], [DraLib]), the
    configuration types of the driver ([ConfigLib]), the driver library
    ([Nvml]) and the completion order of goroutines ([Goroutines]).

    ** What the theorems show

    - Allocation: an accepted pod fits on every GPU together with what was
      already reserved, its annotation reads back as the chosen claims, type,
      uuid and strict topology constraints hold, and a dry run answers what
      the real call would ([EndToEnd], [DryRun]).
    - Cluster: on fixed nodes, in every state reachable by filter and bind
      calls, admission, pods leaving, time passing and updates that do not
      revive a released allocation, the pods that count fit on every GPU
      ([Cluster]); an update of the scheduling condition can revive one
      ([Demos.released_then_revived]).
    - Filter: its verdicts are the allocator's, the capacity gate rejects no
      node the allocator would accept, the outcome does not depend on how the
      goroutines are scheduled, and a live call picks the first node a dry run
      reports ([Gate], [FilterSpec]).
    - Accounting: counters equal the reservations of the pods that count;
      snapshots restore; aggregates are sums and maxima ([Accounting],
      [NodeBuild], [Footprint]).
    - Topology: components are reachability, uniformity is equal link
      strength, the tier walk stops at the tightest tier, the subset search is
      optimal ([Topology], [Uniform], [TieredSpec], [SubsetSearch]).
    - Preemption: refined victims are unprotected, evicting them makes room,
      and no shorter choice in the order of preference would ([PreemptSpec]).
    - Admission: the defaults are a normal form, an admitted pod holds no
      device, conversion to claims keeps every amount, creating claims is all
      or nothing, and containers that share a vGPU request, in one pod or
      across the pods of a claim, are never alive together
      ([AdmissionSpec], [ValidateSpec], [ClaimShareSpec], [ClaimGuardSpec]).
    - Claims on a node: partitions are connected parts ([PartitionsSpec]);
      published domains are the extender's components ([DomainSpec]).
    - Protocol: codec round trip, published endpoints, phases of a pod,
      binding only under a current pre-allocation, preferred allocation
      following the pre-allocation ([Claims], [EndpointSpec], [Client],
      [Bind], [Plugin]).

    ** Not modelled

    Log lines and Prometheus metrics (apart from recorded outcomes), CUDA
    calls and the driver library itself, gRPC and HTTP servers, files and
    shared memory, informers and leader election, the preparation of devices
    by the kubelet plugin, the remote agent and the commands: input and output
    around the decisions modelled here.  The webhooks for Volcano jobs and
    host names and the rescheduling controller are left out as well. *)

From stdpp Require Import base list gmap strings sorting.
From Stdlib Require Import ZArith Lia.

(** ** Results of fallible code

    A Go function returning [(T, error)] becomes a function returning
    [result E T]; every component has its own error type [E]. *)

Inductive result (E A : Type) : Type :=
| Ok (a : A)
| Fail (e : E).
Arguments Ok {E A} _.
Arguments Fail {E A} _.

Definition rbind {E A B} (r : result E A) (k : A → result E B) : result E B :=
  match r with
  | Ok a => k a
  | Fail e => Fail e
  end.

Declare Scope go_scope.
Delimit Scope go_scope with go.
Notation "'let*' x ':=' r 'in' k" := (rbind r (λ x, k))
  (at level 10, x binder, r at level 100, k at level 200) : go_scope.
Open Scope go_scope.

(** [for _, x := range l { y, err := f(x); if err != nil { return err }; out = append(out, y) }] *)
Fixpoint rmap {E A B} (f : A → result E B) (l : list A) : result E (list B) :=
  match l with
  | [] => Ok []
  | x :: l' => let* y := f x in let* ys := rmap f l' in Ok (y :: ys)
  end.

Lemma rmap_inv {E A B} (f : A → result E B) l bs : rmap f l = Ok bs → Forall2 (λ a b, f a = Ok b) l bs.
Proof.
  revert bs. induction l as [|a l IH]; intros bs; simpl; [by intros [= <-]|].
  destruct (f a) as [b|e] eqn:E1; [|done]. simpl. destruct (rmap f l) as [bs'|e] eqn:E2; [|done]. simpl. intros [= <-].
  constructor; auto.
Qed.

Lemma rmap_total {E A B} (f : A → result E B) l : (∀ a, a ∈ l → ∃ b, f a = Ok b) → ∃ bs, rmap f l = Ok bs.
Proof.
  intros Hf. induction l as [|a l IH]; simpl; [eauto|]. destruct (Hf a) as [b ->]; [by left|]. simpl.
  destruct IH as [bs ->]; [|simpl; eauto]. intros a' Ha. apply Hf. by right.
Qed.

Lemma rmap_ok {E A B} (f : A → result E B) (g : A → B) l :
  Forall (λ x, f x = Ok (g x)) l → rmap f l = Ok (g <$> l).
Proof. induction 1 as [|x l Hx _ IH]; [done|]. simpl. rewrite Hx. simpl. by rewrite IH. Qed.

(** ** 64-bit machine integers

    Go's [int64] and, on the supported 64-bit platforms, [int]: mathematical
    integers with two's-complement wrap-around on every arithmetic operation
    that can leave the range. *)

Open Scope Z_scope.

Definition int64_min : Z := - 2 ^ 63.
Definition int64_max : Z := 2 ^ 63 - 1.
Definition in64 (z : Z) : Prop := int64_min ≤ z ≤ int64_max.
#[export] Instance in64_dec z : Decision (in64 z) := _.

Definition wrap64 (z : Z) : Z := (z + 2 ^ 63) mod 2 ^ 64 - 2 ^ 63.

Notation "a +w b" := (wrap64 (a + b)) (at level 50, left associativity) : go_scope.
Notation "a -w b" := (wrap64 (a - b)) (at level 50, left associativity) : go_scope.
Notation "a *w b" := (wrap64 (a * b)) (at level 40, left associativity) : go_scope.

Lemma wrap64_id z : in64 z → wrap64 z = z.
Proof.
  unfold in64, int64_min, int64_max, wrap64. intros H.
  rewrite Z.mod_small; lia.
Qed.

Lemma wrap64_in64 z : in64 (wrap64 z).
Proof.
  unfold in64, int64_min, int64_max, wrap64.
  pose proof (Z.mod_pos_bound (z + 2 ^ 63) (2 ^ 64) ltac:(lia)). lia.
Qed.

(** Wrapping additions can be performed in any order: wrap-around is
    arithmetic modulo [2^64]. *)
Lemma wrap64_add_l a b : wrap64 (wrap64 a + b) = wrap64 (a + b).
Proof.
  unfold wrap64.
  replace ((a + 2 ^ 63) mod 2 ^ 64 - 2 ^ 63 + b + 2 ^ 63)
    with ((a + 2 ^ 63) mod 2 ^ 64 + b) by lia.
  rewrite Z.add_mod_idemp_l by lia. do 2 f_equal. lia.
Qed.

Lemma wrap64_add_r a b : wrap64 (a + wrap64 b) = wrap64 (a + b).
Proof. by rewrite Z.add_comm, wrap64_add_l, Z.add_comm. Qed.

#[global] Create Rewrite HintDb go64.
#[export] Hint Rewrite wrap64_add_l wrap64_add_r : go64.

(** Discharges the range conditions of [wrap64_id]. *)
Ltac solve_in64 := unfold in64, int64_min, int64_max in *; lia.

(** Removes every wrap whose argument is provably in range. *)
Ltac unwrap64 := repeat (rewrite wrap64_id by solve_in64).
Ltac unwrap64_in H := repeat (rewrite wrap64_id in H by solve_in64).

(** ** Sums and maxima of lists *)

Definition Zsum (l : list Z) : Z := foldr Z.add 0 l.
Definition Zmax0 (l : list Z) : Z := foldr Z.max 0 l.

Lemma Zsum_cons x l : Zsum (x :: l) = x + Zsum l.
Proof. done. Qed.

Lemma Zsum_app l1 l2 : Zsum (l1 ++ l2) = Zsum l1 + Zsum l2.
Proof. unfold Zsum. induction l1 as [|x l1 IH]; simpl; [done|]. rewrite IH. lia. Qed.

Lemma Zsum_snoc {A} (f : A → Z) l x : Zsum (f <$> l ++ [x]) = Zsum (f <$> l) + f x.
Proof. rewrite fmap_app, Zsum_app. cbn. lia. Qed.

Lemma Zsum_perm l1 l2 : l1 ≡ₚ l2 → Zsum l1 = Zsum l2.
Proof. unfold Zsum. induction 1; simpl; lia. Qed.

Lemma Zsum_nonneg l : Forall (λ z, 0 ≤ z) l → 0 ≤ Zsum l.
Proof. unfold Zsum. induction 1; simpl; lia. Qed.

Lemma Zsum_fmap_add {A} (f g : A → Z) l : Zsum ((λ x, f x + g x) <$> l) = Zsum (f <$> l) + Zsum (g <$> l).
Proof. induction l as [|x l IH]; [done|]. rewrite !fmap_cons, !Zsum_cons. lia. Qed.

Lemma Zsum_fmap_le {A} (f g : A → Z) l :
  (∀ x, x ∈ l → f x ≤ g x) → Zsum (f <$> l) ≤ Zsum (g <$> l).
Proof.
  intros H. induction l as [|x l IH]; [done|]. rewrite !fmap_cons, !Zsum_cons.
  specialize (H x ltac:(left)) as Hx. assert (∀ y, y ∈ l → f y ≤ g y) by (intros; apply H; by right).
  specialize (IH ltac:(done)). lia.
Qed.

Lemma Zsum_elem_le {A} (f : A → Z) l x : (∀ y, y ∈ l → 0 ≤ f y) → x ∈ l → f x ≤ Zsum (f <$> l).
Proof.
  intros H Hx. apply list_elem_of_split in Hx as (l1 & l2 & ->).
  rewrite fmap_app, Zsum_app, fmap_cons, Zsum_cons.
  assert (0 ≤ Zsum (f <$> l1)) by (apply Zsum_nonneg, Forall_fmap, Forall_forall; set_solver).
  assert (0 ≤ Zsum (f <$> l2)) by (apply Zsum_nonneg, Forall_fmap, Forall_forall; set_solver).
  lia.
Qed.

Lemma Zsum_swap {A B} (f : A → B → Z) (l : list A) (k : list B) :
  Zsum ((λ a, Zsum (f a <$> k)) <$> l) = Zsum ((λ b, Zsum ((λ a, f a b) <$> l)) <$> k).
Proof.
  induction l as [|a l IH].
  - simpl. induction k as [|b k IHk]; [done|]. rewrite fmap_cons, Zsum_cons. rewrite <- IHk. done.
  - rewrite fmap_cons, Zsum_cons, IH, <- Zsum_fmap_add. f_equal.
Qed.

Lemma Zsum_Forall2_le {A B} (f : A → Z) (g : B → Z) l k :
  Forall2 (λ a b, f a ≤ g b) l k → Zsum (f <$> l) ≤ Zsum (g <$> k).
Proof. induction 1; [done|]. rewrite !fmap_cons, !Zsum_cons. lia. Qed.

Lemma Zsum_filter_split {A} (P : A → Prop) `{!∀ x, Decision (P x)} (f : A → Z) l :
  Zsum (f <$> l) = Zsum (f <$> filter P l) + Zsum (f <$> filter (λ x, ¬ P x) l).
Proof.
  induction l as [|x l IH]; [done|]. rewrite !filter_cons, fmap_cons, Zsum_cons.
  destruct (decide (P x)) as [HP|HP].
  - rewrite (decide_False (P := ¬ P x)) by tauto. rewrite fmap_cons, Zsum_cons. lia.
  - rewrite (decide_True (P := ¬ P x)) by done. rewrite fmap_cons, Zsum_cons. lia.
Qed.

Lemma Zmax0_nonneg l : 0 ≤ Zmax0 l.
Proof. unfold Zmax0. induction l; simpl; lia. Qed.

Lemma Zmax0_ge l x : x ∈ l → x ≤ Zmax0 l.
Proof. unfold Zmax0. induction 1; simpl; lia. Qed.

Lemma Zmax0_le l b : 0 ≤ b → (∀ x, x ∈ l → x ≤ b) → Zmax0 l ≤ b.
Proof.
  unfold Zmax0. intros Hb H. induction l as [|x l IH]; simpl; [done|].
  specialize (H x ltac:(left)) as Hx. assert (∀ y, y ∈ l → y ≤ b) by (intros; apply H; by right).
  specialize (IH ltac:(done)). lia.
Qed.

Lemma Zmax0_app l1 l2 : Zmax0 (l1 ++ l2) = Z.max (Zmax0 l1) (Zmax0 l2).
Proof.
  pose proof (Zmax0_nonneg l2). unfold Zmax0 in *. induction l1 as [|x l1 IH]; simpl; lia.
Qed.

Lemma Zmax0_snoc {A} (f : A → Z) l x : Zmax0 (f <$> l ++ [x]) = Z.max (Zmax0 (f <$> l)) (f x).
Proof.
  rewrite fmap_app. induction l as [|y l IH]; [cbn; lia|]. rewrite fmap_cons. cbn [app Zmax0 foldr] in *.
  change (foldr Z.max 0 ?l) with (Zmax0 l) in *. lia.
Qed.

Lemma Zmax0_perm l1 l2 : l1 ≡ₚ l2 → Zmax0 l1 = Zmax0 l2.
Proof. unfold Zmax0. induction 1; simpl; lia. Qed.

Lemma Zmax0_Forall2_le {A B} (f : A → Z) (g : B → Z) l k :
  Forall2 (λ a b, f a ≤ g b) l k → Zmax0 (f <$> l) ≤ Zmax0 (g <$> k).
Proof.
  induction 1 as [|a b l k Hab _ IH]; [done|]. rewrite !fmap_cons. cbn [Zmax0 foldr] in *.
  change (foldr Z.max 0 ?l) with (Zmax0 l) in *. lia.
Qed.

(** A sum of maxima is at least the maximum of the sums. *)
Lemma Zmax0_Zsum_le {A B} (f : A → B → Z) (l : list A) (k : list B) :
  (∀ a b, a ∈ l → b ∈ k → 0 ≤ f a b) →
  Zmax0 ((λ b, Zsum ((λ a, f a b) <$> l)) <$> k) ≤ Zsum ((λ a, Zmax0 (f a <$> k)) <$> l).
Proof.
  intros Hf. apply Zmax0_le.
  - apply Zsum_nonneg, Forall_fmap, Forall_forall. intros a Ha. apply Zmax0_nonneg.
  - intros z (b & -> & Hb)%list_elem_of_fmap. apply Zsum_fmap_le. intros a Ha. apply Zmax0_ge, list_elem_of_fmap_2, Hb.
Qed.

Lemma Zmax0_le_Zsum l : Forall (λ z, 0 ≤ z) l → Zmax0 l ≤ Zsum l.
Proof.
  intros Hl. apply Zmax0_le; [by apply Zsum_nonneg|]. intros z Hz. rewrite <- (list_fmap_id l).
  apply (Zsum_elem_le id); [|done]. by apply Forall_forall.
Qed.

(** ** Filters *)

Lemma Forall_filter {A} (Q P : A → Prop) `{!∀ x, Decision (P x)} l : Forall Q l → Forall Q (filter P l).
Proof. rewrite !Forall_forall. intros HQ a Ha. apply HQ. by apply list_elem_of_filter in Ha as [_ ?]. Qed.

Lemma filter_of_fmap {A B} (f : A → B) (P : B → Prop) `{!∀ x, Decision (P x)} (l : list A) :
  filter P (f <$> l) = f <$> filter (λ x, P (f x)) l.
Proof.
  induction l as [|x l IH]; [done|]. rewrite fmap_cons, !filter_cons, IH. by case_decide.
Qed.

Lemma filter_snoc {A} (P : A → Prop) `{!∀ x, Decision (P x)} l (x : A) :
  filter P (l ++ [x]) = filter P l ++ (if decide (P x) then [x] else []).
Proof. rewrite filter_app, filter_cons, filter_nil. by case_decide. Qed.

Lemma filter_all {A} (P : A → Prop) `{!∀ x, Decision (P x)} l : Forall P l → filter P l = l.
Proof. induction 1; [done|]. rewrite filter_cons_True by done. congruence. Qed.

Lemma Forall_fmap_id {A} (f : A → A) l : Forall (λ x, f x = x) l → f <$> l = l.
Proof. induction 1; [done|]. rewrite fmap_cons. congruence. Qed.

Lemma existsb_none {A} (f : A → bool) l : Forall (λ x, f x = false) l → existsb f l = false.
Proof. induction 1 as [|x l Hx _ IH]; [done|]. simpl. by rewrite Hx. Qed.

Lemma Forall2_impl_r {A B} (P Q : A → B → Prop) l k :
  Forall2 P l k → (∀ x y, y ∈ k → P x y → Q x y) → Forall2 Q l k.
Proof.
  induction 1 as [|x y l k Hxy _ IH]; intros Hpq; constructor; [by apply Hpq; [left|]|].
  apply IH. intros x' y' Hy. apply Hpq. by right.
Qed.

Lemma filter_none {A} (P : A → Prop) `{!∀ x, Decision (P x)} l : Forall (λ x, ¬ P x) l → filter P l = [].
Proof. induction 1; [done|]. by rewrite filter_cons_False. Qed.

Lemma filter_ext_in {A} (P Q : A → Prop) `{!∀ x, Decision (P x), !∀ x, Decision (Q x)} (l : list A) :
  (∀ x, x ∈ l → P x ↔ Q x) → filter P l = filter Q l.
Proof.
  induction l as [|x l IH]; intros HPQ; [done|]. rewrite !filter_cons.
  rewrite IH by (intros; apply HPQ; by right).
  specialize (HPQ x ltac:(left)). repeat case_decide; tauto.
Qed.

Lemma length_filter_or {A} (P Q R : A → Prop)
    `{!∀ x, Decision (P x), !∀ x, Decision (Q x), !∀ x, Decision (R x)} (l : list A) :
  (∀ x, x ∈ l → R x ↔ P x ∨ Q x) → (∀ x, x ∈ l → P x → Q x → False) →
  length (filter R l) = (length (filter P l) + length (filter Q l))%nat.
Proof.
  induction l as [|x l IH]; intros HR Hd; [done|]. rewrite !filter_cons.
  specialize (HR x ltac:(left)) as HRx. specialize (Hd x ltac:(left)) as Hdx.
  assert (length (filter R l) = (length (filter P l) + length (filter Q l))%nat) as E
    by (apply IH; intros; [apply HR|eapply Hd; [|done..]]; by right).
  repeat case_decide; simpl; try lia; exfalso; tauto.
Qed.

(** ** Pointwise relations *)

Lemma Forall2_filter {A B} (R : A → B → Prop) (P : A → Prop) (Q : B → Prop)
    `{!∀ a, Decision (P a), !∀ b, Decision (Q b)} l k :
  Forall2 (λ a b, R a b ∧ (P a ↔ Q b)) l k → Forall2 R (filter P l) (filter Q k).
Proof.
  induction 1 as [|a b l k [HR HPQ] _ IH]; [constructor|]. rewrite !filter_cons.
  destruct (decide (P a)) as [HP|HP].
  - rewrite decide_True by by apply HPQ. by constructor.
  - rewrite decide_False by by rewrite <- HPQ. done.
Qed.

Lemma Forall2_elem_of_r {A B} (R : A → B → Prop) l k y : Forall2 R l k → y ∈ k → ∃ x, x ∈ l ∧ R x y.
Proof.
  induction 1 as [|x y' l k Hxy _ IH]; [by intros ?%elem_of_nil|].
  intros [->|Hy]%elem_of_cons; [exists x; split; [by left|done]|].
  destruct (IH Hy) as (x' & Hx' & ?). exists x'. split; [by right|done].
Qed.

Lemma Forall2_impl_elem {A B} (R Q : A → B → Prop) l k :
  Forall2 R l k → (∀ x y, x ∈ l → y ∈ k → R x y → Q x y) → Forall2 Q l k.
Proof.
  induction 1 as [|x y l k Hxy _ IH]; intros HQ; constructor.
  - apply HQ; [by left|by left|done].
  - apply IH. intros x' y' Hx Hy. apply HQ; by right.
Qed.
