(* ===== verification/GoMap.v ===== *)
(** * Iterating a Go map

    [for k, v := range m] visits the entries of a map once each in an order
    the language leaves open.  [MapOrder] is such an order; the definitions
    that range over a map take it as an argument, so a theorem about them
    holds for every order. *)

From stdpp Require Import base list gmap strings.
From Stdlib Require Import ZArith.
From S2P Require Import Prelude.

Class MapOrder : Type := {
  range {A : Type} : gmap Z A → list (Z * A);
  range_str {A : Type} : gmap string A → list (string * A);
  range_perm {A} (m : gmap Z A) : range m ≡ₚ map_to_list m;
  range_str_perm {A} (m : gmap string A) : range_str m ≡ₚ map_to_list m
}.

(** The order of [map_to_list], for evaluation. *)
Definition canonical_order : MapOrder :=
  {| range _ m := map_to_list m; range_str _ m := map_to_list m;
     range_perm _ _ := reflexivity _; range_str_perm _ _ := reflexivity _ |}.

(** The reverse one, to exhibit order dependence. *)
Definition reversed_order : MapOrder :=
  {| range _ m := rev (map_to_list m); range_str _ m := rev (map_to_list m);
     range_perm _ _ := symmetry (Permutation_rev _); range_str_perm _ _ := symmetry (Permutation_rev _) |}.

Section range.
Context `{MapOrder} {A : Type}.
Implicit Types m : gmap Z A.
Implicit Types ms : gmap string A.

Lemma elem_of_range m k v : (k, v) ∈ range m ↔ m !! k = Some v.
Proof. by rewrite range_perm, elem_of_map_to_list. Qed.

Lemma elem_of_range_str ms k v : (k, v) ∈ range_str ms ↔ ms !! k = Some v.
Proof. by rewrite range_str_perm, elem_of_map_to_list. Qed.

Lemma NoDup_range_keys m : NoDup (range m).*1.
Proof. rewrite range_perm. apply NoDup_fst_map_to_list. Qed.

Lemma NoDup_range_str_keys ms : NoDup (range_str ms).*1.
Proof. rewrite range_str_perm. apply NoDup_fst_map_to_list. Qed.
End range.

(** A left fold whose steps commute does not depend on the order. *)
Lemma fold_left_perm {A B} (f : B → A → B) (l1 l2 : list A) b :
  (∀ b x y, f (f b x) y = f (f b y) x) → l1 ≡ₚ l2 → fold_left f l1 b = fold_left f l2 b.
Proof.
  intros Hf Hp. revert b. induction Hp as [|x l1 l2 _ IH|x y l|l1 l2 l3 _ IH1 _ IH2]; intros b; simpl.
  - done.
  - apply IH.
  - by rewrite Hf.
  - by rewrite IH1, IH2.
Qed.

(** Keyed folds: what a loop over a map leaves at one key of an accumulator,
    when the step for a key touches only that key. *)
Lemma fold_left_inv {A B} (P : B → Prop) (f : B → A → B) (l : list A) b :
  (∀ b x, P b → x ∈ l → P (f b x)) → P b → P (fold_left f l b).
Proof.
  revert b. induction l as [|x l IH]; intros b Hf Hb; simpl; [done|].
  apply IH; [|by apply Hf; [|left]]. intros b' y Hb' Hy. apply Hf; [done|by right].
Qed.
