(* ===== verification/GoSort.v ===== *)
(** * Go's [sort] package

    [sort.Slice], [sort.SliceStable] and [sort.Sort] take a boolean "less"
    function.  The stable sort has one possible result, which the insertion
    sort below computes.  The unstable sorts promise a sorted permutation;
    where the comparator separates every two elements of the slice that
    permutation is unique ([sort_slice_unique]), so the same function models
    them, whatever order the slice was filled in.

    [chain_less] is [sortPriority.Less] of
    [pkg/device/allocator/priority.go]: a list of comparators tried in turn. *)

From stdpp Require Import base list sorting.
From S2P Require Import Prelude.

Section sort.
Context {A : Type} (less : A → A → bool).

Fixpoint sort_insert (x : A) (l : list A) : list A :=
  match l with
  | [] => [x]
  | y :: l' => if less x y then x :: y :: l' else y :: sort_insert x l'
  end.

Definition sort_slice (l : list A) : list A :=
  fold_left (λ acc x, sort_insert x acc) l [].

(** [y] may precede [x] in a sorted slice. *)
Definition not_after (x y : A) : Prop := less y x = false.

Lemma sort_insert_perm x l : sort_insert x l ≡ₚ x :: l.
Proof.
  induction l as [|y l IH]; simpl; [done|].
  destruct (less x y); [done|]. rewrite IH. constructor.
Qed.

Lemma sort_fold_perm l acc : fold_left (λ acc x, sort_insert x acc) l acc ≡ₚ acc ++ l.
Proof.
  revert acc. induction l as [|x l IH]; intros acc; simpl; [by rewrite app_nil_r|].
  rewrite IH, sort_insert_perm. apply Permutation_middle.
Qed.

Lemma sort_slice_perm l : sort_slice l ≡ₚ l.
Proof. unfold sort_slice. by rewrite sort_fold_perm. Qed.

Lemma sort_slice_length l : length (sort_slice l) = length l.
Proof. by rewrite sort_slice_perm. Qed.

Lemma elem_of_sort_slice x l : x ∈ sort_slice l ↔ x ∈ l.
Proof. by rewrite sort_slice_perm. Qed.

Lemma NoDup_sort_slice l : NoDup l → NoDup (sort_slice l).
Proof. by rewrite sort_slice_perm. Qed.
End sort.

(** ** Strict weak orders on a set [P] of elements *)

Record StrictWeak {A} (P : A → Prop) (less : A → A → bool) : Prop := {
  sw_asym x y : P x → P y → less x y = true → less y x = false;
  sw_negtrans x y z : P x → P y → P z →
    less x y = false → less y z = false → less x z = false
}.

(** The comparator separates any two elements of [P]. *)
Definition separates {A} (P : A → Prop) (less : A → A → bool) : Prop :=
  ∀ x y, P x → P y → less x y = false → less y x = false → x = y.

Section sorted.
Context {A : Type} (P : A → Prop) (less : A → A → bool) (Hsw : StrictWeak P less).

Lemma sort_insert_sorted x l :
  P x → Forall P l → StronglySorted (not_after less) l →
  StronglySorted (not_after less) (sort_insert less x l).
Proof.
  intros Hx HP Hs. induction Hs as [|y l Hs IH Hy]; simpl.
  { repeat constructor. }
  inversion HP as [|?? Py HPl]; subst.
  destruct (less x y) eqn:Exy.
  - constructor; [by constructor|]. constructor.
    + by apply (sw_asym P less Hsw).
    + rewrite Forall_forall in *. intros z Hz. unfold not_after in *.
      eapply (sw_negtrans P less Hsw z y x); eauto.
      by apply (sw_asym P less Hsw).
  - constructor; [by apply IH|].
    rewrite Forall_forall in *. intros z Hz.
    rewrite sort_insert_perm in Hz. apply elem_of_cons in Hz as [->|Hz]; [done|auto].
Qed.

Lemma sort_slice_sorted l : Forall P l → StronglySorted (not_after less) (sort_slice less l).
Proof.
  intros HP. unfold sort_slice.
  assert (∀ acc, Forall P acc → StronglySorted (not_after less) acc →
    StronglySorted (not_after less) (fold_left (λ acc x, sort_insert less x acc) l acc)) as H;
    [|by apply H; constructor].
  induction HP as [|x l Hx _ IH]; intros acc Ha Hs; simpl; [done|].
  apply IH; [|by apply sort_insert_sorted].
  rewrite (sort_insert_perm less x acc). by constructor.
Qed.

(** A separating comparator makes the sorted slice unique: every sorted
    permutation of the input is the one computed here. *)
Lemma sorted_perm_unique l l' :
  separates P less → Forall P l →
  StronglySorted (not_after less) l' → l' ≡ₚ l → l' = sort_slice less l.
Proof.
  intros Hsep HP Hs Hp.
  apply (StronglySorted_unique_strong (not_after less)); [| |by apply sort_slice_sorted|].
  - intros x1 x2 H1 H2 ??. rewrite Hp in H1. rewrite elem_of_sort_slice in H2.
    rewrite Forall_forall in HP. apply Hsep; eauto.
  - done.
  - by rewrite sort_slice_perm.
Qed.

Lemma sort_slice_unique l1 l2 :
  separates P less → Forall P l1 → l1 ≡ₚ l2 → sort_slice less l1 = sort_slice less l2.
Proof.
  intros Hsep HP Hp. apply sorted_perm_unique; [done|by rewrite <- Hp| |].
  - by apply sort_slice_sorted.
  - by rewrite sort_slice_perm.
Qed.

(** Keeping the better of the two while ranging ends on an element nothing beats. *)
Lemma fold_best l b :
  Forall P (b :: l) →
  let r := fold_left (λ b x, if less x b then x else b) l b in
  r ∈ b :: l ∧ ∀ x, x ∈ b :: l → less x r = false.
Proof.
  revert b. induction l as [|y l IH]; intros b HP; simpl.
  - split; [by left|]. intros x ->%list_elem_of_singleton. apply Forall_cons in HP as [Hb _].
    destruct (less b b) eqn:E; [|done]. by rewrite (sw_asym _ _ Hsw b b Hb Hb E) in E.
  - apply Forall_cons in HP as [Hb [Hy Hl]%Forall_cons]. destruct (less y b) eqn:E.
    + destruct (IH y) as [Hin Hmin]; [by constructor|]. split; [by right|].
      intros x [->|Hx]%elem_of_cons; [|by apply Hmin].
      apply (sw_negtrans _ _ Hsw b y); [done|done| |by apply (sw_asym _ _ Hsw)|apply Hmin; by left].
      apply elem_of_cons in Hin as [->|Hin]; [done|]. rewrite Forall_forall in Hl. by apply Hl.
    + destruct (IH b) as [Hin Hmin]; [by constructor|].
      split; [apply elem_of_cons in Hin as [->|Hin]; [by left|do 2 right; done]|].
      intros x [->|[->|Hx]%elem_of_cons]%elem_of_cons; [apply Hmin; by left| |apply Hmin; by right].
      apply (sw_negtrans _ _ Hsw y b); [done|done| |done|apply Hmin; by left].
      apply elem_of_cons in Hin as [->|Hin]; [done|]. rewrite Forall_forall in Hl. by apply Hl.
Qed.
End sorted.

(** ** Chains of comparators *)

(** [sortPriority.Less]: all comparators but the last decide when they
    separate the two elements in either direction; the last one always does. *)
Fixpoint chain_less {A} (ls : list (A → A → bool)) (x y : A) : bool :=
  match ls with
  | [] => false
  | [l] => l x y
  | l :: ls' => if l x y then true else if l y x then false else chain_less ls' x y
  end.

Lemma chain_less_sw {A} (P : A → Prop) ls :
  Forall (StrictWeak P) ls → StrictWeak P (chain_less ls).
Proof.
  induction 1 as [|l ls Hl Hls IH]; [by constructor|].
  destruct ls as [|l2 ls]; [done|].
  assert (∀ x y, chain_less (l :: l2 :: ls) x y
    = if l x y then true else if l y x then false else chain_less (l2 :: ls) x y) as E by done.
  constructor.
  - intros x y Px Py. rewrite !E. destruct (l x y) eqn:Exy.
    + by rewrite (sw_asym P l Hl x y).
    + destruct (l y x); [done|]. by apply IH.
  - intros x y z Px Py Pz. rewrite !E.
    destruct (l x y) eqn:Exy; [done|]. destruct (l y z) eqn:Eyz; [done|].
    rewrite (sw_negtrans P l Hl x y z) by done.
    destruct (l z x) eqn:Ezx; [done|].
    rewrite (sw_negtrans P l Hl y z x), (sw_negtrans P l Hl z x y) by done.
    by apply IH.
Qed.

Lemma chain_less_separates {A} (P : A → Prop) ls l :
  l ∈ ls → Forall (StrictWeak P) ls → separates P l → separates P (chain_less ls).
Proof.
  intros Hin Hsw Hsep x y Px Py. revert Hin.
  induction Hsw as [|l1 ls Hl1 Hls IH]; [by inversion 1|].
  intros Hin. destruct ls as [|l2 ls].
  { apply list_elem_of_singleton in Hin as <-. simpl. by apply Hsep. }
  change (chain_less (l1 :: l2 :: ls) x y)
    with (if l1 x y then true else if l1 y x then false else chain_less (l2 :: ls) x y).
  change (chain_less (l1 :: l2 :: ls) y x)
    with (if l1 y x then true else if l1 x y then false else chain_less (l2 :: ls) y x).
  destruct (l1 x y) eqn:E1; [done|]. destruct (l1 y x) eqn:E2; [done|].
  apply elem_of_cons in Hin as [->|Hin]; [intros; by apply Hsep|by apply IH].
Qed.

(** Comparators that order by an integer key. *)
Definition by_key {A} (f : A → Z) (x y : A) : bool := bool_decide (f x < f y)%Z.

Lemma by_key_sw {A} (P : A → Prop) (f : A → Z) : StrictWeak P (by_key f).
Proof.
  unfold by_key. constructor; intros *; rewrite ?bool_decide_eq_true, ?bool_decide_eq_false; lia.
Qed.

Lemma by_key_separates {A} (P : A → Prop) (f : A → Z) :
  (∀ x y, P x → P y → f x = f y → x = y) → separates P (by_key f).
Proof.
  unfold by_key. intros H x y Px Py. rewrite !bool_decide_eq_false. intros. apply H; auto. lia.
Qed.
