(* ===== verification/GoStrings.v ===== *)
(** * Go's [strings] and [strconv] packages

    Go strings are byte strings, as Rocq's [string] is.  [ToLower], [ToUpper]
    and [TrimSpace] are modelled on ASCII: a byte above 127 is left as it is.
    Decimal numbers go through the Standard Library's [Decimal] notation, whose
    round trip with [Z] is proved there. *)

From stdpp Require Import base list strings.
From Stdlib Require Import ZArith DecimalString DecimalZ DecimalN Ascii.
From S2P Require Import Prelude GoSort.

#[global] Arguments String.append : simpl nomatch.

(** ** Character-level helpers *)

Fixpoint str_forall (p : ascii → bool) (s : string) : bool :=
  match s with
  | EmptyString => true
  | String c s' => p c && str_forall p s'
  end.

Fixpoint str_map (f : ascii → ascii) (s : string) : string :=
  match s with
  | EmptyString => EmptyString
  | String c s' => String (f c) (str_map f s')
  end.

Definition char_eqb (a b : ascii) : bool := Ascii.eqb a b.

(** No byte of [s] is [c]. *)
Definition free_of (c : ascii) (s : string) : bool := str_forall (λ x, negb (char_eqb x c)) s.

(** ** [strings.ReplaceAll(s, c, "")] for a one-byte [c] *)
Fixpoint remove_char (c : ascii) (s : string) : string :=
  match s with
  | EmptyString => EmptyString
  | String x s' => if char_eqb x c then remove_char c s' else String x (remove_char c s')
  end.

(** ** [strings.Index(s, c)] for a one-byte [c]; [None] is Go's -1 *)
Fixpoint index_char (c : ascii) (s : string) : option nat :=
  match s with
  | EmptyString => None
  | String x s' => if char_eqb x c then Some 0%nat else S <$> index_char c s'
  end.

(** ** Slicing: [s[:n]] and [s[n:]] *)
Fixpoint str_take (n : nat) (s : string) : string :=
  match n, s with
  | S n', String x s' => String x (str_take n' s')
  | _, _ => EmptyString
  end.

Fixpoint str_drop (n : nat) (s : string) : string :=
  match n, s with
  | S n', String _ s' => str_drop n' s'
  | 0%nat, _ => s
  | _, EmptyString => EmptyString
  end.

(** ** [strings.Split(s, c)] for a one-byte [c] *)
Fixpoint split_char (c : ascii) (s : string) : list string :=
  match s with
  | EmptyString => [EmptyString]
  | String x s' =>
      if char_eqb x c then EmptyString :: split_char c s'
      else match split_char c s' with
           | [] => [String x EmptyString]
           | w :: ws => String x w :: ws
           end
  end.

(** ** [strings.Join(l, c)] for a one-byte [c] *)
Fixpoint join_char (c : ascii) (l : list string) : string :=
  match l with
  | [] => EmptyString
  | [w] => w
  | w :: l' => w +:+ String c (join_char c l')
  end.

(** ** [strings.ToLower], [strings.ToUpper], [strings.TrimSpace], [strings.EqualFold] *)
Definition lower_char (a : ascii) : ascii :=
  let n := N_of_ascii a in
  if bool_decide (65 ≤ n ≤ 90)%N then ascii_of_N (n + 32) else a.

Definition upper_char (a : ascii) : ascii :=
  let n := N_of_ascii a in
  if bool_decide (97 ≤ n ≤ 122)%N then ascii_of_N (n - 32) else a.

Definition ToLower : string → string := str_map lower_char.
Definition ToUpper : string → string := str_map upper_char.

Definition is_space (a : ascii) : bool :=
  let n := N_of_ascii a in bool_decide (n = 32 ∨ 9 ≤ n ≤ 13)%N.

(** [s] without its leading, without its trailing bytes that satisfy [p]. *)
Fixpoint trim_left (p : ascii → bool) (s : string) : string :=
  match s with
  | EmptyString => EmptyString
  | String c s' => if p c then trim_left p s' else s
  end.

Fixpoint trim_right (p : ascii → bool) (s : string) : string :=
  match s with
  | EmptyString => EmptyString
  | String c s' =>
      match trim_right p s' with
      | EmptyString => if p c then EmptyString else String c EmptyString
      | t => String c t
      end
  end.

Definition TrimSpace (s : string) : string := trim_right is_space (trim_left is_space s).

Definition EqualFold (a b : string) : bool := bool_decide (ToLower a = ToLower b).

(** ** [strings.HasPrefix], [strings.HasSuffix], [strings.Contains], [strings.Cut] *)
Fixpoint HasPrefix (s prefix : string) : bool :=
  match prefix, s with
  | EmptyString, _ => true
  | String p prefix', String c s' => char_eqb c p && HasPrefix s' prefix'
  | _, _ => false
  end.

Fixpoint Contains (s sub : string) : bool :=
  HasPrefix s sub || match s with EmptyString => false | String _ s' => Contains s' sub end.

Fixpoint HasSuffix (s suffix : string) : bool :=
  bool_decide (s = suffix) || match s with EmptyString => false | String _ s' => HasSuffix s' suffix end.

(** [strings.Cut(s, c)] for a one-byte [c]: the parts around the first [c]. *)
Definition cut_char (c : ascii) (s : string) : string * string * bool :=
  match index_char c s with
  | Some i => (str_take i s, str_drop (S i) s, true)
  | None => (s, EmptyString, false)
  end.

(** ** [strconv.Itoa] / [%d], [strconv.ParseInt(s, 10, 64)] and [strconv.Atoi] *)
Definition Itoa (z : Z) : string := NilZero.string_of_int (Z.to_int z).

(** The unsigned digits of a [ParseInt] argument: at least one decimal digit
    and nothing else. *)
Definition parse_digits (s : string) : option Z :=
  match s with
  | EmptyString => None
  | _ => (λ d, Z.of_N (N.of_uint d)) <$> NilEmpty.uint_of_string s
  end.

(** [None] stands for a syntax or a range error. *)
Definition ParseInt (s : string) : option Z :=
  match s with
  | EmptyString => None
  | String c rest =>
      if char_eqb c "+" then n ← parse_digits rest; guard (n ≤ int64_max)%Z;; Some n
      else if char_eqb c "-" then n ← parse_digits rest; guard (n ≤ 2 ^ 63)%Z;; Some (- n)%Z
      else n ← parse_digits s; guard (n ≤ int64_max)%Z;; Some n
  end.

Definition Atoi : string → option Z := ParseInt.

(** ** Lemmas: predicates on every byte *)

Lemma str_forall_app p a b : str_forall p (a +:+ b) = str_forall p a && str_forall p b.
Proof. induction a as [|c a IH]; simpl; [done|]. by rewrite IH, andb_assoc. Qed.

Lemma str_forall_impl (p q : ascii → bool) s :
  (∀ c, p c = true → q c = true) → str_forall p s = true → str_forall q s = true.
Proof.
  intros Hpq. induction s as [|c s IH]; simpl; [done|].
  rewrite !andb_true_iff. intros [? ?]; auto.
Qed.

Lemma free_of_cons c x s : free_of c (String x s) = true ↔ x ≠ c ∧ free_of c s = true.
Proof.
  unfold free_of. simpl. rewrite andb_true_iff, negb_true_iff. unfold char_eqb.
  by rewrite Ascii.eqb_neq.
Qed.

Lemma free_of_app c a b : free_of c (a +:+ b) = true ↔ free_of c a = true ∧ free_of c b = true.
Proof. unfold free_of. by rewrite str_forall_app, andb_true_iff. Qed.

Lemma char_eqb_refl c : char_eqb c c = true.
Proof. apply Ascii.eqb_refl. Qed.

Lemma char_eqb_ne a b : a ≠ b → char_eqb a b = false.
Proof. apply Ascii.eqb_neq. Qed.

Create HintDb gostr.
#[export] Hint Resolve char_eqb_refl char_eqb_ne : gostr.

(** Concatenation is associative and has the empty string as unit. *)
Lemma str_app_assoc (a b c : string) : (a +:+ b) +:+ c = a +:+ (b +:+ c).
Proof. induction a as [|x a IH]; simpl; [done|]. by rewrite IH. Qed.

Lemma str_app_nil (a : string) : a +:+ "" = a.
Proof. induction a as [|x a IH]; simpl; [done|]. by rewrite IH. Qed.

Lemma str_length_app (a b : string) :
  String.length (a +:+ b) = (String.length a + String.length b)%nat.
Proof. induction a as [|x a IH]; simpl; [done|]. by rewrite IH. Qed.

(** ** Lemmas: removing, splitting, joining *)

Lemma str_app_inj_l (p a b : string) : p +:+ a = p +:+ b → a = b.
Proof. induction p as [|c p IH]; simpl; [done|]. intros [= E]. by apply IH. Qed.

Lemma str_app_inj_r (a b a' b' : string) :
  String.length b = String.length b' → a +:+ b = a' +:+ b' → b = b'.
Proof.
  intros Hl. revert a'. induction a as [|c a IH]; intros [|c' a'] E; simpl in E.
  - done.
  - subst b. simpl in Hl. rewrite str_length_app in Hl. lia.
  - subst b'. simpl in Hl. rewrite str_length_app in Hl. lia.
  - injection E as _ E. by eapply IH.
Qed.

Lemma remove_char_free c s : free_of c s = true → remove_char c s = s.
Proof.
  induction s as [|x s IH]; [done|]. rewrite free_of_cons. intros [Hx Hs]. simpl.
  rewrite char_eqb_ne by done. by rewrite IH.
Qed.

Lemma index_char_app c a b : free_of c a = true →
  index_char c (a +:+ String c b) = Some (String.length a).
Proof.
  induction a as [|x a IH]; simpl; [by rewrite char_eqb_refl|].
  rewrite free_of_cons. intros [Hx Ha]. rewrite char_eqb_ne by done. by rewrite IH.
Qed.

Lemma index_char_free c a : free_of c a = true → index_char c a = None.
Proof.
  induction a as [|x a IH]; simpl; [done|].
  rewrite free_of_cons. intros [Hx Ha]. rewrite char_eqb_ne by done. by rewrite IH.
Qed.

Lemma str_take_app a b : str_take (String.length a) (a +:+ b) = a.
Proof. induction a as [|x a IH]; simpl; [by destruct b|]. by rewrite IH. Qed.

Lemma str_drop_app a b : str_drop (String.length a) (a +:+ b) = b.
Proof. induction a as [|x a IH]; simpl; [by destruct b|]. by rewrite IH. Qed.

Lemma split_char_ne c s : split_char c s ≠ [].
Proof. destruct s as [|x s]; simpl; [done|]. destruct (char_eqb x c); [done|]. by destruct (split_char c s). Qed.

Lemma split_char_free c s : free_of c s = true → split_char c s = [s].
Proof.
  induction s as [|x s IH]; simpl; [done|].
  rewrite free_of_cons. intros [Hx Hs]. rewrite char_eqb_ne by done. by rewrite IH.
Qed.

Lemma split_char_app c a b : free_of c a = true →
  split_char c (a +:+ String c b) = a :: split_char c b.
Proof.
  induction a as [|x a IH]; simpl; [by rewrite char_eqb_refl|].
  rewrite free_of_cons. intros [Hx Ha]. rewrite char_eqb_ne by done. by rewrite IH.
Qed.

(** Splitting undoes joining when no word contains the separator. *)
Lemma split_join c l : l ≠ [] → Forall (λ w, free_of c w = true) l →
  split_char c (join_char c l) = l.
Proof.
  intros Hne Hl. induction Hl as [|w l Hw Hl IH]; [done|].
  destruct l as [|w2 l]; [by apply split_char_free|].
  change (join_char c (w :: w2 :: l)) with (w +:+ String c (join_char c (w2 :: l))).
  by rewrite split_char_app, IH.
Qed.

Lemma join_free (p : ascii → bool) c l :
  p c = true → Forall (λ w, str_forall p w = true) l → str_forall p (join_char c l) = true.
Proof.
  intros Hc Hl. induction Hl as [|w l Hw Hl IH]; [done|].
  destruct l as [|w2 l]; [done|].
  change (join_char c (w :: w2 :: l)) with (w +:+ String c (join_char c (w2 :: l))).
  rewrite str_forall_app. simpl str_forall. simpl in IH. by rewrite Hw, Hc, IH.
Qed.

(** ** Lemmas: decimal numbers *)

Definition is_digit (c : ascii) : bool :=
  let n := N_of_ascii c in bool_decide (48 ≤ n ≤ 57)%N.

(** The bytes [%d] can print. *)
Definition is_num_char (c : ascii) : bool := is_digit c || char_eqb c "-".

Lemma string_of_uint_digits d : str_forall is_digit (NilEmpty.string_of_uint d) = true.
Proof. induction d; simpl; try done. Qed.

Lemma Itoa_nonneg (n : N) :
  Itoa (Z.of_N n) = NilEmpty.string_of_uint (N.to_uint n) ∧ N.to_uint n ≠ Decimal.Nil.
Proof.
  unfold Itoa. destruct n as [|p]; [done|]. simpl.
  assert (Pos.to_uint p ≠ Decimal.Nil) as Hne by apply DecimalPos.Unsigned.to_uint_nonnil.
  split; [|done]. by destruct (Pos.to_uint p).
Qed.

Lemma Itoa_neg p : Itoa (Z.neg p) = String "-" (Itoa (Z.pos p)).
Proof. done. Qed.

Lemma parse_digits_Itoa n : parse_digits (Itoa (Z.of_N n)) = Some (Z.of_N n).
Proof.
  destruct (Itoa_nonneg n) as [-> Hne]. unfold parse_digits.
  destruct (NilEmpty.string_of_uint (N.to_uint n)) as [|c s] eqn:E.
  { by destruct (N.to_uint n). }
  rewrite <- E, NilEmpty.usu. simpl. by rewrite DecimalN.Unsigned.of_to.
Qed.

Lemma Itoa_head_digit n : ∃ c s, Itoa (Z.of_N n) = String c s ∧ is_digit c = true.
Proof.
  destruct (Itoa_nonneg n) as [-> Hne].
  pose proof (string_of_uint_digits (N.to_uint n)) as Hd.
  destruct (NilEmpty.string_of_uint (N.to_uint n)) as [|c s] eqn:E.
  { by destruct (N.to_uint n). }
  simpl in Hd. apply andb_true_iff in Hd as [??]. eauto.
Qed.

Lemma Itoa_chars z : str_forall is_num_char (Itoa z) = true.
Proof.
  assert (∀ n, str_forall is_num_char (Itoa (Z.of_N n)) = true) as Hn.
  { intros n. destruct (Itoa_nonneg n) as [-> _].
    eapply str_forall_impl; [|apply string_of_uint_digits].
    intros c Hc. unfold is_num_char. by rewrite Hc. }
  destruct z as [|p|p]; [apply (Hn 0%N)|apply (Hn (N.pos p))|].
  rewrite Itoa_neg. simpl. apply (Hn (N.pos p)).
Qed.

Lemma Itoa_free c z : is_num_char c = false → free_of c (Itoa z) = true.
Proof.
  intros Hc. eapply str_forall_impl; [|apply Itoa_chars].
  intros x Hx. apply negb_true_iff, char_eqb_ne. congruence.
Qed.

(** [strconv.ParseInt] reads back what [%d] prints, for every [int64]. *)
Lemma ParseInt_Itoa z : in64 z → ParseInt (Itoa z) = Some z.
Proof.
  intros Hz.
  assert (∀ n, Z.of_N n ≤ int64_max → ParseInt (Itoa (Z.of_N n)) = Some (Z.of_N n))%Z as Hn.
  { intros n Hle. destruct (Itoa_head_digit n) as (c & s & E & Hc).
    pose proof (parse_digits_Itoa n) as Hp. rewrite E in *. unfold ParseInt.
    rewrite !char_eqb_ne by (intros ->; discriminate Hc).
    rewrite Hp. simpl. by rewrite option_guard_True. }
  destruct z as [|p|p].
  - apply (Hn 0%N). done.
  - apply (Hn (N.pos p)). solve_in64.
  - rewrite Itoa_neg. unfold ParseInt. simpl.
    change (Itoa (Z.pos p)) with (Itoa (Z.of_N (N.pos p))).
    rewrite parse_digits_Itoa. simpl. rewrite option_guard_True; [done|solve_in64].
Qed.

(** ** The order of strings *)

(** [a < b]: byte-wise lexicographic. *)
Fixpoint str_lt (a b : string) : bool :=
  match a, b with
  | _, EmptyString => false
  | EmptyString, String _ _ => true
  | String x a', String y b' =>
      if N.ltb (N_of_ascii x) (N_of_ascii y) then true
      else if N.ltb (N_of_ascii y) (N_of_ascii x) then false
      else str_lt a' b'
  end.

Definition by_str {A} (f : A → string) (x y : A) : bool := str_lt (f x) (f y).

Lemma str_lt_total a b : str_lt a b = false → str_lt b a = false → a = b.
Proof.
  revert b. induction a as [|x a IH]; intros [|y b]; simpl; try done.
  destruct (N.ltb_spec (N_of_ascii x) (N_of_ascii y)); [done|].
  destruct (N.ltb_spec (N_of_ascii y) (N_of_ascii x)); [done|].
  intros H1 H2. f_equal; [|by apply IH].
  assert (N_of_ascii x = N_of_ascii y) as E by lia.
  by rewrite <- (ascii_N_embedding x), <- (ascii_N_embedding y), E.
Qed.

Lemma str_lt_asym a b : str_lt a b = true → str_lt b a = false.
Proof.
  revert b. induction a as [|x a IH]; intros [|y b]; simpl; try done.
  destruct (N.ltb_spec (N_of_ascii x) (N_of_ascii y)), (N.ltb_spec (N_of_ascii y) (N_of_ascii x));
    try done; try lia. apply IH.
Qed.

Lemma str_lt_negtrans a b c : str_lt a b = false → str_lt b c = false → str_lt a c = false.
Proof.
  revert b c. induction a as [|x a IH]; intros [|y b] [|z c]; simpl; try done.
  destruct (N.ltb_spec (N_of_ascii x) (N_of_ascii y)), (N.ltb_spec (N_of_ascii y) (N_of_ascii x)); try done; try lia;
  destruct (N.ltb_spec (N_of_ascii y) (N_of_ascii z)), (N.ltb_spec (N_of_ascii z) (N_of_ascii y)); try done; try lia;
  destruct (N.ltb_spec (N_of_ascii x) (N_of_ascii z)), (N.ltb_spec (N_of_ascii z) (N_of_ascii x)); try done; try lia.
  apply IH.
Qed.

Lemma by_str_sw {A} (P : A → Prop) (f : A → string) : StrictWeak P (by_str f).
Proof.
  constructor; unfold by_str; intros *; [intros _ _; apply str_lt_asym|intros _ _ _; apply str_lt_negtrans].
Qed.

Lemma by_str_separates {A} (P : A → Prop) (f : A → string) :
  (∀ x y, P x → P y → f x = f y → x = y) → separates P (by_str f).
Proof. intros Hinj x y Hx Hy H1 H2. apply Hinj; [done..|]. by apply str_lt_total. Qed.

(** [sort.Strings] *)
Definition sort_strings (l : list string) : list string := sort_slice str_lt l.

Lemma sort_strings_perm l1 l2 : l1 ≡ₚ l2 → sort_strings l1 = sort_strings l2.
Proof.
  apply (sort_slice_unique (λ _, True)).
  - apply (by_str_sw _ id).
  - by apply (by_str_separates _ id).
  - by apply Forall_forall.
Qed.
