(* ===== verification/Float64.v ===== *)
(** * Go's [float64]

    IEEE 754 binary64 with round-to-nearest-even, through the Standard
    Library's executable specification [SpecFloat] (precision 53, maximal
    exponent 1024).  Scores and utilisations of the scheduler are computed
    with these operations, in the order the source writes them, so that ties
    and comparisons come out as they do in the program. *)

From stdpp Require Import base list.
From Stdlib Require Import ZArith SpecFloat.
From S2P Require Import Prelude GoSort.

Definition float64 : Type := spec_float.
#[export] Instance float64_eq_dec : EqDecision float64.
Proof. unfold float64. solve_decision. Defined.

Definition f64_prec : Z := 53.
Definition f64_emax : Z := 1024.

(** [float64(z)] for an integer [z] *)
Definition f64_of_Z (z : Z) : float64 := binary_normalize f64_prec f64_emax z 0 false.

Definition f64_add : float64 → float64 → float64 := SFadd f64_prec f64_emax.
Definition f64_sub : float64 → float64 → float64 := SFsub f64_prec f64_emax.
Definition f64_mul : float64 → float64 → float64 := SFmul f64_prec f64_emax.
Definition f64_div : float64 → float64 → float64 := SFdiv f64_prec f64_emax.

Definition f64_lt : float64 → float64 → bool := SFltb.
Definition f64_le : float64 → float64 → bool := SFleb.
Definition f64_eq : float64 → float64 → bool := SFeqb.

Definition f64_0 : float64 := f64_of_Z 0.
Definition f64_1 : float64 := f64_of_Z 1.

(** [uint64(x)] for a non-negative finite [x] in range: truncation *)
Definition f64_trunc (x : float64) : Z :=
  match x with
  | S754_finite false m e => if (0 <=? e)%Z then (Zpos m * 2 ^ e)%Z else (Zpos m / 2 ^ (- e))%Z
  | _ => 0%Z
  end.

(** [math.Ceil(x)] for a non-negative [x] below [2^53] *)
Definition f64_ceil (x : float64) : float64 :=
  match x with
  | S754_finite false m e =>
      if (0 <=? e)%Z then x
      else f64_of_Z (- ((- Zpos m) / 2 ^ (- e)))%Z
  | _ => x
  end.

(** [max(x, y)] on numbers (Go propagates NaN, which never reaches it here) *)
Definition f64_max (x y : float64) : float64 := if f64_lt x y then y else x.

Declare Scope f64_scope.
Delimit Scope f64_scope with f64.
Infix "+" := f64_add : f64_scope.
Infix "-" := f64_sub : f64_scope.
Infix "*" := f64_mul : f64_scope.
Infix "/" := f64_div : f64_scope.

(** ** [SafeDiv] of [pkg/util/util.go] *)
Definition SafeDiv (a b : float64) : float64 :=
  if f64_eq b f64_0 then f64_0 else f64_div a b.

(** ** The order on numbers

    On values that are not NaN, [<] is a strict weak order: its negation is
    transitive, so sorting by a score is well defined. *)

Definition not_nan (x : float64) : Prop := x ≠ S754_nan.
#[export] Instance not_nan_dec x : Decision (not_nan x).
Proof. destruct x; (left; discriminate) || (right; intros H; by apply H). Defined.

Definition f64_key (x : float64) : Z * Z * Z :=
  match x with
  | S754_infinity true => (-2, 0, 0)%Z
  | S754_finite true m e => (-1, - e, Zneg m)%Z
  | S754_zero _ | S754_nan => (0, 0, 0)%Z
  | S754_finite false m e => (1, e, Zpos m)%Z
  | S754_infinity false => (2, 0, 0)%Z
  end.

Definition key_lt (a b : Z * Z * Z) : Prop :=
  let '(a1, a2, a3) := a in
  let '(b1, b2, b3) := b in
  (a1 < b1 ∨ a1 = b1 ∧ (a2 < b2 ∨ a2 = b2 ∧ a3 < b3))%Z.

Lemma f64_lt_key x y : not_nan x → not_nan y → f64_lt x y = true ↔ key_lt (f64_key x) (f64_key y).
Proof.
  intros Hx Hy. unfold f64_lt, SFltb.
  destruct x as [|[]| |[] m1 e1], y as [|[]| |[] m2 e2]; simpl; try (by destruct Hx);
    try (by destruct Hy); try (split; (done || lia)).
  - destruct (Z.compare_spec e1 e2) as [->|?|?]; try (split; (done || lia)).
    change (Pos.compare_cont Eq m1 m2) with (m1 ?= m2)%positive.
    destruct (Pos.compare_spec m1 m2); simpl; split; (done || lia).
  - destruct (Z.compare_spec e1 e2) as [->|?|?]; try (split; (done || lia)).
    change (Pos.compare_cont Eq m1 m2) with (m1 ?= m2)%positive.
    destruct (Pos.compare_spec m1 m2); simpl; split; (done || lia).
Qed.

Lemma f64_lt_sw {A} (P : A → Prop) (f : A → float64) :
  (∀ x, P x → not_nan (f x)) → StrictWeak P (λ x y, f64_lt (f x) (f y)).
Proof.
  intros Hf. constructor.
  - intros x y Px Py H. apply not_true_iff_false. intros H2. revert H H2.
    rewrite !f64_lt_key by auto. unfold key_lt.
    destruct (f64_key (f x)) as [[??]?], (f64_key (f y)) as [[??]?]. lia.
  - intros x y z Px Py Pz Hxy Hyz. apply not_true_iff_false. intros Hxz.
    apply not_true_iff_false in Hxy, Hyz. revert Hxy Hyz Hxz.
    rewrite !f64_lt_key by auto. unfold key_lt.
    destruct (f64_key (f x)) as [[??]?], (f64_key (f y)) as [[??]?], (f64_key (f z)) as [[??]?]. lia.
Qed.

Lemma strict_weak_flip {A} (P : A → Prop) less :
  StrictWeak P less → StrictWeak P (λ x y, less y x).
Proof.
  intros H. constructor; intros *.
  - intros. by apply (sw_asym P less H).
  - intros ??? Hxy Hyz. by apply (sw_negtrans P less H z y x).
Qed.

Lemma f64_gt_sw {A} (P : A → Prop) (f : A → float64) :
  (∀ x, P x → not_nan (f x)) → StrictWeak P (λ x y, f64_lt (f y) (f x)).
Proof. intros Hf. by apply (strict_weak_flip P (λ x y, f64_lt (f x) (f y))), f64_lt_sw. Qed.

(** ** Non-negative numbers

    Sums, products and quotients of the non-negative numbers the program
    forms are numbers again, never NaN. *)

Definition nonneg64 (x : float64) : Prop :=
  match x with
  | S754_zero _ | S754_finite false _ _ | S754_infinity false => True
  | _ => False
  end.

(** A non-negative number that is not infinite. *)
Definition finite64 (x : float64) : Prop :=
  match x with
  | S754_zero _ | S754_finite false _ _ => True
  | _ => False
  end.

(** Neither zero nor infinite. *)
Definition positive64 (x : float64) : Prop :=
  match x with S754_finite false _ _ => True | _ => False end.

Lemma nonneg_not_nan x : nonneg64 x → not_nan x.
Proof. by destruct x. Qed.

Lemma finite_nonneg x : finite64 x → nonneg64 x.
Proof. by destruct x as [| | |[]]. Qed.

(** Shifting right keeps the mantissa between zero and its old value. *)
Lemma shr_1_bounds mrs : (0 ≤ shr_m mrs → 0 ≤ shr_m (shr_1 mrs) ≤ shr_m mrs)%Z.
Proof. destruct mrs as [[|[p|p|]|p] r s]; simpl; lia. Qed.

Lemma iter_shr_bounds p mrs : (0 ≤ shr_m mrs → 0 ≤ shr_m (iter_pos shr_1 p mrs) ≤ shr_m mrs)%Z.
Proof.
  revert mrs. induction p as [p IH|p IH|]; intros mrs Hm; simpl.
  - pose proof (shr_1_bounds mrs Hm). pose proof (IH (shr_1 mrs)). pose proof (IH (iter_pos shr_1 p (shr_1 mrs))). lia.
  - pose proof (IH mrs). pose proof (IH (iter_pos shr_1 p mrs)). lia.
  - by apply shr_1_bounds.
Qed.

Lemma shr_fexp_bounds prec emax m e l mrs e' :
  (0 ≤ m)%Z → shr_fexp prec emax m e l = (mrs, e') →
  (0 ≤ shr_m mrs ≤ m)%Z ∧ (e' ≤ Z.max e (fexp prec emax (Zdigits2 m + e)))%Z.
Proof.
  intros Hm. unfold shr_fexp, shr. assert (shr_m (shr_record_of_loc m l) = m) as Hl by by destruct l as [|[]].
  destruct (_ - e)%Z as [|p|p] eqn:E; intros [= <- <-]; rewrite ?Hl; try lia.
  pose proof (iter_shr_bounds p (shr_record_of_loc m l)). lia.
Qed.

Lemma round_even_bounds m l : (0 ≤ m → 0 ≤ round_nearest_even m l ≤ m + 1)%Z.
Proof. intros. destruct l as [|[]]; simpl; try lia. destruct (Z.even m); lia. Qed.

(** Rounding a non-negative mantissa. *)
Lemma round_aux_nonneg prec emax m e l : (0 ≤ m)%Z → nonneg64 (binary_round_aux prec emax false m e l).
Proof.
  intros Hm. unfold binary_round_aux.
  destruct (shr_fexp prec emax m e l) as [mrs e1] eqn:E1. apply shr_fexp_bounds in E1 as [H1 _]; [|done].
  destruct (shr_fexp prec emax (round_nearest_even _ _) _ _) as [mrs2 e2] eqn:E2.
  pose proof (round_even_bounds (shr_m mrs) (loc_of_shr_record mrs)).
  apply shr_fexp_bounds in E2 as [H2 _]; [|lia].
  destruct (shr_m mrs2); simpl; [done| |lia]. by destruct (Z.leb _ _).
Qed.

Lemma f64_add_nonneg x y : nonneg64 x → nonneg64 y → nonneg64 (f64_add x y).
Proof.
  unfold f64_add. destruct x as [[]|[]| |[]], y as [[]|[]| |[]]; simpl; try done; intros _ _.
  unfold binary_normalize, binary_round. simpl. destruct (shl_align _ _ (fexp _ _ _)). by apply round_aux_nonneg.
Qed.

Lemma f64_mul_nonneg x y : nonneg64 x → positive64 y → nonneg64 (f64_mul x y).
Proof.
  unfold f64_mul. destruct x as [[]|[]| |[]], y as [[]|[]| |[]]; simpl; try done; intros _ _.
  by apply round_aux_nonneg.
Qed.

Lemma f64_div_nonneg x y : nonneg64 x → positive64 y → nonneg64 (f64_div x y).
Proof.
  unfold f64_div. destruct x as [[]|[]| |[] m1 e1], y as [[]|[]| |[] m2 e2]; try done; intros _ _.
  unfold SFdiv. unfold SFdiv_core_binary. cbv zeta.
  set (m' := match _ with Z0 => _ | Zpos _ => _ | Zneg _ => _ end).
  assert (0 ≤ m')%Z as Hm by (unfold m'; destruct (_ - _)%Z; [done|by apply Z.shiftl_nonneg|done]).
  pose proof (Z_div_mod m' (Zpos m2) ltac:(lia)) as Hd.
  destruct (Z.div_eucl m' (Zpos m2)) as [q r]. apply round_aux_nonneg. nia.
Qed.

(** The number of digits of a machine integer. *)
Lemma digits_bound p k : (Zpos p ≤ 2 ^ k)%Z → (Zpos (digits2_pos p) ≤ k + 1)%Z.
Proof.
  assert (digits2_pos p = Pos.size p) as -> by (induction p; simpl; congruence). intros H.
  assert (0 ≤ k)%Z by (destruct (Z.lt_ge_cases k 0); [rewrite (Z.pow_neg_r 2 k) in H by done|]; lia).
  pose proof (Pos.size_le p) as Hs. apply Pos2Z.pos_le_pos in Hs. rewrite Pos2Z.inj_pow in Hs.
  apply (Z.pow_le_mono_r_iff 2); [lia..|]. rewrite Z.pow_add_r by lia. lia.
Qed.

Lemma Zdigits_bound m k : (0 ≤ k)%Z → (0 ≤ m ≤ 2 ^ k)%Z → (Zdigits2 m ≤ k + 1)%Z.
Proof. intros Hk Hm. destruct m as [|p|p]; [simpl; lia|apply digits_bound; lia|lia]. Qed.

Lemma iter_xO p d : Zpos (Pos.iter xO p d) = (Zpos p * 2 ^ Zpos d)%Z.
Proof.
  induction d as [|d IH] using Pos.peano_ind; [simpl; lia|].
  rewrite Pos.iter_succ, Pos2Z.inj_xO, IH, Pos2Z.inj_succ, Z.pow_succ_r by lia. lia.
Qed.

(** Machine integers convert to finite numbers: the exponent stays far below
    the overflow threshold. *)
Lemma round_aux_finite m e :
  (0 ≤ m ≤ 2 ^ 115)%Z → (e ≤ 0)%Z → finite64 (binary_round_aux f64_prec f64_emax false m e loc_Exact).
Proof.
  intros Hm He. unfold binary_round_aux.
  destruct (shr_fexp _ _ m e _) as [mrs e1] eqn:E1. apply shr_fexp_bounds in E1 as [H1 He1]; [|lia].
  destruct (shr_fexp _ _ (round_nearest_even _ _) _ _) as [mrs2 e2] eqn:E2.
  pose proof (round_even_bounds (shr_m mrs) (loc_of_shr_record mrs)) as Hr.
  set (m2 := round_nearest_even _ _) in *. apply shr_fexp_bounds in E2 as [H2 He2]; [|lia].
  pose proof (Zdigits_bound m 115 ltac:(lia) ltac:(lia)).
  pose proof (Zdigits_bound m2 116 ltac:(lia) ltac:(lia)).
  unfold fexp, emin, f64_prec, f64_emax in *.
  destruct (shr_m mrs2); simpl; [done| |lia].
  rewrite (proj2 (Z.leb_le e2 _)); [done|lia].
Qed.

Lemma f64_of_Z_finite z : (0 ≤ z ≤ int64_max)%Z → finite64 (f64_of_Z z).
Proof.
  intros Hz. destruct z as [|p|p]; [done| |lia]. unfold f64_of_Z, binary_normalize, binary_round.
  assert (Zpos p ≤ 2 ^ 63)%Z as Hp by (unfold int64_max in *; lia).
  pose proof (digits_bound p 63 Hp) as Hd. unfold shl_align.
  destruct (_ - 0)%Z as [|d|d] eqn:E; apply round_aux_finite; try lia.
  rewrite iter_xO. unfold fexp, emin, f64_prec, f64_emax in E.
  pose proof (Z.pow_le_mono_r 2 (Zpos d) 52 ltac:(lia) ltac:(lia)). nia.
Qed.

Lemma SafeDiv_nonneg a b : finite64 a → finite64 b → nonneg64 (SafeDiv a b).
Proof.
  intros Ha Hb. unfold SafeDiv. destruct (f64_eq b f64_0) eqn:E; [done|].
  apply f64_div_nonneg; [by apply finite_nonneg|]. by destruct b as [[]| | |[]].
Qed.
