(* ===== verification/GoFmt.v ===== *)
(** * Formatting with [%v] and [%q]

    [format_v] is [strconv.FormatFloat(v, 'g', -1, 64)]: the shortest decimal that reads back as the same number, with an exponent
    for decimal exponents below -4 and from 6 on.  [Quote] is
    [strconv.Quote]. *)

From stdpp Require Import base list strings.
From Stdlib Require Import ZArith SpecFloat Ascii.
From S2P Require Import Prelude GoStrings Float64.

Open Scope Z_scope.

(** The [float64] nearest to [num / 10^k]. *)
Definition f64_decimal (num k : Z) : float64 :=
  match num with
  | Zpos p =>
      if bool_decide (0 ≤ k) then
        match 10 ^ k with
        | Zpos q => SFdiv f64_prec f64_emax (S754_finite false p 0) (S754_finite false q 0)
        | _ => S754_nan
        end
      else f64_of_Z (num * 10 ^ (- k))
  | _ => S754_zero false
  end.

(** [(a / b)] to the nearest integer, ties to even. *)
Definition div_nearest (a b : Z) : Z :=
  let q := a / b in
  let r := a mod b in
  if bool_decide (2 * r < b) then q
  else if bool_decide (b < 2 * r) then q + 1
  else if Z.even q then q else q + 1.

(** [m * 2^e] as a fraction. *)
Definition fraction (m : positive) (e : Z) : Z * Z :=
  if bool_decide (0 ≤ e) then (Zpos m * 2 ^ e, 1) else (Zpos m, 2 ^ (- e)).

(** The position of the decimal point: [10^(dp-1) <= a/b < 10^dp]. *)
Fixpoint decimal_point (fuel : nat) (a b dp : Z) : Z :=
  match fuel with
  | O => dp
  | S fuel' =>
      if bool_decide (0 ≤ dp) then
        if bool_decide (10 ^ dp * b ≤ a) then decimal_point fuel' a b (dp + 1)
        else if bool_decide (1 ≤ dp) then
          if bool_decide (a < 10 ^ (dp - 1) * b) then decimal_point fuel' a b (dp - 1) else dp
        else if bool_decide (a * 10 ^ (1 - dp) < b) then decimal_point fuel' a b (dp - 1) else dp
      else if bool_decide (b ≤ a * 10 ^ (- dp)) then decimal_point fuel' a b (dp + 1)
      else if bool_decide (a * 10 ^ (1 - dp) < b) then decimal_point fuel' a b (dp - 1)
      else dp
  end.

(** Digits and decimal point of the shortest decimal; 17 digits always do. *)
Fixpoint shortest (fuel : nat) (n : Z) (v : float64) (a b dp : Z) : Z * Z :=
  let k := n - dp in
  let num := if bool_decide (0 ≤ k) then div_nearest (a * 10 ^ k) b else div_nearest a (b * 10 ^ (- k)) in
  match fuel with
  | O => (num, dp)
  | S fuel' =>
      if SFeqb (f64_decimal num k) v
      then if bool_decide (num = 10 ^ n) then (1, dp + 1) else (num, dp)
      else shortest fuel' (n + 1) v a b dp
  end.

Fixpoint zeros (n : nat) : string := match n with O => "" | S n' => String "0"%char (zeros n') end.

Definition format_digits (digs : string) (dp : Z) : string :=
  let nd := Z.of_nat (String.length digs) in
  let exp := dp - 1 in
  if bool_decide (exp < -4) || bool_decide (6 ≤ exp) then
    str_take 1 digs +:+ (if bool_decide (1 < nd) then String "."%char (str_drop 1 digs) else "") +:+ "e" +:+
    (if bool_decide (exp < 0) then "-" else "+") +:+
    (if bool_decide (Z.abs exp < 10) then String "0"%char (Itoa (Z.abs exp)) else Itoa (Z.abs exp))
  else
    (if bool_decide (0 < dp) then str_take (Z.to_nat dp) digs +:+ zeros (Z.to_nat (dp - nd)) else "0") +:+
    (if bool_decide (dp < nd)
     then String "."%char (zeros (Z.to_nat (- dp)) +:+ str_drop (Z.to_nat dp) digs) else "").

Definition format_v (v : float64) : string :=
  match v with
  | S754_nan => "NaN"
  | S754_infinity s => if s then "-Inf" else "+Inf"
  | S754_zero s => if s then "-0" else "0"
  | S754_finite s m e =>
      let '(a, b) := fraction m e in
      let dp := decimal_point 700 a b 0 in
      let '(num, dp) := shortest 17 1 (S754_finite false m e) a b dp in
      (if s then "-" else "") +:+ format_digits (Itoa num) dp
  end.

Example format_v_examples :
  format_v (f64_div (f64_of_Z 3) (f64_of_Z 2)) = "1.5" ∧ format_v (f64_of_Z 2) = "2" ∧
  format_v (f64_div (f64_of_Z 1) (f64_of_Z 10)) = "0.1" ∧ format_v (f64_div (f64_of_Z 1) (f64_of_Z 3)) = "0.3333333333333333" ∧
  format_v (f64_of_Z 123456789) = "1.23456789e+08" ∧ format_v (f64_of_Z 100000) = "100000" ∧
  format_v (f64_of_Z 1000000) = "1e+06" ∧ format_v (f64_div (f64_of_Z 1) (f64_of_Z 100000)) = "1e-05" ∧
  format_v (f64_div (f64_of_Z 5) (f64_of_Z 4)) = "1.25".
Proof. vm_compute. split_and!; reflexivity. Qed.

(** ** Quoted strings *)
Section quoting.
Local Open Scope string_scope.

Definition hex_digit (n : N) : ascii := ascii_of_N (if (n <? 10)%N then 48 + n else 87 + n)%N.

(** The escapes of one byte; those from 0x80 on are the UTF-8 encoding of
    printable characters and stay. *)
Definition quote_char (c : ascii) : string :=
  let n := N_of_ascii c in
  if (n =? 34)%N then String "\"%char (String c "")
  else if (n =? 92)%N then String "\"%char (String c "")
  else if (n =? 7)%N then "\a"
  else if (n =? 8)%N then "\b"
  else if (n =? 12)%N then "\f"
  else if (n =? 10)%N then "\n"
  else if (n =? 13)%N then "\r"
  else if (n =? 9)%N then "\t"
  else if (n =? 11)%N then "\v"
  else if ((n <? 32) || (n =? 127))%N
  then "\x" +:+ String (hex_digit (n / 16)) (String (hex_digit (n mod 16)) "")
  else String c "".

Fixpoint quote_chars (s : string) : string :=
  match s with
  | EmptyString => EmptyString
  | String c s' => quote_char c +:+ quote_chars s'
  end.

Definition Quote (s : string) : string := String "034"%char (quote_chars s +:+ String "034"%char "").
End quoting.
