(* ===== verification/Sha256.v ===== *)
(** * SHA-256 ([crypto/sha256], as [util.GenerateShortHash] uses it)

    The digest of FIPS 180-4 over byte lists, words as numbers below 2^32. *)

From stdpp Require Import base list strings.
From Stdlib Require Import NArith Lia Ascii.
From S2P Require Import Prelude GoFmt.

Module Sha256.
Open Scope N_scope.

Definition w32 (x : N) : N := N.land x 4294967295.
Definition add32 (x y : N) : N := w32 (x + y).
Definition rotr (n x : N) : N := N.lor (N.shiftr x n) (w32 (N.shiftl x (32 - n))).
Definition not32 (x : N) : N := N.lxor x 4294967295.

Definition ch (x y z : N) : N := N.lxor (N.land x y) (N.land (not32 x) z).
Definition maj (x y z : N) : N := N.lxor (N.lxor (N.land x y) (N.land x z)) (N.land y z).
Definition Sigma0 (x : N) : N := N.lxor (N.lxor (rotr 2 x) (rotr 13 x)) (rotr 22 x).
Definition Sigma1 (x : N) : N := N.lxor (N.lxor (rotr 6 x) (rotr 11 x)) (rotr 25 x).
Definition sigma0 (x : N) : N := N.lxor (N.lxor (rotr 7 x) (rotr 18 x)) (N.shiftr x 3).
Definition sigma1 (x : N) : N := N.lxor (N.lxor (rotr 17 x) (rotr 19 x)) (N.shiftr x 10).

Definition K : list N :=
  [1116352408; 1899447441; 3049323471; 3921009573; 961987163; 1508970993; 2453635748; 2870763221;
   3624381080; 310598401; 607225278; 1426881987; 1925078388; 2162078206; 2614888103; 3248222580;
   3835390401; 4022224774; 264347078; 604807628; 770255983; 1249150122; 1555081692; 1996064986;
   2554220882; 2821834349; 2952996808; 3210313671; 3336571891; 3584528711; 113926993; 338241895;
   666307205; 773529912; 1294757372; 1396182291; 1695183700; 1986661051; 2177026350; 2456956037;
   2730485921; 2820302411; 3259730800; 3345764771; 3516065817; 3600352804; 4094571909; 275423344;
   430227734; 506948616; 659060556; 883997877; 958139571; 1322822218; 1537002063; 1747873779;
   1955562222; 2024104815; 2227730452; 2361852424; 2428436474; 2756734187; 3204031479; 3329325298].

Definition H0 : list N :=
  [1779033703; 3144134277; 1013904242; 2773480762; 1359893119; 2600822924; 528734635; 1541459225].

Fixpoint be_bytes (n : nat) (x : N) : list N :=
  match n with
  | O => []
  | S n => be_bytes n (x / 256) ++ [x mod 256]
  end.

Definition be_word (bytes : list N) : N := fold_left (λ acc b, acc * 256 + b) bytes 0.

(** The message, the bit 1, zeros up to 56 modulo 64, and the length in bits. *)
Definition pad (msg : list N) : list N :=
  let len := length msg in
  msg ++ [128] ++ replicate (Z.to_nat ((55 - Z.of_nat len) mod 64)) 0 ++ be_bytes 8 (N.of_nat len * 8).

Fixpoint chunks (fuel k : nat) (l : list N) : list (list N) :=
  match fuel, l with
  | S fuel, _ :: _ => take k l :: chunks fuel k (drop k l)
  | _, _ => []
  end.

(** The next word of the schedule from the last sixteen. *)
Definition next_word (w : list N) : N :=
  add32 (add32 (sigma1 (nth 14 w 0)) (nth 9 w 0)) (add32 (sigma0 (nth 1 w 0)) (nth 0 w 0)).

Fixpoint schedule (n : nat) (w : list N) : list N :=
  match n with
  | O => w
  | S n => hd 0 w :: schedule n (tl w ++ [next_word w])
  end.

Definition round (s : list N) (kw : N * N) : list N :=
  match s with
  | [a; b; c; d; e; f; g; h] =>
      let t1 := add32 (add32 (add32 h (Sigma1 e)) (add32 (ch e f g) kw.1)) kw.2 in
      let t2 := add32 (Sigma0 a) (maj a b c) in
      [add32 t1 t2; a; b; c; add32 d t1; e; f; g]
  | _ => s
  end.

Definition compress (state : list N) (block : list N) : list N :=
  let w := schedule 48 (be_word <$> chunks 16 4 block) in
  zip_with add32 state (fold_left round (zip K w) state).

Definition Sum256 (msg : list N) : list N :=
  let padded := pad msg in
  fold_left compress (chunks (length padded) 64 padded) H0 ≫= be_bytes 4.

(** ** The digest is 32 bytes *)

Lemma be_bytes_spec n x : length (be_bytes n x) = n ∧ Forall (λ b, b < 256) (be_bytes n x).
Proof.
  revert x. induction n as [|n IH]; intros x; simpl; [by split|]. destruct (IH (x / 256)) as [Hl Hf].
  split; [rewrite length_app, Hl; simpl; lia|]. apply Forall_app. split; [done|].
  constructor; [by apply N.mod_lt|done].
Qed.

Lemma round_length s kw : length (round s kw) = length s.
Proof. by destruct s as [|? [|? [|? [|? [|? [|? [|? [|? [|]]]]]]]]]. Qed.

Lemma rounds_length kws s : length (fold_left round kws s) = length s.
Proof. revert s. induction kws as [|kw kws IH]; intros s; [done|]. simpl. by rewrite IH, round_length. Qed.

Lemma compress_length blocks s : length (fold_left compress blocks s) = length s.
Proof.
  revert s. induction blocks as [|b blocks IH]; intros s; [done|]. simpl. rewrite IH. unfold compress.
  rewrite length_zip_with, rounds_length. lia.
Qed.

Lemma Sum256_bytes msg : length (Sum256 msg) = 32%nat ∧ Forall (λ b, b < 256) (Sum256 msg).
Proof.
  unfold Sum256. set (s := fold_left _ _ _).
  assert (length s = 8%nat) as Hs by (unfold s; by rewrite compress_length).
  destruct s as [|a0 [|a1 [|a2 [|a3 [|a4 [|a5 [|a6 [|a7 [|]]]]]]]]]; try discriminate Hs. split.
  - reflexivity.
  - apply Forall_bind. repeat (constructor; [apply be_bytes_spec|]). constructor.
Qed.
End Sha256.

Definition str_bytes (s : string) : list N := N_of_ascii <$> String.list_ascii_of_string s.

(** [hex.EncodeToString] *)
Definition EncodeToString (bytes : list N) : string :=
  String.string_of_list_ascii (bytes ≫= λ b, [hex_digit (b / 16)%N; hex_digit (b mod 16)%N]).

Definition sha256_hex (s : string) : string := EncodeToString (Sha256.Sum256 (str_bytes s)).

(** The test vectors of FIPS 180-4: none, one and two blocks. *)
Example sha256_vectors :
  sha256_hex "" = "e3b0c44298fc1c149afbf4c8996fb92427ae41e4649b934ca495991b7852b855" ∧
  sha256_hex "abc" = "ba7816bf8f01cfea414140de5dae2223b00361a396177a9cb410ff61f20015ad" ∧
  sha256_hex "abcdbcdecdefdefgefghfghighijhijkijkljklmklmnlmnomnopnopq"
    = "248d6a61d20638b8e5c026930c3e6039a33ce45964ff2167f6ecedd419db06c1".
Proof. split_and!; vm_compute; reflexivity. Qed.

Lemma hex_digit_range n : (n < 16)%N →
  (48 ≤ N_of_ascii (hex_digit n) ≤ 57 ∨ 97 ≤ N_of_ascii (hex_digit n) ≤ 102)%N.
Proof.
  intros Hn. unfold hex_digit. destruct (N.ltb_spec n 10); rewrite N_ascii_embedding by lia; lia.
Qed.

(** A digest is 64 hexadecimal digits. *)
Lemma sha256_hex_spec s : length (String.list_ascii_of_string (sha256_hex s)) = 64%nat ∧
  Forall (λ c, 48 ≤ N_of_ascii c ≤ 57 ∨ 97 ≤ N_of_ascii c ≤ 102)%N (String.list_ascii_of_string (sha256_hex s)).
Proof.
  unfold sha256_hex, EncodeToString. rewrite String.list_ascii_of_string_of_list_ascii.
  destruct (Sha256.Sum256_bytes (str_bytes s)) as [Hl Hf]. generalize dependent (Sha256.Sum256 (str_bytes s)).
  intros l Hl Hf. split.
  - replace 64%nat with (length l * 2)%nat by (rewrite Hl; done). clear. induction l as [|b l IH]; [done|].
    rewrite bind_cons, length_app, IH. simpl. lia.
  - apply Forall_bind. eapply Forall_impl; [exact Hf|]. intros b Hb. cbv beta in Hb.
    constructor; [apply hex_digit_range, N.Div0.div_lt_upper_bound; lia|].
    constructor; [by apply hex_digit_range, N.mod_lt|constructor].
Qed.
