(* ===== verification/DnsName.v ===== *)
(** * Names for generated objects ([pkg/util/util.go])

    [GenerateK8sSafeResourceName] turns any words into a DNS-1123 label that
    ends in eight digits of their digest.  The three regular expressions are
    written out as the characters they match. *)

From stdpp Require Import base list strings.
From Stdlib Require Import ZArith Lia Ascii.
From S2P Require Import Prelude GoSort GoStrings GoFmt Sha256.

Definition DNS1123NameMaximumLength : nat := 63.
Definition hashPrefixLength : nat := 8.

(** ** Characters *)

(** [[a-z0-9]] and [[-a-z0-9]] *)
Definition is_alnum (c : ascii) : bool :=
  let n := N_of_ascii c in bool_decide (97 ≤ n ≤ 122 ∨ 48 ≤ n ≤ 57)%N.
Definition is_name_char (c : ascii) : bool := char_eqb c "-" || is_alnum c.

Fixpoint str_filter (p : ascii → bool) (s : string) : string :=
  match s with
  | EmptyString => EmptyString
  | String c s' => if p c then String c (str_filter p s') else str_filter p s'
  end.

(** ** The functions *)

Definition GenerateShortHash (input : string) (length : nat) : string := str_take length (sha256_hex input).

Definition MakeDNS1123Compatible (name : string) : string :=
  let name := ToLower name in
  let name := str_filter is_name_char name in
  let name := trim_left (λ c, negb (is_alnum c)) name in
  let name := if (DNS1123NameMaximumLength <? String.length name)%nat then str_take DNS1123NameMaximumLength name else name in
  trim_right (λ c, negb (is_alnum c)) name.

Definition GenerateK8sSafeResourceName (str : list string) : string :=
  let joined := join_char "-" str in
  if bool_decide (joined = "") then ""
  else
    let hashSuffix := GenerateShortHash joined hashPrefixLength in
    let nameWithHash := joined +:+ "-" +:+ hashSuffix in
    let nameWithHash :=
      if (DNS1123NameMaximumLength <? String.length nameWithHash)%nat then
        let maxPrefixLen := (DNS1123NameMaximumLength - String.length hashSuffix - 1)%nat in
        str_take maxPrefixLen nameWithHash +:+ "-" +:+ hashSuffix
      else nameWithHash in
    MakeDNS1123Compatible nameWithHash.

(** ** Labels *)

Definition str_head (s : string) : option ascii := match s with EmptyString => None | String c _ => Some c end.
Fixpoint str_last (s : string) : option ascii :=
  match s with
  | EmptyString => None
  | String c EmptyString => Some c
  | String _ s' => str_last s'
  end.

(** A DNS-1123 label: at most 63 of [[-a-z0-9]], the first and the last not a dash. *)
Record dns1123_label (s : string) : Prop := {
  dl_length : (1 ≤ String.length s ≤ 63)%nat;
  dl_chars : str_forall is_name_char s = true;
  dl_first : ∃ c, str_head s = Some c ∧ is_alnum c = true;
  dl_last : ∃ c, str_last s = Some c ∧ is_alnum c = true
}.

Lemma alnum_name c : is_alnum c = true → is_name_char c = true.
Proof. unfold is_name_char. intros ->. apply orb_true_r. Qed.

Lemma str_filter_forall p s : str_forall p (str_filter p s) = true.
Proof. induction s as [|c s IH]; [done|]. simpl. destruct (p c) eqn:E; [simpl; by rewrite E|done]. Qed.

Lemma str_filter_all p s : str_forall p s = true → str_filter p s = s.
Proof. induction s as [|c s IH]; [done|]. simpl. intros [-> ?]%andb_true_iff. by rewrite IH. Qed.

Lemma str_filter_app p a b : str_filter p (a +:+ b) = str_filter p a +:+ str_filter p b.
Proof. induction a as [|c a IH]; [done|]. simpl. destruct (p c); simpl; by rewrite IH. Qed.

Lemma str_map_app f a b : str_map f (a +:+ b) = str_map f a +:+ str_map f b.
Proof. induction a as [|c a IH]; [done|]. simpl. by rewrite IH. Qed.

Lemma str_map_id f s : str_forall (λ c, char_eqb (f c) c) s = true → str_map f s = s.
Proof.
  induction s as [|c s IH]; [done|]. simpl. intros [Hc Hs]%andb_true_iff. rewrite IH by done.
  by apply Ascii.eqb_eq in Hc as ->.
Qed.

Lemma str_map_length f s : String.length (str_map f s) = String.length s.
Proof. induction s as [|c s IH]; [done|]. simpl. by rewrite IH. Qed.

Lemma str_filter_length p s : (String.length (str_filter p s) ≤ String.length s)%nat.
Proof. induction s as [|c s IH]; [done|]. simpl. destruct (p c); simpl; lia. Qed.

Lemma str_take_length n s : (String.length (str_take n s) ≤ n)%nat.
Proof. revert s. induction n as [|n IH]; intros [|c s]; simpl; try lia. specialize (IH s). lia. Qed.

(** What is stripped in front is a prefix of the name; the suffix stays when it starts with an alphanumeric. *)
Lemma trim_left_app p a b c b' :
  b = String c b' → p c = false → trim_left p (a +:+ b) = trim_left p a +:+ b.
Proof.
  intros -> Hc. induction a as [|x a IH]; simpl; [by rewrite Hc|]. by destruct (p x).
Qed.

Lemma trim_left_length p s : (String.length (trim_left p s) ≤ String.length s)%nat.
Proof. induction s as [|c s IH]; [done|]. simpl. destruct (p c); simpl; lia. Qed.

Lemma trim_left_forall p q s : str_forall q s = true → str_forall q (trim_left p s) = true.
Proof. induction s as [|c s IH]; [done|]. simpl. intros [Hc Hs]%andb_true_iff. destruct (p c); [by apply IH|]. simpl. by rewrite Hc. Qed.

Lemma trim_left_head p s c s' : trim_left p s = String c s' → p c = false.
Proof. induction s as [|x s IH]; [done|]. simpl. destruct (p x) eqn:E; [done|]. by intros [= <- _]. Qed.

Lemma str_last_app a b : b ≠ "" → str_last (a +:+ b) = str_last b.
Proof.
  intros Hb. induction a as [|x a IH]; [done|]. simpl. destruct (a +:+ b) eqn:E; [|by rewrite IH].
  destruct a; [by simpl in E|done].
Qed.

Lemma trim_right_keeps p s c : str_last s = Some c → p c = false → trim_right p s = s.
Proof.
  intros Hs Hc. induction s as [|x s IH]; [done|]. simpl in Hs. destruct s as [|y s].
  - injection Hs as ->. simpl. by rewrite Hc.
  - cbn [trim_right] in *. by rewrite IH.
Qed.

(** ** The hash survives *)

Lemma str_forall_list p s : str_forall p s = true ↔ Forall (λ c, p c = true) (String.list_ascii_of_string s).
Proof.
  induction s as [|c s IH]; simpl; [by split|]. rewrite andb_true_iff, Forall_cons. by rewrite IH.
Qed.

Lemma str_length_list s : String.length s = length (String.list_ascii_of_string s).
Proof. induction s as [|c s IH]; [done|]. simpl. by rewrite IH. Qed.

Lemma str_take_forall p n s : str_forall p s = true → str_forall p (str_take n s) = true.
Proof.
  revert s. induction n as [|n IH]; intros [|c s]; simpl; try done. intros [-> Hs]%andb_true_iff. simpl. by apply IH.
Qed.

Lemma str_take_exact n s : (n ≤ String.length s)%nat → String.length (str_take n s) = n.
Proof. revert s. induction n as [|n IH]; intros [|c s]; simpl; try lia. intros. rewrite IH; lia. Qed.

Lemma hash_spec s : String.length (GenerateShortHash s 8) = 8%nat ∧ str_forall is_alnum (GenerateShortHash s 8) = true.
Proof.
  destruct (sha256_hex_spec s) as [Hl Hf]. split.
  - apply str_take_exact. rewrite str_length_list, Hl. lia.
  - apply str_take_forall, str_forall_list. eapply Forall_impl; [exact Hf|]. intros c Hc. cbv beta in Hc.
    apply bool_decide_eq_true. lia.
Qed.

Lemma lower_alnum s : str_forall is_alnum s = true → ToLower s = s.
Proof.
  intros Hs. apply str_map_id. eapply str_forall_impl; [|exact Hs]. intros c Hc. apply Ascii.eqb_eq.
  unfold is_alnum in Hc. apply bool_decide_eq_true in Hc. unfold lower_char. rewrite bool_decide_eq_false_2; [done|lia].
Qed.

Lemma alnum_last s : s ≠ "" → str_forall is_alnum s = true → ∃ c, str_last s = Some c ∧ is_alnum c = true.
Proof.
  induction s as [|x s IH]; [done|]. intros _ [Hx Hs]%andb_true_iff. destruct s as [|y s]; [by exists x|].
  destruct IH as (c & Hc & Ha); [done|exact Hs|]. exists c. by split.
Qed.

Lemma compatible_hash P h :
  (String.length P ≤ 54)%nat → String.length h = 8%nat → str_forall is_alnum h = true →
  MakeDNS1123Compatible (P +:+ "-" +:+ h)
  = trim_left (λ c, negb (is_alnum c)) (str_filter is_name_char (ToLower P) +:+ "-") +:+ h.
Proof.
  intros HP Hh Ha. unfold MakeDNS1123Compatible, ToLower. rewrite !str_map_app.
  fold (ToLower h). rewrite (lower_alnum h Ha), !str_filter_app.
  rewrite (str_filter_all is_name_char h) by (eapply str_forall_impl; [|exact Ha]; apply alnum_name).
  fold (ToLower P). set (Q := str_filter is_name_char (ToLower P)). change (str_filter is_name_char (str_map lower_char "-")) with "-".
  destruct h as [|c h'] eqn:Eh; [done|]. rewrite <- Eh in *. rewrite <- str_app_assoc.
  assert (negb (is_alnum c) = false) as Hc by (rewrite Eh in Ha; apply andb_true_iff in Ha as [-> _]; done).
  rewrite (trim_left_app _ (Q +:+ "-") h c h' Eh Hc). set (T := trim_left _ (Q +:+ "-")).
  assert (String.length (T +:+ h) ≤ 63)%nat as Hlen.
  { rewrite str_length_app. pose proof (trim_left_length (λ c, negb (is_alnum c)) (Q +:+ "-")) as Ht. fold T in Ht.
    rewrite str_length_app in Ht. simpl in Ht. pose proof (str_filter_length is_name_char (ToLower P)) as Hf. fold Q in Hf.
    unfold ToLower in Hf. rewrite str_map_length in Hf. lia. }
  replace (DNS1123NameMaximumLength <? String.length (T +:+ h))%nat with false by (symmetry; by apply Nat.ltb_ge).
  destruct (alnum_last h) as (l & Hl & Hla); [by rewrite Eh|done|].
  apply (trim_right_keeps _ _ l); [|by rewrite Hla]. rewrite str_last_app; [done|by rewrite Eh].
Qed.

Lemma prefixed_label P h :
  (String.length P ≤ 54)%nat → String.length h = 8%nat → str_forall is_alnum h = true →
  dns1123_label (trim_left (λ c, negb (is_alnum c)) (str_filter is_name_char (ToLower P) +:+ "-") +:+ h).
Proof.
  intros HP Hh Ha. set (Q := str_filter _ _). set (T := trim_left _ _). split.
  - rewrite str_length_app. pose proof (trim_left_length (λ c, negb (is_alnum c)) (Q +:+ "-")) as Ht. fold T in Ht.
    rewrite str_length_app in Ht. simpl in Ht. pose proof (str_filter_length is_name_char (ToLower P)) as Hf. fold Q in Hf.
    unfold ToLower in Hf. rewrite str_map_length in Hf. lia.
  - rewrite str_forall_app. apply andb_true_iff. split.
    + apply trim_left_forall. rewrite str_forall_app. apply andb_true_iff. split; [apply str_filter_forall|done].
    + eapply str_forall_impl; [|exact Ha]. apply alnum_name.
  - destruct T as [|c T'] eqn:ET.
    + destruct h as [|c h']; [done|]. exists c. split; [done|]. by apply andb_true_iff in Ha as [-> _].
    + exists c. split; [done|]. apply trim_left_head in ET. by apply negb_false_iff in ET.
  - destruct (alnum_last h) as (l & Hl & Hla); [by destruct h|done|]. exists l. split; [|done].
    rewrite str_last_app; [done|by destruct h].
Qed.

Lemma safe_name_form words :
  join_char "-" words ≠ "" →
  ∃ P, (String.length P ≤ 54)%nat ∧ GenerateK8sSafeResourceName words
    = trim_left (λ c, negb (is_alnum c)) (str_filter is_name_char (ToLower P) +:+ "-") +:+ GenerateShortHash (join_char "-" words) 8.
Proof.
  intros Hne. unfold GenerateK8sSafeResourceName. rewrite bool_decide_eq_false_2 by done.
  set (joined := join_char "-" words). change hashPrefixLength with 8%nat.
  destruct (hash_spec joined) as [Hl Ha]. set (h := GenerateShortHash joined 8) in *. cbv zeta.
  rewrite Hl. change (DNS1123NameMaximumLength - 8 - 1)%nat with 54%nat.
  destruct (Nat.ltb_spec DNS1123NameMaximumLength (String.length (joined +:+ "-" +:+ h))) as [Hlong|Hshort].
  - exists (str_take 54 (joined +:+ "-" +:+ h)). split; [apply str_take_length|]. by rewrite compatible_hash by (done || apply str_take_length).
  - exists joined. rewrite !str_length_app in Hshort. simpl in Hshort. unfold DNS1123NameMaximumLength in Hshort.
    split; [lia|]. rewrite compatible_hash by (done || lia). done.
Qed.

(** C40 Generated names are legal and keep their hash: whatever the words are
    (over-long, upper case, or full of illegal characters), the result is a
    DNS-1123 label of at most 63 bytes, and all eight digits of the digest are
    its end, so two names are equal only when the digests of the words agree. *)
Theorem GenerateK8sSafeResourceName_label words :
  join_char "-" words ≠ "" →
  dns1123_label (GenerateK8sSafeResourceName words) ∧
  (∃ prefix, GenerateK8sSafeResourceName words = prefix +:+ GenerateShortHash (join_char "-" words) 8) ∧
  ∀ words', join_char "-" words' ≠ "" → GenerateK8sSafeResourceName words = GenerateK8sSafeResourceName words' →
    GenerateShortHash (join_char "-" words) 8 = GenerateShortHash (join_char "-" words') 8.
Proof.
  intros Hne. destruct (safe_name_form words Hne) as (P & HP & E). destruct (hash_spec (join_char "-" words)) as [Hl Ha].
  rewrite E. split_and!; [by apply prefixed_label|by eexists|].
  intros words' Hne' Heq. destruct (safe_name_form words' Hne') as (P' & HP' & E'). rewrite E' in Heq.
  destruct (hash_spec (join_char "-" words')) as [Hl' _].
  apply (str_app_inj_r _ _ _ _) in Heq; [done|congruence].
Qed.

Lemma GenerateK8sSafeResourceName_label_witness :
  GenerateK8sSafeResourceName ["Train_Job"; "--vGPU"] = "trainjob---vgpu-a39fa7d7" ∧
  dns1123_label (GenerateK8sSafeResourceName ["Train_Job"; "--vGPU"]).
Proof.
  split; [vm_compute; reflexivity|]. apply (GenerateK8sSafeResourceName_label ["Train_Job"; "--vGPU"]). discriminate.
Defined.
