(* ===== verification/GoTime.v ===== *)
(** * Go's [time] package: [time.Duration] and [time.ParseDuration]

    A duration is an [int64] number of nanoseconds.  [ParseDuration] is the
    library's loop over "number unit" pairs; the fuel is the length of the
    string, which every iteration shortens by at least its unit. *)

From stdpp Require Import base list strings gmap.
From Stdlib Require Import ZArith Ascii.
From S2P Require Import Prelude GoStrings Float64.

Open Scope Z_scope.

Definition Nanosecond : Z := 1.
Definition Microsecond : Z := 1000.
Definition Millisecond : Z := 1000000.
Definition Second : Z := 1000000000.
Definition Minute : Z := 60000000000.
Definition Hour : Z := 3600000000000.

Definition digit_value (c : ascii) : Z := Z.of_N (N_of_ascii c) - 48.

(** [leadingInt]: consumes [0-9]*; [None] on overflow of [1<<63]. *)
Fixpoint leadingInt (x : Z) (s : string) : option (Z * string) :=
  match s with
  | EmptyString => Some (x, s)
  | String c s' =>
      if is_digit c then
        if bool_decide (x > 2 ^ 63 / 10) then None
        else
          let x' := x * 10 + digit_value c in
          if bool_decide (x' > 2 ^ 63) then None else leadingInt x' s'
      else Some (x, s)
  end.

(** [leadingFraction]: consumes [0-9]*; digits past the precision are dropped. *)
Fixpoint leadingFraction (x : Z) (scale : float64) (overflow : bool) (s : string)
    : Z * float64 * string :=
  match s with
  | EmptyString => (x, scale, s)
  | String c s' =>
      if is_digit c then
        if overflow then leadingFraction x scale true s'
        else if bool_decide (x > (2 ^ 63 - 1) / 10) then leadingFraction x scale true s'
        else
          let y := x * 10 + digit_value c in
          if bool_decide (y > 2 ^ 63) then leadingFraction x scale true s'
          else leadingFraction y (scale * f64_of_Z 10)%f64 false s'
      else (x, scale, s)
  end.

(** The unit: everything up to the next digit or dot. *)
Fixpoint leadingUnit (s : string) : string * string :=
  match s with
  | EmptyString => (EmptyString, EmptyString)
  | String c s' =>
      if char_eqb c "." || is_digit c then (EmptyString, s)
      else let '(u, rest) := leadingUnit s' in (String c u, rest)
  end.

(** [unitMap]; the two spellings of the micro sign are their UTF-8 bytes. *)
Definition micro_sign : string := String "194" (String "181" "s").
Definition greek_mu : string := String "206" (String "188" "s").

Definition unitMap (u : string) : option Z :=
  if bool_decide (u = "ns") then Some Nanosecond
  else if bool_decide (u = "us") then Some Microsecond
  else if bool_decide (u = micro_sign) then Some Microsecond
  else if bool_decide (u = greek_mu) then Some Microsecond
  else if bool_decide (u = "ms") then Some Millisecond
  else if bool_decide (u = "s") then Some Second
  else if bool_decide (u = "m") then Some Minute
  else if bool_decide (u = "h") then Some Hour
  else None.

Fixpoint parse_units (fuel : nat) (d : Z) (s : string) : option Z :=
  match s, fuel with
  | EmptyString, _ => Some d
  | _, O => None
  | String c _, S fuel' =>
      if negb (char_eqb c "." || is_digit c) then None
      else
        '(v, s1) ← leadingInt 0 s;
        let pre := bool_decide (s ≠ s1) in
        let '(f, scale, s2, post) :=
          match s1 with
          | String d' s1' =>
              if char_eqb d' "." then
                let '(f, scale, s2) := leadingFraction 0 f64_1 false s1' in
                (f, scale, s2, bool_decide (s1' ≠ s2))
              else (0, f64_1, s1, false)
          | EmptyString => (0, f64_1, s1, false)
          end in
        if negb pre && negb post then None
        else
          let '(u, s3) := leadingUnit s2 in
          if bool_decide (u = "") then None
          else
            unit ← unitMap u;
            if bool_decide (v > 2 ^ 63 / unit) then None
            else
              let v1 := v * unit in
              let v2 :=
                if bool_decide (f > 0)
                then v1 + f64_trunc (f64_of_Z f * (f64_of_Z unit / scale))%f64
                else v1 in
              if bool_decide (v2 > 2 ^ 63) then None
              else
                let d' := d + v2 in
                if bool_decide (d' > 2 ^ 63) then None else parse_units fuel' d' s3
  end.

(** [None] is an error. *)
Definition ParseDuration (s : string) : option Z :=
  let '(neg, body) :=
    match s with
    | String c s' =>
        if char_eqb c "-" then (true, s') else if char_eqb c "+" then (false, s') else (false, s)
    | EmptyString => (false, s)
    end in
  if bool_decide (body = "0") then Some 0
  else if bool_decide (body = "") then None
  else
    d ← parse_units (String.length body) 0 body;
    if neg : bool then Some (- d)
    else if bool_decide (d > int64_max) then None else Some d.

Example ParseDuration_samples :
  ParseDuration "45s" = Some (45 * Second) ∧ ParseDuration "1m30s" = Some (90 * Second) ∧
  ParseDuration "1.5h" = Some (5400 * Second) ∧ ParseDuration "30" = None ∧
  ParseDuration "-0.5s" = Some (- 500000000) ∧ ParseDuration "1d" = None.
Proof. vm_compute. done. Qed.

(** [t.Sub(u)]: the difference of two instants, saturating at the [int64] range. *)
Definition time_sub (t u : Z) : Z := Z.max int64_min (Z.min int64_max (t - u)).
