(* ===== verification/Kube.v ===== *)
(** * Kubernetes objects and the pod and node helpers of [pkg/util]

    The API objects are records of the fields this program reads.  A field
    that stands for the answer of a Kubernetes library helper is named after
    it: [c_IsRestartableInitContainer] is
    [podutil.IsRestartableInitContainer(c)], [p_GetControllerOf] is
    [metav1.GetControllerOf(pod)] and [p_PodScheduledCondition] is
    [podutil.GetPodCondition(&pod.Status, corev1.PodScheduled)] and
    [p_IsCriticalPod] is [kubelettypes.IsCriticalPod(pod)]; the answers
    are arbitrary, so the theorems hold for any implementation.  Resource
    quantities are their [Quantity.Value()].

    [Env] is the process environment: the domain every annotation key starts
    with ([util.MustInitGlobalDomain]), the wall clock, and the default grace
    period of a pre-allocation ([device.MustInitGlobalStuckGracePeriod]). *)

From stdpp Require Import base list gmap strings.
From Stdlib Require Import ZArith Ascii.
From S2P Require Import Prelude GoStrings GoTime.

Open Scope Z_scope.

Class Env : Type := {
  globalDomainName : string;
  time_now : Z;              (* nanoseconds since the Unix epoch *)
  stuckGracePeriod : Z       (* nanoseconds *)
}.

(** ** Objects *)

(** A container's reference to a claim of its pod ([corev1.ResourceClaim]). *)
Record ContainerClaim := { cc_Name : string; cc_Request : string }.

Record PodResourceClaim := {
  prc_Name : string;
  prc_ResourceClaimName : option string;
  prc_ResourceClaimTemplateName : option string
}.

(** What of a pod only admission and the recovery controller look at. *)
Record PodRest := {
  ps_GenerateName : string;
  ps_ResourceVersion : string;
  ps_SchedulerName : string;
  ps_NodeSelector : gmap string string;
  ps_RuntimeClassName : option string;
  ps_ResourceClaims : list PodResourceClaim;
  ps_ResourceClaimStatuses : list (string * option string);  (* Status.ResourceClaimStatuses *)
  ps_DNSPolicy : string;
  ps_DNSConfig : option (list string);                       (* Spec.DNSConfig.Nameservers *)
  ps_HostNetwork : bool
}.

Record Container := {
  c_Name : string;
  c_Limits : gmap string Z;
  c_Requests : gmap string Z;
  c_Claims : list ContainerClaim;        (* Resources.Claims *)
  c_IsRestartableInitContainer : bool;
  c_Env : list (string * string)
}.

Record OwnerReference := {
  or_Kind : string;
  or_Name : string;
  or_UID : string
}.

(** The [PodScheduled] condition. *)
Record PodCondition := {
  pc_Status : string;
  pc_Reason : string;
  pc_LastTransitionUnix : Z
}.

Record ContainerStatus := {
  cs_Name : string;
  cs_Running : bool;          (* State.Running != nil *)
  cs_Terminated : bool;       (* State.Terminated != nil *)
  cs_Waiting : option string  (* State.Waiting.Message *)
}.

Record Toleration := { tl_Key : string; tl_Operator : string; tl_Value : string; tl_Effect : string }.
Record Taint := { tt_Key : string; tt_Value : string; tt_Effect : string }.

Record Pod := {
  p_Name : string;
  p_Namespace : string;
  p_UID : string;
  p_Labels : gmap string string;
  p_Annotations : gmap string string;
  p_OwnerReferences : list OwnerReference;
  p_GetControllerOf : option OwnerReference;
  p_DeletionTimestamp : option Z;
  p_NodeName : string;
  p_Containers : list Container;
  p_InitContainers : list Container;
  p_PodGroupName : option string;   (* Spec.SchedulingGroup.PodGroupName *)
  p_Phase : string;
  p_StatusReason : string;
  p_ContainerStatuses : list ContainerStatus;
  p_InitContainerStatuses : list ContainerStatus;
  p_PodScheduledCondition : option PodCondition;
  p_OS : option string;             (* Spec.OS.Name *)
  p_Priority : option Z;
  p_CreationTimestamp : Z;          (* nanoseconds since the Unix epoch *)
  p_Tolerations : list Toleration;
  p_IsCriticalPod : bool;
  p_Rest : PodRest
}.

Record Node := {
  n_Name : string;
  n_Labels : gmap string string;
  n_Annotations : gmap string string;
  n_Allocatable : gmap string Z;
  n_DeletionTimestamp : option Z;
  n_Taints : list Taint
}.

(** The pod with other labels and annotations. *)
Definition with_metadata (p : Pod) (labels annotations : gmap string string) : Pod :=
  {| p_Name := p_Name p; p_Namespace := p_Namespace p; p_UID := p_UID p;
     p_Labels := labels; p_Annotations := annotations;
     p_OwnerReferences := p_OwnerReferences p; p_GetControllerOf := p_GetControllerOf p;
     p_DeletionTimestamp := p_DeletionTimestamp p; p_NodeName := p_NodeName p;
     p_Containers := p_Containers p; p_InitContainers := p_InitContainers p;
     p_PodGroupName := p_PodGroupName p; p_Phase := p_Phase p;
     p_StatusReason := p_StatusReason p; p_ContainerStatuses := p_ContainerStatuses p;
     p_InitContainerStatuses := p_InitContainerStatuses p;
     p_PodScheduledCondition := p_PodScheduledCondition p; p_OS := p_OS p; p_Priority := p_Priority p;
     p_CreationTimestamp := p_CreationTimestamp p; p_Tolerations := p_Tolerations p;
     p_IsCriticalPod := p_IsCriticalPod p; p_Rest := p_Rest p |}.

(** [pod.DeepCopy()] with annotation [k] set to [v] ([util.InsertAnnotation]). *)
Definition InsertAnnotation (p : Pod) (k v : string) : Pod :=
  with_metadata p (p_Labels p) (<[k := v]> (p_Annotations p)).

Definition HasAnnotation (p : Pod) (k : string) : option string := p_Annotations p !! k.
Definition HasLabel (p : Pod) (k : string) : option string := p_Labels p !! k.

(** The [val] of [val, _ := HasAnnotation(obj, k)]: the empty string when absent. *)
Definition annotation (p : Pod) (k : string) : string := default "" (HasAnnotation p k).

Definition HundredCore : Z := 100.
Definition MaxDeviceCount : Z := 16.
Definition MaxContainerLimit : Z := 300000.
Definition PodAnnotationMaxLength : Z := 1024 * 1024.
Definition PreStartContainerCheckErrMsg : string := "PreStartContainer check failed".
Definition AllocateCheckErrMsg : string := "Allocate check failed".

Definition AccessModeLocal : string := "local".
Definition AccessModeRemote : string := "remote".

Definition PodSucceeded : string := "Succeeded".
Definition PodFailed : string := "Failed".
Definition ConditionFalse : string := "False".
Definition PodReasonUnschedulable : string := "Unschedulable".

(** ** Annotation, label and resource keys ([pkg/util/consts.go]) *)
Section keys.
Context `{Env}.

Definition VGPUNumberResourceName : string := globalDomainName +:+ "/vgpu-number".
Definition VGPUMemoryResourceName : string := globalDomainName +:+ "/vgpu-memory".
Definition VGPUCoreResourceName : string := globalDomainName +:+ "/vgpu-cores".
Definition NodeSchedulerPolicyAnnotation : string := globalDomainName +:+ "/node-scheduler-policy".
Definition DeviceSchedulerPolicyAnnotation : string := globalDomainName +:+ "/device-scheduler-policy".
Definition MemorySchedulerPolicyAnnotation : string := globalDomainName +:+ "/memory-scheduler-policy".
Definition SchedulerStuckGracePeriodAnnotation : string := globalDomainName +:+ "/stuck-grace-period".
Definition DeviceTopologyModeAnnotation : string := globalDomainName +:+ "/device-topology-mode".
Definition CrossPodTopologyAnnotation : string := globalDomainName +:+ "/cross-pod-topology".
Definition PodIncludeGPUUUIDAnnotation : string := globalDomainName +:+ "/include-gpu-uuid".
Definition PodExcludeGPUUUIDAnnotation : string := globalDomainName +:+ "/exclude-gpu-uuid".
Definition PodIncludeGpuTypeAnnotation : string := globalDomainName +:+ "/include-gpu-type".
Definition PodExcludeGpuTypeAnnotation : string := globalDomainName +:+ "/exclude-gpu-type".
Definition PodPredicateNodeAnnotation : string := globalDomainName +:+ "/predicate-node".
Definition PodPredicateTimeAnnotation : string := globalDomainName +:+ "/predicate-time".
Definition PodAssignedPhaseLabel : string := globalDomainName +:+ "/assigned-phase".
Definition PodMetricsNodeLabel : string := globalDomainName +:+ "/metrics-node".
Definition PodVGPUPreAllocAnnotation : string := globalDomainName +:+ "/pre-allocated".
Definition PodVGPURealAllocAnnotation : string := globalDomainName +:+ "/real-allocated".
Definition VGPUAccessModeAnnotation : string := globalDomainName +:+ "/vgpu-access-mode".
Definition NodeRemoteEndpointsAnnotation : string := globalDomainName +:+ "/remote-endpoints".
Definition NodeRemoteSelectorsAnnotation : string := globalDomainName +:+ "/remote-selectors".
Definition NodeRemoteServerLabel : string := globalDomainName +:+ "/remote-server".
Definition NodeRemoteConsumerLabel : string := globalDomainName +:+ "/remote-consumer".

Definition AssignPhaseFiltering : string := "filtering".
Definition AssignPhaseAllocating : string := "allocating".
Definition AssignPhaseSucceed : string := "succeed".
Definition AssignPhaseFailed : string := "failed".

(** Keys with one domain and different names differ. *)
Lemma str_app_inj (a b c : string) : a +:+ b = a +:+ c → b = c.
Proof. induction a as [|x a IH]; simpl; [done|]. intros [= ?]. auto. Qed.

Lemma key_ne (a b : string) : a ≠ b → globalDomainName +:+ a ≠ globalDomainName +:+ b.
Proof. intros Hne He. by apply Hne, (str_app_inj globalDomainName). Qed.
End keys.

(** ** Container and pod helpers ([pkg/util/util.go]) *)
Section helpers.
Context `{Env}.

Definition GetResourceOfContainer (c : Container) (name : string) : Z :=
  default 0 (c_Limits c !! name).

Definition IsVGPURequiredContainer (c : Container) : bool :=
  bool_decide (GetResourceOfContainer c VGPUNumberResourceName > 0).

Definition IsVGPUResourcePod (p : Pod) : bool :=
  existsb (λ c, bool_decide (GetResourceOfContainer c VGPUNumberResourceName > 0)) (p_Containers p) ||
  existsb (λ c, bool_decide (GetResourceOfContainer c VGPUNumberResourceName > 0)) (p_InitContainers p).

Definition GetResourceOfPod (p : Pod) (name : string) : Z :=
  fold_left (λ total c, total +w GetResourceOfContainer c name) (p_Containers p) 0.

Definition IsRestartableInitContainer (c : Container) : bool := c_IsRestartableInitContainer c.

(** The state of the first status with the container's name; init statuses first. *)
Definition IsContainerRunning (p : Pod) (name : string) : bool :=
  match list_find (λ s, cs_Name s = name) (p_InitContainerStatuses p) with
  | Some (_, s) => cs_Running s
  | None =>
      match list_find (λ s, cs_Name s = name) (p_ContainerStatuses p) with
      | Some (_, s) => cs_Running s
      | None => false
      end
  end.

Definition CollectableContainerNames (p : Pod) : list string :=
  (c_Name <$> filter (λ c, IsRestartableInitContainer c || IsContainerRunning p (c_Name c)) (p_InitContainers p))
  ++ (c_Name <$> p_Containers p).

Definition IsShouldDeletePod (p : Pod) : bool :=
  if bool_decide (is_Some (p_DeletionTimestamp p)) then true
  else if bool_decide (Z.of_nat (length (p_ContainerStatuses p)) > MaxContainerLimit) then true
  else if existsb (λ s, match cs_Waiting s with
                        | Some msg => Contains msg PreStartContainerCheckErrMsg || Contains msg AllocateCheckErrMsg
                        | None => false
                        end) (p_ContainerStatuses p) then true
  else bool_decide (p_StatusReason p = "UnexpectedAdmissionError").

Definition notRunning (statuses : list ContainerStatus) : bool :=
  forallb (λ s, cs_Terminated s || bool_decide (is_Some (cs_Waiting s))) statuses.

Definition PodIsTerminated (p : Pod) : bool :=
  bool_decide (p_Phase p = PodFailed) || bool_decide (p_Phase p = PodSucceeded) ||
  (bool_decide (is_Some (p_DeletionTimestamp p)) && notRunning (p_ContainerStatuses p)).

(** [PodVGPUAccessMode]; the error case also answers [AccessModeLocal]. *)
Definition PodVGPUAccessMode (p : Pod) : string * bool :=
  let raw := annotation p VGPUAccessModeAnnotation in
  let mode := if bool_decide (raw = "") then raw else ToLower (TrimSpace raw) in
  if bool_decide (mode = "") then (AccessModeLocal, true)
  else if bool_decide (mode = AccessModeLocal) then (mode, true)
  else if bool_decide (mode = AccessModeRemote) then (mode, true)
  else (AccessModeLocal, false).

Definition PodPlanSchedulingNode (p : Pod) : string :=
  if bool_decide (p_NodeName p ≠ "") && bool_decide ((PodVGPUAccessMode p).1 = AccessModeLocal)
  then p_NodeName p
  else annotation p PodPredicateNodeAnnotation.

(** [PodsOnNodeCallback]: the pods the callback runs on, in order. *)
Definition PodsOnNode (pods : list Pod) (nodeName : string) : list Pod :=
  filter (λ p, PodPlanSchedulingNode p = nodeName ∧ p_Phase p ≠ PodSucceeded ∧ p_Phase p ≠ PodFailed) pods.

Definition GetAllocatableOfNode (node : Node) (resourceName : string) : option Z := n_Allocatable node !! resourceName.

Definition IsVGPUEnabledNode (node : Node) : bool :=
  bool_decide (default 0 (GetAllocatableOfNode node VGPUNumberResourceName) > 0).

Definition IsRemoteServerNode (node : Node) : bool :=
  bool_decide (default "" (n_Labels node !! NodeRemoteServerLabel) = "true") &&
  bool_decide (is_Some (n_Annotations node !! NodeRemoteEndpointsAnnotation)).

Definition IsRemoteConsumerNode (node : Node) : bool :=
  bool_decide (default "" (n_Labels node !! NodeRemoteConsumerLabel) = "true") && IsVGPUEnabledNode node.

(** ** Gang identity *)

(** The first of the listed keys with a non-empty value. *)
Fixpoint first_value (m : gmap string string) (keys : list string) : option string :=
  match keys with
  | [] => None
  | k :: ks =>
      match m !! k with
      | Some v => if bool_decide (v ≠ "") then Some v else first_value m ks
      | None => first_value m ks
      end
  end.

Definition CoschedulingPodGroupLabel : string := "scheduling.x-k8s.io/pod-group".
Definition CoschedulingPodGroupNameLabel : string := "pod-group.scheduling.sigs.k8s.io/name".
Definition KubeGroupNameAnnotation : string := "scheduling.k8s.io/group-name".
Definition VolcanoGroupNameAnnotation : string := "scheduling.volcano.sh/group-name".
Definition KoordinatorGangNameAnnotation : string := "gang.scheduling.koordinator.sh/name".

Definition PodHasGangName (p : Pod) : option string :=
  let from_owner :=
    match list_find (λ ref, or_Kind ref = "PodGroup" ∧ or_Name ref ≠ "") (p_OwnerReferences p) with
    | Some (_, ref) => Some (or_Name ref)
    | None => None
    end in
  let from_metadata :=
    match first_value (p_Labels p) [CoschedulingPodGroupLabel; CoschedulingPodGroupNameLabel] with
    | Some v => Some v
    | None =>
        match first_value (p_Annotations p)
          [KubeGroupNameAnnotation; VolcanoGroupNameAnnotation; KoordinatorGangNameAnnotation] with
        | Some v => Some v
        | None => from_owner
        end
    end in
  match p_PodGroupName p with
  | Some g => if bool_decide (g ≠ "") then Some g else from_metadata
  | None => from_metadata
  end.

Definition normalizeGangKey (podNamespace raw : string) : string :=
  let value := TrimSpace raw in
  let '(ns, name, found) := cut_char "/" value in
  if found : bool then
    let ns := TrimSpace ns in
    let name := TrimSpace name in
    if bool_decide (ns ≠ "") && bool_decide (name ≠ "") then ns +:+ String "/" name
    else podNamespace +:+ String "/" (if bool_decide (name ≠ "") then name else ns)
  else podNamespace +:+ String "/" value.

Definition PodGangKey (p : Pod) : option string :=
  match PodHasGangName p with
  | None => None
  | Some name =>
      if bool_decide (TrimSpace name = "") then None
      else
        let key := normalizeGangKey (p_Namespace p) name in
        if HasSuffix key "/" then None else Some key
  end.

(** ** Device selectors *)

Fixpoint match_entries (deviceValue : string) (entries : list string) (need : bool) : bool * bool :=
  match entries with
  | [] => (false, need)
  | e :: es =>
      let entry := TrimSpace e in
      if bool_decide (entry = "") then match_entries deviceValue es need
      else if Contains deviceValue entry then (true, true)
      else match_entries deviceValue es true
  end.

Definition matchDeviceSelector (value deviceValue : string) : bool * bool :=
  match_entries deviceValue (split_char "," (ToUpper value)) false.

Definition CheckDeviceType (annotations : gmap string string) (deviceType : string) : bool :=
  let deviceType := ToUpper (TrimSpace deviceType) in
  let included :=
    match annotations !! PodIncludeGpuTypeAnnotation with
    | Some includes => let '(m, need) := matchDeviceSelector includes deviceType in negb (need && negb m)
    | None => true
    end in
  let excluded :=
    match annotations !! PodExcludeGpuTypeAnnotation with
    | Some excludes => let '(m, need) := matchDeviceSelector excludes deviceType in need && m
    | None => false
    end in
  included && negb excluded.

Definition CheckDeviceUuid (annotations : gmap string string) (deviceUUID : string) : bool :=
  let deviceUUID := ToUpper (TrimSpace deviceUUID) in
  let included :=
    match annotations !! PodIncludeGPUUUIDAnnotation with
    | Some includes => let '(m, need) := matchDeviceSelector includes deviceUUID in negb (need && negb m)
    | None => true
    end in
  let excluded :=
    match annotations !! PodExcludeGPUUUIDAnnotation with
    | Some excludes => let '(m, need) := matchDeviceSelector excludes deviceUUID in need && m
    | None => false
    end in
  included && negb excluded.
End helpers.

(** ** Concrete objects for the examples *)
Module Demo.
Definition env : Env := {| globalDomainName := "nvidia.com"; time_now := 0; stuckGracePeriod := 0 |}.

Definition container (name : string) (limits : list (string * Z)) : Container :=
  {| c_Name := name; c_Limits := list_to_map limits; c_Requests := ∅; c_Claims := []; c_IsRestartableInitContainer := false; c_Env := [] |}.

Definition rest : PodRest :=
  {| ps_GenerateName := ""; ps_ResourceVersion := ""; ps_SchedulerName := ""; ps_NodeSelector := ∅;
     ps_RuntimeClassName := None; ps_ResourceClaims := []; ps_ResourceClaimStatuses := []; ps_DNSPolicy := "ClusterFirst";
     ps_DNSConfig := None; ps_HostNetwork := false |}.

Definition pod (name : string) (annotations : list (string * string)) (inits containers : list Container) : Pod :=
  {| p_Name := name; p_Namespace := "default"; p_UID := "uid-" +:+ name; p_Labels := ∅;
     p_Annotations := list_to_map annotations; p_OwnerReferences := []; p_GetControllerOf := None;
     p_DeletionTimestamp := None; p_NodeName := ""; p_Containers := containers; p_InitContainers := inits;
     p_PodGroupName := None; p_Phase := "Pending"; p_StatusReason := ""; p_ContainerStatuses := [];
     p_InitContainerStatuses := []; p_PodScheduledCondition := None; p_OS := None; p_Priority := None;
     p_CreationTimestamp := 0; p_Tolerations := []; p_IsCriticalPod := false; p_Rest := rest |}.
End Demo.
