(* ===== verification/Claims.v ===== *)
(** * Device claims and their annotation text ([pkg/device/types.go])

    A pod's allocation travels between the scheduler and the device plugin as
    one annotation string,
    ["cont1[id_uuid_cores_memory,...];cont2[...]"].  This file models the
    three [MarshalText]/[UnmarshalText] pairs, the readers of the two
    annotations ([GetPodDeviceClaim], [GetCurrentPreAllocateContainerDevice],
    [PodPreAllocatedUUIDs]) and the writer of the "real" one
    ([UpdatePodRealContainerDeviceClaim]), and proves the round trip and the
    behaviour of the per-container cursor. *)

From stdpp Require Import base list gmap strings.
From Stdlib Require Import ZArith Ascii.
From S2P Require Import Prelude GoStrings GoTime Kube.


Record DeviceClaim := {
  dc_Id : Z;
  dc_Uuid : string;
  dc_Cores : Z;
  dc_Memory : Z
}.

Record ContainerDeviceClaim := {
  cdc_Name : string;
  cdc_DeviceClaims : list DeviceClaim
}.

Definition PodDeviceClaim : Type := list ContainerDeviceClaim.

Inductive codec_error := ErrInputEmpty | ErrFormat | ErrNumber.

#[export] Instance DeviceClaim_eq_dec : EqDecision DeviceClaim.
Proof. solve_decision. Defined.
#[export] Instance ContainerDeviceClaim_eq_dec : EqDecision ContainerDeviceClaim.
Proof. solve_decision. Defined.

(** ** [DeviceClaim] *)

Definition DeviceClaim_MarshalText (dc : DeviceClaim) : string :=
  Itoa (dc_Id dc) +:+ "_" +:+ dc_Uuid dc +:+ "_" +:+ Itoa (dc_Cores dc) +:+ "_" +:+ Itoa (dc_Memory dc).

Definition parse_number (s : string) : result codec_error Z :=
  match ParseInt s with Some z => Ok z | None => Fail ErrNumber end.

Definition DeviceClaim_UnmarshalText (text : string) : result codec_error DeviceClaim :=
  let text := remove_char " " text in
  if bool_decide (text = "") then Fail ErrInputEmpty
  else
    match split_char "_" text with
    | [s0; s1; s2; s3] =>
        let* id := parse_number s0 in
        let* cores := parse_number s2 in
        let* memory := parse_number s3 in
        Ok {| dc_Id := id; dc_Uuid := s1; dc_Cores := cores; dc_Memory := memory |}
    | _ => Fail ErrFormat
    end.

(** ** [ContainerDeviceClaim] *)

Definition ContainerDeviceClaim_MarshalText (cdc : ContainerDeviceClaim) : string :=
  cdc_Name cdc +:+ "[" +:+ join_char "," (DeviceClaim_MarshalText <$> cdc_DeviceClaims cdc) +:+ "]".

(** The loop over the pieces between commas; empty pieces are skipped. *)
Fixpoint unmarshal_claims (pieces : list string) : result codec_error (list DeviceClaim) :=
  match pieces with
  | [] => Ok []
  | p :: ps =>
      if bool_decide (p = "") then unmarshal_claims ps
      else
        let* dc := DeviceClaim_UnmarshalText p in
        let* dcs := unmarshal_claims ps in
        Ok (dc :: dcs)
  end.

Definition ContainerDeviceClaim_UnmarshalText (text : string) : result codec_error ContainerDeviceClaim :=
  let text := remove_char " " text in
  if bool_decide (text = "") then Fail ErrInputEmpty
  else
    match index_char "[" text, index_char "]" text with
    | Some startIndex, Some endIndex =>
        if bool_decide (startIndex = (String.length text - 1)%nat) then Fail ErrFormat
        else if bool_decide (endIndex ≠ (String.length text - 1)%nat) then Fail ErrFormat
        else
          let inner := str_take (endIndex - (startIndex + 1)) (str_drop (startIndex + 1) text) in
          let* dcs := unmarshal_claims (split_char "," inner) in
          Ok {| cdc_Name := str_take startIndex text; cdc_DeviceClaims := dcs |}
    | _, _ => Fail ErrFormat
    end.

(** ** [PodDeviceClaim] *)

Definition PodDeviceClaim_MarshalText (pdc : PodDeviceClaim) : string :=
  join_char ";" (ContainerDeviceClaim_MarshalText <$> pdc).

Fixpoint unmarshal_containers (pieces : list string) : result codec_error PodDeviceClaim :=
  match pieces with
  | [] => Ok []
  | p :: ps =>
      if bool_decide (p = "") then unmarshal_containers ps
      else
        let* cdc := ContainerDeviceClaim_UnmarshalText p in
        let* cdcs := unmarshal_containers ps in
        Ok (cdc :: cdcs)
  end.

Definition PodDeviceClaim_UnmarshalText (text : string) : result codec_error PodDeviceClaim :=
  let text := remove_char " " text in
  if bool_decide (text = "") then Fail ErrInputEmpty
  else unmarshal_containers (split_char ";" text).

(** ** Readers and writers of the annotations *)
Section annotations.
Context `{Env}.

(** Decoding into a variable that keeps its old (empty) value on error. *)
Definition decode_or_empty (text : string) : PodDeviceClaim :=
  match PodDeviceClaim_UnmarshalText text with Ok pdc => pdc | Fail _ => [] end.

Definition UpdatePodRealContainerDeviceClaim (pod : Pod) (cdc : ContainerDeviceClaim) : Pod :=
  let val := annotation pod PodVGPURealAllocAnnotation in
  let pdc := if bool_decide (val ≠ "") then decode_or_empty val else [] in
  InsertAnnotation pod PodVGPURealAllocAnnotation (PodDeviceClaim_MarshalText (pdc ++ [cdc])).

Definition GetPodDeviceClaim (pod : Pod) : PodDeviceClaim :=
  let realAlloc := annotation pod PodVGPURealAllocAnnotation in
  let real := if bool_decide (realAlloc ≠ "") then decode_or_empty realAlloc else [] in
  let preAlloc := annotation pod PodVGPUPreAllocAnnotation in
  let pre := if bool_decide (preAlloc ≠ "") then decode_or_empty preAlloc else [] in
  if bool_decide (length pre ≤ length real)%nat then real else pre.

Inductive current_error :=
| ErrParsePre (e : codec_error) | ErrPreEmpty | ErrParseReal (e : codec_error)
| ErrNoSuchContainer (name : string) | ErrNoneAssignable.

Definition checkExistCont (pod : Pod) (contName : string) : bool :=
  existsb (λ c, bool_decide (c_Name c = contName)) (p_InitContainers pod) ||
  existsb (λ c, bool_decide (c_Name c = contName)) (p_Containers pod).

(** The first pre-allocated entry whose name is not among the real ones. *)
Fixpoint first_unassigned (real pre : PodDeviceClaim) : option ContainerDeviceClaim :=
  match pre with
  | [] => None
  | c :: pre' =>
      if existsb (λ cd, bool_decide (cdc_Name cd = cdc_Name c)) real
      then first_unassigned real pre'
      else Some c
  end.

Definition GetCurrentPreAllocateContainerDevice (pod : Pod) : result current_error ContainerDeviceClaim :=
  match PodDeviceClaim_UnmarshalText (annotation pod PodVGPUPreAllocAnnotation) with
  | Fail e => Fail (ErrParsePre e)
  | Ok [] => Fail ErrPreEmpty
  | Ok (c0 :: pre) =>
      let check c := if checkExistCont pod (cdc_Name c) then Ok c else Fail (ErrNoSuchContainer (cdc_Name c)) in
      let realAlloc := annotation pod PodVGPURealAllocAnnotation in
      if bool_decide (realAlloc = "") then check c0
      else
        match PodDeviceClaim_UnmarshalText realAlloc with
        | Fail e => Fail (ErrParseReal e)
        | Ok real =>
            match first_unassigned real (c0 :: pre) with
            | Some c => check c
            | None => Fail ErrNoneAssignable
            end
        end
  end.

(** [PodPreAllocatedUUIDs]: the distinct non-empty UUIDs, in order of appearance. *)
Fixpoint dedup_nonempty (seen : gset string) (l : list string) : list string :=
  match l with
  | [] => []
  | u :: l' =>
      if bool_decide (u = "") then dedup_nonempty seen l'
      else if bool_decide (u ∈ seen) then dedup_nonempty seen l'
      else u :: dedup_nonempty ({[u]} ∪ seen) l'
  end.

Definition PodPreAllocatedUUIDs (pod : Pod) : list string :=
  dedup_nonempty ∅ (mjoin ((λ cdc, dc_Uuid <$> cdc_DeviceClaims cdc) <$> GetPodDeviceClaim pod)).
End annotations.

(** ** The round trip *)

(** Names are container names; identifiers are GPU UUIDs.  Neither contains
    the punctuation of the encoding: Kubernetes container names are DNS labels
    and NVIDIA UUIDs consist of letters, digits and dashes. *)
Definition clean (seps : list ascii) (s : string) : bool := forallb (λ c, free_of c s) seps.

Definition claim_wf (dc : DeviceClaim) : Prop :=
  in64 (dc_Id dc) ∧ in64 (dc_Cores dc) ∧ in64 (dc_Memory dc) ∧
  clean [" "; "_"; ","; "]"; ";"]%char (dc_Uuid dc) = true.

Definition container_claim_wf (cdc : ContainerDeviceClaim) : Prop :=
  clean [" "; "["; "]"; ";"]%char (cdc_Name cdc) = true ∧ Forall claim_wf (cdc_DeviceClaims cdc).

Lemma clean_free c seps s : c ∈ seps → clean seps s = true → free_of c s = true.
Proof.
  intros Hin. unfold clean. rewrite forallb_forall. intros H. apply H. by apply list_elem_of_In.
Qed.

Ltac solve_free :=
  repeat (rewrite ?free_of_app, ?free_of_cons);
  repeat split; try done; try (by apply Itoa_free);
  try (eapply clean_free; [|eassumption]; set_solver).

Lemma claim_text_free c dc :
  claim_wf dc → c ∈ [" "; ","; "]"; ";"]%char → free_of c (DeviceClaim_MarshalText dc) = true.
Proof.
  intros (_ & _ & _ & Hu) Hc. unfold DeviceClaim_MarshalText. simpl String.append.
  rewrite !elem_of_cons, elem_of_nil in Hc.
  destruct Hc as [->|[->|[->|[->|[]]]]]; solve_free.
Qed.

Lemma claim_text_ne dc : DeviceClaim_MarshalText dc ≠ "".
Proof.
  unfold DeviceClaim_MarshalText. intros E. apply (f_equal String.length) in E.
  rewrite !str_length_app in E. simpl in E. lia.
Qed.

(** A device claim survives its text form. *)
Lemma DeviceClaim_roundtrip dc :
  claim_wf dc → DeviceClaim_UnmarshalText (DeviceClaim_MarshalText dc) = Ok dc.
Proof.
  intros Hwf. pose proof Hwf as (Hi & Hc & Hm & Hu). unfold DeviceClaim_UnmarshalText.
  rewrite remove_char_free by (apply claim_text_free; [done|set_solver]).
  rewrite bool_decide_eq_false_2 by apply claim_text_ne.
  unfold DeviceClaim_MarshalText. simpl String.append.
  rewrite !split_char_app, split_char_free by solve_free.
  unfold parse_number. rewrite !ParseInt_Itoa by done. by destruct dc.
Qed.

Lemma unmarshal_claims_roundtrip dcs :
  Forall claim_wf dcs → unmarshal_claims (DeviceClaim_MarshalText <$> dcs) = Ok dcs.
Proof.
  induction 1 as [|dc dcs Hdc _ IH]; [done|]. rewrite fmap_cons. cbn [unmarshal_claims].
  rewrite bool_decide_eq_false_2 by apply claim_text_ne.
  rewrite DeviceClaim_roundtrip by done. cbn [rbind]. by rewrite IH.
Qed.

Lemma split_claims dcs :
  Forall claim_wf dcs →
  unmarshal_claims (split_char "," (join_char "," (DeviceClaim_MarshalText <$> dcs))) = Ok dcs.
Proof.
  intros Hwf. destruct dcs as [|dc dcs]; [done|].
  rewrite split_join; [by apply unmarshal_claims_roundtrip|done|].
  rewrite Forall_fmap. eapply Forall_impl; [done|]. intros x Hx. apply claim_text_free; [done|set_solver].
Qed.

Lemma join_claims_free c dcs :
  Forall claim_wf dcs → c ∈ [" "; "]"; ";"]%char →
  free_of c (join_char "," (DeviceClaim_MarshalText <$> dcs)) = true.
Proof.
  intros Hwf Hc. apply join_free.
  - rewrite !elem_of_cons, elem_of_nil in Hc. by destruct Hc as [->|[->|[->|[]]]].
  - rewrite Forall_fmap. eapply Forall_impl; [done|].
    intros x Hx. apply claim_text_free; [done|set_solver].
Qed.

Lemma container_text_free c cdc :
  container_claim_wf cdc → c ∈ [" "; ";"]%char →
  free_of c (ContainerDeviceClaim_MarshalText cdc) = true.
Proof.
  intros [Hn Hd] Hc. unfold ContainerDeviceClaim_MarshalText. simpl String.append.
  assert (free_of c (join_char "," (DeviceClaim_MarshalText <$> cdc_DeviceClaims cdc)) = true) as Hj
    by (apply join_claims_free; [done|set_solver]).
  rewrite !elem_of_cons, elem_of_nil in Hc. destruct Hc as [->|[->|[]]]; solve_free.
Qed.

(** A container's claims survive their text form. *)
Lemma ContainerDeviceClaim_roundtrip cdc :
  container_claim_wf cdc →
  ContainerDeviceClaim_UnmarshalText (ContainerDeviceClaim_MarshalText cdc) = Ok cdc.
Proof.
  intros Hwf. pose proof Hwf as [Hn Hd]. unfold ContainerDeviceClaim_UnmarshalText.
  rewrite remove_char_free by (apply container_text_free; [done|set_solver]).
  unfold ContainerDeviceClaim_MarshalText. simpl String.append.
  set (inner := join_char "," (DeviceClaim_MarshalText <$> cdc_DeviceClaims cdc)).
  assert (free_of "]" inner = true) as Hj by (apply join_claims_free; [done|set_solver]).
  set (name := cdc_Name cdc).
  assert (free_of "[" name = true) by (eapply clean_free; [|apply Hn]; set_solver).
  assert (free_of "]" name = true) by (eapply clean_free; [|apply Hn]; set_solver).
  assert (String.length (name +:+ String "[" (inner +:+ "]"))
          = (String.length name + String.length inner + 2)%nat) as Hlen
    by (rewrite str_length_app; simpl; rewrite str_length_app; simpl; lia).
  rewrite bool_decide_eq_false_2
    by (intros E; apply (f_equal String.length) in E; rewrite Hlen in E; simpl in E; lia).
  rewrite index_char_app by done.
  assert (name +:+ String "[" (inner +:+ "]") = (name +:+ String "[" inner) +:+ "]") as Eassoc
    by (rewrite str_app_assoc; done).
  assert (index_char "]" (name +:+ String "[" (inner +:+ "]"))
          = Some (String.length name + String.length inner + 1)%nat) as ->.
  { rewrite Eassoc, index_char_app by solve_free. f_equal. rewrite str_length_app. simpl. lia. }
  rewrite Hlen. rewrite !bool_decide_eq_false_2 by lia.
  assert (str_drop (String.length name + 1) (name +:+ String "[" (inner +:+ "]")) = inner +:+ "]") as ->.
  { replace (String.length name + 1)%nat with (String.length (name +:+ "["))
      by (rewrite str_length_app; simpl; lia).
    replace (name +:+ String "[" (inner +:+ "]")) with ((name +:+ "[") +:+ (inner +:+ "]"))
      by (rewrite str_app_assoc; done).
    apply str_drop_app. }
  replace (String.length name + String.length inner + 1 - (String.length name + 1))%nat
    with (String.length inner) by lia.
  rewrite !str_take_app. unfold inner. rewrite split_claims by done. simpl.
  by destruct cdc.
Qed.

Lemma container_text_ne cdc : ContainerDeviceClaim_MarshalText cdc ≠ "".
Proof.
  unfold ContainerDeviceClaim_MarshalText. intros E. apply (f_equal String.length) in E.
  rewrite !str_length_app in E. simpl in E. lia.
Qed.

Lemma unmarshal_containers_roundtrip pdc :
  Forall container_claim_wf pdc →
  unmarshal_containers (ContainerDeviceClaim_MarshalText <$> pdc) = Ok pdc.
Proof.
  induction 1 as [|cdc pdc Hc _ IH]; [done|]. rewrite fmap_cons. cbn [unmarshal_containers].
  rewrite bool_decide_eq_false_2 by apply container_text_ne.
  rewrite ContainerDeviceClaim_roundtrip by done. cbn [rbind]. by rewrite IH.
Qed.

Lemma pod_text_ne cdc pdc : PodDeviceClaim_MarshalText (cdc :: pdc) ≠ "".
Proof.
  unfold PodDeviceClaim_MarshalText. intros E. destruct pdc as [|c2 pdc]; simpl in E.
  - by apply container_text_ne in E.
  - apply (f_equal String.length) in E. rewrite str_length_app in E. simpl in E. lia.
Qed.

Lemma pod_roundtrip pdc :
  pdc ≠ [] → Forall container_claim_wf pdc →
  PodDeviceClaim_UnmarshalText (PodDeviceClaim_MarshalText pdc) = Ok pdc.
Proof.
  intros Hne Hwf. unfold PodDeviceClaim_UnmarshalText.
  assert (free_of " " (PodDeviceClaim_MarshalText pdc) = true) as Hsp.
  { apply join_free; [done|]. rewrite Forall_fmap. eapply Forall_impl; [done|].
    intros x Hx. apply container_text_free; [done|set_solver]. }
  rewrite remove_char_free by done.
  rewrite bool_decide_eq_false_2 by (destruct pdc; [done|apply pod_text_ne]).
  unfold PodDeviceClaim_MarshalText. rewrite split_join.
  - by apply unmarshal_containers_roundtrip.
  - by destruct pdc.
  - rewrite Forall_fmap. eapply Forall_impl; [done|].
    intros x Hx. apply container_text_free; [done|set_solver].
Qed.

(** C28 The allocation annotation round trips: a non-empty claim whose names
    and uuids avoid the separators and whose numbers are machine integers is
    decoded from its encoding unchanged, so what the scheduler writes is what
    the device plugin and the accounting read. *)
Theorem PodDeviceClaim_roundtrip pdc :
  pdc ≠ [] → Forall container_claim_wf pdc →
  PodDeviceClaim_UnmarshalText (PodDeviceClaim_MarshalText pdc) = Ok pdc.
Proof. apply pod_roundtrip. Qed.

(** ** The per-container cursor

    The device plugin serves the pod's containers one at a time: it asks for
    the current pre-allocated entry and then records it as real. *)
Section cursor.
Context `{Env}.

Lemma annotation_insert pod k v : annotation (InsertAnnotation pod k v) k = v.
Proof. unfold annotation, HasAnnotation. simpl. by rewrite lookup_insert_eq. Qed.

Lemma annotation_insert_ne pod k k' v : k ≠ k' → annotation (InsertAnnotation pod k v) k' = annotation pod k'.
Proof. intros. unfold annotation, HasAnnotation. simpl. by rewrite lookup_insert_ne. Qed.

Lemma pre_real_keys : PodVGPURealAllocAnnotation ≠ PodVGPUPreAllocAnnotation.
Proof. by apply key_ne. Qed.

(** Reading a well-formed annotation, absent when there is no entry. *)
Lemma read_claims l :
  Forall container_claim_wf l →
  (if bool_decide (PodDeviceClaim_MarshalText l ≠ "") then decode_or_empty (PodDeviceClaim_MarshalText l) else []) = l.
Proof.
  intros Hwf. destruct l as [|c l]; [done|].
  rewrite bool_decide_eq_true_2 by apply pod_text_ne.
  unfold decode_or_empty. by rewrite pod_roundtrip.
Qed.

Lemma update_real_annotation pod done c :
  Forall container_claim_wf done →
  annotation pod PodVGPURealAllocAnnotation = PodDeviceClaim_MarshalText done →
  annotation (UpdatePodRealContainerDeviceClaim pod c) PodVGPURealAllocAnnotation
  = PodDeviceClaim_MarshalText (done ++ [c]).
Proof.
  intros Hwf Hreal. unfold UpdatePodRealContainerDeviceClaim.
  rewrite annotation_insert, Hreal, read_claims by done. done.
Qed.

Lemma update_real_pre pod c :
  annotation (UpdatePodRealContainerDeviceClaim pod c) PodVGPUPreAllocAnnotation
  = annotation pod PodVGPUPreAllocAnnotation.
Proof. apply annotation_insert_ne, pre_real_keys. Qed.

Lemma update_real_exists pod c name :
  checkExistCont (UpdatePodRealContainerDeviceClaim pod c) name = checkExistCont pod name.
Proof. done. Qed.

Lemma first_unassigned_skip real done rest :
  Forall (λ c, cdc_Name c ∈ cdc_Name <$> real) done →
  first_unassigned real (done ++ rest) = first_unassigned real rest.
Proof.
  induction 1 as [|c done Hc _ IH]; [done|]. simpl.
  assert (existsb (λ cd, bool_decide (cdc_Name cd = cdc_Name c)) real = true) as ->; [|done].
  apply list_elem_of_fmap in Hc as (cd & Hn & Hin).
  apply existsb_exists. exists cd. split; [by apply list_elem_of_In|].
  by apply bool_decide_eq_true_2.
Qed.

Lemma first_unassigned_hit real c rest :
  cdc_Name c ∉ cdc_Name <$> real → first_unassigned real (c :: rest) = Some c.
Proof.
  intros Hc. simpl. destruct (existsb _ real) eqn:E; [|done]. exfalso.
  apply existsb_exists in E as (cd & Hin & Hn). apply bool_decide_eq_true_1 in Hn.
  apply Hc. rewrite <- Hn. by apply list_elem_of_fmap_2, list_elem_of_In.
Qed.

Lemma names_assigned (done : PodDeviceClaim) : Forall (λ c, cdc_Name c ∈ cdc_Name <$> done) done.
Proof. apply Forall_forall. intros c Hc. by apply list_elem_of_fmap_2. Qed.

(** With [done] recorded as real, the current entry is the next one. *)
Lemma current_is_next pod done c rest :
  Forall container_claim_wf (done ++ c :: rest) →
  NoDup (cdc_Name <$> done ++ c :: rest) →
  annotation pod PodVGPUPreAllocAnnotation = PodDeviceClaim_MarshalText (done ++ c :: rest) →
  annotation pod PodVGPURealAllocAnnotation = PodDeviceClaim_MarshalText done →
  checkExistCont pod (cdc_Name c) = true →
  GetCurrentPreAllocateContainerDevice pod = Ok c.
Proof.
  intros Hwf Hnd Hpre Hreal Hex. unfold GetCurrentPreAllocateContainerDevice.
  rewrite Hpre, Hreal, pod_roundtrip by (done || by destruct done).
  destruct done as [|d done]; [simpl; by rewrite Hex|].
  assert (cdc_Name c ∉ cdc_Name <$> d :: done) as Hfresh.
  { rewrite fmap_app in Hnd. apply NoDup_app in Hnd as (_ & Hdis & _).
    intros Hin. eapply Hdis; [apply Hin|]. rewrite fmap_cons. by left. }
  apply Forall_app in Hwf as [Hwf _]. cbn [app].
  rewrite bool_decide_eq_false_2 by apply pod_text_ne.
  rewrite pod_roundtrip by done.
  change (d :: done ++ c :: rest) with ((d :: done) ++ c :: rest).
  rewrite first_unassigned_skip by apply names_assigned.
  rewrite first_unassigned_hit by done. by rewrite Hex.
Qed.

Lemma current_exhausted pod pre :
  pre ≠ [] → Forall container_claim_wf pre →
  annotation pod PodVGPUPreAllocAnnotation = PodDeviceClaim_MarshalText pre →
  annotation pod PodVGPURealAllocAnnotation = PodDeviceClaim_MarshalText pre →
  GetCurrentPreAllocateContainerDevice pod = Fail ErrNoneAssignable.
Proof.
  intros Hne Hwf Hpre Hreal. unfold GetCurrentPreAllocateContainerDevice.
  rewrite Hpre, Hreal, pod_roundtrip by done. destruct pre as [|d pre]; [done|].
  rewrite bool_decide_eq_false_2 by apply pod_text_ne.
  pose proof (first_unassigned_skip (d :: pre) (d :: pre) [] (names_assigned _)) as Hskip.
  rewrite app_nil_r in Hskip. by rewrite Hskip.
Qed.
End cursor.
