(* ===== verification/Plugin.v ===== *)
(** * Preferred allocation in the device plugin
    ([pkg/deviceplugin/vgpu/vnum_plugin.go])

    The kubelet asks which of the virtual device IDs ["<uuid>::<n>"] it should
    hand to the containers of a pod.  The plugin answers with IDs of the GPUs
    the scheduler pre-allocated and falls back to the first free IDs.  The pod
    the kubelet is serving is found by [getCurrentPod] (API server and cache),
    so it is an argument here. *)

From stdpp Require Import base list gmap strings.
From Stdlib Require Import ZArith Ascii.
From S2P Require Import Prelude GoStrings GoTime Kube Claims.

(** [pluginapi.ContainerPreferredAllocationRequest].  [AllocationSize] is a
    count, so it is a natural number. *)
Record PreferredRequest := {
  pr_AvailableDeviceIDs : list string;
  pr_MustIncludeDeviceIDs : list string;
  pr_AllocationSize : nat
}.

(** The loop of [defaultAllocateDeviceIDs] over one of its two lists: stop at
    [size] IDs, skip the allocated ones. *)
Fixpoint take_unallocated (size : nat) (ids : list string) (deviceIDs : list string) (allocated : gset string)
  : list string * gset string :=
  match ids with
  | [] => (deviceIDs, allocated)
  | id :: ids' =>
      if bool_decide (length deviceIDs = size) then (deviceIDs, allocated)
      else if bool_decide (id ∈ allocated) then take_unallocated size ids' deviceIDs allocated
      else take_unallocated size ids' (deviceIDs ++ [id]) ({[id]} ∪ allocated)
  end.

Definition defaultAllocateDeviceIDs (request : PreferredRequest) (allocated : gset string)
  : list string * gset string :=
  let size := pr_AllocationSize request in
  let '(deviceIDs, allocated) := take_unallocated size (pr_MustIncludeDeviceIDs request) [] allocated in
  take_unallocated size (pr_AvailableDeviceIDs request) deviceIDs allocated.

Inductive preferred_error :=
| ErrDefaultShort (i : nat) (requested got : nat)
| ErrCurrentPod
| ErrClaim (e : current_error)
| ErrSizeMismatch (requested claims : nat)
| ErrUuidUnavailable (uuid : string)
| ErrNoDeviceLeft (uuid : string).

(** [i] is the index of the first request of the list. *)
Fixpoint default_responses (i : nat) (requests : list PreferredRequest) (allocated : gset string)
  : result preferred_error (list (list string)) :=
  match requests with
  | [] => Ok []
  | req :: reqs =>
      let '(deviceIDs, allocated) := defaultAllocateDeviceIDs req allocated in
      if bool_decide (length deviceIDs ≠ pr_AllocationSize req)
      then Fail (ErrDefaultShort i (pr_AllocationSize req) (length deviceIDs))
      else
        let* resps := default_responses (S i) reqs allocated in
        Ok (deviceIDs :: resps)
  end.

Definition buildDefaultAllocationResponses (requests : list PreferredRequest)
  : result preferred_error (list (list string)) :=
  default_responses 0 requests ∅.

(** The part of [id] before the first ["::"], all of it when there is none. *)
Fixpoint cut_colons (id : string) : string :=
  if HasPrefix id "::" then ""
  else match id with
       | EmptyString => ""
       | String a s => String a (cut_colons s)
       end.

Definition buildAvailableDeviceMap (availableDeviceIDs : list string) : gmap string (list string) :=
  fold_left (λ m id, let uuid := cut_colons id in <[uuid := default [] (m !! uuid) ++ [id]]> m)
    availableDeviceIDs ∅.

Section plugin.
Context `{Env}.

Record preAllocContext := {
  pac_pod : Pod;
  pac_claims : list ContainerDeviceClaim;
  pac_availableMap : list (gmap string (list string))
}.

(** The loop of [buildPreAllocContext]: the pod's real annotation is the state. *)
Fixpoint pre_alloc_loop (pod : Pod) (requests : list PreferredRequest) : result preferred_error preAllocContext :=
  match requests with
  | [] => Ok {| pac_pod := pod; pac_claims := []; pac_availableMap := [] |}
  | req :: reqs =>
      match GetCurrentPreAllocateContainerDevice pod with
      | Fail e => Fail (ErrClaim e)
      | Ok claim =>
          if bool_decide (pr_AllocationSize req ≠ length (cdc_DeviceClaims claim))
          then Fail (ErrSizeMismatch (pr_AllocationSize req) (length (cdc_DeviceClaims claim)))
          else
            let* ctx := pre_alloc_loop (UpdatePodRealContainerDeviceClaim pod claim) reqs in
            Ok {| pac_pod := pac_pod ctx; pac_claims := claim :: pac_claims ctx;
                  pac_availableMap := buildAvailableDeviceMap (pr_AvailableDeviceIDs req) :: pac_availableMap ctx |}
      end
  end.

Definition buildPreAllocContext (currentPod : option Pod) (requests : list PreferredRequest)
  : result preferred_error preAllocContext :=
  match currentPod with
  | None => Fail ErrCurrentPod
  | Some pod => pre_alloc_loop pod requests
  end.

(** The first candidate not allocated yet; an empty ID counts as none. *)
Definition select_candidate (candidates : list string) (allocated : gset string) : string :=
  match list_find (λ id, id ∉ allocated) candidates with
  | Some (_, id) => id
  | None => ""
  end.

Fixpoint allocate_claims (dcs : list DeviceClaim) (availableMap : gmap string (list string)) (allocated : gset string)
  : result preferred_error (list string * gset string) :=
  match dcs with
  | [] => Ok ([], allocated)
  | dc :: dcs' =>
      match availableMap !! dc_Uuid dc with
      | None => Fail (ErrUuidUnavailable (dc_Uuid dc))
      | Some candidates =>
          let selected := select_candidate candidates allocated in
          if bool_decide (selected = "") then Fail (ErrNoDeviceLeft (dc_Uuid dc))
          else
            let* '(ids, allocated) := allocate_claims dcs' availableMap ({[selected]} ∪ allocated) in
            Ok (selected :: ids, allocated)
      end
  end.

Definition allocateFromClaim (claim : ContainerDeviceClaim) (availableMap : gmap string (list string))
    (allocated : gset string) : result preferred_error (list string * gset string) :=
  allocate_claims (cdc_DeviceClaims claim) availableMap allocated.

Fixpoint claim_responses (requests : list PreferredRequest) (claims : list ContainerDeviceClaim)
    (availableMap : list (gmap string (list string))) (allocated : gset string)
  : result preferred_error (list (list string)) :=
  match requests, claims, availableMap with
  | req :: reqs, claim :: claims', am :: ams =>
      let* '(deviceIDs, allocated) := allocateFromClaim claim am allocated in
      if bool_decide (length deviceIDs ≠ pr_AllocationSize req)
      then Fail (ErrSizeMismatch (pr_AllocationSize req) (length deviceIDs))
      else
        let* resps := claim_responses reqs claims' ams allocated in
        Ok (deviceIDs :: resps)
  | _, _, _ => Ok []
  end.

Definition buildPreferredAllocationResponsesFromClaims (requests : list PreferredRequest) (preCtx : preAllocContext)
  : result preferred_error (list (list string)) :=
  claim_responses requests (pac_claims preCtx) (pac_availableMap preCtx) ∅.

Definition GetPreferredAllocation (currentPod : option Pod) (requests : list PreferredRequest)
  : result preferred_error (list (list string)) :=
  let* defaultResps := buildDefaultAllocationResponses requests in
  match buildPreAllocContext currentPod requests with
  | Fail _ => Ok defaultResps
  | Ok preCtx =>
      match buildPreferredAllocationResponsesFromClaims requests preCtx with
      | Fail _ => Ok defaultResps
      | Ok claimResps => Ok claimResps
      end
  end.
End plugin.

(** ** What the kubelet may rely on *)

(** One response per request, of the size asked for and drawn from the
    request's IDs, and no ID handed out twice. *)
Definition valid_responses (requests : list PreferredRequest) (resps : list (list string)) : Prop :=
  Forall2 (λ req ids, length ids = pr_AllocationSize req ∧
                      ids ⊆ pr_MustIncludeDeviceIDs req ++ pr_AvailableDeviceIDs req) requests resps ∧
  NoDup (mjoin resps).

(** The IDs [new] were free, come from [pool], and are now allocated. *)
Definition fresh_ext (pool : list string) (allocated allocated' : gset string) (new : list string) : Prop :=
  NoDup new ∧ (∀ x, x ∈ new → x ∉ allocated) ∧ new ⊆ pool ∧ allocated' = list_to_set new ∪ allocated.

Lemma fresh_ext_nil pool al : fresh_ext pool al al [].
Proof. split_and!; [constructor|set_solver..]. Qed.

Lemma fresh_ext_app p1 p2 al al1 al2 l1 l2 :
  fresh_ext p1 al al1 l1 → fresh_ext p2 al1 al2 l2 → fresh_ext (p1 ++ p2) al al2 (l1 ++ l2).
Proof.
  intros (N1 & F1 & S1 & ->) (N2 & F2 & S2 & ->). split_and!.
  - apply NoDup_app. set_solver.
  - set_solver.
  - set_solver.
  - rewrite list_to_set_app_L. set_solver.
Qed.

Lemma fresh_ext_cons pool al al' x l :
  x ∉ al → x ∈ pool → fresh_ext pool ({[x]} ∪ al) al' l → fresh_ext pool al al' (x :: l).
Proof.
  intros Hx Hp (N & F & S & ->). split_and!.
  - constructor; set_solver.
  - set_solver.
  - set_solver.
  - simpl. set_solver.
Qed.

Lemma fresh_ext_pool pool pool' al al' l : pool ⊆ pool' → fresh_ext pool al al' l → fresh_ext pool' al al' l.
Proof. intros ? (N & F & S & ->). split_and!; set_solver. Qed.

Lemma take_unallocated_ext size ids ds al ds' al' :
  take_unallocated size ids ds al = (ds', al') → ∃ new, ds' = ds ++ new ∧ fresh_ext ids al al' new.
Proof.
  revert ds al. induction ids as [|id ids IH]; intros ds al; simpl.
  - intros [= <- <-]. exists []. rewrite app_nil_r. split; [done|apply fresh_ext_nil].
  - case_bool_decide as Hlen.
    { intros [= <- <-]. exists []. rewrite app_nil_r. split; [done|apply fresh_ext_nil]. }
    case_bool_decide as Hal; intros (new & -> & Hnew)%IH.
    + exists new. split; [done|]. eapply fresh_ext_pool; [|done]. set_solver.
    + exists (id :: new). split; [by rewrite <- app_assoc|].
      apply fresh_ext_cons; [done|set_solver|]. eapply fresh_ext_pool; [|done]. set_solver.
Qed.

Lemma defaultAllocate_ext req al ids al' :
  defaultAllocateDeviceIDs req al = (ids, al') →
  fresh_ext (pr_MustIncludeDeviceIDs req ++ pr_AvailableDeviceIDs req) al al' ids.
Proof.
  unfold defaultAllocateDeviceIDs. destruct (take_unallocated _ (pr_MustIncludeDeviceIDs req) _ _) as [ds al1] eqn:E1.
  intros (new2 & -> & H2)%take_unallocated_ext.
  apply take_unallocated_ext in E1 as (new1 & -> & H1). simpl. by eapply fresh_ext_app.
Qed.

Lemma valid_responses_cons req reqs ids resps al al' pool :
  fresh_ext (pr_MustIncludeDeviceIDs req ++ pr_AvailableDeviceIDs req) al al' ids →
  length ids = pr_AllocationSize req →
  valid_responses reqs resps → (∀ x, x ∈ mjoin resps → x ∉ al') →
  pool = ids ++ mjoin resps →
  valid_responses (req :: reqs) (ids :: resps) ∧ (∀ x, x ∈ pool → x ∉ al).
Proof.
  intros (N & F & S & ->) Hlen [Hall Hnd] Hfresh ->. split; [split|].
  - constructor; done.
  - simpl. apply NoDup_app. set_solver.
  - set_solver.
Qed.

Lemma default_responses_valid i reqs al resps :
  default_responses i reqs al = Ok resps →
  valid_responses reqs resps ∧ ∀ x, x ∈ mjoin resps → x ∉ al.
Proof.
  revert i al resps. induction reqs as [|req reqs IH]; intros i al resps; simpl.
  { intros [= <-]. split; [split; constructor|set_solver]. }
  destruct (defaultAllocateDeviceIDs req al) as [ids al'] eqn:E. case_bool_decide as Hlen; [done|].
  destruct (default_responses _ reqs al') as [rs|] eqn:Er; intros [= <-].
  apply IH in Er as [Hv Hf]. eapply valid_responses_cons; [by apply defaultAllocate_ext| |done..].
  destruct (decide (length ids = pr_AllocationSize req)); done.
Qed.

Lemma availableMap_lookup ids u cs id :
  buildAvailableDeviceMap ids !! u = Some cs → id ∈ cs → id ∈ ids ∧ cut_colons id = u.
Proof.
  unfold buildAvailableDeviceMap.
  enough (∀ l m, (∀ u cs id, m !! u = Some cs → id ∈ cs → id ∈ l ∧ cut_colons id = u) →
    ∀ u cs id, fold_left (λ (m : gmap string (list string)) id, let uuid := cut_colons id in
                 <[uuid := default [] (m !! uuid) ++ [id]]> m) ids m !! u = Some cs →
      id ∈ cs → id ∈ l ++ ids ∧ cut_colons id = u) as Hgen.
  { apply (Hgen [] ∅). intros ???. by rewrite lookup_empty. }
  clear. induction ids as [|i ids IH]; intros l m Hm u cs id; simpl.
  { rewrite app_nil_r. apply Hm. }
  intros Hl Hin. replace (l ++ i :: ids) with ((l ++ [i]) ++ ids) by by rewrite <- app_assoc.
  eapply IH; [|done..]. intros u' cs' id'.
  destruct (decide (cut_colons i = u')) as [<-|Hne].
  - rewrite lookup_insert_eq. intros [= <-]. rewrite elem_of_app, list_elem_of_singleton.
    intros [Hold| ->]; [|set_solver].
    destruct (m !! cut_colons i) as [cs0|] eqn:E; [|set_solver].
    destruct (Hm _ _ _ E Hold). set_solver.
  - rewrite lookup_insert_ne by done. intros E Hold. destruct (Hm _ _ _ E Hold). set_solver.
Qed.

Section plugin_theorems.
Context `{Env}.

(** The IDs taken for a claim list are free ones of the right GPUs. *)
Lemma allocate_claims_ext dcs avail al ids al' :
  allocate_claims dcs (buildAvailableDeviceMap avail) al = Ok (ids, al') →
  fresh_ext avail al al' ids ∧ cut_colons <$> ids = dc_Uuid <$> dcs.
Proof.
  revert al ids. induction dcs as [|dc dcs IH]; intros al ids; simpl.
  { intros [= <- <-]. split; [apply fresh_ext_nil|done]. }
  destruct (buildAvailableDeviceMap avail !! dc_Uuid dc) as [cs|] eqn:Ecs; [|done].
  case_bool_decide as Hsel; [done|]. unfold select_candidate in *.
  destruct (list_find _ cs) as [[k id]|] eqn:Ef; [|done].
  apply list_find_Some in Ef as (Hk & Hfree & _).
  apply list_elem_of_lookup_2 in Hk.
  destruct (availableMap_lookup _ _ _ _ Ecs Hk) as [Hav Hu].
  destruct (allocate_claims dcs _ _) as [[ids' al2]|] eqn:Er; intros [= <- <-].
  apply IH in Er as [Hext Huu]. split; [by apply fresh_ext_cons|].
  rewrite !fmap_cons. by rewrite Hu, Huu.
Qed.

Lemma claim_responses_valid reqs claims al resps :
  length claims = length reqs →
  claim_responses reqs claims (buildAvailableDeviceMap <$> (pr_AvailableDeviceIDs <$> reqs)) al = Ok resps →
  (valid_responses reqs resps ∧ ∀ x, x ∈ mjoin resps → x ∉ al) ∧
  Forall2 (λ claim ids, cut_colons <$> ids = dc_Uuid <$> cdc_DeviceClaims claim) claims resps.
Proof.
  revert claims al resps. induction reqs as [|req reqs IH]; intros [|claim claims] al resps; simpl; try done.
  { intros _ [= <-]. split; [|constructor]. split; [split; constructor|set_solver]. }
  intros [= Hl]. unfold allocateFromClaim.
  destruct (allocate_claims _ _ al) as [[ids al']|] eqn:Ea; [|done]. simpl.
  case_bool_decide as Hlen; [done|].
  destruct (claim_responses reqs _ _ al') as [rs|] eqn:Er; intros [= <-].
  apply IH in Er as [[Hv Hf] Hu]; [|done].
  apply allocate_claims_ext in Ea as [Hext Huu]. split; [|by constructor].
  eapply valid_responses_cons; [|by destruct (decide (length ids = pr_AllocationSize req))|done..].
  eapply fresh_ext_pool; [|done]. set_solver.
Qed.

Lemma pre_alloc_loop_shape pod reqs ctx :
  pre_alloc_loop pod reqs = Ok ctx →
  length (pac_claims ctx) = length reqs ∧
  pac_availableMap ctx = buildAvailableDeviceMap <$> (pr_AvailableDeviceIDs <$> reqs).
Proof.
  revert pod ctx. induction reqs as [|req reqs IH]; intros pod ctx; simpl; [by intros [= <-]|].
  destruct (GetCurrentPreAllocateContainerDevice pod); [|done]. case_bool_decide; [done|].
  destruct (pre_alloc_loop _ reqs) as [ctx'|] eqn:E; intros [= <-]. simpl.
  apply IH in E as [-> ->]. done.
Qed.

(** The loop consumes the pre-allocated entries in order. *)
Lemma pre_alloc_loop_ok pod reqs done cs rest :
  Forall container_claim_wf (done ++ cs ++ rest) →
  NoDup (cdc_Name <$> done ++ cs ++ rest) →
  annotation pod PodVGPUPreAllocAnnotation = PodDeviceClaim_MarshalText (done ++ cs ++ rest) →
  annotation pod PodVGPURealAllocAnnotation = PodDeviceClaim_MarshalText done →
  Forall (λ c, checkExistCont pod (cdc_Name c) = true) cs →
  Forall2 (λ req c, pr_AllocationSize req = length (cdc_DeviceClaims c)) reqs cs →
  ∃ ctx, pre_alloc_loop pod reqs = Ok ctx ∧ pac_claims ctx = cs ∧
    annotation (pac_pod ctx) PodVGPURealAllocAnnotation = PodDeviceClaim_MarshalText (done ++ cs).
Proof.
  intros Hwf Hnd Hpre Hreal Hex Hsz. revert pod done Hwf Hnd Hpre Hreal Hex.
  induction Hsz as [|req c reqs cs Hc Hsz IH]; intros pod done Hwf Hnd Hpre Hreal Hex.
  { simpl. eexists. split_and!; [done..|]. by rewrite app_nil_r. }
  apply Forall_cons in Hex as [Hexc Hex]. simpl in *.
  assert (Forall container_claim_wf done) as Hwfd by (by apply Forall_app in Hwf as [? _]).
  erewrite current_is_next by done. rewrite bool_decide_eq_false_2 by auto.
  assert (done ++ c :: cs ++ rest = (done ++ [c]) ++ cs ++ rest) as Eq by by rewrite <- app_assoc.
  destruct (IH (UpdatePodRealContainerDeviceClaim pod c) (done ++ [c])) as (ctx & -> & <- & Hr).
  - by rewrite <- Eq.
  - by rewrite <- Eq.
  - by rewrite update_real_pre, <- Eq.
  - by apply update_real_annotation.
  - done.
  - simpl. eexists. split_and!; [done..|]. simpl. by rewrite Hr, <- app_assoc.
Qed.

(** C32 Every answer of [GetPreferredAllocation], claim-based or fallback, has
    one response per container request, of exactly the requested size, drawn
    from that request's own must-include or available IDs, and no virtual
    device ID is handed out twice across the containers of the pod. *)
Theorem GetPreferredAllocation_valid currentPod requests resps :
  GetPreferredAllocation currentPod requests = Ok resps → valid_responses requests resps.
Proof.
  unfold GetPreferredAllocation, buildDefaultAllocationResponses, buildPreAllocContext,
    buildPreferredAllocationResponsesFromClaims.
  destruct (default_responses 0 requests ∅) as [ds|] eqn:Ed; [|done]. simpl.
  apply default_responses_valid in Ed as [Hd _].
  destruct currentPod as [pod|]; [|by intros [= <-]].
  destruct (pre_alloc_loop pod requests) as [ctx|] eqn:Ec; [|by intros [= <-]].
  apply pre_alloc_loop_shape in Ec as [Hlen ->].
  destruct (claim_responses _ _ _ _) as [cs|] eqn:Er; intros [= <-]; [|done].
  by apply claim_responses_valid in Er as [[? _] _].
Qed.

End plugin_theorems.

(** ** A two-container pod *)
Module PluginDemo.
Definition claim (name uuid : string) : ContainerDeviceClaim :=
  {| cdc_Name := name; cdc_DeviceClaims := [{| dc_Id := 0; dc_Uuid := uuid; dc_Cores := 10; dc_Memory := 1024 |}] |}.

Definition pre : PodDeviceClaim := [claim "a" "GPU-1"; claim "b" "GPU-1"].

Definition pod : Pod :=
  Demo.pod "p" [("nvidia.com/pre-allocated", "a[0_GPU-1_10_1024];b[0_GPU-1_10_1024]")]
    [] [Demo.container "a" []; Demo.container "b" []].

Definition requests : list PreferredRequest :=
  replicate 2 {| pr_AvailableDeviceIDs := ["GPU-0::0"; "GPU-1::0"; "GPU-1::1"]; pr_MustIncludeDeviceIDs := [];
                 pr_AllocationSize := 1 |}.
End PluginDemo.

Lemma GetPreferredAllocation_valid_witness :
  valid_responses PluginDemo.requests [["GPU-1::0"]; ["GPU-1::1"]].
Proof.
  apply (@GetPreferredAllocation_valid Demo.env (Some PluginDemo.pod)). vm_compute. reflexivity.
Defined.

