(* ===== verification/Reason.v ===== *)
(** * Rejection reasons ([pkg/scheduler/reason/reason.go])

    Codes, per-node reasons and the rendering of the aggregate event.  The
    maps are visited in Go's open iteration order; the theorem says that the
    rendered text does not depend on it. *)

From stdpp Require Import base list gmap strings.
From Stdlib Require Import ZArith Lia.
From S2P Require Import Prelude GoMap GoSort GoStrings.

Definition Code : Type := string.

Definition NodeNotVGPUEnabled : Code := "NodeNotVGPUEnabled".
Definition NodeNoVGPURegister : Code := "NodeNoVGPURegister".
Definition NodeNoVGPUConfig : Code := "NodeNoVGPUConfig".
Definition NodeBadVGPURegister : Code := "NodeBadVGPURegister".
Definition NodeBadVGPUConfig : Code := "NodeBadVGPUConfig".
Definition NodeBadMemoryFactor : Code := "NodeBadMemoryFactor".
Definition NodeBadRemoteEndpoint : Code := "NodeBadRemoteEndpoint".
Definition NodeMemoryTypeMismatch : Code := "NodeMemoryTypeMismatch".
Definition NodeCacheMiss : Code := "NodeCacheMiss".
Definition NodeInfoBuildFailed : Code := "NodeInfoBuildFailed".
Definition NodeDeleting : Code := "NodeDeleting".
Definition DeviceUnhealthy : Code := "DeviceUnhealthy".
Definition DeviceMIGEnabled : Code := "DeviceMIGEnabled".
Definition InsufficientVGPUSlot : Code := "InsufficientVGPUSlot".
Definition InsufficientVGPUMemory : Code := "InsufficientVGPUMemory".
Definition InsufficientVGPUCore : Code := "InsufficientVGPUCore".
Definition DeviceTypeMismatch : Code := "DeviceTypeMismatch".
Definition DeviceUUIDMismatch : Code := "DeviceUUIDMismatch".
Definition InsufficientGPUCards : Code := "InsufficientGPUCards".
Definition InsufficientGPUResources : Code := "InsufficientGPUResources".
Definition LinkTopologyUnsatisfied : Code := "LinkTopologyUnsatisfied".
Definition PCIeTopologyUnsatisfied : Code := "PCIeTopologyUnsatisfied".
Definition NUMATopologyUnsatisfied : Code := "NUMATopologyUnsatisfied".
Definition AlreadyScheduledElsewhere : Code := "AlreadyScheduledElsewhere".
Definition AllocatorInternalError : Code := "AllocatorInternalError".
Definition NodeIsRemoteServer : Code := "NodeIsRemoteServer".
Definition NodeRemoteServerUnreachable : Code := "NodeRemoteServerUnreachable".
Definition NodeNotRemoteConsumer : Code := "NodeNotRemoteConsumer".
Definition NoRemoteServer : Code := "NoRemoteServer".
Definition RemoteServerUnfit : Code := "RemoteServerUnfit".

Definition phrase : gmap Code string := list_to_map [
  (NodeNotVGPUEnabled, "node not vGPU-enabled");
  (NodeNoVGPURegister, "node has no vGPU registered");
  (NodeNoVGPUConfig, "node has no vGPU configuration");
  (NodeBadVGPUConfig, "node vGPU configuration invalid");
  (NodeBadVGPURegister, "node vGPU registry invalid");
  (NodeBadMemoryFactor, "node memory factor invalid");
  (NodeBadRemoteEndpoint, "node remote endpoint invalid");
  (NodeMemoryTypeMismatch, "node memory type mismatch");
  (NodeCacheMiss, "node missing from cache");
  (NodeInfoBuildFailed, "node info build failed");
  (NodeDeleting, "node is being deleted");
  (DeviceUnhealthy, "GPU unhealthy");
  (DeviceMIGEnabled, "GPU has MIG enabled");
  (InsufficientVGPUSlot, "Insufficient vGPU slots");
  (InsufficientVGPUMemory, "Insufficient vGPU memory");
  (InsufficientVGPUCore, "Insufficient vGPU cores");
  (DeviceTypeMismatch, "GPU type mismatch");
  (DeviceUUIDMismatch, "GPU UUID mismatch");
  (InsufficientGPUCards, "Insufficient GPU cards");
  (InsufficientGPUResources, "Insufficient GPU resources");
  (LinkTopologyUnsatisfied, "Link topology unsatisfied");
  (PCIeTopologyUnsatisfied, "PCIe topology unsatisfied");
  (NUMATopologyUnsatisfied, "NUMA topology unsatisfied");
  (AlreadyScheduledElsewhere, "pod already scheduled to another node");
  (AllocatorInternalError, "allocator internal error");
  (NodeIsRemoteServer, "node GPUs serve remote pods");
  (NodeRemoteServerUnreachable, "remote GPU server unreachable");
  (NodeNotRemoteConsumer, "node not a remote vGPU consumer");
  (NoRemoteServer, "No remote vGPU server available");
  (RemoteServerUnfit, "No remote vGPU server fits")].

Definition Phrase (c : Code) : string := default c (phrase !! c).

Record FilterReason := {
  fr_Primary : Code;
  fr_Counts : gmap Code Z;
  fr_TotalDevices : Z;
  fr_Detail : string
}.

Definition New (c : Code) : FilterReason :=
  {| fr_Primary := c; fr_Counts := ∅; fr_TotalDevices := 0; fr_Detail := "" |}.

(** [detail] is the formatted text. *)
Definition WithDetail (r : FilterReason) (detail : string) : FilterReason :=
  {| fr_Primary := fr_Primary r; fr_Counts := fr_Counts r; fr_TotalDevices := fr_TotalDevices r;
     fr_Detail := detail |}.

Definition Short (r : option FilterReason) : string :=
  match r with None => "" | Some r => Phrase (fr_Primary r) end.

(** [strings.Join] with a separator string *)
Fixpoint join_with (sep : string) (l : list string) : string :=
  match l with
  | [] => ""
  | [s] => s
  | s :: l' => s +:+ sep +:+ join_with sep l'
  end.

(** Descending count, then code. *)
Definition by_count_desc (x y : Code * Z) : bool := bool_decide (y.2 < x.2).
Definition count_less : Code * Z → Code * Z → bool := chain_less [by_count_desc; by_str fst].

Section rendering.
Context `{MapOrder}.

(** [all[0].c] of the sorted counts; the callers check that there is one. *)
Definition pickPrimary (counts : gmap Code Z) : Code :=
  match sort_slice count_less (range_str counts) with
  | [] => ""
  | (c, _) :: _ => c
  end.

Definition FromCounts (counts : gmap Code Z) (totalDevices : Z) : option FilterReason :=
  if bool_decide (counts = ∅) then None
  else Some {| fr_Primary := pickPrimary counts; fr_Counts := counts; fr_TotalDevices := totalDevices;
               fr_Detail := "" |}.

Definition renderCounts (counts : gmap Code Z) (total : Z) : string :=
  let part '(c, n) :=
    if bool_decide (0 < total) then Itoa n +:+ "/" +:+ Itoa total +:+ " " +:+ c else Itoa n +:+ " " +:+ c in
  join_with ", " (part <$> sort_slice count_less (range_str counts)).

Definition Detailed (r : option FilterReason) : string :=
  match r with
  | None => ""
  | Some r =>
      Phrase (fr_Primary r)
      +:+ (if bool_decide (fr_Counts r = ∅) then "" else " (" +:+ renderCounts (fr_Counts r) (fr_TotalDevices r) +:+ ")")
      +:+ (if bool_decide (fr_Detail r = "") then "" else " [" +:+ fr_Detail r +:+ "]")
  end.

Definition formatClause (c : Code) (nodes : list string) (limit : Z) : string :=
  let count := Z.of_nat (length nodes) in
  let p := Phrase c in
  if bool_decide (count = 0) then p
  else if bool_decide (0 < limit) && bool_decide (limit < count) then
    Itoa count +:+ " " +:+ p +:+ " (" +:+ join_with "," (take (Z.to_nat limit) nodes)
    +:+ " and " +:+ Itoa (count - limit) +:+ " more)"
  else Itoa count +:+ " " +:+ p +:+ " (" +:+ join_with "," nodes +:+ ")".

(** The bucket loop; nil reasons are skipped. *)
Definition add_bucket (buckets : gmap Code (list string)) (entry : string * option FilterReason)
  : gmap Code (list string) :=
  let '(nodeName, r) := entry in
  match r with
  | None => buckets
  | Some r => <[fr_Primary r := default [] (buckets !! fr_Primary r) ++ [nodeName]]> buckets
  end.

Definition by_nodes_desc (x y : Code * list string) : bool := bool_decide (length y.2 < length x.2)%nat.
Definition entry_less : Code * list string → Code * list string → bool :=
  chain_less [by_nodes_desc; by_str fst].

Definition sorted_buckets (perNode : gmap string (option FilterReason)) : gmap Code (list string) :=
  sort_strings <$> fold_left add_bucket (range_str perNode) ∅.

Definition FormatAggregate (totalNodes : Z) (perNode : gmap string (option FilterReason)) (limit : Z) : string :=
  if bool_decide (totalNodes ≤ 0) || bool_decide (perNode = ∅)
  then "0/" +:+ Itoa totalNodes +:+ " nodes are available"
  else
    let entries := sort_slice entry_less (range_str (sorted_buckets perNode)) in
    "0/" +:+ Itoa totalNodes +:+ " nodes are available: "
    +:+ join_with ", " ((λ '(c, ns), formatClause c ns limit) <$> entries) +:+ ".".
End rendering.

(** ** Independence of the iteration order *)

Lemma count_less_sw P : StrictWeak P count_less.
Proof.
  apply chain_less_sw. constructor; [|constructor; [apply by_str_sw|constructor]].
  unfold by_count_desc. constructor; intros *; rewrite ?bool_decide_eq_true, ?bool_decide_eq_false; lia.
Qed.

Lemma entry_less_sw P : StrictWeak P entry_less.
Proof.
  apply chain_less_sw. constructor; [|constructor; [apply by_str_sw|constructor]].
  unfold by_nodes_desc. constructor; intros *; rewrite ?bool_decide_eq_true, ?bool_decide_eq_false; lia.
Qed.

(** Sorting the entries of a map by a comparator that ends with the key. *)
Lemma sort_range_order {A} (o1 o2 : MapOrder) (first : string * A → string * A → bool) (m : gmap string A) :
  (∀ P, StrictWeak P (chain_less [first; by_str fst])) → (∀ P, StrictWeak P first) →
  sort_slice (chain_less [first; by_str fst]) (@range_str o1 A m)
  = sort_slice (chain_less [first; by_str fst]) (@range_str o2 A m).
Proof.
  intros Hsw Hfst. apply (sort_slice_unique (λ x, x ∈ map_to_list m)).
  - apply Hsw.
  - eapply chain_less_separates; [right; by left| |].
    + constructor; [apply Hfst|]. constructor; [apply by_str_sw|constructor].
    + apply by_str_separates. intros [k v] [k' v'] Hk%elem_of_map_to_list Hk'%elem_of_map_to_list. simpl.
      intros <-. congruence.
  - apply Forall_forall. intros x. by rewrite range_str_perm.
  - by rewrite !range_str_perm.
Qed.

Lemma sort_counts_order (o1 o2 : MapOrder) (m : gmap Code Z) :
  sort_slice count_less (@range_str o1 Z m) = sort_slice count_less (@range_str o2 Z m).
Proof.
  apply sort_range_order; [apply count_less_sw|]. intros P. unfold by_count_desc.
  constructor; intros *; rewrite ?bool_decide_eq_true, ?bool_decide_eq_false; lia.
Qed.

(** The names in the bucket of one code, in the order visited. *)
Lemma bucket_lookup l c (m : gmap Code (list string)) :
  default [] (fold_left add_bucket l m !! c)
  = default [] (m !! c) ++ (filter (λ e, fr_Primary <$> e.2 = Some c) l).*1.
Proof.
  revert m. induction l as [|[name r] l IH]; intros m; [by rewrite app_nil_r|].
  cbn [fold_left]. rewrite IH, filter_cons. simpl. destruct r as [r|]; simpl; [|done].
  rewrite lookup_insert. destruct (decide (fr_Primary r = c)) as [<-|Hne].
  - rewrite decide_True by done. simpl. by rewrite <- app_assoc.
  - rewrite decide_False by congruence. done.
Qed.

Lemma bucket_dom l c (m : gmap Code (list string)) :
  is_Some (fold_left add_bucket l m !! c) ↔ is_Some (m !! c) ∨ ∃ e, e ∈ l ∧ fr_Primary <$> e.2 = Some c.
Proof.
  revert m. induction l as [|[name r] l IH]; intros m; simpl.
  { split; [by left|]. intros [?|(e & He & _)]; [done|]. by apply not_elem_of_nil in He. }
  rewrite IH. setoid_rewrite elem_of_cons. destruct r as [r|]; simpl.
  - rewrite lookup_insert. destruct (decide (fr_Primary r = c)) as [<-|Hne].
    + split; [|left; eauto]. intros _. right. exists (name, Some r). auto.
    + split; [intros [?|(e & ? & ?)]; eauto|]. intros [?|(e & [->|?] & ?)]; [eauto|simplify_eq/=|eauto].
  - split; [intros [?|(e & ? & ?)]; eauto|]. intros [?|(e & [->|?] & ?)]; [eauto|done|eauto].
Qed.

Lemma sorted_buckets_order (o1 o2 : MapOrder) perNode : @sorted_buckets o1 perNode = @sorted_buckets o2 perNode.
Proof.
  apply map_eq. intros c. unfold sorted_buckets. rewrite !lookup_fmap.
  set (b1 := fold_left add_bucket (@range_str o1 _ perNode) ∅).
  set (b2 := fold_left add_bucket (@range_str o2 _ perNode) ∅).
  assert (is_Some (b1 !! c) ↔ is_Some (b2 !! c)) as Hdom.
  { unfold b1, b2. rewrite !bucket_dom. by setoid_rewrite range_str_perm. }
  assert (sort_strings (default [] (b1 !! c)) = sort_strings (default [] (b2 !! c))) as Hs.
  { apply sort_strings_perm. unfold b1, b2. rewrite !bucket_lookup, !lookup_empty. simpl.
    by rewrite !range_str_perm. }
  destruct (b1 !! c) as [l1|], (b2 !! c) as [l2|]; simpl in *.
  - by rewrite Hs.
  - destruct (proj1 Hdom ltac:(eauto)); done.
  - destruct (proj2 Hdom ltac:(eauto)); done.
  - done.
Qed.

(** The diagnostics are deterministic: the dominant code of a node, its
    detailed text and the "0/N nodes are available" summary do not depend on
    the order in which Go happens to iterate the maps. *)
Theorem diagnostics_deterministic (o1 o2 : MapOrder) counts totalDevices r totalNodes perNode limit :
  @FromCounts o1 counts totalDevices = @FromCounts o2 counts totalDevices ∧
  @Detailed o1 r = @Detailed o2 r ∧
  @FormatAggregate o1 totalNodes perNode limit = @FormatAggregate o2 totalNodes perNode limit.
Proof.
  split_and!.
  - unfold FromCounts, pickPrimary. by rewrite (sort_counts_order o1 o2).
  - unfold Detailed, renderCounts. destruct r as [r|]; [|done]. by rewrite (sort_counts_order o1 o2).
  - unfold FormatAggregate. rewrite (sorted_buckets_order o1 o2).
    unfold entry_less. rewrite (sort_range_order o1 o2); [done|apply entry_less_sw|].
    intros P. unfold by_nodes_desc.
    constructor; intros *; rewrite ?bool_decide_eq_true, ?bool_decide_eq_false; lia.
Qed.
