(* ===== verification/UnionFind.v ===== *)
(** * Union-find over device indices

    [computeTieredComponents] ([pkg/device/types.go]) and [groupByComponent]
    ([pkg/device/allocator/tiered.go]) both keep a [parent] slice and use the
    same [find] loop with path halving; they differ in how they link two
    roots.  This file has the loop, with a fuel that is the length of the
    slice, and proves that the fuel is enough, that halving keeps every root,
    and that after linking the edges of a list two indices have one root
    exactly when the edges connect them. *)

From stdpp Require Import base list relations.
From Stdlib Require Import ZArith Lia.
From S2P Require Import Prelude.

#[local] Open Scope nat_scope.

Fixpoint uf_find (fuel : nat) (parent : list nat) (x : nat) : nat * list nat :=
  match fuel with
  | O => (x, parent)
  | S fuel' =>
      match parent !! x with
      | None => (x, parent)
      | Some y =>
          if bool_decide (y = x) then (x, parent)
          else
            let gp := default y (parent !! y) in
            uf_find fuel' (<[x := gp]> parent) gp
      end
  end.

Definition find (parent : list nat) (x : nat) : nat * list nat := uf_find (length parent) parent x.

(** ** Roots *)

(** [root_in p k x r]: following parents from [x] reaches the root [r] in [k] steps. *)
Inductive root_in (p : list nat) : nat → nat → nat → Prop :=
| root_here x : p !! x = Some x → root_in p 0 x x
| root_up k x y r : p !! x = Some y → y ≠ x → root_in p k y r → root_in p (S k) x r.

Definition root_of (p : list nat) (x r : nat) : Prop := ∃ k, root_in p k x r.

(** Every index has a root. *)
Definition forest (p : list nat) : Prop := ∀ x, x < length p → ∃ r, root_of p x r.

Lemma root_in_det p k1 x r1 k2 r2 : root_in p k1 x r1 → root_in p k2 x r2 → k1 = k2 ∧ r1 = r2.
Proof.
  intros H1. revert k2 r2. induction H1 as [x Hx|k x y r Hx Hne _ IH]; intros k2 r2 H2;
    inversion H2; subst; simplify_eq; [done|]. edestruct IH; [eassumption|]. by subst.
Qed.

Lemma root_of_det p x r1 r2 : root_of p x r1 → root_of p x r2 → r1 = r2.
Proof. intros [k1 H1] [k2 H2]. by destruct (root_in_det _ _ _ _ _ _ H1 H2). Qed.

Lemma root_in_root p k x r : root_in p k x r → p !! r = Some r.
Proof. by induction 1. Qed.

Lemma root_of_self p r : p !! r = Some r → root_of p r r.
Proof. exists 0. by constructor. Qed.

Lemma root_of_root p x r : root_of p x r → p !! r = Some r.
Proof. intros [k Hk]. by eapply root_in_root. Qed.

Lemma root_in_lt p k x r : root_in p k x r → x < length p.
Proof. intros H. apply lookup_lt_is_Some. inversion H; subst; eauto. Qed.

Lemma root_of_lt p x r : root_of p x r → x < length p ∧ r < length p.
Proof.
  intros [k Hk]. split; [by eapply root_in_lt|].
  apply root_in_root in Hk. apply lookup_lt_is_Some. eauto.
Qed.

(** The path to the root repeats no index, so it is shorter than the slice. *)
Lemma root_path p k x r :
  root_in p k x r →
  ∃ path, length path = S k ∧ NoDup path ∧ ∀ y, y ∈ path → y < length p ∧ ∃ j, j ≤ k ∧ root_in p j y r.
Proof.
  induction 1 as [x Hx|k x y r Hx Hne H (path & Hlen & Hnd & Hin)].
  - exists [x]. split_and!; [done|apply NoDup_singleton|].
    intros y ->%list_elem_of_singleton. split; [apply lookup_lt_is_Some; eauto|].
    exists 0. split; [done|by constructor].
  - exists (x :: path). split_and!; [simpl; congruence| |].
    + constructor; [|done]. intros Hxin. destruct (Hin _ Hxin) as (_ & j & Hj & Hr).
      assert (root_in p (S k) x r) as Hx' by by econstructor.
      destruct (root_in_det _ _ _ _ _ _ Hr Hx'). lia.
    + intros z [->|Hz]%elem_of_cons.
      * split; [apply lookup_lt_is_Some; eauto|]. exists (S k). split; [lia|by econstructor].
      * destruct (Hin _ Hz) as (? & j & ? & ?). split; [done|]. exists j. split; [lia|done].
Qed.

Lemma root_in_bound p k x r : root_in p k x r → k < length p.
Proof.
  intros (path & Hlen & Hnd & Hin)%root_path.
  assert (path ⊆+ seq 0 (length p)) as Hsub.
  { apply NoDup_submseteq; [done|]. intros y Hy. apply elem_of_seq. destruct (Hin _ Hy). lia. }
  apply submseteq_length in Hsub. rewrite length_seq in Hsub. lia.
Qed.

(** ** Path halving *)

Lemma halve_root p x y gp :
  p !! x = Some y → y ≠ x → p !! y = Some gp →
  ∀ k z s, root_in p k z s → ∃ j, j ≤ k ∧ root_in (<[x := gp]> p) j z s.
Proof.
  intros Hx Hne Hy k. induction (lt_wf k) as [k _ IH]. intros z s Hz.
  assert (x < length p) as Hlt by (apply lookup_lt_is_Some; eauto).
  inversion Hz as [z' Hz'|k' z' w r' Hz' Hne' Hw]; subst.
  { exists 0. split; [lia|]. constructor. rewrite list_lookup_insert_ne; [done|]. intros ->. congruence. }
  destruct (decide (z = x)) as [->|Hzx].
  - simplify_eq. inversion Hw as [y' Hy'|k'' y' g r' Hy' Hne'' Hg]; subst; simplify_eq.
    + exists 1. split; [lia|]. econstructor; [by apply list_lookup_insert_eq|done|].
      constructor. rewrite list_lookup_insert_ne by done. done.
    + destruct (IH k'' ltac:(lia) _ _ Hg) as (j & Hjk & Hj).
      destruct (decide (gp = x)) as [->|Hgx].
      { pose proof (root_in_det _ _ _ _ _ _ Hg Hz). lia. }
      exists (S j). split; [lia|]. econstructor; [by apply list_lookup_insert_eq|done|done].
  - destruct (IH k' ltac:(lia) _ _ Hw) as (j & Hjk & Hj). exists (S j). split; [lia|].
    econstructor; [by rewrite list_lookup_insert_ne|done|done].
Qed.

(** Two slices with the same roots. *)
Definition same_roots (p q : list nat) : Prop :=
  length p = length q ∧ ∀ z s, root_of p z s ↔ root_of q z s.

#[export] Instance same_roots_equiv : Equivalence same_roots.
Proof.
  split.
  - by split.
  - intros p q [H1 H2]. split; [done|]. intros. by rewrite H2.
  - intros p q r [H1 H2] [H3 H4]. split; [congruence|]. intros. by rewrite H2, H4.
Qed.

Lemma same_roots_forest p q : same_roots p q → forest p → forest q.
Proof. intros [Hl Hr] Hf x Hx. destruct (Hf x ltac:(lia)) as [r Hr']. exists r. by apply Hr. Qed.

Lemma preserves_roots p q :
  forest p → length p = length q → (∀ z s, root_of p z s → root_of q z s) → same_roots p q.
Proof.
  intros Hf Hl Hpq. split; [done|]. intros z s. split; [apply Hpq|]. intros Hq.
  destruct (Hf z) as [s' Hs']; [rewrite Hl; by apply root_of_lt in Hq as [? _]|].
  by rewrite (root_of_det _ _ _ _ Hq (Hpq _ _ Hs')).
Qed.

Lemma uf_find_spec fuel p x k r :
  forest p → root_in p k x r → k < fuel → ∃ q, uf_find fuel p x = (r, q) ∧ same_roots p q.
Proof.
  revert p x k. induction fuel as [|fuel IH]; intros p x k Hf Hx Hk; [lia|]. simpl.
  inversion Hx as [x' Hx'|k' x' y r' Hx' Hne Hy]; subst.
  { rewrite Hx', bool_decide_eq_true_2 by done. by exists p. }
  rewrite Hx', bool_decide_eq_false_2 by done.
  assert (∃ gp, p !! y = Some gp) as [gp Hgp] by (inversion Hy; subst; eauto).
  rewrite Hgp. simpl.
  assert (same_roots p (<[x := gp]> p)) as Hsame.
  { apply preserves_roots; [done|by rewrite length_insert|]. intros z s [j Hj].
    destruct (halve_root p x y gp Hx' Hne Hgp _ _ _ Hj) as (j' & _ & ?). by exists j'. }
  assert (∃ j, root_in p j gp r ∧ j < fuel) as (j & Hj & Hlt).
  { inversion Hy as [y' Hy'|k'' y' g r'' Hy' Hne' Hg]; subst; simplify_eq.
    - exists 0. split; [by constructor|lia].
    - exists k''. split; [done|lia]. }
  destruct (halve_root p x y gp Hx' Hne Hgp _ _ _ Hj) as (j' & Hj' & Hgp').
  destruct (IH _ _ _ (same_roots_forest _ _ Hsame Hf) Hgp' ltac:(lia)) as (q & -> & Hq).
  exists q. split; [done|]. by trans (<[x := gp]> p).
Qed.

(** [find] returns the root and keeps every root. *)
Lemma find_spec p x :
  forest p → x < length p → ∃ r q, find p x = (r, q) ∧ root_of p x r ∧ same_roots p q.
Proof.
  intros Hf Hx. destruct (Hf x Hx) as [r [k Hk]].
  destruct (uf_find_spec (length p) p x k r Hf Hk (root_in_bound _ _ _ _ Hk)) as (q & E & Hq).
  exists r, q. split_and!; [done|by exists k|done].
Qed.

(** ** Linking two roots *)

Lemma link_root p ra rb z s :
  p !! ra = Some ra → p !! rb = Some rb → ra ≠ rb →
  root_of p z s → root_of (<[rb := ra]> p) z (if decide (s = rb) then ra else s).
Proof.
  intros Ha Hb Hne [k Hk].
  assert (rb < length p) as Hlt by (apply lookup_lt_is_Some; eauto).
  assert (root_of (<[rb := ra]> p) ra ra) as Hra.
  { apply root_of_self. by rewrite list_lookup_insert_ne. }
  induction Hk as [x Hx|k x y r Hx Hxy _ IH].
  - case_decide; subst.
    + destruct Hra as [j Hj]. exists (S j). econstructor; [by apply list_lookup_insert_eq|done|done].
    + apply root_of_self. by rewrite list_lookup_insert_ne.
  - destruct IH as [j Hj]. exists (S j).
    econstructor; [rewrite list_lookup_insert_ne; [done|congruence]|done|done].
Qed.

(** Two indices in one tree. *)
Definition same_set (p : list nat) (x y : nat) : Prop := ∃ r, root_of p x r ∧ root_of p y r.

Lemma same_set_roots p x y rx ry : root_of p x rx → root_of p y ry → same_set p x y ↔ rx = ry.
Proof.
  intros Hx Hy. split.
  - intros (r & Hr1 & Hr2). by rewrite (root_of_det _ _ _ _ Hx Hr1), (root_of_det _ _ _ _ Hy Hr2).
  - intros ->. by exists ry.
Qed.

(** ** Connectivity *)

Definition edge_rel (E : list (nat * nat)) (x y : nat) : Prop := (x, y) ∈ E.
Definition connected (E : list (nat * nat)) : relation nat := rtsc (edge_rel E).

Lemma connected_nil x y : connected [] x y ↔ x = y.
Proof.
  split; [|by intros ->]. intros H. inversion H as [|? z ? [Hz|Hz] _]; subst; [done|..];
    by apply not_elem_of_nil in Hz.
Qed.

Lemma connected_mono E E' x y : E ⊆ E' → connected E x y → connected E' x y.
Proof.
  intros HE. unfold connected, rtsc. induction 1 as [x|x y z Hxy _ IH]; [done|].
  eapply rtc_l; [|done]. destruct Hxy as [H|H]; [left|right]; by apply HE.
Qed.

Lemma connected_snoc E a b x y :
  connected (E ++ [(a, b)]) x y ↔
  connected E x y ∨ (connected E x a ∧ connected E b y) ∨ (connected E x b ∧ connected E a y).
Proof.
  assert (connected (E ++ [(a, b)]) a b) as Hab by (apply rtsc_lr; unfold edge_rel; set_solver).
  assert (∀ u v, connected E u v → connected (E ++ [(a, b)]) u v) as Hm
    by (intros u v; apply connected_mono; set_solver).
  split.
  - unfold connected at 1, rtsc. induction 1 as [x|x z y Hxz _ IH]; [left; done|].
    assert (connected E x z ∨ (x = a ∧ z = b) ∨ (x = b ∧ z = a)) as Hstep.
    { destruct Hxz as [H|H]; unfold edge_rel in H; apply elem_of_app in H as [H|H].
      - left. by apply rtsc_lr.
      - apply list_elem_of_singleton in H. naive_solver.
      - left. by apply rtsc_rl.
      - apply list_elem_of_singleton in H. naive_solver. }
    assert (∀ u, connected E u u) as Hrefl by (intros; reflexivity).
    destruct Hstep as [Hs|[[-> ->]|[-> ->]]].
    + destruct IH as [?|[[? ?]|[? ?]]].
      * left. by trans z.
      * right; left. split; [by trans z|done].
      * right; right. split; [by trans z|done].
    + destruct IH as [?|[[? ?]|[? ?]]]; [by right; left|by right; left|by left].
    + destruct IH as [?|[[? ?]|[? ?]]]; [by right; right|by left|by right; right].
  - intros [H|[[H1 H2]|[H1 H2]]]; [by apply Hm| |].
    + trans a; [by apply Hm|]. trans b; [done|by apply Hm].
    + trans b; [by apply Hm|]. trans a; [by symmetry|by apply Hm].
Qed.

(** The forest [p] over [n] indices represents the components of [E]. *)
Definition represents (n : nat) (p : list nat) (E : list (nat * nat)) : Prop :=
  length p = n ∧ forest p ∧ ∀ x y, x < n → y < n → same_set p x y ↔ connected E x y.

Lemma represents_init n : represents n (seq 0 n) [].
Proof.
  assert (∀ x, x < n → root_of (seq 0 n) x x) as Hr by (intros; by apply root_of_self, lookup_seq_lt).
  split_and!; [apply length_seq| |].
  - intros x Hx. rewrite length_seq in Hx. eauto.
  - intros x y Hx Hy. rewrite connected_nil. by apply same_set_roots; apply Hr.
Qed.

Lemma represents_same_roots n p q E : same_roots p q → represents n p E → represents n q E.
Proof.
  intros Hs (Hl & Hf & Hc). split_and!.
  - destruct Hs. congruence.
  - by eapply same_roots_forest.
  - intros x y Hx Hy. rewrite <- Hc by done. unfold same_set.
    destruct Hs as [_ Hs]. by setoid_rewrite Hs.
Qed.

Lemma represents_snoc_same n p E a b :
  a < n → b < n → same_set p a b → represents n p E → represents n p (E ++ [(a, b)]).
Proof.
  intros Ha Hb Hab (Hl & Hf & Hc). split_and!; [done..|]. intros x y Hx Hy.
  rewrite connected_snoc, Hc by done. apply Hc in Hab; [|done..].
  split; [by left|]. intros [?|[[? ?]|[? ?]]]; [done| |].
  - trans a; [done|]. by trans b.
  - trans b; [done|]. trans a; [by symmetry|done].
Qed.

(** Linking the roots of [a] and [b], either way round, adds the edge. *)
Lemma represents_link n p E a b u v :
  represents n p E → ¬ same_set p a b → a < n → b < n →
  (root_of p a u ∧ root_of p b v) ∨ (root_of p a v ∧ root_of p b u) →
  represents n (<[v := u]> p) (E ++ [(a, b)]).
Proof.
  intros (Hl & Hf & Hc) Hab Ha Hb Huv.
  assert (p !! u = Some u ∧ p !! v = Some v) as [Hu Hv].
  { destruct Huv as [[? ?]|[? ?]]; split; by eapply root_of_root. }
  assert (u ≠ v) as Huv'. { intros ->. apply Hab. destruct Huv as [[? ?]|[? ?]]; by exists v. }
  assert (∀ z, z < n → ∃ s, root_of p z s ∧ root_of (<[v := u]> p) z (if decide (s = v) then u else s)) as Hr.
  { intros z Hz. destruct (Hf z ltac:(lia)) as [s Hs]. exists s. split; [done|]. by apply link_root. }
  split_and!; [by rewrite length_insert| |].
  - intros z Hz. rewrite length_insert in Hz. destruct (Hr z ltac:(lia)) as (s & _ & Hs). eauto.
  - intros x y Hx Hy. destruct (Hr x Hx) as (sx & Hsx & Hsx'), (Hr y Hy) as (sy & Hsy & Hsy').
    rewrite (same_set_roots _ _ _ _ _ Hsx' Hsy'), connected_snoc, <- !Hc by done.
    destruct Huv as [[Hra Hrb]|[Hra Hrb]];
      rewrite (same_set_roots _ _ _ _ _ Hsx Hsy), (same_set_roots _ _ _ _ _ Hsx Hra),
        (same_set_roots _ _ _ _ _ Hsx Hrb), (same_set_roots _ _ _ _ _ Hra Hsy),
        (same_set_roots _ _ _ _ _ Hrb Hsy); clear -Huv'; repeat case_decide; intuition congruence.
Qed.
