(* ===== verification/Links.v ===== *)
(** * Linked devices and pair scores ([pkg/device/gpuallocator])

    [GDevice] is [gpuallocator.Device] with its point-to-point links.  A link
    is the type of [P2PLink]; the target pointer it also holds is the map key
    under which it is stored.  Devices of one list are at the position of
    their [Index], so pointer equality is equality of indices.  Scores are sums
    of a few table entries and stay far below the range of [int]. *)

From stdpp Require Import base list gmap strings.
From Stdlib Require Import ZArith Lia.
From S2P Require Import Prelude GoMap.

(** ** Link types ([links/device.go]) *)

Definition P2PLinkType : Type := Z.
Definition P2PLinkUnknown : P2PLinkType := 0.
Definition P2PLinkCrossCPU : P2PLinkType := 1.
Definition P2PLinkSameCPU : P2PLinkType := 2.
Definition P2PLinkHostBridge : P2PLinkType := 3.
Definition P2PLinkMultiSwitch : P2PLinkType := 4.
Definition P2PLinkSingleSwitch : P2PLinkType := 5.
Definition P2PLinkSameBoard : P2PLinkType := 6.
Definition SingleNVLINKLink : P2PLinkType := 7.
Definition EighteenNVLINKLinks : P2PLinkType := 24.

(** The number of NVLinks as a link type, [nvlinkCountToType]. *)
Definition nvlinkCountToType (n : Z) : P2PLinkType :=
  if bool_decide (n ≤ 0) then P2PLinkUnknown
  else if bool_decide (18 < n) then EighteenNVLINKLinks
  else SingleNVLINKLink + (n - 1).

Record GDevice := {
  g_Index : Z;
  g_UUID : string;
  g_BusID : string;
  g_Links : gmap Z (list P2PLinkType)
}.

(** A [DeviceList] entry is nil until it is filled. *)
Notation DeviceList := (list (option GDevice)).

Definition NewGDevice (index : Z) (uuid busId : string) : GDevice :=
  {| g_Index := index; g_UUID := uuid; g_BusID := busId; g_Links := ∅ |}.

(** [dev.Links[i]]: nil when absent. *)
Definition links_to (dev : GDevice) (i : Z) : list P2PLinkType := default [] (g_Links dev !! i).

Definition GDevice_AddLink (from to : GDevice) (linkType : P2PLinkType) : GDevice :=
  {| g_Index := g_Index from; g_UUID := g_UUID from; g_BusID := g_BusID from;
     g_Links := <[g_Index to := links_to from (g_Index to) ++ [linkType]]> (g_Links from) |}.

(** [DeviceList.AddLink]; [None] is the panic on an index out of range or a nil entry. *)
Definition DeviceList_AddLink (d : DeviceList) (from to : Z) (linkType : P2PLinkType) : option DeviceList :=
  if bool_decide (0 ≤ from ∧ 0 ≤ to) then
    match d !! Z.to_nat from, d !! Z.to_nat to with
    | Some (Some f), Some (Some t) => Some (<[Z.to_nat from := Some (GDevice_AddLink f t linkType)]> d)
    | _, _ => None
    end
  else None.

(** ** Pair scores ([besteffort_policy.go]) *)

Definition link_points (t : P2PLinkType) : Z :=
  match t with
  | 1 => 10 | 2 => 20 | 3 => 30 | 4 => 40 | 5 => 50 | 6 => 60
  | 7 => 100 | 8 => 200 | 9 => 300 | 10 => 400 | 11 => 500 | 12 => 600
  | 13 => 700 | 14 => 800 | 15 => 900 | 16 => 1000 | 17 => 1100 | 18 => 1200
  | 19 => 1300 | 20 => 1400 | 21 => 1500 | 22 => 1600 | 23 => 1700 | 24 => 1800
  | _ => 0
  end.

Definition calculateGPUPairScore (gpu0 gpu1 : option GDevice) : Z :=
  match gpu0, gpu1 with
  | Some g0, Some g1 =>
      if bool_decide (g_Index g0 = g_Index g1) then 0
      else if bool_decide (length (links_to g0 (g_Index g1)) ≠ length (links_to g1 (g_Index g0))) then 0
      else Zsum (link_points <$> links_to g0 (g_Index g1))
  | _, _ => 0
  end.

Definition PairScore (gpu0 gpu1 : GDevice) : Z := calculateGPUPairScore (Some gpu0) (Some gpu1).

Lemma link_points_nonneg t : 0 ≤ link_points t.
Proof. unfold link_points. repeat (case_match; try lia). Qed.

Lemma PairScore_nonneg a b : 0 ≤ PairScore a b.
Proof.
  unfold PairScore, calculateGPUPairScore. repeat case_bool_decide; [lia..|].
  apply Zsum_nonneg, Forall_fmap, Forall_forall. intros. apply link_points_nonneg.
Qed.

(** Both directions of every pair carry the same links. *)
Definition links_symmetric (l : DeviceList) : Prop :=
  ∀ a b, Some a ∈ l → Some b ∈ l → links_to a (g_Index b) = links_to b (g_Index a).

Lemma PairScore_sym l a b :
  links_symmetric l → Some a ∈ l → Some b ∈ l → PairScore a b = PairScore b a.
Proof.
  intros Hs Ha Hb. unfold PairScore, calculateGPUPairScore.
  rewrite (Hs a b Ha Hb). repeat case_bool_decide; congruence.
Qed.
