(* ===== verification/Topology.v ===== *)
(** * Tiered connectivity of a node ([pkg/device/types.go])

    [computeTieredComponents] walks the link tiers from tightest to loosest
    over one union-find with sizes and snapshots, per tier, the root of every
    device, the size of the largest component and whether the components are
    uniform.  The theorems say what these snapshots mean in terms of the links
    alone. *)

From stdpp Require Import base list gmap strings relations.
From Stdlib Require Import ZArith Lia Sorted.
From S2P Require Import Prelude GoMap UnionFind Links.

Inductive LinkTier := TierNVLink | TierSwitch | TierNUMA | TierAny.

#[export] Instance LinkTier_eq_dec : EqDecision LinkTier.
Proof. solve_decision. Defined.

Definition tier_index (t : LinkTier) : nat :=
  match t with TierNVLink => 0 | TierSwitch => 1 | TierNUMA => 2 | TierAny => 3 end.

(** [tierLadder], tightest first. *)
Definition tierLadder : list LinkTier := [TierNVLink; TierSwitch; TierNUMA; TierAny].

Definition linkTierThreshold (t : LinkTier) : Z :=
  match t with
  | TierNVLink => SingleNVLINKLink
  | TierSwitch => P2PLinkMultiSwitch
  | TierNUMA => P2PLinkSameCPU
  | TierAny => P2PLinkCrossCPU
  end.

Record tieredEdge := { e_i : nat; e_j : nat; e_t : Z }.

#[export] Instance tieredEdge_eq_dec : EqDecision tieredEdge.
Proof. solve_decision. Defined.

Record tieredComponents := {
  tc_n : nat;
  tc_roots : list nat;      (* [tier*n + i] *)
  tc_uniform : list bool;   (* per tier *)
  tc_maxSize : list nat     (* per tier *)
}.

(** ** Edges *)

Definition strongest (ls : list P2PLinkType) : Z :=
  fold_left (λ best l, if bool_decide (best < l) then l else best) ls 0.

Section edges.
Context `{MapOrder}.

(** The edges device [i] contributes: to higher indices, with a known link. *)
Definition edge_to (n i : nat) (entry : Z * list P2PLinkType) : list tieredEdge :=
  let '(j, ls) := entry in
  if bool_decide (j ≤ Z.of_nat i ∨ Z.of_nat n ≤ j) then []
  else
    let best := strongest ls in
    if bool_decide (P2PLinkUnknown < best) then [{| e_i := i; e_j := Z.to_nat j; e_t := best |}] else [].

Definition device_edges (n i : nat) (d : option GDevice) : list tieredEdge :=
  match d with
  | None => []
  | Some dev => mjoin (edge_to n i <$> range (g_Links dev))
  end.

Definition collect_edges (devices : DeviceList) : list tieredEdge :=
  mjoin (imap (device_edges (length devices)) devices).
End edges.

(** ** Union-find with sizes *)

Record uf_state := {
  us_parent : list nat;
  us_size : list nat;
  us_max : nat
}.

Definition uf_init (n : nat) : uf_state := {| us_parent := seq 0 n; us_size := replicate n 1%nat; us_max := 1 |}.

Definition size_at (size : list nat) (r : nat) : nat := default 0%nat (size !! r).

Definition union (st : uf_state) (a b : nat) : uf_state :=
  let '(ra, parent) := find (us_parent st) a in
  let '(rb, parent) := find parent b in
  if bool_decide (ra = rb) then {| us_parent := parent; us_size := us_size st; us_max := us_max st |}
  else
    let '(ra, rb) := if bool_decide (size_at (us_size st) ra < size_at (us_size st) rb)%nat then (rb, ra) else (ra, rb) in
    let s := (size_at (us_size st) ra + size_at (us_size st) rb)%nat in
    {| us_parent := <[rb := ra]> parent; us_size := <[ra := s]> (us_size st);
       us_max := if bool_decide (us_max st < s)%nat then s else us_max st |}.

(** Add every edge at or above the tier's threshold. *)
Definition addTier (edges : list tieredEdge) (threshold : Z) (st : uf_state) : uf_state :=
  fold_left (λ st e, if bool_decide (threshold ≤ e_t e) then union st (e_i e) (e_j e) else st) edges st.

(** [tc.roots[base+i] = find(i)] for every [i]. *)
Fixpoint snapshot_roots (idx : list nat) (parent : list nat) : list nat * list nat :=
  match idx with
  | [] => ([], parent)
  | i :: idx' =>
      let '(r, parent) := find parent i in
      let '(rs, parent) := snapshot_roots idx' parent in
      (r :: rs, parent)
  end.

(** ** Uniformity *)

Definition bump (m : gmap Z Z) (k : Z) : gmap Z Z := <[k := default 0 (m !! k) + 1]> m.

Definition root_at (roots : list nat) (i : nat) : Z := Z.of_nat (default 0%nat (roots !! i)).

(** The edge loop: [None] is the early [return false]. *)
Fixpoint uniform_edges (roots : list nat) (edges : list tieredEdge) (linkType seenEdges : gmap Z Z) : option (gmap Z Z) :=
  match edges with
  | [] => Some seenEdges
  | e :: edges' =>
      if bool_decide (root_at roots (e_i e) ≠ root_at roots (e_j e))
      then uniform_edges roots edges' linkType seenEdges
      else
        let root := root_at roots (e_i e) in
        match linkType !! root with
        | Some t => if bool_decide (t ≠ e_t e) then None
                    else uniform_edges roots edges' linkType (bump seenEdges root)
        | None => uniform_edges roots edges' (<[root := e_t e]> linkType) (bump seenEdges root)
        end
  end.

Section compute.
Context `{MapOrder}.

Definition componentsAreUniform (roots : list nat) (edges : list tieredEdge) (n : nat) : bool :=
  let members := fold_left (λ m i, bump m (root_at roots i)) (seq 0 n) ∅ in
  match uniform_edges roots edges ∅ ∅ with
  | None => false
  | Some seenEdges =>
      forallb (λ '(root, count),
          negb (bool_decide (1 < count) && bool_decide (default 0 (seenEdges !! root) ≠ count * (count - 1) / 2)))
        (range members)
  end.

(** The loop over the tiers, with what it has written so far. *)
Fixpoint tier_loop (tiers : list LinkTier) (edges : list tieredEdge) (n : nat) (st : uf_state)
    (roots : list nat) (uniform : list bool) (maxSize : list nat) : tieredComponents :=
  match tiers with
  | [] => {| tc_n := n; tc_roots := roots; tc_uniform := uniform; tc_maxSize := maxSize |}
  | tier :: tiers' =>
      let st := addTier edges (linkTierThreshold tier) st in
      let '(rs, parent) := snapshot_roots (seq 0 n) (us_parent st) in
      let st := {| us_parent := parent; us_size := us_size st; us_max := us_max st |} in
      tier_loop tiers' edges n st (roots ++ rs) (uniform ++ [componentsAreUniform rs edges n])
        (maxSize ++ [us_max st])
  end.

Definition computeTieredComponents (devices : DeviceList) : tieredComponents :=
  let n := length devices in
  if bool_decide (n = 0%nat) then
    {| tc_n := 0; tc_roots := []; tc_uniform := replicate 4 false; tc_maxSize := replicate 4 0%nat |}
  else tier_loop tierLadder (collect_edges devices) n (uf_init n) [] [] [].
End compute.

(** ** Reading the view; [None] is the nil pointer. *)

Definition rootOf (tc : option tieredComponents) (tier : LinkTier) (index : Z) : Z :=
  match tc with
  | Some tc =>
      if bool_decide (index < 0 ∨ Z.of_nat (tc_n tc) ≤ index) then -1
      else Z.of_nat (default 0%nat (tc_roots tc !! (tier_index tier * tc_n tc + Z.to_nat index)%nat))
  | None => -1
  end.

Definition largest (tc : option tieredComponents) (tier : LinkTier) : Z :=
  match tc with
  | Some tc => Z.of_nat (default 0%nat (tc_maxSize tc !! tier_index tier))
  | None => 0
  end.

Definition isUniform (tc : option tieredComponents) (tier : LinkTier) : bool :=
  match tc with
  | Some tc => default false (tc_uniform tc !! tier_index tier)
  | None => false
  end.

Definition byUUID (tc : option tieredComponents) (tier : LinkTier) (devices : DeviceList) : gmap string Z :=
  match tc with
  | None => ∅
  | Some _ =>
      fold_left (λ out '(i, d),
          match d with
          | None => out
          | Some dev =>
              let root := rootOf tc tier (Z.of_nat i) in
              if bool_decide (0 ≤ root) then <[g_UUID dev := root]> out else out
          end)
        (zip (seq 0 (length devices)) devices) ∅
  end.

(** ** Component sizes *)

(** The number of indices with root [r]. *)
Definition count_root (p : list nat) (r : nat) : nat :=
  length (filter (λ x, (find p x).1 = r) (seq 0 (length p))).

Lemma find_root p x r : forest p → (x < length p)%nat → (find p x).1 = r ↔ root_of p x r.
Proof.
  intros Hf Hx. destruct (find_spec p x Hf Hx) as (r' & q & -> & Hr & _). simpl.
  split; [by intros <-|]. intros Hr'. by apply (root_of_det p x).
Qed.

Lemma count_root_ext p q r : forest p → same_roots p q → count_root p r = count_root q r.
Proof.
  intros Hf Hs. unfold count_root. pose proof Hs as [Hl Hsr]. rewrite <- Hl. f_equal.
  apply filter_ext_in. intros x Hx%elem_of_seq.
  rewrite !find_root by (lia || done || by eapply same_roots_forest). apply Hsr.
Qed.

(** What the state means for the edges added so far. *)
Record uf_inv (n : nat) (st : uf_state) (E : list (nat * nat)) : Prop := {
  ui_repr : represents n (us_parent st) E;
  ui_len : length (us_size st) = n;
  ui_size : ∀ r, us_parent st !! r = Some r → us_size st !! r = Some (count_root (us_parent st) r);
  ui_le : ∀ r, us_parent st !! r = Some r → (count_root (us_parent st) r ≤ us_max st)%nat;
  ui_max : ∃ r, us_parent st !! r = Some r ∧ count_root (us_parent st) r = us_max st
}.

Lemma root_same_roots p q r : same_roots p q → p !! r = Some r ↔ q !! r = Some r.
Proof.
  intros [_ Hs]. split; intros Hr; apply root_of_self, Hs in Hr; by apply root_of_root in Hr.
Qed.

Lemma uf_inv_same_roots n st q E :
  same_roots (us_parent st) q → uf_inv n st E →
  uf_inv n {| us_parent := q; us_size := us_size st; us_max := us_max st |} E.
Proof.
  intros Hs [Hr Hl Hsz Hle (r & Hrr & Hm)]. pose proof Hr as (_ & Hf & _).
  split; simpl.
  - by eapply represents_same_roots.
  - done.
  - intros r' Hr'. rewrite <- (count_root_ext _ _ _ Hf Hs). apply Hsz. by eapply root_same_roots.
  - intros r' Hr'. rewrite <- (count_root_ext _ _ _ Hf Hs). apply Hle. by eapply root_same_roots.
  - exists r. rewrite <- (count_root_ext _ _ _ Hf Hs). split; [by eapply root_same_roots|done].
Qed.

(** Linking [v] under [u] merges their counts. *)
Lemma count_root_link p u v r :
  forest p → p !! u = Some u → p !! v = Some v → u ≠ v → forest (<[v := u]> p) →
  r ≠ v →
  count_root (<[v := u]> p) r = if decide (r = u) then (count_root p u + count_root p v)%nat else count_root p r.
Proof.
  intros Hf Hu Hv Hne Hf' Hrv. unfold count_root. rewrite length_insert.
  assert (∀ x, x ∈ seq 0 (length p) → ∃ s, root_of p x s ∧
     ((find p x).1 = s) ∧ (find (<[v := u]> p) x).1 = (if decide (s = v) then u else s)) as Hx.
  { intros x Hx%elem_of_seq. destruct (Hf x ltac:(lia)) as [s Hs]. exists s. split_and!; [done|..].
    - by apply find_root; [|lia|].
    - apply find_root; [done|rewrite length_insert; lia|]. by apply link_root. }
  case_decide as Hr.
  - subst. apply length_filter_or; intros x Hin; destruct (Hx x Hin) as (s & _ & E1 & E2);
      rewrite ?E2, ?E1; try case_decide; naive_solver.
  - f_equal. apply filter_ext_in. intros x Hin. destruct (Hx x Hin) as (s & _ & -> & ->). case_decide; naive_solver.
Qed.

Lemma uf_inv_link n st E a b u v :
  uf_inv n st E → ¬ same_set (us_parent st) a b → (a < n)%nat → (b < n)%nat →
  (root_of (us_parent st) a u ∧ root_of (us_parent st) b v) ∨ (root_of (us_parent st) a v ∧ root_of (us_parent st) b u) →
  let s := (size_at (us_size st) u + size_at (us_size st) v)%nat in
  uf_inv n {| us_parent := <[v := u]> (us_parent st); us_size := <[u := s]> (us_size st);
              us_max := if bool_decide (us_max st < s)%nat then s else us_max st |} (E ++ [(a, b)]).
Proof.
  intros [Hr Hl Hsz Hle (m & Hmr & Hm)] Hab Ha Hb Huv s.
  pose proof Hr as (Hlp & Hf & _). set (p := us_parent st) in *.
  assert (p !! u = Some u ∧ p !! v = Some v) as [Hu Hv].
  { destruct Huv as [[? ?]|[? ?]]; split; by eapply root_of_root. }
  assert (u ≠ v) as Hne. { intros ->. apply Hab. destruct Huv as [[? ?]|[? ?]]; by exists v. }
  assert (represents n (<[v := u]> p) (E ++ [(a, b)])) as Hr' by by eapply represents_link.
  pose proof Hr' as (_ & Hf' & _).
  assert (u < n ∧ v < n)%nat as [Hun Hvn].
  { rewrite <- Hlp. split; apply lookup_lt_is_Some; eauto. }
  assert (s = (count_root p u + count_root p v)%nat) as Es.
  { unfold s, size_at. by rewrite (Hsz u Hu), (Hsz v Hv). }
  assert (∀ r, <[v := u]> p !! r = Some r → p !! r = Some r ∧ r ≠ v) as Hroots.
  { intros r. rewrite list_lookup_insert. case_decide; [naive_solver|]. intros Hrr. split; [done|].
    intros ->. apply H. split; [done|]. lia. }
  assert (∀ r, p !! r = Some r → r ≠ v → <[v := u]> p !! r = Some r) as Hroots'
    by (intros r ??; by rewrite list_lookup_insert_ne).
  pose proof (λ r, count_root_link p u v r Hf Hu Hv Hne Hf') as Hcount.
  split; simpl; [done|by rewrite length_insert| | |].
  - intros r [Hr1 Hr2]%Hroots. rewrite Hcount by done. case_decide as Hru.
    + subst r. rewrite list_lookup_insert_eq by lia. by rewrite Es.
    + rewrite list_lookup_insert_ne by done. by apply Hsz.
  - intros r [Hr1 Hr2]%Hroots. rewrite Hcount by done. specialize (Hle r Hr1).
    case_decide; case_bool_decide; lia.
  - case_bool_decide as Hlt.
    + exists u. split; [by apply Hroots'|]. rewrite Hcount by done. rewrite decide_True by done. lia.
    + pose proof (Hle u Hu). pose proof (Hle v Hv). destruct (decide (m = u)) as [->|Hmu].
      * exists u. split; [by apply Hroots'|]. rewrite Hcount, decide_True by done. lia.
      * destruct (decide (m = v)) as [->|Hmv].
        -- exists u. split; [by apply Hroots'|]. rewrite Hcount, decide_True by done. lia.
        -- exists m. split; [by apply Hroots'|]. rewrite Hcount, decide_False by done. lia.
Qed.

Lemma uf_inv_edges n st E E' :
  (∀ x y, (x < n)%nat → (y < n)%nat → connected E x y ↔ connected E' x y) → uf_inv n st E → uf_inv n st E'.
Proof.
  intros HE [(Hl & Hf & Hc) ? ? ? ?]. split; [|done..]. split_and!; [done..|].
  intros x y Hx Hy. rewrite <- HE by done. by apply Hc.
Qed.

Lemma uf_inv_init n : (0 < n)%nat → uf_inv n (uf_init n) [].
Proof.
  intros Hn. assert (∀ r, (r < n)%nat → count_root (seq 0 n) r = 1%nat) as Hc.
  { intros r Hr. unfold count_root. rewrite length_seq.
    rewrite (filter_ext_in _ (λ x, x = r)).
    - clear -Hr. assert (filter (λ x, x = r) (seq 0 n) ≡ₚ [r]) as ->; [|done].
      apply NoDup_Permutation; [apply NoDup_filter, NoDup_seq|apply NoDup_singleton|].
      intros x. rewrite list_elem_of_filter, list_elem_of_singleton, elem_of_seq. lia.
    - intros x Hx%elem_of_seq. destruct (represents_init n) as (_ & Hf & _).
      rewrite find_root by (done || rewrite length_seq; lia).
      assert (root_of (seq 0 n) x x) as Hxx by (apply root_of_self, lookup_seq_lt; lia).
      split; [|by intros ->]. intros Hxr. by apply (root_of_det (seq 0 n) x). }
  split; simpl.
  - apply represents_init.
  - apply length_replicate.
  - intros r [_ Hr]%lookup_seq. rewrite Hc by lia. apply lookup_replicate. lia.
  - intros r [_ Hr]%lookup_seq. rewrite Hc; lia.
  - exists 0%nat. rewrite Hc by lia. split; [|done]. apply lookup_seq. lia.
Qed.

Lemma union_inv n st E a b :
  uf_inv n st E → (a < n)%nat → (b < n)%nat → uf_inv n (union st a b) (E ++ [(a, b)]).
Proof.
  intros Hi Ha Hb. pose proof (ui_repr _ _ _ Hi) as (Hl & Hf & Hc). unfold union.
  destruct (find_spec (us_parent st) a Hf ltac:(lia)) as (ra & q1 & -> & Hra & Hs1).
  assert (forest q1) as Hf1 by by eapply same_roots_forest.
  destruct (find_spec q1 b Hf1) as (rb & q2 & -> & Hrb & Hs2); [destruct Hs1; lia|].
  assert (same_roots (us_parent st) q2) as Hs by by trans q1.
  apply (uf_inv_same_roots _ _ _ _ Hs) in Hi.
  assert (root_of q2 a ra) as Ha2 by by apply Hs.
  assert (root_of q2 b rb) as Hb2 by by apply Hs2.
  case_bool_decide as Heq.
  - subst. destruct Hi as [Hr ? ? ? ?]. split; [|done..].
    apply represents_snoc_same; [done..|by exists rb|done].
  - assert (¬ same_set q2 a b) as Hns by by rewrite (same_set_roots _ _ _ _ _ Ha2 Hb2).
    pose proof (uf_inv_link n _ E a b ra rb Hi Hns Ha Hb) as H1.
    pose proof (uf_inv_link n _ E a b rb ra Hi Hns Ha Hb) as H2. simpl in H1, H2.
    destruct (bool_decide (size_at (us_size st) ra < _)%nat); [apply H2; by right|apply H1; by left].
Qed.

Definition edges_at (edges : list tieredEdge) (threshold : Z) : list (nat * nat) :=
  (λ e, (e_i e, e_j e)) <$> filter (λ e, threshold ≤ e_t e) edges.

Definition edges_in (n : nat) (edges : list tieredEdge) : Prop := Forall (λ e, (e_i e < e_j e < n)%nat) edges.

Lemma addTier_inv n edges threshold st E :
  edges_in n edges → uf_inv n st E → uf_inv n (addTier edges threshold st) (E ++ edges_at edges threshold).
Proof.
  intros He. revert st E. induction He as [|e edges He _ IH]; intros st E Hi.
  { by rewrite app_nil_r. }
  unfold addTier, edges_at in *. cbn [fold_left]. rewrite filter_cons.
  case_bool_decide as Ht.
  - rewrite decide_True by done. rewrite fmap_cons.
    rewrite cons_middle, app_assoc. apply IH, union_inv; [done|lia..].
  - rewrite decide_False by done. by apply IH.
Qed.

Lemma snapshot_spec idx p :
  forest p → Forall (λ i, (i < length p)%nat) idx →
  ∃ rs q, snapshot_roots idx p = (rs, q) ∧ same_roots p q ∧ Forall2 (root_of p) idx rs.
Proof.
  intros Hf Hidx. revert p Hf Hidx. induction idx as [|i idx IH]; intros p Hf Hidx; simpl.
  { by exists [], p. }
  apply Forall_cons in Hidx as [Hi Hidx].
  destruct (find_spec p i Hf Hi) as (r & q1 & -> & Hr & Hs1).
  destruct (IH q1) as (rs & q2 & -> & Hs2 & Hrs).
  - by eapply same_roots_forest.
  - eapply Forall_impl; [done|]. destruct Hs1 as [<- _]. done.
  - exists (r :: rs), q2. split_and!; [done|by trans q1|]. constructor; [done|].
    eapply Forall2_impl; [done|]. intros x y Hxy. by apply Hs1.
Qed.

(** ** What one tier's snapshot says *)

(** A set of devices that are mutually connected. *)
Definition group (n : nat) (R : relation nat) (l : list nat) : Prop :=
  NoDup l ∧ Forall (λ x, (x < n)%nat) l ∧ ∀ x y, x ∈ l → y ∈ l → R x y.

(** [m] is the size of the largest such set. *)
Definition max_group (n : nat) (R : relation nat) (m : nat) : Prop :=
  (∀ l, group n R l → (length l ≤ m)%nat) ∧ ∃ l, group n R l ∧ length l = m.

Lemma max_group_ext n (R R' : relation nat) m : (∀ x y, R x y ↔ R' x y) → max_group n R m ↔ max_group n R' m.
Proof. intros HR. unfold max_group, group. by setoid_rewrite HR. Qed.

Definition snapshot_ok (n : nat) (E : list (nat * nat)) (v : list nat * nat) : Prop :=
  length v.1 = n ∧
  (∀ i j ri rj, v.1 !! i = Some ri → v.1 !! j = Some rj → ri = rj ↔ connected E i j) ∧
  max_group n (connected E) v.2.

Lemma uf_inv_max_group n st E : uf_inv n st E → max_group n (connected E) (us_max st).
Proof.
  intros [(Hl & Hf & Hc) _ _ Hle (r & Hr & Hm)]. set (p := us_parent st) in *.
  assert (∀ x s, x ∈ filter (λ x, (find p x).1 = s) (seq 0 (length p)) ↔ (x < n)%nat ∧ root_of p x s) as Hin.
  { intros x s. rewrite list_elem_of_filter, elem_of_seq, Hl. split.
    - intros [Hx ?]. split; [lia|]. apply find_root in Hx; [done..|lia].
    - intros [? Hx]. split; [|lia]. apply find_root; [done|lia|done]. }
  split.
  - intros l (Hnd & Hlt & Hconn). destruct l as [|x l]; [simpl; lia|].
    rewrite Forall_forall in Hlt.
    destruct (Hf x) as [s Hs]; [rewrite Hl; apply Hlt; by left|].
    etrans; [|apply (Hle s); by eapply root_of_root].
    apply submseteq_length, NoDup_submseteq; [done|]. intros y Hy. apply Hin. split; [by apply Hlt|].
    specialize (Hconn x y ltac:(by left) Hy). apply Hc in Hconn as (s' & Hs1 & Hs2);
      [|apply Hlt; by left|by apply Hlt].
    by rewrite (root_of_det _ _ _ _ Hs Hs1).
  - exists (filter (λ x, (find p x).1 = r) (seq 0 (length p))). split; [|done]. split_and!.
    + apply NoDup_filter, NoDup_seq.
    + apply Forall_forall. intros x Hx. by apply Hin in Hx as [? _].
    + intros x y [Hx Hxr]%Hin [Hy Hyr]%Hin. apply Hc; [done..|]. by exists r.
Qed.

Lemma uf_inv_snapshot n st E rs :
  uf_inv n st E → Forall2 (root_of (us_parent st)) (seq 0 n) rs → snapshot_ok n E (rs, us_max st).
Proof.
  intros Hi Hrs. pose proof (ui_repr _ _ _ Hi) as (Hl & Hf & Hc). split_and!; simpl.
  - apply Forall2_length in Hrs. by rewrite length_seq in Hrs.
  - assert (∀ i r, rs !! i = Some r → (i < n)%nat ∧ root_of (us_parent st) i r) as Hroot.
    { intros i r Hr. destruct (Forall2_lookup_r _ _ _ _ _ Hrs Hr) as (k & [-> Hk]%lookup_seq & Hroot).
      split; [lia|done]. }
    intros i j ri rj [Hi1 Hi2]%Hroot [Hj1 Hj2]%Hroot. rewrite <- Hc by done.
    symmetry. by apply same_set_roots.
  - by apply uf_inv_max_group.
Qed.

Section views.
Context `{MapOrder}.

(** The loop appends one faithful snapshot per tier. *)
Lemma tier_loop_spec tiers edges n st E roots uniform maxSize :
  (0 < n)%nat → edges_in n edges → uf_inv n st E →
  (∀ t, t ∈ tiers → E ⊆ edges_at edges (linkTierThreshold t)) →
  StronglySorted (λ t t', linkTierThreshold t' ≤ linkTierThreshold t) tiers →
  ∃ views,
    Forall2 (λ t v, snapshot_ok n (edges_at edges (linkTierThreshold t)) v) tiers views ∧
    tier_loop tiers edges n st roots uniform maxSize =
    {| tc_n := n; tc_roots := roots ++ mjoin views.*1;
       tc_uniform := uniform ++ ((λ v, componentsAreUniform v.1 edges n) <$> views);
       tc_maxSize := maxSize ++ views.*2 |}.
Proof.
  intros Hn He. revert st E roots uniform maxSize.
  induction tiers as [|t tiers IH]; intros st E roots uniform maxSize Hi HE Hs.
  { exists []. simpl. rewrite !app_nil_r. split; [constructor|done]. }
  set (Et := edges_at edges (linkTierThreshold t)) in *.
  assert (uf_inv n (addTier edges (linkTierThreshold t) st) Et) as Hi'.
  { eapply uf_inv_edges; [|by apply addTier_inv]. intros x y _ _. fold Et.
    specialize (HE t ltac:(by left)). split; apply connected_mono; set_solver. }
  simpl. pose proof (ui_repr _ _ _ Hi') as (Hl & Hf & _).
  destruct (snapshot_spec (seq 0 n) (us_parent (addTier edges (linkTierThreshold t) st)) Hf) as (rs & q & -> & Hq & Hrs).
  { apply Forall_forall. intros x Hx%elem_of_seq. lia. }
  apply StronglySorted_inv in Hs as [Hs Hge].
  destruct (IH {| us_parent := q; us_size := us_size (addTier edges (linkTierThreshold t) st);
                  us_max := us_max (addTier edges (linkTierThreshold t) st) |} Et
              (roots ++ rs) (uniform ++ [componentsAreUniform rs edges n])
              (maxSize ++ [us_max (addTier edges (linkTierThreshold t) st)])) as (views & Hv & E').
  - by apply uf_inv_same_roots.
  - intros t' Ht'. rewrite Forall_forall in Hge. specialize (Hge t' Ht').
    unfold Et, edges_at. intros e (e0 & -> & Hin)%list_elem_of_fmap.
    apply list_elem_of_fmap. exists e0. split; [done|].
    apply list_elem_of_filter in Hin as [??]. apply list_elem_of_filter. split; [lia|done].
  - done.
  - exists ((rs, us_max (addTier edges (linkTierThreshold t) st)) :: views). split.
    + constructor; [|done]. by eapply uf_inv_snapshot.
    + rewrite E'. simpl. by rewrite <- !app_assoc.
Qed.

(** ** In terms of the links *)

(** Device [i] has a link of the tier's strength to the higher index [j]. *)
Definition direct (devices : DeviceList) (tier : LinkTier) (i j : nat) : Prop :=
  (i < j < length devices)%nat ∧
  ∃ dev l, devices !! i = Some (Some dev) ∧ l ∈ links_to dev (Z.of_nat j) ∧ linkTierThreshold tier ≤ l.

(** Reachable over links of the tier's strength. *)
Definition linked (devices : DeviceList) (tier : LinkTier) : relation nat := rtsc (direct devices tier).

Lemma strongest_spec ls thr : 0 < thr → thr ≤ strongest ls ↔ ∃ l, l ∈ ls ∧ thr ≤ l.
Proof.
  intros Hthr. unfold strongest.
  enough (∀ b, thr ≤ fold_left (λ best l, if bool_decide (best < l) then l else best) ls b
               ↔ thr ≤ b ∨ ∃ l, l ∈ ls ∧ thr ≤ l) as ->.
  { split; [intros [?|?]; [lia|done]|by right]. }
  induction ls as [|x ls IH]; intros b; simpl.
  { split; [by left|]. intros [?|(l & Hl & _)]; [done|]. by apply not_elem_of_nil in Hl. }
  rewrite IH. setoid_rewrite elem_of_cons. case_bool_decide.
  - split; [intros [?|(l & ? & ?)]; right; eauto|].
    intros [?|(l & [->|?] & ?)]; [left; lia|by left|right; eauto].
  - split; [intros [?|(l & ? & ?)]; [by left|right; eauto]|].
    intros [?|(l & [->|?] & ?)]; [by left|left; lia|right; eauto].
Qed.

Lemma elem_of_collect_edges devices e :
  e ∈ collect_edges devices ↔
  ∃ dev, devices !! e_i e = Some (Some dev) ∧ (e_i e < e_j e < length devices)%nat ∧
         is_Some (g_Links dev !! Z.of_nat (e_j e)) ∧
         e_t e = strongest (links_to dev (Z.of_nat (e_j e))) ∧ 0 < e_t e.
Proof.
  unfold collect_edges. rewrite list_elem_of_join. split.
  - intros (l & Hl & Hin). apply elem_of_lookup_imap in Hin as (i & d & -> & Hd).
    destruct d as [dev|]; [|by apply not_elem_of_nil in Hl]. simpl in Hl.
    apply list_elem_of_join in Hl as (l & Hl & Hin). apply list_elem_of_fmap in Hin as ([j ls] & -> & Hj).
    apply elem_of_range in Hj. unfold edge_to in Hl. case_bool_decide as Hr; [by apply not_elem_of_nil in Hl|].
    case_bool_decide as Hb; [|by apply not_elem_of_nil in Hl]. apply list_elem_of_singleton in Hl as ->. simpl.
    unfold P2PLinkUnknown in Hb. exists dev. rewrite Z2Nat.id by lia.
    unfold links_to. rewrite Hj. split_and!; [done|lia|lia|by eexists|done|done].
  - intros (dev & Hd & Hlt & [ls Hls] & Ht & Hpos).
    exists (device_edges (length devices) (e_i e) (Some dev)). split.
    + simpl. apply list_elem_of_join. exists (edge_to (length devices) (e_i e) (Z.of_nat (e_j e), ls)). split.
      * unfold links_to in Ht. rewrite Hls in Ht. simpl in Ht. unfold edge_to.
        rewrite bool_decide_eq_false_2 by lia. unfold P2PLinkUnknown.
        rewrite bool_decide_eq_true_2 by lia. rewrite Nat2Z.id. apply list_elem_of_singleton.
        destruct e. simpl in *. congruence.
      * apply list_elem_of_fmap_2. by apply elem_of_range.
    + apply elem_of_lookup_imap. eauto.
Qed.
End views.

Section faithful.
Context `{MapOrder}.

Lemma collect_edges_in devices : edges_in (length devices) (collect_edges devices).
Proof. apply Forall_forall. intros e (dev & _ & Hlt & _)%elem_of_collect_edges. done. Qed.

Lemma threshold_pos tier : 0 < linkTierThreshold tier.
Proof. by destruct tier. Qed.

Lemma edge_rel_direct devices tier i j :
  edge_rel (edges_at (collect_edges devices) (linkTierThreshold tier)) i j ↔ direct devices tier i j.
Proof.
  pose proof (threshold_pos tier) as Hpos. unfold edge_rel, edges_at, direct. rewrite list_elem_of_fmap. split.
  - intros (e & [= -> ->] & [Ht He]%list_elem_of_filter).
    apply elem_of_collect_edges in He as (dev & Hd & Hlt & _ & Et & _). rewrite Et in Ht.
    apply strongest_spec in Ht as (l & Hl & Hle); [|done]. eauto 10.
  - intros (Hlt & dev & l & Hd & Hl & Hle).
    exists {| e_i := i; e_j := j; e_t := strongest (links_to dev (Z.of_nat j)) |}. split; [done|].
    assert (linkTierThreshold tier ≤ strongest (links_to dev (Z.of_nat j))) as Hs
      by (apply strongest_spec; eauto).
    apply list_elem_of_filter. split; [done|]. apply elem_of_collect_edges. exists dev. simpl.
    split_and!; [done|lia|lia| |done|lia].
    unfold links_to in Hl. destruct (g_Links dev !! Z.of_nat j); [by eexists|by apply not_elem_of_nil in Hl].
Qed.

Lemma connected_linked devices tier x y :
  connected (edges_at (collect_edges devices) (linkTierThreshold tier)) x y ↔ linked devices tier x y.
Proof.
  unfold connected, linked. split; intros Hxy; (eapply (rtsc_congruence id); [|exact Hxy]);
    intros; by apply edge_rel_direct.
Qed.

(** The four snapshots. *)
Lemma compute_views devices :
  devices ≠ [] → ∃ v : LinkTier → list nat * nat,
    (∀ t, snapshot_ok (length devices) (edges_at (collect_edges devices) (linkTierThreshold t)) (v t)) ∧
    computeTieredComponents devices =
    {| tc_n := length devices;
       tc_roots := (v TierNVLink).1 ++ (v TierSwitch).1 ++ (v TierNUMA).1 ++ (v TierAny).1;
       tc_uniform := (λ t, componentsAreUniform (v t).1 (collect_edges devices) (length devices)) <$> tierLadder;
       tc_maxSize := (λ t, (v t).2) <$> tierLadder |}.
Proof.
  intros Hne. unfold computeTieredComponents.
  assert (0 < length devices)%nat as Hn by (destruct devices; [done|simpl; lia]).
  rewrite bool_decide_eq_false_2 by lia.
  edestruct (tier_loop_spec tierLadder (collect_edges devices) (length devices) (uf_init (length devices)) []
    [] [] []) as (views & Hv & E).
  - done.
  - apply collect_edges_in.
  - by apply uf_inv_init.
  - intros. apply list_subseteq_nil.
  - repeat (constructor; [|repeat constructor; done]). constructor.
  - assert (length views = 4%nat) as Hlen by (by apply Forall2_length in Hv).
    destruct views as [|v0 [|v1 [|v2 [|v3 [|]]]]]; try done.
    exists (λ t, match t with TierNVLink => v0 | TierSwitch => v1 | TierNUMA => v2 | TierAny => v3 end).
    split.
    + intros t. repeat (apply Forall2_cons in Hv as [? Hv]). by destruct t.
    + rewrite E. simpl. by rewrite app_nil_r.
Qed.

Lemma rootOf_view devices (v : LinkTier → list nat * nat) tier i r :
  (∀ t, length (v t).1 = length devices) →
  computeTieredComponents devices =
    {| tc_n := length devices;
       tc_roots := (v TierNVLink).1 ++ (v TierSwitch).1 ++ (v TierNUMA).1 ++ (v TierAny).1;
       tc_uniform := (λ t, componentsAreUniform (v t).1 (collect_edges devices) (length devices)) <$> tierLadder;
       tc_maxSize := (λ t, (v t).2) <$> tierLadder |} →
  (v tier).1 !! i = Some r →
  rootOf (Some (computeTieredComponents devices)) tier (Z.of_nat i) = Z.of_nat r.
Proof.
  intros Hl -> Hi. unfold rootOf. simpl.
  assert (i < length devices)%nat by (rewrite <- (Hl tier); apply lookup_lt_is_Some; eauto).
  rewrite bool_decide_eq_false_2 by lia. rewrite Nat2Z.id.
  pose proof (Hl TierNVLink). pose proof (Hl TierSwitch). pose proof (Hl TierNUMA). f_equal.
  destruct tier; simpl.
  - by rewrite lookup_app_l, Hi by lia.
  - rewrite lookup_app_r by lia. rewrite lookup_app_l by lia.
    replace (_ - _)%nat with i by lia. by rewrite Hi.
  - rewrite lookup_app_r by lia. rewrite lookup_app_r by lia. rewrite lookup_app_l by lia.
    replace (_ - _ - _)%nat with i by lia. by rewrite Hi.
  - rewrite lookup_app_r by lia. rewrite lookup_app_r by lia. rewrite lookup_app_r by lia.
    replace (_ - _ - _ - _)%nat with i by lia. by rewrite Hi.
Qed.

Lemma rootOf_linked devices tier i j :
  (i < length devices)%nat → (j < length devices)%nat →
  rootOf (Some (computeTieredComponents devices)) tier (Z.of_nat i)
  = rootOf (Some (computeTieredComponents devices)) tier (Z.of_nat j) ↔ linked devices tier i j.
Proof.
  intros Hi Hj. destruct (compute_views devices) as (v & Hv & E); [by intros ->; simpl in Hi; lia|].
  destruct (Hv tier) as (Hl & Hr & _).
  destruct (lookup_lt_is_Some_2 (v tier).1 i) as [ri Hri]; [lia|].
  destruct (lookup_lt_is_Some_2 (v tier).1 j) as [rj Hrj]; [lia|].
  rewrite (rootOf_view devices v tier i ri), (rootOf_view devices v tier j rj)
    by (done || intros t; by destruct (Hv t)).
  rewrite Nat2Z.inj_iff, (Hr i j ri rj) by done. apply connected_linked.
Qed.

Lemma largest_max_group devices tier :
  devices ≠ [] → ∃ m : nat, largest (Some (computeTieredComponents devices)) tier = Z.of_nat m ∧
    max_group (length devices) (linked devices tier) m.
Proof.
  intros Hne. destruct (compute_views devices Hne) as (v & Hv & ->). exists (v tier).2. split.
  - unfold largest. simpl. by destruct tier.
  - destruct (Hv tier) as (_ & _ & Hm). eapply max_group_ext; [|done]. intros. symmetry. apply connected_linked.
Qed.

(** C29 The tiered connectivity view is exact: at every tier two devices share
    a component root exactly when they reach each other over links of the
    tier's strength, published by the device of lower index, and the recorded
    size is that of the largest set of devices that reach each other. *)
Theorem tieredComponents_faithful devices tier :
  devices ≠ [] →
  (∀ i j, (i < length devices)%nat → (j < length devices)%nat →
     rootOf (Some (computeTieredComponents devices)) tier (Z.of_nat i)
     = rootOf (Some (computeTieredComponents devices)) tier (Z.of_nat j) ↔ linked devices tier i j) ∧
  ∃ m : nat, largest (Some (computeTieredComponents devices)) tier = Z.of_nat m ∧
    max_group (length devices) (linked devices tier) m.
Proof. intros Hne. split; [intros; by apply rootOf_linked|by apply largest_max_group]. Qed.
End faithful.
