(* ===== verification/Uniform.v ===== *)
(** * When a tier is uniform ([componentsAreUniform], [pkg/device/types.go])

    The routine counts, per component, its members and the edges inside it and
    compares link types as it goes.  It answers true exactly when every two
    devices of one component are directly linked, all with one link type. *)

From stdpp Require Import base list gmap strings relations.
From Stdlib Require Import ZArith Lia Sorted.
From S2P Require Import Prelude GoMap UnionFind Links Topology.

(** ** Counting with [bump] *)

Lemma bump_lookup m k r : default 0 (bump m k !! r) = default 0 (m !! r) + (if decide (k = r) then 1 else 0).
Proof.
  unfold bump. rewrite lookup_insert. case_decide; [by subst|]. lia.
Qed.

(** The edges inside the component with root [r]. *)
Definition inside (roots : list nat) (r : Z) (e : tieredEdge) : Prop :=
  root_at roots (e_i e) = r ∧ root_at roots (e_j e) = r.

#[export] Instance inside_dec roots r e : Decision (inside roots r e).
Proof. unfold inside. apply _. Defined.

(** All edges inside one component have one type. *)
Definition one_type (roots : list nat) (edges : list tieredEdge) : Prop :=
  ∀ r e e', e ∈ edges → e' ∈ edges → inside roots r e → inside roots r e' → e_t e = e_t e'.

Definition agrees (roots : list nat) (edges : list tieredEdge) (linkType : gmap Z Z) : Prop :=
  ∀ r t e, e ∈ edges → linkType !! r = Some t → inside roots r e → e_t e = t.

Lemma uniform_edges_some roots edges linkType seen seen' :
  uniform_edges roots edges linkType seen = Some seen' →
  agrees roots edges linkType ∧ one_type roots edges ∧
  ∀ r, default 0 (seen' !! r) = default 0 (seen !! r) + Z.of_nat (length (filter (inside roots r) edges)).
Proof.
  revert linkType seen. induction edges as [|e edges IH]; intros linkType seen; simpl.
  { intros [= <-]. split_and!; [|..|intros; simpl; lia].
    - intros ??? He. by apply not_elem_of_nil in He.
    - intros ??? He. by apply not_elem_of_nil in He. }
  case_bool_decide as Hcross.
  - intros (Ha & Ho & Hc)%IH.
    assert (∀ r, ¬ inside roots r e) as Hne by (intros r [? ?]; congruence).
    split_and!.
    + intros r t e' [->|He']%elem_of_cons Ht Hin; [by apply Hne in Hin|eauto].
    + intros r e1 e2 [->|H1]%elem_of_cons [->|H2]%elem_of_cons Hi1 Hi2; try done;
        [by apply Hne in Hi1|by apply Hne in Hi2|eauto].
    + intros r. rewrite Hc, filter_cons, decide_False by apply Hne. done.
  - assert (root_at roots (e_j e) = root_at roots (e_i e)) as Hj
      by (symmetry; destruct (decide (root_at roots (e_i e) = root_at roots (e_j e))); done).
    set (root := root_at roots (e_i e)) in *.
    assert (∀ r, inside roots r e ↔ r = root) as Hin by (intros r; unfold inside; rewrite Hj; naive_solver).
    assert (∀ lt, lt !! root = Some (e_t e) →
      uniform_edges roots edges lt (bump seen root) = Some seen' →
      (∀ r t, linkType !! r = Some t → lt !! r = Some t) →
      agrees roots (e :: edges) linkType ∧ one_type roots (e :: edges) ∧
      ∀ r, default 0 (seen' !! r) = default 0 (seen !! r) + Z.of_nat (length (filter (inside roots r) (e :: edges))))
      as Hgo.
    { intros lt Hlt (Ha & Ho & Hc)%IH Hext. split_and!.
      - intros r t e' [->|He']%elem_of_cons Ht Hi'; [|eauto].
        apply Hin in Hi' as ->. apply Hext in Ht. congruence.
      - intros r e1 e2 [->|H1]%elem_of_cons [->|H2]%elem_of_cons Hi1 Hi2; [done|..|eauto].
        + apply Hin in Hi1 as ->. symmetry. by eapply Ha.
        + apply Hin in Hi2 as ->. by eapply Ha.
      - intros r. rewrite Hc, bump_lookup, filter_cons.
        case_decide as Hr; [rewrite decide_True by by apply Hin|rewrite decide_False by (rewrite Hin; congruence)];
          simpl; lia. }
    destruct (linkType !! root) as [t|] eqn:Elt.
    + case_bool_decide as Ht; [done|]. intros Hu. eapply (Hgo linkType); [|done..].
      rewrite Elt. f_equal. destruct (decide (t = e_t e)); done.
    + intros Hu. eapply (Hgo (<[root := e_t e]> linkType)); [by rewrite lookup_insert_eq|done|].
      intros r t Hr. rewrite lookup_insert_ne; [done|]. intros <-. congruence.
Qed.

Lemma uniform_edges_total roots edges linkType seen :
  agrees roots edges linkType → one_type roots edges → is_Some (uniform_edges roots edges linkType seen).
Proof.
  revert linkType seen. induction edges as [|e edges IH]; intros linkType seen Ha Ho; simpl; [by eexists|].
  assert (one_type roots edges) as Ho' by (intros r e1 e2 ????; eapply Ho; [by right|by right|done..]).
  assert (agrees roots edges linkType) as Ha' by (intros r t e' ???; eapply Ha; [by right|done..]).
  case_bool_decide as Hcross; [by apply IH|].
  assert (inside roots (root_at roots (e_i e)) e) as Hin.
  { split; [done|]. symmetry. by destruct (decide (root_at roots (e_i e) = root_at roots (e_j e))). }
  destruct (linkType !! _) as [t|] eqn:Elt.
  - rewrite bool_decide_eq_false_2; [by apply IH|]. intros Hne. apply Hne. symmetry. eapply Ha; [by left|done..].
  - apply IH; [|done]. intros r t e' He'. rewrite lookup_insert. case_decide as Hr; [|by apply Ha'].
    subst r. intros [= <-] Hi'. eapply Ho; [by right|by left|done..].
Qed.

(** Members per root. *)
Lemma members_lookup roots idx m r :
  default 0 (fold_left (λ m i, bump m (root_at roots i)) idx m !! r)
  = default 0 (m !! r) + Z.of_nat (length (filter (λ i, root_at roots i = r) idx)).
Proof.
  revert m. induction idx as [|i idx IH]; intros m; [simpl; lia|].
  cbn [fold_left]. rewrite IH, bump_lookup, filter_cons. repeat case_decide; simpl; lia.
Qed.

(** ** Counting pairs *)

Fixpoint pairs_of (l : list nat) : list (nat * nat) :=
  match l with
  | [] => []
  | x :: l' => ((x,.) <$> l') ++ pairs_of l'
  end.

Lemma pairs_of_length l :
  Z.of_nat (length (pairs_of l)) = Z.of_nat (length l) * (Z.of_nat (length l) - 1) / 2.
Proof.
  apply Z.div_unique_exact; [done|]. induction l as [|x l IH]; [done|].
  cbn [pairs_of]. rewrite length_app, length_fmap. cbn [length]. lia.
Qed.

Lemma sorted_filter {A} (R : A → A → Prop) (P : A → Prop) `{!∀ x, Decision (P x)} l :
  StronglySorted R l → StronglySorted R (filter P l).
Proof.
  induction 1 as [|x l _ IH Hx]; [constructor|]. rewrite filter_cons. case_decide; [|done].
  constructor; [done|]. by apply Forall_filter.
Qed.

Lemma sorted_seq a n : StronglySorted lt (seq a n).
Proof.
  revert a. induction n as [|n IH]; intros a; simpl; constructor; [apply IH|].
  apply Forall_forall. intros x Hx%elem_of_seq. lia.
Qed.

Lemma elem_of_pairs_of l x y :
  StronglySorted lt l → (x, y) ∈ pairs_of l ↔ x ∈ l ∧ y ∈ l ∧ (x < y)%nat.
Proof.
  induction 1 as [|a l Hs IH Ha]; simpl.
  { rewrite !elem_of_nil. tauto. }
  rewrite elem_of_app, IH, list_elem_of_fmap, !elem_of_cons. rewrite Forall_forall in Ha. split.
  - intros [(y' & [= -> ->] & Hy)|(? & ? & ?)]; [|tauto].
    split; [by left|]. split; [by right|]. by apply Ha.
  - intros ([->|Hx] & [->|Hy] & Hlt); [lia|left; eauto|apply Ha in Hx; lia|right; tauto].
Qed.

Lemma NoDup_pairs_of l : StronglySorted lt l → NoDup (pairs_of l).
Proof.
  induction 1 as [|a l Hs IH Ha]; simpl; [constructor|]. rewrite Forall_forall in Ha.
  assert (NoDup l) as Hnd.
  { clear -Hs. induction Hs as [|x l _ IH Hx]; constructor; [|done].
    intros Hin. rewrite Forall_forall in Hx. specialize (Hx _ Hin). lia. }
  apply NoDup_app. split_and!; [|..|done].
  - apply NoDup_fmap_2; [|done]. by intros ?? [= ].
  - intros [x y] (y' & [= -> ->] & Hy)%list_elem_of_fmap (Hx & _ & _)%elem_of_pairs_of; [|done].
    apply Ha in Hx. lia.
Qed.

Definition ends (e : tieredEdge) : nat * nat := (e_i e, e_j e).

(** One component: all its pairs are linked exactly when it has as many edges as pairs. *)
Lemma component_complete n roots edges r :
  edges_in n edges → NoDup (ends <$> edges) →
  let comp := filter (λ i, root_at roots i = r) (seq 0 n) in
  Z.of_nat (length (filter (inside roots r) edges)) = Z.of_nat (length comp) * (Z.of_nat (length comp) - 1) / 2 ↔
  ∀ i j, (i < j < n)%nat → root_at roots i = r → root_at roots j = r → (i, j) ∈ ends <$> edges.
Proof.
  intros He Hnd comp. rewrite <- pairs_of_length.
  assert (StronglySorted lt comp) as Hs by apply sorted_filter, sorted_seq.
  assert (∀ i j, (i, j) ∈ pairs_of comp ↔ (i < j < n)%nat ∧ root_at roots i = r ∧ root_at roots j = r) as Hp.
  { intros i j. rewrite elem_of_pairs_of by done. unfold comp.
    rewrite !list_elem_of_filter, !elem_of_seq. intuition lia. }
  set (ins := filter (inside roots r) edges).
  assert (NoDup (ends <$> ins)) as Hndi.
  { eapply sublist_NoDup; [exact Hnd|]. apply fmap_sublist, sublist_filter. }
  assert (∀ i j, (i, j) ∈ ends <$> ins ↔ (i, j) ∈ ends <$> edges ∧ root_at roots i = r ∧ root_at roots j = r) as Hi.
  { intros i j. rewrite !list_elem_of_fmap. unfold ins, ends. setoid_rewrite list_elem_of_filter.
    unfold inside. split; [intros (e & [= -> ->] & [? ?] & ?); eauto 10|].
    intros ((e & [= -> ->] & ?) & ? & ?). eauto 10. }
  assert (∀ i j, (i, j) ∈ ends <$> ins → (i, j) ∈ pairs_of comp) as Hsub.
  { intros i j (Hin & ? & ?)%Hi. apply Hp. split; [|done].
    apply list_elem_of_fmap in Hin as (e & [= -> ->] & Hin). exact (proj1 (Forall_forall _ _) He _ Hin). }
  rewrite <- (length_fmap ends ins), Nat2Z.inj_iff. split.
  - intros Hlen i j Hij Hri Hrj.
    assert (incl (pairs_of comp) (ends <$> ins)) as Hincl.
    { apply NoDup_length_incl; [by apply NoDup_ListNoDup|lia|].
      intros [x y] Hx. apply list_elem_of_In, Hsub. by apply list_elem_of_In. }
    apply Hi. apply list_elem_of_In, Hincl, list_elem_of_In, Hp. done.
  - intros Hall. apply Nat.le_antisymm.
    + apply submseteq_length, NoDup_submseteq; [done|]. intros [x y]. apply Hsub.
    + apply submseteq_length, NoDup_submseteq; [by apply NoDup_pairs_of|].
      intros [x y] (Hxy & Hx & Hy)%Hp. apply Hi. split; [|done]. by apply Hall.
Qed.

Section uniform.
Context `{MapOrder}.

(** Any two pairs of one component are directly linked, with one type. *)
Definition interchangeable (n : nat) (roots : list nat) (edges : list tieredEdge) : Prop :=
  ∀ i j k l, (i < j < n)%nat → (k < l < n)%nat →
    root_at roots i = root_at roots j → root_at roots k = root_at roots l → root_at roots i = root_at roots k →
    ∃ t, {| e_i := i; e_j := j; e_t := t |} ∈ edges ∧ {| e_i := k; e_j := l; e_t := t |} ∈ edges.

Lemma NoDup_ends_inj edges e e' : NoDup (ends <$> edges) → e ∈ edges → e' ∈ edges → ends e = ends e' → e = e'.
Proof.
  induction edges as [|a edges IH]; [intros _ He; by apply not_elem_of_nil in He|].
  rewrite fmap_cons, NoDup_cons, !elem_of_cons. intros [Ha Hnd] [->|He] [->|He'] Heq; [done|..|by apply IH].
  - exfalso. apply Ha. rewrite Heq. by apply list_elem_of_fmap_2.
  - exfalso. apply Ha. rewrite <- Heq. by apply list_elem_of_fmap_2.
Qed.

Lemma componentsAreUniform_iff n roots edges :
  edges_in n edges → NoDup (ends <$> edges) →
  componentsAreUniform roots edges n = true ↔ interchangeable n roots edges.
Proof.
  intros He Hnd. unfold componentsAreUniform.
  set (members := fold_left _ (seq 0 n) ∅).
  assert (∀ r, default 0 (members !! r) = Z.of_nat (length (filter (λ i, root_at roots i = r) (seq 0 n)))) as Hm.
  { intros r. unfold members. rewrite members_lookup, lookup_empty. simpl. lia. }
  split.
  - destruct (uniform_edges roots edges ∅ ∅) as [seen|] eqn:Eu; [|done].
    apply uniform_edges_some in Eu as (_ & Ho & Hseen). rewrite forallb_forall. intros Hall.
    assert (∀ i j, (i < j < n)%nat → root_at roots i = root_at roots j → (i, j) ∈ ends <$> edges) as Hlinked.
    { intros i j Hij Hr. set (r := root_at roots i) in *.
      apply (component_complete n roots edges r He Hnd); [|done..].
      assert (1 < Z.of_nat (length (filter (λ i, root_at roots i = r) (seq 0 n)))) as Hgt.
      { assert ([i; j] ⊆+ filter (λ i, root_at roots i = r) (seq 0 n)) as Hsub.
        { apply NoDup_submseteq; [repeat constructor; set_solver by lia|].
          intros x. rewrite !elem_of_cons, elem_of_nil, list_elem_of_filter, elem_of_seq.
          intros [->|[->|[]]]; (split; [done|lia]). }
        apply submseteq_length in Hsub. simpl in Hsub. lia. }
      specialize (Hm r). destruct (members !! r) as [c|] eqn:Ec; simpl in Hm; [|lia].
      assert (In (r, c) (range members)) as Hin by by apply list_elem_of_In, elem_of_range.
      specialize (Hall _ Hin). simpl in Hall. rewrite bool_decide_eq_true_2 in Hall by lia. simpl in Hall.
      apply negb_true_iff, bool_decide_eq_false_1 in Hall.
      rewrite Hseen, lookup_empty in Hall. simpl in Hall. rewrite <- Hm.
      destruct (decide (Z.of_nat (length (filter (inside roots r) edges)) = c * (c - 1) / 2)); done. }
    intros i j k l Hij Hkl Hr1 Hr2 Hr3.
    pose proof (Hlinked i j Hij Hr1) as ([i' j' t] & [= -> ->] & H1)%list_elem_of_fmap.
    pose proof (Hlinked k l Hkl Hr2) as ([k' l' t'] & [= -> ->] & H2)%list_elem_of_fmap. exists t.
    assert (t = t') as <-; [|done].
    apply (Ho (root_at roots i') _ _ H1 H2); split; simpl in *; congruence.
  - intros Hint.
    assert (one_type roots edges) as Ho.
    { intros r e e' Hin Hin' [Hi Hj] [Hi' Hj']. unfold edges_in in He. rewrite Forall_forall in He.
      destruct (Hint _ _ _ _ (He _ Hin) (He _ Hin')) as (t & H1 & H2); [congruence..|].
      by rewrite (NoDup_ends_inj _ _ _ Hnd Hin H1 eq_refl), (NoDup_ends_inj _ _ _ Hnd Hin' H2 eq_refl). }
    destruct (uniform_edges_total roots edges ∅ ∅) as [seen Eu]; [by intros ??? ? ?|done|].
    rewrite Eu. apply uniform_edges_some in Eu as (_ & _ & Hseen). apply forallb_forall.
    intros [r c] Hin%list_elem_of_In%elem_of_range. specialize (Hm r). rewrite Hin in Hm. simpl in Hm.
    rewrite Hseen, lookup_empty. simpl. subst c.
    rewrite (proj2 (component_complete n roots edges r He Hnd)).
    + rewrite (bool_decide_eq_false_2 (_ ≠ _)) by (intros Hc; by apply Hc). by rewrite andb_false_r.
    + intros i j Hij Hri Hrj. destruct (Hint _ _ _ _ Hij Hij) as (t & H1 & _); [congruence..|].
      exact (list_elem_of_fmap_2 ends _ _ H1).
Qed.
End uniform.

(** ** The edges of a node *)
Section node_edges.
Context `{MapOrder}.

Lemma NoDup_fmap_join {A B} (f : A → B) (ls : list (list A)) :
  Forall (λ l, NoDup (f <$> l)) ls →
  (∀ i j l1 l2 x y, ls !! i = Some l1 → ls !! j = Some l2 → i ≠ j → x ∈ l1 → y ∈ l2 → f x ≠ f y) →
  NoDup (f <$> mjoin ls).
Proof.
  induction ls as [|l ls IH]; intros Hnd Hdis; [constructor|]. apply Forall_cons in Hnd as [Hl Hls].
  simpl. rewrite fmap_app. apply NoDup_app. split_and!.
  - done.
  - intros b (x & -> & Hx)%list_elem_of_fmap (y & Hxy & Hy)%list_elem_of_fmap.
    apply list_elem_of_join in Hy as (l2 & Hy & Hl2). apply list_elem_of_lookup in Hl2 as [j Hj].
    exact (Hdis 0%nat (S j) l l2 x y eq_refl Hj ltac:(lia) Hx Hy Hxy).
  - apply IH; [done|]. intros i j l1 l2 x y Hi Hj Hij. apply (Hdis (S i) (S j)); [done..|lia].
Qed.

Lemma edge_to_shape n i entry e :
  e ∈ edge_to n i entry → e_i e = i ∧ Z.of_nat (e_j e) = entry.1.
Proof.
  destruct entry as [j ls]. unfold edge_to. case_bool_decide; [by intros ?%not_elem_of_nil|].
  case_bool_decide; [|by intros ?%not_elem_of_nil]. intros ->%list_elem_of_singleton. simpl. split; [done|lia].
Qed.

Lemma device_edges_i n i d e : e ∈ device_edges n i d → e_i e = i.
Proof.
  destruct d as [dev|]; simpl; [|by intros ?%not_elem_of_nil].
  intros (l & Hl & (entry & -> & _)%list_elem_of_fmap)%list_elem_of_join. by apply edge_to_shape in Hl as [? _].
Qed.

Lemma NoDup_ends_collect devices : NoDup (ends <$> collect_edges devices).
Proof.
  unfold collect_edges. apply NoDup_fmap_join.
  - apply Forall_forall. intros l (i & d & -> & _)%elem_of_lookup_imap.
    destruct d as [dev|]; [|constructor]. simpl. apply NoDup_fmap_join.
    + apply Forall_fmap, Forall_forall. intros [j ls] _. unfold compose, edge_to.
      repeat case_bool_decide; try constructor; [|constructor]. apply not_elem_of_nil.
    + intros a b l1 l2 x y Ha Hb Hab Hx Hy Hxy.
      rewrite list_lookup_fmap in Ha, Hb.
      destruct (range (g_Links dev) !! a) as [ea|] eqn:Ea; [|done]. simpl in Ha. injection Ha as <-.
      destruct (range (g_Links dev) !! b) as [eb|] eqn:Eb; [|done]. simpl in Hb. injection Hb as <-.
      apply edge_to_shape in Hx as [_ Hx], Hy as [_ Hy]. apply Hab.
      apply (NoDup_lookup (range (g_Links dev)).*1 a b (ea.1)); [apply NoDup_range_keys|..].
      * by rewrite list_lookup_fmap, Ea.
      * rewrite list_lookup_fmap, Eb. simpl. f_equal. unfold ends in Hxy. injection Hxy as _ ?. congruence.
  - intros i j l1 l2 x y Hi Hj Hij Hx Hy Hxy. apply list_lookup_imap_Some in Hi as (d1 & _ & ->), Hj as (d2 & _ & ->).
    apply device_edges_i in Hx, Hy. unfold ends in Hxy. injection Hxy as ? _. congruence.
Qed.

(** The strongest link type from device [i] to [j], 0 when there is none. *)
Definition best_link (devices : DeviceList) (i j : nat) : Z :=
  match devices !! i with
  | Some (Some dev) => strongest (links_to dev (Z.of_nat j))
  | _ => 0
  end.

Lemma elem_of_collect_best devices i j t :
  {| e_i := i; e_j := j; e_t := t |} ∈ collect_edges devices ↔
  (i < j < length devices)%nat ∧ best_link devices i j = t ∧ 0 < t.
Proof.
  rewrite elem_of_collect_edges. simpl. unfold best_link. split.
  - intros (dev & -> & Hlt & _ & Ht & Hpos). auto.
  - intros (Hlt & Ht & Hpos). destruct (devices !! i) as [[dev|]|] eqn:E; [|lia..].
    exists dev. split_and!; [done|lia|lia| |done|done].
    unfold links_to in Ht. destruct (g_Links dev !! Z.of_nat j); [by eexists|]. simpl in Ht.
    unfold strongest in Ht. simpl in Ht. lia.
Qed.

(** Any two pairs of one component have the same, existing, strongest link. *)
Definition uniform_links (devices : DeviceList) (tier : LinkTier) : Prop :=
  ∀ i j k l, (i < j < length devices)%nat → (k < l < length devices)%nat →
    linked devices tier i j → linked devices tier k l → linked devices tier i k →
    0 < best_link devices i j ∧ best_link devices i j = best_link devices k l.

Lemma isUniform_links devices tier :
  devices ≠ [] →
  isUniform (Some (computeTieredComponents devices)) tier = true ↔ uniform_links devices tier.
Proof.
  intros Hne. destruct (compute_views devices Hne) as (v & Hv & ->). unfold isUniform. simpl.
  replace (default false _) with (componentsAreUniform (v tier).1 (collect_edges devices) (length devices))
    by by destruct tier.
  rewrite componentsAreUniform_iff by (apply collect_edges_in || apply NoDup_ends_collect).
  destruct (Hv tier) as (Hl & Hr & _).
  assert (∀ i j, (i < length devices)%nat → (j < length devices)%nat →
    root_at (v tier).1 i = root_at (v tier).1 j ↔ linked devices tier i j) as Hroot.
  { intros i j Hi Hj. unfold root_at.
    destruct (lookup_lt_is_Some_2 (v tier).1 i) as [ri Hri]; [lia|].
    destruct (lookup_lt_is_Some_2 (v tier).1 j) as [rj Hrj]; [lia|].
    rewrite Hri, Hrj. simpl. rewrite Nat2Z.inj_iff, (Hr i j ri rj Hri Hrj). apply connected_linked. }
  split.
  - intros Hint i j k l Hij Hkl H1 H2 H3.
    destruct (Hint i j k l Hij Hkl) as (t & Ht1 & Ht2); [by apply Hroot; [lia..|]..|].
    apply elem_of_collect_best in Ht1 as (_ & <- & ?), Ht2 as (_ & ? & _). split; [done|congruence].
  - intros Hu i j k l Hij Hkl H1 H2 H3.
    destruct (Hu i j k l Hij Hkl) as [Hpos Heq]; [by apply Hroot; [lia..|]..|].
    exists (best_link devices i j). rewrite !elem_of_collect_best. split; [done|]. split_and!; [lia|lia|done|done].
Qed.

(** A tighter tier's links are links of a looser one. *)
Lemma linked_nested devices t t' x y :
  linkTierThreshold t' ≤ linkTierThreshold t → linked devices t x y → linked devices t' x y.
Proof.
  intros Hle. apply (rtsc_congruence id). intros i j (Hij & dev & l & ? & ? & ?).
  split; [done|]. exists dev, l. split_and!; [done..|lia].
Qed.

(** C34 A tier is reported uniform exactly when, inside every component, any
    two devices are linked and all those links are equally strong, so that a
    search over subsets of a component cannot tell them apart. *)
Theorem isUniform_iff devices tier :
  devices ≠ [] →
  isUniform (Some (computeTieredComponents devices)) tier = true ↔ uniform_links devices tier.
Proof. apply isUniform_links. Qed.
End node_edges.
