(* ===== verification/Discovery.v ===== *)
(** * Discovering links and topology domains
      ([pkg/device/gpuallocator], [pkg/device/gpuallocator/links], [pkg/kubeletplugin/topology_domain.go])

    Both ways a vGPU pod can be placed read the interconnect of a node from
    the driver library, [Nvml]: the device plugin builds a list of linked
    devices, which it publishes for the scheduler extender; the kubelet plugin
    computes connected components and publishes one key per component as
    device attributes.  A device is its index. *)

From stdpp Require Import base list gmap strings.
From Stdlib Require Import ZArith Lia Ascii.
From S2P Require Import Prelude GoMap GoSort GoStrings GoFmt Sha256 UnionFind Links Topology.

Open Scope Z_scope.

(** ** The driver library *)

Inductive nvml_return := SUCCESS | ERROR_NOT_SUPPORTED | ERROR_INVALID_ARGUMENT | ERROR_GPU_IS_LOST | ERROR_OTHER.

Inductive TopologyLevel :=
| TOPOLOGY_INTERNAL | TOPOLOGY_SINGLE | TOPOLOGY_MULTIPLE | TOPOLOGY_HOSTBRIDGE | TOPOLOGY_NODE | TOPOLOGY_SYSTEM
| TOPOLOGY_OTHER.

Inductive FabricState := FABRIC_NOT_STARTED | FABRIC_IN_PROGRESS | FABRIC_COMPLETED | FABRIC_OTHER.

Record FabricInfo := { fi_ClusterUuid : list N; fi_CliqueId : Z; fi_State : FabricState; fi_Status : nvml_return }.

(** Devices are numbered from 0 to [device_count - 1]; bus ids are bytes of
    type [int8]; a link is enabled or not, and ends at a switch or not.  The
    two fabric readers are absent when the library does not export them. *)
Class Nvml : Type := {
  NVLINK_MAX_LINKS : nat;
  device_count : nat;
  GetUUID : nat → nvml_return * string;
  GetPciInfo : nat → nvml_return * list Z;
  GetTopologyCommonAncestor : nat → nat → nvml_return * TopologyLevel;
  GetNvLinkState : nat → nat → nvml_return * bool;
  GetNvLinkRemotePciInfo : nat → nat → nvml_return * list Z;
  GetNvLinkRemoteDeviceType : nat → nat → nvml_return * bool;
  GetGpuFabricInfoV : option (nat → nvml_return * FabricInfo);
  GetGpuFabricInfo : option (nat → nvml_return * FabricInfo)
}.

Inductive probe_error :=
| ErrUUID (ret : nvml_return)
| ErrPciInfo (ret : nvml_return)
| ErrAncestor (ret : nvml_return)
| ErrLevel
| ErrLinkState (ret : nvml_return)
| ErrRemotePci (ret : nvml_return)
| ErrRemoteType (ret : nvml_return)
| ErrNoLinks (index : Z).

(** Answers that only mean that a link is not usable. *)
Definition tolerated (ret : nvml_return) : bool :=
  match ret with ERROR_NOT_SUPPORTED | ERROR_INVALID_ARGUMENT | ERROR_GPU_IS_LOST => true | _ => false end.

(** [PciInfo.BusID] *)
Fixpoint c_string (bytes : list Z) : string :=
  match bytes with
  | [] => ""
  | b :: bytes => if bool_decide (b ≤ 0) then "" else String (ascii_of_N (Z.to_N b)) (c_string bytes)
  end.

Definition TrimPrefix (s prefix : string) : string := if HasPrefix s prefix then str_drop (String.length prefix) s else s.

Definition BusID (bytes : list Z) : string :=
  let id := ToLower (c_string bytes) in
  if bool_decide (id ≠ "0000") then TrimPrefix id "0000" else id.

Section discovery.
Context `{Nvml}.

(** ** Links between two devices ([links/device.go]) *)

Definition GetP2PLink (dev1 dev2 : nat) : result probe_error P2PLinkType :=
  match GetTopologyCommonAncestor dev1 dev2 with
  | (SUCCESS, TOPOLOGY_INTERNAL) => Ok P2PLinkSameBoard
  | (SUCCESS, TOPOLOGY_SINGLE) => Ok P2PLinkSingleSwitch
  | (SUCCESS, TOPOLOGY_MULTIPLE) => Ok P2PLinkMultiSwitch
  | (SUCCESS, TOPOLOGY_HOSTBRIDGE) => Ok P2PLinkHostBridge
  | (SUCCESS, TOPOLOGY_NODE) => Ok P2PLinkSameCPU
  | (SUCCESS, TOPOLOGY_SYSTEM) => Ok P2PLinkCrossCPU
  | (SUCCESS, TOPOLOGY_OTHER) => Fail ErrLevel
  | (ret, _) => Fail (ErrAncestor ret)
  end.

(** What [read] gives for link [i] of a device, if the link is enabled and readable. *)
Definition probe_link {A} (read : nat → nvml_return * A) (error : nvml_return → probe_error) (dev i : nat)
  : result probe_error (option A) :=
  match GetNvLinkState dev i with
  | (SUCCESS, true) =>
      match read i with
      | (SUCCESS, a) => Ok (Some a)
      | (ret, _) => if tolerated ret then Ok None else Fail (error ret)
      end
  | (SUCCESS, false) => Ok None
  | (ret, _) => if tolerated ret then Ok None else Fail (ErrLinkState ret)
  end.

Definition probe_links {A} (read : nat → nvml_return * A) (error : nvml_return → probe_error) (dev : nat)
  : result probe_error (list A) :=
  let* found := rmap (probe_link read error dev) (seq 0 NVLINK_MAX_LINKS) in Ok (omap id found).

Definition getAllNvLinkRemotePciInfo (dev : nat) : result probe_error (list (list Z)) :=
  probe_links (GetNvLinkRemotePciInfo dev) ErrRemotePci dev.

Definition countNvSwitchLinks (dev : nat) : result probe_error (Z * bool) :=
  let* types := probe_links (GetNvLinkRemoteDeviceType dev) ErrRemoteType dev in
  let count := Z.of_nat (length (filter (λ t, t = true) types)) in
  Ok (count, bool_decide (0 < count)).

Definition DifferentFabric (clique1 clique2 : string) : bool :=
  bool_decide (clique1 ≠ "") && bool_decide (clique2 ≠ "") && bool_decide (clique1 ≠ clique2).

Definition GetNVLinkWithCliques (dev1 dev2 : nat) (clique1 clique2 : string) : result probe_error P2PLinkType :=
  let* pciInfos := getAllNvLinkRemotePciInfo dev1 in
  match GetPciInfo dev2 with
  | (SUCCESS, dev2PciInfo) =>
      let matched := length (filter (λ p, BusID p = BusID dev2PciInfo) pciInfos) in
      let direct := nvlinkCountToType (Z.of_nat matched) in
      if bool_decide (direct ≠ P2PLinkUnknown) then Ok direct
      else if DifferentFabric clique1 clique2 then Ok P2PLinkUnknown
      else
        let* switch1 := countNvSwitchLinks dev1 in
        if negb switch1.2 then Ok P2PLinkUnknown
        else
          let* switch2 := countNvSwitchLinks dev2 in
          if negb switch2.2 then Ok P2PLinkUnknown
          else Ok (nvlinkCountToType (Z.min switch1.1 switch2.1))
  | (ret, _) => Fail (ErrPciInfo ret)
  end.

(** ** Fabric identities ([links/fabric.go]) *)

(** [None] for any reading that is not trustworthy. *)
Definition cliqueKey (info : FabricInfo) : option string :=
  match fi_State info, fi_Status info with
  | FABRIC_COMPLETED, SUCCESS =>
      if bool_decide (Forall (λ b, b = 0%N) (fi_ClusterUuid info)) then None
      else Some (EncodeToString (fi_ClusterUuid info) +:+ "." +:+ Itoa (fi_CliqueId info))
  | _, _ => None
  end.

Definition fabricCliqueReader : option (nat → nvml_return * FabricInfo) :=
  match GetGpuFabricInfoV with Some read => Some read | None => GetGpuFabricInfo end.

Definition FabricCliques : list string :=
  match fabricCliqueReader with
  | None => replicate device_count ""
  | Some read => (λ dev, match read dev with (SUCCESS, info) => default "" (cliqueKey info) | _ => "" end) <$> seq 0 device_count
  end.
Definition clique_of (cliques : list string) (i : nat) : string := default "" (cliques !! i).

(** ** The linked devices of the device plugin ([gpuallocator/device.go]) *)

Definition newDevice (i : nat) : result probe_error GDevice :=
  match GetUUID i, GetPciInfo i with
  | (SUCCESS, uuid), (SUCCESS, pciInfo) => Ok (NewGDevice (Z.of_nat i) uuid (BusID pciInfo))
  | (SUCCESS, _), (ret, _) => Fail (ErrPciInfo ret)
  | (ret, _), _ => Fail (ErrUUID ret)
  end.

Definition append_link (dev : GDevice) (j : nat) (t : P2PLinkType) : GDevice :=
  if bool_decide (t ≠ P2PLinkUnknown) then
    {| g_Index := g_Index dev; g_UUID := g_UUID dev; g_BusID := g_BusID dev;
       g_Links := <[Z.of_nat j := links_to dev (Z.of_nat j) ++ [t]]> (g_Links dev) |}
  else dev.

(** The inner loop: the links of device [i] to the devices [js]. *)
Fixpoint link_device (cliques : list string) (i : nat) (js : list nat) (dev : GDevice) : result probe_error GDevice :=
  match js with
  | [] => Ok dev
  | j :: js =>
      if bool_decide (i = j) then link_device cliques i js dev
      else
        let* p2plink := GetP2PLink i j in
        let* nvlink := GetNVLinkWithCliques i j (clique_of cliques i) (clique_of cliques j) in
        link_device cliques i js (append_link (append_link dev j p2plink) j nvlink)
  end.

Definition deviceList_build : result probe_error (list GDevice) :=
  let* devices := rmap newDevice (seq 0 device_count) in
  rmap (λ '(i, dev), link_device FabricCliques i (seq 0 device_count) dev) (imap pair devices).

Definition GetDeviceLinkMap (devices : list GDevice) : gmap string (gmap Z (list P2PLinkType)) :=
  fold_left (λ m dev, <[g_UUID dev := g_Links dev]> m) devices ∅.
End discovery.
