(* ===== verification/Device.v ===== *)
(** * GPU devices ([Device] of [pkg/device/types.go])

    Counters are Go [int]/[int64], so additions wrap.  [dim] names the three
    resource dimensions so that statements can be made once for all of them. *)

From stdpp Require Import base list gmap strings.
From Stdlib Require Import ZArith.
From S2P Require Import Prelude GoMap GoStrings Float64 GoTime Kube Claims.

(** One entry of the node's device register annotation. *)
Record DeviceInfo := {
  di_Id : Z;
  di_Type : string;
  di_Uuid : string;
  di_Core : Z;
  di_Memory : Z;
  di_Number : Z;
  di_Numa : Z;
  di_Mig : bool;
  di_BusId : string;
  di_Capability : float64;   (* a float32, which float64 holds exactly *)
  di_Healthy : bool
}.

Record Device := {
  d_id : Z;
  d_uuid : string;
  d_deviceType : string;
  d_usedNumber : Z;
  d_totalNumber : Z;
  d_usedCores : Z;
  d_totalCores : Z;
  d_usedMemory : Z;
  d_totalMemory : Z;
  d_capability : float64;
  d_numa : Z;
  d_busId : string;
  d_mig : bool;
  d_healthy : bool
}.

#[export] Instance Device_eq_dec : EqDecision Device.
Proof. solve_decision. Defined.

Definition NewDevice (dev : DeviceInfo) : Device :=
  {| d_id := di_Id dev; d_uuid := di_Uuid dev; d_deviceType := di_Type dev;
     d_usedNumber := 0; d_totalNumber := di_Number dev;
     d_usedCores := 0; d_totalCores := di_Core dev;
     d_usedMemory := 0; d_totalMemory := di_Memory dev;
     d_capability := di_Capability dev; d_numa := di_Numa dev; d_busId := di_BusId dev;
     d_mig := di_Mig dev; d_healthy := di_Healthy dev |}.

(** The device with its three counters replaced. *)
Definition set_used (dev : Device) (number cores memory : Z) : Device :=
  {| d_id := d_id dev; d_uuid := d_uuid dev; d_deviceType := d_deviceType dev;
     d_usedNumber := number; d_totalNumber := d_totalNumber dev;
     d_usedCores := cores; d_totalCores := d_totalCores dev;
     d_usedMemory := memory; d_totalMemory := d_totalMemory dev;
     d_capability := d_capability dev; d_numa := d_numa dev; d_busId := d_busId dev;
     d_mig := d_mig dev; d_healthy := d_healthy dev |}.

Definition GetTotalMemory (dev : Device) : Z :=
  if bool_decide (d_totalMemory dev < 0)%Z then 0%Z else d_totalMemory dev.
Definition GetTotalCores (dev : Device) : Z :=
  if bool_decide (d_totalCores dev < 0)%Z then 0%Z else d_totalCores dev.
Definition GetTotalNumber (dev : Device) : Z :=
  if bool_decide (d_totalNumber dev < 0)%Z then 0%Z else d_totalNumber dev.

Definition addUsedResourcesN (dev : Device) (usedNumber usedCores usedMemory : Z) : Device :=
  set_used dev (d_usedNumber dev +w usedNumber) (d_usedCores dev +w usedCores) (d_usedMemory dev +w usedMemory).

Definition addUsedResources (dev : Device) (usedCores usedMemory : Z) : Device :=
  addUsedResourcesN dev 1 usedCores usedMemory.

Definition AllocatableCores (dev : Device) : Z :=
  let allocatableCores := (d_totalCores dev -w d_usedCores dev)%Z in
  if bool_decide (0 ≤ allocatableCores)%Z then allocatableCores else 0%Z.

Definition AllocatableMemory (dev : Device) : Z :=
  let allocatableMemory := (d_totalMemory dev -w d_usedMemory dev)%Z in
  if bool_decide (0 ≤ allocatableMemory)%Z then allocatableMemory else 0%Z.

Definition AllocatableNumber (dev : Device) : Z :=
  let allocatableNum := (d_totalNumber dev -w d_usedNumber dev)%Z in
  if bool_decide (0 ≤ allocatableNum)%Z then allocatableNum else 0%Z.

Definition ResetUsed (dev : Device) : Device := set_used dev 0 0 0.

Definition Score (dev : Device) : float64 :=
  let numRatio := SafeDiv (f64_of_Z (AllocatableNumber dev)) (f64_of_Z (GetTotalNumber dev)) in
  let memRatio := SafeDiv (f64_of_Z (AllocatableMemory dev)) (f64_of_Z (GetTotalMemory dev)) in
  let coreRatio := SafeDiv (f64_of_Z (AllocatableCores dev)) (f64_of_Z (GetTotalCores dev)) in
  f64_mul (f64_div (f64_add (f64_add numRatio memRatio) coreRatio) (f64_of_Z 3)) (f64_of_Z HundredCore).

(** ** Resource dimensions *)

Inductive dim := Number | Cores | Memory.

Definition used (x : dim) (dev : Device) : Z :=
  match x with Number => d_usedNumber dev | Cores => d_usedCores dev | Memory => d_usedMemory dev end.

Definition total (x : dim) (dev : Device) : Z :=
  match x with Number => d_totalNumber dev | Cores => d_totalCores dev | Memory => d_totalMemory dev end.

Definition allocatable (x : dim) (dev : Device) : Z :=
  match x with
  | Number => AllocatableNumber dev | Cores => AllocatableCores dev | Memory => AllocatableMemory dev
  end.

(** What one claim takes of each dimension: a slot, its cores and its memory. *)
Definition demand (x : dim) (claim : DeviceClaim) : Z :=
  match x with Number => 1 | Cores => dc_Cores claim | Memory => dc_Memory claim end.

(** The registered capacities and the counters are non-negative [int64]s. *)
Definition device_wf (dev : Device) : Prop :=
  ∀ x, (0 ≤ used x dev ≤ int64_max)%Z ∧ (0 ≤ total x dev ≤ int64_max)%Z.

(** Nothing but the counters differs. *)
Definition same_card (d1 d2 : Device) : Prop := set_used d1 0 0 0 = set_used d2 0 0 0.

#[export] Instance same_card_equiv : Equivalence same_card.
Proof. unfold same_card. split; [by intros ?|by intros ??|intros ???; congruence]. Qed.

Lemma same_card_set dev n c m : same_card (set_used dev n c m) dev.
Proof. done. Qed.

Lemma same_card_total x d1 d2 : same_card d1 d2 → total x d1 = total x d2.
Proof. unfold same_card, set_used. intros [= ]. by destruct x. Qed.

Lemma used_addN x dev n c m :
  used x (addUsedResourcesN dev n c m) = (used x dev +w match x with Number => n | Cores => c | Memory => m end)%Z.
Proof. by destruct x. Qed.

Lemma used_add x dev claim :
  used x (addUsedResources dev (dc_Cores claim) (dc_Memory claim)) = (used x dev +w demand x claim)%Z.
Proof. by destruct x. Qed.

(** What is free is the difference, never negative. *)
Lemma allocatable_wf x dev : device_wf dev → allocatable x dev = Z.max 0 (total x dev - used x dev).
Proof.
  intros Hwf. destruct (Hwf x) as [[Hu1 Hu2] [Ht1 Ht2]].
  destruct x; simpl in *; unfold AllocatableNumber, AllocatableCores, AllocatableMemory;
    rewrite wrap64_id by (unfold in64, int64_min, int64_max in *; lia);
    case_bool_decide; lia.
Qed.

(** A claim that fits keeps the device well-formed. *)
Lemma addUsed_wf dev claim :
  device_wf dev → (∀ x, 0 ≤ demand x claim ≤ allocatable x dev)%Z →
  device_wf (addUsedResources dev (dc_Cores claim) (dc_Memory claim)) ∧
  ∀ x, used x (addUsedResources dev (dc_Cores claim) (dc_Memory claim)) = (used x dev + demand x claim)%Z.
Proof.
  intros Hwf Hd.
  assert (∀ x, used x (addUsedResources dev (dc_Cores claim) (dc_Memory claim)) = (used x dev + demand x claim)%Z)
    as Hu.
  { intros x. rewrite used_add. apply wrap64_id. specialize (Hd x). rewrite (allocatable_wf x) in Hd by done.
    destruct (Hwf x). unfold in64, int64_min, int64_max in *. lia. }
  split; [|done]. intros x. rewrite Hu. specialize (Hd x). rewrite (allocatable_wf x) in Hd by done.
  destruct (Hwf x) as [? ?].
  replace (total x (addUsedResources dev _ _)) with (total x dev) by by destruct x.
  lia.
Qed.
