(* ===== verification/Footprint.v ===== *)
(** * The lifecycle footprint of a pod ([pkg/device/types.go])

    [ReducePodFootprint] collapses the claims of a pod into the peak each GPU
    has to carry: sidecars run all the time, regular containers together,
    sequential init containers one after another before them. *)

From stdpp Require Import base list gmap strings.
From Stdlib Require Import ZArith.
From S2P Require Import Prelude GoMap GoStrings Float64 GoTime Kube Claims Device.

Open Scope Z_scope.

Record PodDeviceFootprint := {
  fp_Id : Z;
  fp_Uuid : string;
  fp_Number : Z;
  fp_Cores : Z;
  fp_Memory : Z
}.

(** The zero value a missing map entry reads as. *)
Definition fp_zero : PodDeviceFootprint :=
  {| fp_Id := 0; fp_Uuid := ""; fp_Number := 0; fp_Cores := 0; fp_Memory := 0 |}.

Definition fp_get (m : gmap string PodDeviceFootprint) (uuid : string) : PodDeviceFootprint :=
  default fp_zero (m !! uuid).

Definition sumClaimFootprint (m : gmap string PodDeviceFootprint) (claim : DeviceClaim)
  : gmap string PodDeviceFootprint :=
  let f := fp_get m (dc_Uuid claim) in
  <[dc_Uuid claim :=
      {| fp_Id := dc_Id claim; fp_Uuid := dc_Uuid claim; fp_Number := fp_Number f +w 1;
         fp_Cores := fp_Cores f +w dc_Cores claim; fp_Memory := fp_Memory f +w dc_Memory claim |}]> m.

Definition maxFootprintInto (m : gmap string PodDeviceFootprint) (pf : PodDeviceFootprint)
  : gmap string PodDeviceFootprint :=
  let f := match m !! fp_Uuid pf with
           | Some f => f
           | None => {| fp_Id := fp_Id pf; fp_Uuid := fp_Uuid pf; fp_Number := 0; fp_Cores := 0; fp_Memory := 0 |}
           end in
  <[fp_Uuid pf :=
      {| fp_Id := fp_Id f; fp_Uuid := fp_Uuid f; fp_Number := Z.max (fp_Number f) (fp_Number pf);
         fp_Cores := Z.max (fp_Cores f) (fp_Cores pf); fp_Memory := Z.max (fp_Memory f) (fp_Memory pf) |}]> m.

Fixpoint footprintId (fs : list PodDeviceFootprint) : Z :=
  match fs with
  | [] => 0
  | f :: fs' => if bool_decide (fp_Uuid f ≠ "") then fp_Id f else footprintId fs'
  end.

Section reduce.
Context `{MapOrder}.

(** The names of the sidecars and of the sequential init containers. *)
Definition sidecar_names (pod : Pod) : gset string :=
  list_to_set (c_Name <$> filter (λ c, IsRestartableInitContainer c = true) (p_InitContainers pod)).
Definition sequentialInit_names (pod : Pod) : gset string :=
  list_to_set (c_Name <$> filter (λ c, IsRestartableInitContainer c = false) (p_InitContainers pod)).

Record buckets := {
  b_regularSum : gmap string PodDeviceFootprint;
  b_sidecarSum : gmap string PodDeviceFootprint;
  b_initMax : gmap string PodDeviceFootprint
}.

Definition add_container (pod : Pod) (b : buckets) (containerClaim : ContainerDeviceClaim) : buckets :=
  let claims := cdc_DeviceClaims containerClaim in
  if bool_decide (cdc_Name containerClaim ∈ sequentialInit_names pod) then
    let perInit := fold_left sumClaimFootprint claims ∅ in
    {| b_regularSum := b_regularSum b; b_sidecarSum := b_sidecarSum b;
       b_initMax := fold_left maxFootprintInto (range_str perInit).*2 (b_initMax b) |}
  else if bool_decide (cdc_Name containerClaim ∈ sidecar_names pod) then
    {| b_regularSum := b_regularSum b; b_sidecarSum := fold_left sumClaimFootprint claims (b_sidecarSum b);
       b_initMax := b_initMax b |}
  else
    {| b_regularSum := fold_left sumClaimFootprint claims (b_regularSum b); b_sidecarSum := b_sidecarSum b;
       b_initMax := b_initMax b |}.

Definition combine_at (b : buckets) (uuid : string) : PodDeviceFootprint :=
  let sc := fp_get (b_sidecarSum b) uuid in
  let rg := fp_get (b_regularSum b) uuid in
  let im := fp_get (b_initMax b) uuid in
  {| fp_Id := footprintId [rg; im; sc]; fp_Uuid := uuid;
     fp_Number := fp_Number sc +w Z.max (fp_Number rg) (fp_Number im);
     fp_Cores := fp_Cores sc +w Z.max (fp_Cores rg) (fp_Cores im);
     fp_Memory := fp_Memory sc +w Z.max (fp_Memory rg) (fp_Memory im) |}.

Definition combine (b : buckets) (result : gmap string PodDeviceFootprint) (uuid : string)
  : gmap string PodDeviceFootprint :=
  if bool_decide (is_Some (result !! uuid)) then result else <[uuid := combine_at b uuid]> result.

Definition ReducePodFootprint (pod : Pod) (podDeviceClaim : PodDeviceClaim) : gmap string PodDeviceFootprint :=
  if bool_decide (sequentialInit_names pod = ∅) then
    fold_left (λ footprint cdc, fold_left sumClaimFootprint (cdc_DeviceClaims cdc) footprint) podDeviceClaim ∅
  else
    let b := fold_left (add_container pod) podDeviceClaim
               {| b_regularSum := ∅; b_sidecarSum := ∅; b_initMax := ∅ |} in
    fold_left (combine b)
      ((range_str (b_regularSum b)).*1 ++ (range_str (b_sidecarSum b)).*1 ++ (range_str (b_initMax b)).*1) ∅.

(** [CurrentSharedContainers]: containers running right now, at most once per GPU. *)
Definition shared_uuids (cdc : ContainerDeviceClaim) : list string :=
  remove_dups (dc_Uuid <$> cdc_DeviceClaims cdc).

Definition CurrentSharedContainers (pod : Pod) (podDeviceClaim : PodDeviceClaim) : gmap string Z :=
  fold_left (λ counts cdc,
      if IsContainerRunning pod (cdc_Name cdc)
      then fold_left (λ counts uuid, <[uuid := default 0 (counts !! uuid) +w 1]> counts) (shared_uuids cdc) counts
      else counts)
    podDeviceClaim ∅.

Definition podHasVGPUInitContainer `{Env} (pod : Pod) : bool :=
  existsb (λ c, IsVGPURequiredContainer c && negb (IsRestartableInitContainer c)) (p_InitContainers pod).
End reduce.

(** ** Specification *)

Definition peak (x : dim) (fp : PodDeviceFootprint) : Z :=
  match x with Number => fp_Number fp | Cores => fp_Cores fp | Memory => fp_Memory fp end.

(** What the claims of a list take of GPU [u]. *)
Definition claims_on (x : dim) (u : string) (claims : list DeviceClaim) : Z :=
  Zsum (demand x <$> filter (λ c, dc_Uuid c = u) claims).

Definition container_on (x : dim) (u : string) (cdc : ContainerDeviceClaim) : Z :=
  claims_on x u (cdc_DeviceClaims cdc).

Definition is_sequential (pod : Pod) (cdc : ContainerDeviceClaim) : Prop :=
  cdc_Name cdc ∈ sequentialInit_names pod.
Definition is_sidecar (pod : Pod) (cdc : ContainerDeviceClaim) : Prop :=
  ¬ is_sequential pod cdc ∧ cdc_Name cdc ∈ sidecar_names pod.
Definition is_regular (pod : Pod) (cdc : ContainerDeviceClaim) : Prop :=
  ¬ is_sequential pod cdc ∧ cdc_Name cdc ∉ sidecar_names pod.

#[export] Instance is_sequential_dec pod cdc : Decision (is_sequential pod cdc).
Proof. unfold is_sequential. apply _. Defined.
#[export] Instance is_sidecar_dec pod cdc : Decision (is_sidecar pod cdc).
Proof. unfold is_sidecar. apply _. Defined.
#[export] Instance is_regular_dec pod cdc : Decision (is_regular pod cdc).
Proof. unfold is_regular. apply _. Defined.

(** The reservation the accounting promises for GPU [u]: sidecars plus the
    larger of the regular phase and the largest sequential init container. *)
Definition reserve (x : dim) (pod : Pod) (pdc : list ContainerDeviceClaim) (u : string) : Z :=
  Zsum (container_on x u <$> filter (is_sidecar pod) pdc) +
  Z.max (Zsum (container_on x u <$> filter (is_regular pod) pdc))
        (Zmax0 (container_on x u <$> filter (is_sequential pod) pdc)).

(** Non-negative claims whose sum is an [int64]. *)
Definition claims_bounded (pdc : list ContainerDeviceClaim) : Prop :=
  Forall (λ cdc, Forall (λ c, ∀ x, 0 ≤ demand x c) (cdc_DeviceClaims cdc)) pdc ∧
  ∀ x u, Zsum (container_on x u <$> pdc) ≤ int64_max.

(** ** The three kinds of fold *)

Definition keyed (m : gmap string PodDeviceFootprint) : Prop :=
  ∀ u fp, m !! u = Some fp → fp_Uuid fp = u.

Lemma keyed_empty : keyed ∅.
Proof. intros u fp. by rewrite lookup_empty. Qed.

Lemma keyed_insert m u fp : keyed m → fp_Uuid fp = u → keyed (<[u := fp]> m).
Proof. intros Hm Hu u' fp'. rewrite lookup_insert. case_decide; [|apply Hm]. naive_solver. Qed.

Lemma keyed_sum claims m : keyed m → keyed (fold_left sumClaimFootprint claims m).
Proof. intros Hm. apply fold_left_inv; [|done]. intros. by apply keyed_insert. Qed.

Lemma fp_get_insert m u u' fp : fp_get (<[u := fp]> m) u' = if decide (u = u') then fp else fp_get m u'.
Proof. unfold fp_get. rewrite lookup_insert. by case_decide. Qed.

Lemma claims_on_cons x u c claims :
  claims_on x u (c :: claims) = (if decide (dc_Uuid c = u) then demand x c else 0) + claims_on x u claims.
Proof. unfold claims_on. rewrite filter_cons. by case_decide. Qed.

Lemma claims_on_nonneg x u claims : Forall (λ c, ∀ x, 0 ≤ demand x c) claims → 0 ≤ claims_on x u claims.
Proof.
  intros H. apply Zsum_nonneg, Forall_fmap, Forall_forall. intros c Hc.
  apply list_elem_of_filter in Hc as [_ Hc]. rewrite Forall_forall in H. by apply H.
Qed.

(** Summing adds what the claims take, modulo [2^64]. *)
Lemma sum_peak x u claims m :
  in64 (peak x (fp_get m u)) →
  peak x (fp_get (fold_left sumClaimFootprint claims m) u) = peak x (fp_get m u) +w claims_on x u claims.
Proof.
  revert m. induction claims as [|c claims IH]; intros m Hm.
  { simpl. rewrite Z.add_0_r. by rewrite wrap64_id. }
  cbn [fold_left]. rewrite claims_on_cons. set (m' := sumClaimFootprint m c).
  assert (peak x (fp_get m' u) = peak x (fp_get m u) +w (if decide (dc_Uuid c = u) then demand x c else 0)) as Hp.
  { unfold m', sumClaimFootprint. rewrite fp_get_insert. case_decide as E.
    - subst. by destruct x.
    - rewrite Z.add_0_r. by rewrite wrap64_id. }
  rewrite IH by (rewrite Hp; apply wrap64_in64).
  rewrite Hp, wrap64_add_l. f_equal. lia.
Qed.

Lemma max_step_peak x u m pf :
  0 ≤ peak x (fp_get m u) →
  peak x (fp_get (maxFootprintInto m pf) u)
  = Z.max (peak x (fp_get m u)) (if decide (fp_Uuid pf = u) then peak x pf else 0).
Proof.
  intros Hm. unfold maxFootprintInto. rewrite fp_get_insert. case_decide as E; [|lia].
  subst. unfold fp_get. destruct (m !! fp_Uuid pf); by destruct x.
Qed.

Lemma max_fold_peak x u l m :
  0 ≤ peak x (fp_get m u) →
  peak x (fp_get (fold_left maxFootprintInto l m) u)
  = Z.max (peak x (fp_get m u)) (Zmax0 (peak x <$> filter (λ pf, fp_Uuid pf = u) l)).
Proof.
  revert m. induction l as [|pf l IH]; intros m Hm; [simpl; lia|].
  cbn [fold_left]. rewrite IH, max_step_peak by (rewrite ?max_step_peak; lia).
  rewrite filter_cons. case_decide; [rewrite fmap_cons; cbn [Zmax0 foldr]|].
  - change (foldr Z.max 0 ?l) with (Zmax0 l). lia.
  - pose proof (Zmax0_nonneg (peak x <$> filter (λ pf, fp_Uuid pf = u) l)). lia.
Qed.

Section specification.
Context `{MapOrder}.

(** The entries of a keyed map at [u]: at most one. *)
Lemma keyed_range_max x u m :
  keyed m → 0 ≤ peak x (fp_get m u) →
  Zmax0 (peak x <$> filter (λ pf, fp_Uuid pf = u) (range_str m).*2) = peak x (fp_get m u).
Proof.
  intros Hk H0. apply Z.le_antisymm.
  - apply Zmax0_le; [done|]. intros z Hz.
    apply list_elem_of_fmap in Hz as (pf & -> & Hpf). apply list_elem_of_filter in Hpf as [Hu Hin].
    apply list_elem_of_fmap in Hin as ([k fp] & -> & Hin). apply elem_of_range_str in Hin.
    simpl in *. assert (k = u) as -> by (rewrite <- Hu; symmetry; by apply Hk).
    unfold fp_get. by rewrite Hin.
  - unfold fp_get. destruct (m !! u) as [fp|] eqn:E; simpl; [|destruct x; apply Zmax0_nonneg].
    apply Zmax0_ge, list_elem_of_fmap_2, list_elem_of_filter. split; [by apply Hk|].
    apply list_elem_of_fmap. exists (u, fp). by rewrite elem_of_range_str.
Qed.

Lemma combine_fold_lookup b keys u r0 :
  (∀ u fp, r0 !! u = Some fp → fp = combine_at b u) →
  fold_left (combine b) keys r0 !! u
  = if decide (u ∈ keys ∨ is_Some (r0 !! u)) then Some (combine_at b u) else None.
Proof.
  revert r0. induction keys as [|k keys IH]; intros r0 Hr; simpl.
  { destruct (r0 !! u) as [fp|] eqn:E.
    - rewrite decide_True by (right; done). f_equal. by apply Hr.
    - rewrite decide_False; [done|]. intros [Hin|[? ?]]; [by apply not_elem_of_nil in Hin|done]. }
  rewrite IH.
  - apply decide_ext. unfold combine. case_bool_decide as Hs.
    + set_solver.
    + rewrite lookup_insert, elem_of_cons. destruct (decide (k = u)); subst.
      * split; intros _; [left; by left|right; eauto].
      * intuition congruence.
  - intros u' fp. unfold combine. case_bool_decide; [apply Hr|].
    rewrite lookup_insert. destruct (decide (k = u')) as [->|]; [by intros [= <-]|apply Hr].
Qed.

(** What the three buckets hold after the claims [l]. *)
Definition buckets_spec (pod : Pod) (l : list ContainerDeviceClaim) (b : buckets) : Prop :=
  ∀ x u,
    peak x (fp_get (b_sidecarSum b) u) = Zsum (container_on x u <$> filter (is_sidecar pod) l) ∧
    peak x (fp_get (b_regularSum b) u) = Zsum (container_on x u <$> filter (is_regular pod) l) ∧
    peak x (fp_get (b_initMax b) u) = Zmax0 (container_on x u <$> filter (is_sequential pod) l).

Lemma container_on_nonneg x u cdc :
  Forall (λ c, ∀ x, 0 ≤ demand x c) (cdc_DeviceClaims cdc) → 0 ≤ container_on x u cdc.
Proof. apply claims_on_nonneg. Qed.

Lemma containers_nonneg x u (l : list ContainerDeviceClaim) :
  Forall (λ cdc, Forall (λ c, ∀ x, 0 ≤ demand x c) (cdc_DeviceClaims cdc)) l →
  Forall (λ z, 0 ≤ z) (container_on x u <$> l).
Proof.
  intros H0. apply Forall_fmap. eapply Forall_impl; [done|]. intros cdc. simpl. apply container_on_nonneg.
Qed.

(** What lands on one GPU is part of what is claimed in all. *)
Lemma claims_on_le x u claims :
  Forall (λ c, ∀ x, 0 ≤ demand x c) claims → claims_on x u claims ≤ Zsum (demand x <$> claims).
Proof.
  intros Hc. unfold claims_on. rewrite (Zsum_filter_split (λ c, dc_Uuid c = u) (demand x) claims).
  assert (0 ≤ Zsum (demand x <$> filter (λ c, ¬ dc_Uuid c = u) claims)); [|lia].
  apply Zsum_nonneg, Forall_fmap, Forall_filter. eapply Forall_impl; [exact Hc|]. intros c Hx. apply Hx.
Qed.

Lemma claims_bounded_total pdc :
  Forall (λ cdc, Forall (λ c, ∀ x, 0 ≤ demand x c) (cdc_DeviceClaims cdc)) pdc →
  (∀ x, Zsum ((λ cdc, Zsum (demand x <$> cdc_DeviceClaims cdc)) <$> pdc) ≤ int64_max) → claims_bounded pdc.
Proof.
  intros Hn Ht. split; [done|]. intros x u. etrans; [|apply (Ht x)].
  apply Zsum_fmap_le. intros cdc Hin. apply claims_on_le. rewrite Forall_forall in Hn. by apply Hn.
Qed.

Lemma bounded_prefix l l' : claims_bounded (l ++ l') → claims_bounded l ∧ claims_bounded l'.
Proof.
  intros [Hpos Hsum]. apply Forall_app in Hpos as [H1 H2].
  split; (split; [done|]); intros x u; specialize (Hsum x u);
    rewrite fmap_app, Zsum_app in Hsum;
    pose proof (Zsum_nonneg _ (containers_nonneg x u _ H1));
    pose proof (Zsum_nonneg _ (containers_nonneg x u _ H2)); lia.
Qed.

(** A part of a bounded claim, plus one more container, is an [int64]. *)
Lemma bounded_part x u (P : ContainerDeviceClaim → Prop) `{!∀ c, Decision (P c)} l c :
  claims_bounded (l ++ [c]) →
  in64 (Zsum (container_on x u <$> filter P l)) ∧ in64 (container_on x u c) ∧
  in64 (Zsum (container_on x u <$> filter P l) + container_on x u c).
Proof.
  intros [Hpos Hsum]. specialize (Hsum x u). rewrite fmap_app, Zsum_app in Hsum.
  apply Forall_app in Hpos as [H1 H2]. apply Forall_cons in H2 as [H2 _].
  rewrite (Zsum_filter_split P) in Hsum.
  pose proof (Zsum_nonneg _ (containers_nonneg x u _ (Forall_filter _ P l H1))).
  pose proof (Zsum_nonneg _ (containers_nonneg x u _ (Forall_filter _ (λ x, ¬ P x) l H1))).
  pose proof (container_on_nonneg x u c H2).
  unfold Zsum at 3 in Hsum. simpl in Hsum. unfold in64, int64_min, int64_max in *. lia.
Qed.

Lemma add_container_spec pod l c b :
  claims_bounded (l ++ [c]) → buckets_spec pod l b → buckets_spec pod (l ++ [c]) (add_container pod b c).
Proof.
  intros Hb Hspec x u. destruct (Hspec x u) as (Hsc & Hrg & Him). rewrite !filter_snoc.
  destruct (bounded_part x u (is_sidecar pod) l c Hb) as (S1 & S2 & S3).
  destruct (bounded_part x u (is_regular pod) l c Hb) as (R1 & _ & R3).
  assert (0 ≤ container_on x u c).
  { apply container_on_nonneg. destruct Hb as [Hpos _]. apply Forall_app in Hpos as [_ Hpos]. by inversion Hpos. }
  unfold add_container. case_bool_decide as Hseq; [|case_bool_decide as Hside]; simpl.
  - rewrite (decide_False (P := is_sidecar pod c)) by (unfold is_sidecar, is_sequential; tauto).
    rewrite (decide_False (P := is_regular pod c)) by (unfold is_regular, is_sequential; tauto).
    rewrite (decide_True (P := is_sequential pod c)) by done. rewrite !app_nil_r.
    split_and!; [done..|]. rewrite fmap_app, Zmax0_app, <- Him.
    assert (peak x (fp_get (fold_left sumClaimFootprint (cdc_DeviceClaims c) ∅) u) = container_on x u c) as Hp.
    { rewrite sum_peak by by destruct x. unfold fp_get. rewrite lookup_empty.
      replace (peak x (default fp_zero None)) with 0 by by destruct x. by apply wrap64_id. }
    rewrite max_fold_peak by (rewrite Him; apply Zmax0_nonneg).
    rewrite keyed_range_max by (rewrite ?Hp; first [by apply keyed_sum, keyed_empty|done]).
    rewrite Hp. unfold Zmax0. simpl. lia.
  - rewrite (decide_True (P := is_sidecar pod c)) by done.
    rewrite (decide_False (P := is_regular pod c)) by (unfold is_regular; tauto).
    rewrite (decide_False (P := is_sequential pod c)) by done. rewrite !app_nil_r.
    split_and!; [|done..]. rewrite sum_peak, Hsc by by rewrite Hsc.
    rewrite wrap64_id by done. by rewrite Zsum_snoc.
  - rewrite (decide_False (P := is_sidecar pod c)) by (unfold is_sidecar; tauto).
    rewrite (decide_True (P := is_regular pod c)) by done.
    rewrite (decide_False (P := is_sequential pod c)) by done. rewrite !app_nil_r.
    split_and!; [done| |done]. rewrite sum_peak, Hrg by by rewrite Hrg.
    rewrite wrap64_id by done. by rewrite Zsum_snoc.
Qed.

Lemma buckets_fold pod l :
  claims_bounded l →
  buckets_spec pod l (fold_left (add_container pod) l {| b_regularSum := ∅; b_sidecarSum := ∅; b_initMax := ∅ |}).
Proof.
  induction l as [|c l IH] using rev_ind; intros Hb.
  { intros x u. split_and!; by destruct x. }
  rewrite fold_left_app. simpl. apply add_container_spec; [done|]. apply IH. by apply bounded_prefix in Hb as [? _].
Qed.

Lemma plain_fold_peak x u l :
  claims_bounded l →
  peak x (fp_get (fold_left (λ footprint cdc, fold_left sumClaimFootprint (cdc_DeviceClaims cdc) footprint) l ∅) u)
  = Zsum (container_on x u <$> l).
Proof.
  induction l as [|c l IH] using rev_ind; intros Hb; [by destruct x|].
  rewrite fold_left_app, Zsum_snoc. simpl.
  destruct (bounded_part x u (λ _, True) l c Hb) as (S1 & S2 & S3).
  rewrite (filter_all (λ _, True) l) in S1, S3 by by apply Forall_forall.
  apply bounded_prefix in Hb as [Hb _]. rewrite sum_peak, IH by (rewrite ?IH; done).
  by apply wrap64_id.
Qed.

(** The parts of a claim add up to it. *)
Lemma lifecycle_split x u pod l :
  Zsum (container_on x u <$> l)
  = Zsum (container_on x u <$> filter (is_sidecar pod) l) + Zsum (container_on x u <$> filter (is_regular pod) l)
    + Zsum (container_on x u <$> filter (is_sequential pod) l).
Proof.
  rewrite (Zsum_filter_split (is_sequential pod)), (Zsum_filter_split (is_sidecar pod) _ (filter (λ c, ¬ _) l)).
  rewrite !list_filter_filter.
  rewrite (list_filter_iff (λ c, is_sidecar pod c ∧ ¬ is_sequential pod c) (is_sidecar pod) l)
    by (unfold is_sidecar; tauto).
  rewrite (list_filter_iff (λ c, ¬ is_sidecar pod c ∧ ¬ is_sequential pod c) (is_regular pod) l)
    by (unfold is_sidecar, is_regular; tauto).
  lia.
Qed.

Lemma fp_get_not_key m u : u ∉ (range_str m).*1 → fp_get m u = fp_zero.
Proof.
  intros Hu. unfold fp_get. destruct (m !! u) as [fp|] eqn:E; [|done].
  exfalso. apply Hu, list_elem_of_fmap. exists (u, fp). by rewrite elem_of_range_str.
Qed.

Lemma reduce_peak x pod pdc u :
  claims_bounded pdc → peak x (fp_get (ReducePodFootprint pod pdc) u) = reserve x pod pdc u.
Proof.
  intros Hb. unfold ReducePodFootprint. case_bool_decide as Hseq.
  - rewrite plain_fold_peak by done. rewrite (lifecycle_split x u pod). unfold reserve.
    rewrite (filter_none (is_sequential pod) pdc)
      by (apply Forall_forall; unfold is_sequential; rewrite Hseq; set_solver).
    destruct Hb as [Hpos _].
    pose proof (Zsum_nonneg _ (containers_nonneg x u _ (Forall_filter _ (is_regular pod) pdc Hpos))).
    cbn. lia.
  - pose proof (buckets_fold pod pdc Hb x u) as (Hsc & Hrg & Him).
    set (b := fold_left (add_container pod) pdc _) in *.
    unfold fp_get at 1. rewrite combine_fold_lookup by (intros ??; by rewrite lookup_empty).
    unfold reserve. rewrite <- Hsc, <- Hrg, <- Him. case_decide as Hk.
    + change (default fp_zero (Some (combine_at b u))) with (combine_at b u).
      assert (peak x (combine_at b u) = peak x (fp_get (b_sidecarSum b) u)
        +w Z.max (peak x (fp_get (b_regularSum b) u)) (peak x (fp_get (b_initMax b) u))) as -> by by destruct x.
      apply wrap64_id. destruct Hb as [Hpos Hsum]. specialize (Hsum x u).
      rewrite (lifecycle_split x u pod), <- Hsc, <- Hrg in Hsum.
      pose proof (containers_nonneg x u _ (Forall_filter _ (is_sequential pod) pdc Hpos)) as Hn.
      pose proof (Zmax0_le_Zsum _ Hn). pose proof (Zsum_nonneg _ Hn).
      pose proof (Zsum_nonneg _ (containers_nonneg x u _ (Forall_filter _ (is_regular pod) pdc Hpos))).
      pose proof (Zsum_nonneg _ (containers_nonneg x u _ (Forall_filter _ (is_sidecar pod) pdc Hpos))).
      unfold in64, int64_min, int64_max in *. lia.
    + rewrite !fp_get_not_key by (intros ?; apply Hk; left; rewrite !elem_of_app; tauto). by destruct x.
Qed.

(** C25 The footprint of a pod on a GPU is its lifecycle peak: the claims of
    the sidecars, plus the larger of the claims of the regular containers and
    of the heaviest sequential init container, in slots, cores and memory.
    GPUs the pod does not touch have none. *)
Theorem ReducePodFootprint_peak x pod pdc u :
  claims_bounded pdc →
  peak x (fp_get (ReducePodFootprint pod pdc) u)
  = Zsum (container_on x u <$> filter (is_sidecar pod) pdc) +
    Z.max (Zsum (container_on x u <$> filter (is_regular pod) pdc))
          (Zmax0 (container_on x u <$> filter (is_sequential pod) pdc)).
Proof. apply reduce_peak. Qed.

Lemma reduce_keyed pod pdc : keyed (ReducePodFootprint pod pdc).
Proof.
  unfold ReducePodFootprint. case_bool_decide.
  - apply fold_left_inv; [|apply keyed_empty]. intros. by apply keyed_sum.
  - intros u fp. rewrite combine_fold_lookup by (intros ??; by rewrite lookup_empty).
    case_decide; [|done]. by intros [= <-].
Qed.
End specification.
