(* ===== verification/NodeInfo.v ===== *)
(** * The scheduler's view of a node ([NodeInfo] of [pkg/device/types.go])

    State, construction and the accounting operations.  Devices are reached
    through [deviceMap] only, so the map holds values: the operations that
    mutate a [*Device] write the new value back under its id.  The JSON
    annotations of a node are decoded by parameters ([NodeDecoders]); an
    index the source would panic on is the error [ErrPanic]. *)

From stdpp Require Import base list gmap strings.
From Stdlib Require Import ZArith Lia Ascii.
From S2P Require Import Prelude GoMap GoSort GoStrings Float64 GoTime Kube Claims Links Topology Device Footprint.
From S2P Require Import Reason.

Open Scope Z_scope.

Record NodeConfigInfo := {
  nc_DeviceSplit : Z;
  nc_CoresScaling : float64;
  nc_MemoryFactor : Z;
  nc_MemoryScaling : float64
}.

Definition NodeDeviceInfo : Type := list DeviceInfo.

Record TopologyInfo := {
  ti_Index : Z;
  ti_Links : gmap Z (list P2PLinkType)
}.

(** The aggregates [RefreshResourcesData] computes. *)
Record NodeStats := {
  st_allSameCapacity : bool;
  st_totalNumber : Z;
  st_usedNumber : Z;
  st_totalMemory : Z;
  st_usedMemory : Z;
  st_totalCores : Z;
  st_usedCores : Z;
  st_maxCapability : float64;
  st_schedulableDevices : Z;
  st_maxDeviceCores : Z;
  st_maxDeviceMemory : Z
}.

(** The [nvlinkComponent*] maps. *)
Record NVLinkView := {
  nv_ByUUID : gmap string Z;
  nv_ToUUIDs : gmap Z (list string);
  nv_Ordinal : gmap Z Z;
  nv_Domain : gmap Z string;
  nv_RootByDomain : gmap string Z
}.

Record NodeInfo := {
  ni_node : Node;
  ni_deviceMap : gmap Z Device;
  ni_deviceIndexMap : gmap string Z;
  ni_deviceList : DeviceList;
  ni_stats : NodeStats;
  ni_gpuTopology : bool;
  ni_numaTopology : bool;
  ni_tiers : option tieredComponents;
  ni_gpuRail : gmap string string;
  ni_maxNUMAGroupSize : Z;
  ni_nvlink : NVLinkView;
  ni_nodePods : list Pod;
  ni_config : NodeConfigInfo
}.

Definition zero_stats : NodeStats :=
  {| st_allSameCapacity := false; st_totalNumber := 0; st_usedNumber := 0; st_totalMemory := 0; st_usedMemory := 0;
     st_totalCores := 0; st_usedCores := 0; st_maxCapability := f64_0; st_schedulableDevices := 0;
     st_maxDeviceCores := 0; st_maxDeviceMemory := 0 |}.

Definition empty_nvlink : NVLinkView :=
  {| nv_ByUUID := ∅; nv_ToUUIDs := ∅; nv_Ordinal := ∅; nv_Domain := ∅; nv_RootByDomain := ∅ |}.

(** The mutable parts replaced: devices, aggregates and pods. *)
Definition with_state (n : NodeInfo) (devices : gmap Z Device) (stats : NodeStats) (pods : list Pod) : NodeInfo :=
  {| ni_node := ni_node n; ni_deviceMap := devices; ni_deviceIndexMap := ni_deviceIndexMap n;
     ni_deviceList := ni_deviceList n; ni_stats := stats; ni_gpuTopology := ni_gpuTopology n;
     ni_numaTopology := ni_numaTopology n; ni_tiers := ni_tiers n; ni_gpuRail := ni_gpuRail n;
     ni_maxNUMAGroupSize := ni_maxNUMAGroupSize n; ni_nvlink := ni_nvlink n; ni_nodePods := pods;
     ni_config := ni_config n |}.

Definition set_used_stats (s : NodeStats) (number cores memory : Z) : NodeStats :=
  {| st_allSameCapacity := st_allSameCapacity s; st_totalNumber := st_totalNumber s; st_usedNumber := number;
     st_totalMemory := st_totalMemory s; st_usedMemory := memory; st_totalCores := st_totalCores s;
     st_usedCores := cores; st_maxCapability := st_maxCapability s;
     st_schedulableDevices := st_schedulableDevices s; st_maxDeviceCores := st_maxDeviceCores s;
     st_maxDeviceMemory := st_maxDeviceMemory s |}.

Definition GetName (n : NodeInfo) : string := n_Name (ni_node n).

(** ** Accounting *)

Inductive account_error := ErrUnknownUUID (uuid : string) | ErrUnknownID (id : Z).

(** The body [AddUsedResources] and [addFootprintResources] share. *)
Definition add_occupancy (n : NodeInfo) (uuid : string) (number cores memory : Z) : result account_error NodeInfo :=
  match ni_deviceIndexMap n !! uuid with
  | None => Fail (ErrUnknownUUID uuid)
  | Some deviceId =>
      match ni_deviceMap n !! deviceId with
      | None => Fail (ErrUnknownID deviceId)
      | Some dev =>
          let devices := <[deviceId := addUsedResourcesN dev number cores memory]> (ni_deviceMap n) in
          let s := ni_stats n in
          let s := if negb (d_mig dev) && d_healthy dev
                   then set_used_stats s (st_usedNumber s +w number) (st_usedCores s +w cores) (st_usedMemory s +w memory)
                   else s in
          Ok (with_state n devices s (ni_nodePods n))
      end
  end.

Definition AddUsedResources (n : NodeInfo) (claim : DeviceClaim) : result account_error NodeInfo :=
  add_occupancy n (dc_Uuid claim) 1 (dc_Cores claim) (dc_Memory claim).

Definition addFootprintResources (n : NodeInfo) (fp : PodDeviceFootprint) : result account_error NodeInfo :=
  add_occupancy n (fp_Uuid fp) (fp_Number fp) (fp_Cores fp) (fp_Memory fp).

(** A failing step is logged and leaves the node as it was. *)
Definition or_skip (n : NodeInfo) (r : result account_error NodeInfo) : NodeInfo :=
  match r with Ok n' => n' | Fail _ => n end.

Section accounting.
Context `{Env} `{MapOrder}.

(** The pod's own grace period, the default when absent, malformed or under a second. *)
Definition grace_period (pod : Pod) : Z :=
  let val := annotation pod SchedulerStuckGracePeriodAnnotation in
  if bool_decide (val ≠ "") then
    match ParseDuration val with
    | None => stuckGracePeriod
    | Some gracePeriod => if bool_decide (gracePeriod < Second) then stuckGracePeriod else gracePeriod
    end
  else stuckGracePeriod.

Definition ShouldCountPodDeviceAllocation (pod : Pod) : bool :=
  if bool_decide (p_NodeName pod ≠ "") then true
  else if bool_decide (HasLabel pod PodAssignedPhaseLabel = Some AssignPhaseFailed) then false
  else
    match p_PodScheduledCondition pod with
    | None => true
    | Some condition =>
        if bool_decide (pc_Status condition ≠ ConditionFalse) || bool_decide (pc_Reason condition ≠ PodReasonUnschedulable)
        then true
        else
          let predicateTimeStr := annotation pod PodPredicateTimeAnnotation in
          if bool_decide (predicateTimeStr = "") then false
          else
            match ParseInt predicateTimeStr with
            | None => false
            | Some predicateTimeNanos =>
                if bool_decide (predicateTimeNanos ≤ 0) then false
                else if bool_decide (Z.quot predicateTimeNanos Second ≤ pc_LastTransitionUnix condition) then false
                else
                  let stuckDuration := time_sub time_now predicateTimeNanos in
                  bool_decide (stuckDuration ≤ grace_period pod)
            end
    end.

Definition AddPodUsedResources (n : NodeInfo) (pod : Pod) : NodeInfo :=
  if negb (ShouldCountPodDeviceAllocation pod) then n
  else
    let podDeviceClaim := GetPodDeviceClaim pod in
    if bool_decide (podDeviceClaim = []) then n
    else if podHasVGPUInitContainer pod then
      fold_left (λ n fp, or_skip n (addFootprintResources n fp))
        (range_str (ReducePodFootprint pod podDeviceClaim)).*2 n
    else
      fold_left (λ n containerClaim,
          fold_left (λ n claim, or_skip n (AddUsedResources n claim)) (cdc_DeviceClaims containerClaim) n)
        podDeviceClaim n.

Definition resetResourceUsage (n : NodeInfo) : NodeInfo :=
  with_state n (ResetUsed <$> ni_deviceMap n) (set_used_stats (ni_stats n) 0 0 0) (ni_nodePods n).

Record NodeInfoOption := {
  no_excludedUidSet : gset string;
  no_nodePods : list Pod;
  no_nodeConfig : option NodeConfigInfo;
  no_nodeDevice : option NodeDeviceInfo;
  no_resetUsed : bool;
  no_resetPods : bool;
  no_gpuTopologyEnabled : bool
}.

Definition AddPodsUsedResources (n : NodeInfo) (pods : list Pod) (infoOption : NodeInfoOption) : NodeInfo :=
  let n := if no_resetPods infoOption then with_state n (ni_deviceMap n) (ni_stats n) [] else n in
  let n := if no_resetUsed infoOption then resetResourceUsage n else n in
  fold_left (λ n pod,
      if bool_decide (p_UID pod ∈ no_excludedUidSet infoOption) then n
      else AddPodUsedResources (with_state n (ni_deviceMap n) (ni_stats n) (ni_nodePods n ++ [pod])) pod)
    (PodsOnNode pods (GetName n)) n.

(** ** Snapshots *)

Record deviceUsage := { du_number : Z; du_cores : Z; du_memory : Z }.

Record UsageSnapshot := {
  us_nodeNumber : Z;
  us_nodeCores : Z;
  us_nodeMemory : Z;
  us_devices : gmap Z deviceUsage
}.

Definition SnapshotUsage (n : NodeInfo) : UsageSnapshot :=
  {| us_nodeNumber := st_usedNumber (ni_stats n); us_nodeCores := st_usedCores (ni_stats n);
     us_nodeMemory := st_usedMemory (ni_stats n);
     us_devices := (λ d, {| du_number := d_usedNumber d; du_cores := d_usedCores d; du_memory := d_usedMemory d |})
                   <$> ni_deviceMap n |}.

Definition RestoreUsage (n : NodeInfo) (snap : UsageSnapshot) : NodeInfo :=
  with_state n
    (map_imap (λ id d, Some match us_devices snap !! id with
                            | Some u => set_used d (du_number u) (du_cores u) (du_memory u)
                            | None => d
                            end) (ni_deviceMap n))
    (set_used_stats (ni_stats n) (us_nodeNumber snap) (us_nodeCores snap) (us_nodeMemory snap))
    (ni_nodePods n).

(** ** Aggregates *)

Definition schedulable (d : Device) : bool := negb (d_mig d) && d_healthy d.

(** The loop state: the aggregates and [first]/[memoryCapacity]. *)
Definition refresh_step (acc : NodeStats * option Z) (d : Device) : NodeStats * option Z :=
  let '(s, capacity) := acc in
  if schedulable d then
    ({| st_allSameCapacity :=
          match capacity with
          | None => st_allSameCapacity s
          | Some c => if bool_decide (GetTotalMemory d ≠ c) then false else st_allSameCapacity s
          end;
        st_totalNumber := st_totalNumber s +w GetTotalNumber d;
        st_usedNumber := st_usedNumber s +w (GetTotalNumber d -w AllocatableNumber d);
        st_totalMemory := st_totalMemory s +w GetTotalMemory d;
        st_usedMemory := st_usedMemory s +w (GetTotalMemory d -w AllocatableMemory d);
        st_totalCores := st_totalCores s +w GetTotalCores d;
        st_usedCores := st_usedCores s +w (GetTotalCores d -w AllocatableCores d);
        st_maxCapability := f64_max (st_maxCapability s) (d_capability d);
        st_schedulableDevices := st_schedulableDevices s +w 1;
        st_maxDeviceCores := Z.max (st_maxDeviceCores s) (GetTotalCores d);
        st_maxDeviceMemory := Z.max (st_maxDeviceMemory s) (GetTotalMemory d) |},
     match capacity with None => Some (GetTotalMemory d) | Some c => Some c end)
  else (s, capacity).

Definition refresh_init : NodeStats :=
  {| st_allSameCapacity := true; st_totalNumber := 0; st_usedNumber := 0; st_totalMemory := 0; st_usedMemory := 0;
     st_totalCores := 0; st_usedCores := 0; st_maxCapability := f64_0; st_schedulableDevices := 0;
     st_maxDeviceCores := 0; st_maxDeviceMemory := 0 |}.

Definition RefreshResourcesData (n : NodeInfo) : NodeInfo :=
  with_state n (ni_deviceMap n) (fold_left refresh_step (range (ni_deviceMap n)).*2 (refresh_init, None)).1
    (ni_nodePods n).

(** ** NVLink components *)

Definition buildComponentIndex (byUUID : gmap string Z) : gmap Z (list string) :=
  fold_left (λ m '(uuid, root), <[root := default [] (m !! root) ++ [uuid]]> m) (range_str byUUID) ∅.

Definition min_index (deviceIndexMap : gmap string Z) (uuids : list string) : Z :=
  fold_left (λ minIdx uuid,
      match deviceIndexMap !! uuid with
      | Some id => if bool_decide (id < minIdx) then id else minIdx
      | None => minIdx
      end) uuids int64_max.

Definition rail_keyed (deviceIndexMap : gmap string Z) (gpuRail : gmap string string) : bool :=
  negb (bool_decide (gpuRail = ∅)) &&
  forallb (λ '(uuid, _), bool_decide (is_Some (gpuRail !! uuid))) (range_str deviceIndexMap).

Definition domain_signature (componentToUUIDs : gmap Z (list string)) (gpuRail : gmap string string)
    (railKeyed : bool) (ordinal root : Z) : string :=
  if railKeyed then
    "rail:" +:+ join_char "," (sort_strings ((λ u, default "" (gpuRail !! u)) <$> default [] (componentToUUIDs !! root)))
  else "ord:" +:+ Itoa ordinal.

Definition add_domain (componentToUUIDs : gmap Z (list string)) (gpuRail : gmap string string) (railKeyed : bool)
    (acc : gmap Z Z * gmap Z string * gmap string Z) (entry : nat * (Z * Z)) : gmap Z Z * gmap Z string * gmap string Z :=
  let '(ord, dom, byDom) := acc in
  let '(k, (root, _)) := entry in
  let ordinal := Z.of_nat k in
  let sig := domain_signature componentToUUIDs gpuRail railKeyed ordinal root in
  (<[root := ordinal]> ord, <[root := sig]> dom,
   if bool_decide (is_Some (byDom !! sig)) then byDom else <[sig := root]> byDom).

Definition buildComponentDomains (componentToUUIDs : gmap Z (list string)) (deviceIndexMap : gmap string Z)
    (gpuRail : gmap string string) : gmap Z Z * gmap Z string * gmap string Z :=
  let mins := (λ '(root, uuids), (root, min_index deviceIndexMap uuids)) <$> range componentToUUIDs in
  let mins := sort_slice (chain_less [by_key snd; by_key fst]) mins in
  let railKeyed := rail_keyed deviceIndexMap gpuRail in
  fold_left (add_domain componentToUUIDs gpuRail railKeyed) (zip (seq 0 (length mins)) mins) (∅, ∅, ∅).

Definition nvlink_view (tiers : tieredComponents) (devices : DeviceList) (deviceIndexMap : gmap string Z)
    (gpuRail : gmap string string) : NVLinkView :=
  let byU := byUUID (Some tiers) TierNVLink devices in
  let toU := buildComponentIndex byU in
  let '(ord, dom, byDom) := buildComponentDomains toU deviceIndexMap gpuRail in
  {| nv_ByUUID := byU; nv_ToUUIDs := toU; nv_Ordinal := ord; nv_Domain := dom; nv_RootByDomain := byDom |}.

Definition computeMaxNUMAGroupSize (deviceMap : gmap Z Device) : Z :=
  let groups := fold_left (λ groups d, if bool_decide (d_numa d < 0) then groups else bump groups (d_numa d))
                  (range deviceMap).*2 ∅ in
  fold_left (λ maxCount c, if bool_decide (maxCount < c) then c else maxCount) (range groups).*2 0.

(** ** Construction *)

(** The JSON decoders of the node annotations; [None] is an error, of which
    the text is known for the first two. *)
Class NodeDecoders : Type := {
  device_error_text : string → string;
  config_error_text : string → string;
  decode_NodeDeviceInfo : string → option NodeDeviceInfo;
  decode_NodeConfigInfo : string → option NodeConfigInfo;
  decode_NodeTopology : string → option (list TopologyInfo);
  decode_GPURail : string → option (gmap string string)
}.

Inductive gather_error := ErrReason (c : Code) | ErrPanic.

Record DeviceGatherInfo := {
  dg_DeviceMap : gmap Z Device;
  dg_DeviceList : DeviceList;
  dg_DeviceIndexMap : gmap string Z;
  dg_EnabledGPUTopology : bool;
  dg_EnabledNumaAffinity : bool;
  dg_GPURail : gmap string string;
  dg_NodeConfigInfo : NodeConfigInfo
}.

Definition node_annotation (node : Node) (k : string) : string := default "" (n_Annotations node !! k).

Definition NodeDeviceRegisterAnnotation : string := globalDomainName +:+ "/node-device-register".
Definition NodeDeviceTopologyAnnotation : string := globalDomainName +:+ "/node-device-topology".
Definition NodeConfigInfoAnnotation : string := globalDomainName +:+ "/node-config-info".
Definition NodeGPUDomainAnnotation : string := globalDomainName +:+ "/node-gpu-domain".

(** [DeviceList[device.Id] = ...]; out of range is a panic. *)
Definition set_entry (l : DeviceList) (id : Z) (d : GDevice) : result gather_error DeviceList :=
  if bool_decide (0 ≤ id < Z.of_nat (length l)) then Ok (<[Z.to_nat id := Some d]> l) else Fail ErrPanic.

(** The loop over the registered devices. *)
Fixpoint register_devices (infos : NodeDeviceInfo) (g : DeviceGatherInfo) : result gather_error DeviceGatherInfo :=
  match infos with
  | [] => Ok g
  | d :: infos' =>
      let* l := set_entry (dg_DeviceList g) (di_Id d) (NewGDevice (di_Id d) (di_Uuid d) (di_BusId d)) in
      register_devices infos'
        {| dg_DeviceMap := <[di_Id d := NewDevice d]> (dg_DeviceMap g); dg_DeviceList := l;
           dg_DeviceIndexMap := <[di_Uuid d := di_Id d]> (dg_DeviceIndexMap g);
           dg_EnabledGPUTopology := dg_EnabledGPUTopology g;
           dg_EnabledNumaAffinity := dg_EnabledNumaAffinity g || bool_decide (0 ≤ di_Numa d);
           dg_GPURail := dg_GPURail g; dg_NodeConfigInfo := dg_NodeConfigInfo g |}
  end.

(** Install every listed link, in the order of the nested loops. *)
Fixpoint add_links (l : DeviceList) (edges : list (Z * Z * P2PLinkType)) : result gather_error DeviceList :=
  match edges with
  | [] => Ok l
  | (from, to, t) :: edges' =>
      match DeviceList_AddLink l from to t with
      | None => Fail ErrPanic
      | Some l => add_links l edges'
      end
  end.

Definition topology_edges (topo : list TopologyInfo) : list (Z * Z * P2PLinkType) :=
  mjoin ((λ info, mjoin ((λ '(toIdx, ls), (λ t, (ti_Index info, toIdx, t)) <$> ls) <$> range (ti_Links info))) <$> topo).

Definition NewNodeDeviceGatherInfo `{NodeDecoders} (node : Node) (option : NodeInfoOption)
  : result gather_error DeviceGatherInfo :=
  let* nodeDeviceInfo :=
    match no_nodeDevice option with
    | Some info => Ok info
    | None =>
        let deviceRegister := node_annotation node NodeDeviceRegisterAnnotation in
        if bool_decide (deviceRegister = "") then Fail (ErrReason NodeNoVGPURegister)
        else match decode_NodeDeviceInfo deviceRegister with
             | Some info => Ok info
             | None => Fail (ErrReason NodeBadVGPURegister)
             end
    end in
  let* nodeConfigInfo :=
    match no_nodeConfig option with
    | Some info => Ok info
    | None =>
        let nodeConfig := node_annotation node NodeConfigInfoAnnotation in
        if bool_decide (nodeConfig = "") then Fail (ErrReason NodeNoVGPUConfig)
        else match decode_NodeConfigInfo nodeConfig with
             | Some info => Ok info
             | None => Fail (ErrReason NodeBadVGPUConfig)
             end
    end in
  let* g := register_devices nodeDeviceInfo
    {| dg_DeviceMap := ∅; dg_DeviceList := replicate (length nodeDeviceInfo) None; dg_DeviceIndexMap := ∅;
       dg_EnabledGPUTopology := false; dg_EnabledNumaAffinity := false; dg_GPURail := ∅;
       dg_NodeConfigInfo := nodeConfigInfo |} in
  if no_gpuTopologyEnabled option then
    let topoValue := node_annotation node NodeDeviceTopologyAnnotation in
    if bool_decide (topoValue = "") then Ok g
    else
      let edges := topology_edges (default [] (decode_NodeTopology topoValue)) in
      let* l := add_links (dg_DeviceList g) edges in
      let railValue := node_annotation node NodeGPUDomainAnnotation in
      Ok {| dg_DeviceMap := dg_DeviceMap g; dg_DeviceList := l; dg_DeviceIndexMap := dg_DeviceIndexMap g;
            dg_EnabledGPUTopology := negb (bool_decide (edges = [])); dg_EnabledNumaAffinity := dg_EnabledNumaAffinity g;
            dg_GPURail := if bool_decide (railValue = "") then ∅ else default ∅ (decode_GPURail railValue);
            dg_NodeConfigInfo := dg_NodeConfigInfo g |}
  else Ok g.

Definition NewNodeInfo `{NodeDecoders} (node : Node) (infoOption : NodeInfoOption) : result gather_error NodeInfo :=
  let* gatherInfo := NewNodeDeviceGatherInfo node infoOption in
  let tiers := computeTieredComponents (dg_DeviceList gatherInfo) in
  let topo := dg_EnabledGPUTopology gatherInfo in
  let numa := dg_EnabledNumaAffinity gatherInfo in
  let ret := {| ni_node := node; ni_deviceMap := dg_DeviceMap gatherInfo;
       ni_deviceIndexMap := dg_DeviceIndexMap gatherInfo; ni_deviceList := dg_DeviceList gatherInfo;
       ni_stats := zero_stats; ni_gpuTopology := topo; ni_numaTopology := numa;
       ni_tiers := if topo then Some tiers else None;
       ni_gpuRail := if topo then dg_GPURail gatherInfo else ∅;
       ni_maxNUMAGroupSize := if numa then computeMaxNUMAGroupSize (dg_DeviceMap gatherInfo) else 0;
       ni_nvlink := if topo then nvlink_view tiers (dg_DeviceList gatherInfo) (dg_DeviceIndexMap gatherInfo)
                                   (dg_GPURail gatherInfo) else empty_nvlink;
       ni_nodePods := []; ni_config := dg_NodeConfigInfo gatherInfo |} in
  Ok (RefreshResourcesData (AddPodsUsedResources ret (no_nodePods infoOption) infoOption)).

(** ** Getters *)

Definition clamp0 (z : Z) : Z := if bool_decide (0 ≤ z) then z else 0.

Definition GetAvailableCores (n : NodeInfo) : Z := clamp0 (st_totalCores (ni_stats n) -w st_usedCores (ni_stats n)).
Definition GetAvailableMemory (n : NodeInfo) : Z := clamp0 (st_totalMemory (ni_stats n) -w st_usedMemory (ni_stats n)).
Definition GetAvailableNumber (n : NodeInfo) : Z := clamp0 (st_totalNumber (ni_stats n) -w st_usedNumber (ni_stats n)).
Definition GetDeviceCount (n : NodeInfo) : Z := Z.of_nat (size (ni_deviceMap n)).
Definition GetSchedulableDeviceCount (n : NodeInfo) : Z := st_schedulableDevices (ni_stats n).
Definition GetMaxDeviceMemory (n : NodeInfo) : Z := st_maxDeviceMemory (ni_stats n).
Definition GetMaxDeviceCores (n : NodeInfo) : Z := st_maxDeviceCores (ni_stats n).
Definition HasSameCapacity (n : NodeInfo) : bool := st_allSameCapacity (ni_stats n).
Definition HasGPUTopology (n : NodeInfo) : bool := ni_gpuTopology n.
Definition HasNUMATopology (n : NodeInfo) : bool := ni_numaTopology n.
Definition MaxNUMAGroupSize (n : NodeInfo) : Z := ni_maxNUMAGroupSize n.

(** ** Connectivity queries *)

Definition LinkTopologyFitness (n : NodeInfo) (needNumber : Z) : Z :=
  if negb (ni_gpuTopology n) then 0
  else if bool_decide (needNumber ≤ largest (ni_tiers n) TierNVLink) then 5
  else if bool_decide (needNumber ≤ largest (ni_tiers n) TierSwitch) then 4
  else if bool_decide (needNumber ≤ largest (ni_tiers n) TierNUMA) then 3
  else if bool_decide (needNumber ≤ largest (ni_tiers n) TierAny) then 2
  else 1.

(** [n.deviceList[i]] for an index below its length; a negative one panics. *)
Definition device_at (n : NodeInfo) (i : Z) : option GDevice :=
  if bool_decide (0 ≤ i) then default None (ni_deviceList n !! Z.to_nat i) else None.

Definition ConnectedAtTier (n : NodeInfo) (uuidA uuidB : string) (tier : LinkTier) : bool :=
  match ni_deviceIndexMap n !! uuidA, ni_deviceIndexMap n !! uuidB with
  | Some ia, Some ib =>
      if bool_decide (ia = ib) then false
      else if bool_decide (Z.of_nat (length (ni_deviceList n)) ≤ ia)
              || bool_decide (Z.of_nat (length (ni_deviceList n)) ≤ ib) then false
      else match device_at n ia with
           | None => false
           | Some dev => existsb (λ l, bool_decide (linkTierThreshold tier ≤ l)) (links_to dev ib)
           end
  | _, _ => false
  end.

Definition HasLinkPeerAtTier (n : NodeInfo) (uuid : string) (tier : LinkTier) : bool :=
  match ni_deviceIndexMap n !! uuid with
  | None => false
  | Some i =>
      if bool_decide (Z.of_nat (length (ni_deviceList n)) ≤ i) then false
      else match device_at n i with
           | None => false
           | Some dev =>
               existsb (λ '(peer, ls), negb (bool_decide (peer = i)) &&
                          existsb (λ l, bool_decide (linkTierThreshold tier ≤ l)) ls)
                 (range (g_Links dev))
           end
  end.

Definition LinkTierIsUniform (n : NodeInfo) (tier : LinkTier) : bool := isUniform (ni_tiers n) tier.
Definition LinkTierMaxComponentSize (n : NodeInfo) (tier : LinkTier) : Z := largest (ni_tiers n) tier.
End accounting.
