(* ===== verification/Accounting.v ===== *)
(** * What the accounting of a node computes

    Theorems about [NodeInfo]: a counted pod adds its lifecycle footprint to
    every device, snapshots restore, the aggregates are sums over the
    schedulable devices whatever the iteration order, and a stale
    pre-allocation stays stale. *)

From stdpp Require Import base list gmap strings.
From Stdlib Require Import ZArith Lia.
From S2P Require Import Prelude GoMap GoSort GoStrings Float64 GoTime Kube Claims Links Topology Device Footprint.
From S2P Require Import Reason NodeInfo.

Open Scope Z_scope.

(** Ids and UUIDs index the devices consistently. *)
Definition node_indexed (n : NodeInfo) : Prop :=
  (∀ u id, ni_deviceIndexMap n !! u = Some id → ∃ d, ni_deviceMap n !! id = Some d ∧ d_uuid d = u) ∧
  (∀ id d, ni_deviceMap n !! id = Some d → d_id d = id ∧ ni_deviceIndexMap n !! d_uuid d = Some id).

(** [n'] differs from [n] in counters only: the same cards and the same rest. *)
Definition same_node (n n' : NodeInfo) : Prop :=
  with_state n ∅ (set_used_stats (ni_stats n) 0 0 0) [] = with_state n' ∅ (set_used_stats (ni_stats n') 0 0 0) [] ∧
  ∀ id, option_Forall2 same_card (ni_deviceMap n !! id) (ni_deviceMap n' !! id).

#[export] Instance same_node_equiv : Equivalence same_node.
Proof.
  split.
  - intros n. split; [done|]. intros id. reflexivity.
  - intros n n' [H1 H2]. split; [done|]. intros id. symmetry. apply H2.
  - intros n1 n2 n3 [H1 H2] [H3 H4]. split; [congruence|]. intros id. etrans; [apply H2|apply H4].
Qed.

Lemma same_node_index n n' : same_node n n' → ni_deviceIndexMap n = ni_deviceIndexMap n'.
Proof. intros [H _]. unfold with_state in H. by injection H. Qed.

Lemma same_card_fields d d' : same_card d d' → d_id d = d_id d' ∧ d_uuid d = d_uuid d' ∧ d_mig d = d_mig d' ∧
  d_healthy d = d_healthy d' ∧ d_numa d = d_numa d' ∧ d_deviceType d = d_deviceType d'.
Proof. unfold same_card, set_used. intros [= ]. auto 10. Qed.

Lemma same_node_lookup n n' id d :
  same_node n n' → ni_deviceMap n !! id = Some d → ∃ d', ni_deviceMap n' !! id = Some d' ∧ same_card d d'.
Proof. intros [_ H] Hd. specialize (H id). rewrite Hd in H. inversion H; eauto. Qed.

Lemma same_node_indexed n n' : same_node n n' → node_indexed n → node_indexed n'.
Proof.
  intros Hs [H1 H2]. pose proof (same_node_index _ _ Hs) as Hi. split.
  - intros u id Hu. rewrite <- Hi in Hu. destruct (H1 _ _ Hu) as (d & Hd & Huu).
    destruct (same_node_lookup _ _ _ _ Hs Hd) as (d' & Hd' & Hc). exists d'. split; [done|].
    destruct (same_card_fields _ _ Hc) as (_ & ? & _). congruence.
  - intros id d' Hd'. symmetry in Hs. destruct (same_node_lookup _ _ _ _ Hs Hd') as (d & Hd & Hc).
    destruct (H2 _ _ Hd) as [<- Hu]. destruct (same_card_fields _ _ Hc) as (-> & -> & _).
    by rewrite <- Hi.
Qed.

Lemma same_node_node n n' : same_node n n' → ni_node n = ni_node n'.
Proof. intros [H _]. unfold with_state in H. by injection H. Qed.

(** ** One step of accounting *)

Lemma add_occupancy_counters n u a b c n' :
  add_occupancy n u a b c = Ok n' → same_node n n' ∧ ni_nodePods n = ni_nodePods n'.
Proof.
  unfold add_occupancy. destruct (ni_deviceIndexMap n !! u) as [i|]; [|done].
  destruct (ni_deviceMap n !! i) as [dev|] eqn:Hdev; [|done]. intros [= <-]. split; [|done]. split.
  - unfold with_state. simpl. by destruct (_ && _).
  - intros id. simpl. rewrite lookup_insert. destruct (decide (i = id)) as [->|]; [rewrite Hdev; by constructor|].
    reflexivity.
Qed.

(** A single claim as a footprint. *)
Definition fp_of (claim : DeviceClaim) : PodDeviceFootprint :=
  {| fp_Id := dc_Id claim; fp_Uuid := dc_Uuid claim; fp_Number := 1; fp_Cores := dc_Cores claim;
     fp_Memory := dc_Memory claim |}.

Lemma AddUsedResources_fp n claim : AddUsedResources n claim = addFootprintResources n (fp_of claim).
Proof. done. Qed.

Lemma peak_fp_of x claim : peak x (fp_of claim) = demand x claim.
Proof. by destruct x. Qed.

Lemma addFootprint_spec n fp :
  node_indexed n →
  same_node n (or_skip n (addFootprintResources n fp)) ∧
  ∀ id d, ni_deviceMap n !! id = Some d →
    ∃ d', ni_deviceMap (or_skip n (addFootprintResources n fp)) !! id = Some d' ∧
      ∀ x, used x d' = if decide (fp_Uuid fp = d_uuid d) then used x d +w peak x fp else used x d.
Proof.
  intros [H1 H2]. split.
  { destruct (addFootprintResources n fp) eqn:E; simpl; [|done]. by apply add_occupancy_counters in E as [? _]. }
  unfold addFootprintResources, add_occupancy. destruct (ni_deviceIndexMap n !! fp_Uuid fp) as [i|] eqn:Ei; simpl.
  2:{ intros id d Hd. exists d. split; [done|]. intros x.
      destruct (H2 _ _ Hd) as [_ Hu]. rewrite decide_False; [done|]. intros E. congruence. }
  destruct (H1 _ _ Ei) as (dev & Hdev & Huu). rewrite Hdev. simpl.
  intros id d Hd. destruct (H2 _ _ Hd) as [Hid Hu]. rewrite lookup_insert. destruct (decide (i = id)) as [->|Hne].
  - simplify_eq. eexists. split; [done|]. intros x. rewrite decide_True by done. rewrite used_addN. by destruct x.
  - exists d. split; [done|]. intros x. rewrite decide_False; [done|]. intros E. congruence.
Qed.

(** A sequence of footprints adds what they take of each device. *)
Definition fps_on (x : dim) (u : string) (fps : list PodDeviceFootprint) : Z :=
  Zsum (peak x <$> filter (λ fp, fp_Uuid fp = u) fps).

Lemma addFootprints_spec fps n :
  node_indexed n → (∀ id d x, ni_deviceMap n !! id = Some d → in64 (used x d)) →
  let n' := fold_left (λ n fp, or_skip n (addFootprintResources n fp)) fps n in
  same_node n n' ∧
  ∀ id d, ni_deviceMap n !! id = Some d →
    ∃ d', ni_deviceMap n' !! id = Some d' ∧ ∀ x, used x d' = used x d +w fps_on x (d_uuid d) fps.
Proof.
  revert n. induction fps as [|fp fps IH]; intros n Hn Hin; simpl.
  { split; [done|]. intros id d Hd. exists d. split; [done|]. intros x. cbn. rewrite Z.add_0_r.
    symmetry. apply wrap64_id. by eapply Hin. }
  destruct (addFootprint_spec n fp Hn) as [Hs Hd].
  set (n1 := or_skip n (addFootprintResources n fp)) in *.
  destruct (IH n1) as [Hs' Hd'].
  - by eapply same_node_indexed.
  - intros id d1 x Hd1. symmetry in Hs. destruct (same_node_lookup _ _ _ _ Hs Hd1) as (d & Hdn & _).
    destruct (Hd _ _ Hdn) as (d1' & Hd1' & Hu). simplify_eq. rewrite Hu.
    case_decide; [apply wrap64_in64|by eapply Hin].
  - split; [by etrans|]. intros id d Hdn.
    destruct (Hd _ _ Hdn) as (d1 & Hd1 & Hu1). destruct (Hd' _ _ Hd1) as (d2 & Hd2 & Hu2).
    exists d2. split; [done|]. intros x. rewrite Hu2, Hu1.
    destruct (same_node_lookup _ _ _ _ Hs Hdn) as (d1' & Hd1' & Hc). simplify_eq.
    destruct (same_card_fields _ _ Hc) as (_ & <- & _).
    unfold fps_on. rewrite filter_cons. case_decide; [|done].
    rewrite fmap_cons, Zsum_cons, wrap64_add_l. f_equal. lia.
Qed.

Lemma fold_left_join {A B C} (f : B → C → B) (g : A → list C) (l : list A) b :
  fold_left (λ b a, fold_left f (g a) b) l b = fold_left f (mjoin (g <$> l)) b.
Proof.
  revert b. induction l as [|a l IH]; intros b; [done|]. rewrite fmap_cons. simpl. by rewrite fold_left_app, IH.
Qed.

Lemma fold_left_fmap {A B C} (f : B → C → B) (g : A → C) (l : list A) b :
  fold_left f (g <$> l) b = fold_left (λ b a, f b (g a)) l b.
Proof. revert b. induction l as [|a l IH]; intros b; [done|]. rewrite fmap_cons. simpl. apply IH. Qed.

Lemma fps_on_claims x u claims : fps_on x u (fp_of <$> claims) = claims_on x u claims.
Proof.
  unfold fps_on, claims_on. induction claims as [|c claims IH]; [done|].
  rewrite fmap_cons, !filter_cons. simpl. case_decide; [|done].
  by rewrite !fmap_cons, !Zsum_cons, IH, peak_fp_of.
Qed.

Lemma claims_on_join x u (pdc : list ContainerDeviceClaim) :
  claims_on x u (mjoin (cdc_DeviceClaims <$> pdc)) = Zsum (container_on x u <$> pdc).
Proof.
  induction pdc as [|c pdc IH]; [done|]. rewrite !fmap_cons, Zsum_cons, <- IH.
  unfold container_on, claims_on. cbn [mjoin list_join]. by rewrite filter_app, fmap_app, Zsum_app.
Qed.

(** Sequential init containers hold claims only if they ask for vGPUs. *)
Definition init_claims_vgpu `{Env} (pod : Pod) (pdc : list ContainerDeviceClaim) : Prop :=
  ∀ cdc, cdc ∈ pdc → is_sequential pod cdc → podHasVGPUInitContainer pod = true.

Section pods.
Context `{Env} `{MapOrder}.

Lemma fps_on_keyed x u m : keyed m → fps_on x u (range_str m).*2 = peak x (fp_get m u).
Proof.
  intros Hk. unfold fps_on, fp_get.
  assert (∀ l : list (string * PodDeviceFootprint), (∀ k fp, (k, fp) ∈ l → m !! k = Some fp) → NoDup l.*1 →
    Zsum (peak x <$> filter (λ fp, fp_Uuid fp = u) l.*2)
    = if decide (u ∈ l.*1) then peak x (default fp_zero (m !! u)) else 0) as Hl.
  { induction l as [|[k fp] l IH]; intros Hm Hnd; [done|]. rewrite !fmap_cons in *. simpl in *.
    apply NoDup_cons in Hnd as [Hk' Hnd]. rewrite filter_cons.
    assert (m !! k = Some fp) as Hkm by (apply Hm; by left).
    pose proof (Hk _ _ Hkm) as Hu.
    assert (Zsum (peak x <$> filter (λ fp, fp_Uuid fp = u) l.*2)
      = if decide (u ∈ l.*1) then peak x (default fp_zero (m !! u)) else 0) as IH'
      by (apply IH; [intros; apply Hm; by right|done]).
    destruct (decide (fp_Uuid fp = u)) as [Hfp|Hfp].
    - rewrite fmap_cons, Zsum_cons, IH'. rewrite decide_False by congruence.
      rewrite decide_True by (rewrite elem_of_cons; left; congruence). rewrite <- Hfp, Hu, Hkm. simpl. lia.
    - rewrite IH'. apply decide_ext. rewrite elem_of_cons. split; [by right|]. intros [->|?]; [congruence|done]. }
  rewrite Hl; [|intros k fp; apply elem_of_range_str|apply NoDup_range_str_keys].
  case_decide as Hu; [done|]. destruct (m !! u) as [fp|] eqn:E; [|by destruct x].
  exfalso. apply Hu, list_elem_of_fmap. exists (u, fp). by rewrite elem_of_range_str.
Qed.

(** The footprints a counted pod is accounted as. *)
Definition pod_fps (pod : Pod) (pdc : PodDeviceClaim) : list PodDeviceFootprint :=
  if podHasVGPUInitContainer pod then (range_str (ReducePodFootprint pod pdc)).*2
  else fp_of <$> mjoin (cdc_DeviceClaims <$> pdc).

Lemma AddPodUsedResources_fps n pod :
  ShouldCountPodDeviceAllocation pod = true →
  AddPodUsedResources n pod
  = fold_left (λ n fp, or_skip n (addFootprintResources n fp)) (pod_fps pod (GetPodDeviceClaim pod)) n.
Proof.
  intros Hc. unfold AddPodUsedResources, pod_fps. rewrite Hc. simpl.
  case_bool_decide as Hnil.
  - rewrite Hnil. destruct (podHasVGPUInitContainer pod); [|done].
    assert (ReducePodFootprint pod [] = ∅) as ->.
    { unfold ReducePodFootprint. case_bool_decide; [done|]. simpl.
      assert ((@range_str _ PodDeviceFootprint ∅) = []) as ->; [|done].
      apply Permutation_nil_r. rewrite range_str_perm. by rewrite map_to_list_empty. }
    assert ((@range_str _ PodDeviceFootprint ∅) = []) as ->; [|done].
    apply Permutation_nil_r. rewrite range_str_perm. by rewrite map_to_list_empty.
  - destruct (podHasVGPUInitContainer pod); [done|].
    by rewrite fold_left_join, fold_left_fmap.
Qed.

Lemma pod_fps_reserve x u pod pdc :
  claims_bounded pdc → init_claims_vgpu pod pdc → fps_on x u (pod_fps pod pdc) = reserve x pod pdc u.
Proof.
  intros Hb Hi. unfold pod_fps. destruct (podHasVGPUInitContainer pod) eqn:Ev.
  - rewrite fps_on_keyed by apply reduce_keyed. by apply reduce_peak.
  - rewrite fps_on_claims, claims_on_join. rewrite (lifecycle_split x u pod). unfold reserve.
    rewrite (filter_none (is_sequential pod) pdc).
    + pose proof (Zsum_nonneg _ (containers_nonneg x u _ (Forall_filter _ (is_regular pod) pdc (proj1 Hb)))).
      cbn. lia.
    + apply Forall_forall. intros cdc Hin Hs. specialize (Hi _ Hin Hs). congruence.
Qed.

Lemma AddPod_spec n pod :
  node_indexed n → (∀ id d x, ni_deviceMap n !! id = Some d → in64 (used x d)) →
  ShouldCountPodDeviceAllocation pod = true →
  claims_bounded (GetPodDeviceClaim pod) → init_claims_vgpu pod (GetPodDeviceClaim pod) →
  same_node n (AddPodUsedResources n pod) ∧
  ∀ id d, ni_deviceMap n !! id = Some d →
    ∃ d', ni_deviceMap (AddPodUsedResources n pod) !! id = Some d' ∧
      ∀ x, used x d' = used x d +w reserve x pod (GetPodDeviceClaim pod) (d_uuid d).
Proof.
  intros Hn Hin Hc Hb Hi. rewrite AddPodUsedResources_fps by done.
  destruct (addFootprints_spec (pod_fps pod (GetPodDeviceClaim pod)) n Hn Hin) as [Hs Hd].
  split; [done|]. intros id d Hdn. destruct (Hd _ _ Hdn) as (d' & Hd' & Hu). exists d'. split; [done|].
  intros x. by rewrite Hu, pod_fps_reserve.
Qed.
End pods.

(** ** All pods of a node *)
Section node_pods.
Context `{Env} `{MapOrder}.

(** The pods of the list that end up in the accounting. *)
Definition counted_pods (pods : list Pod) (nodeName : string) (excluded : gset string) : list Pod :=
  filter (λ p, p_UID p ∉ excluded ∧ ShouldCountPodDeviceAllocation p = true) (PodsOnNode pods nodeName).

Definition pod_claims_ok (pod : Pod) : Prop :=
  claims_bounded (GetPodDeviceClaim pod) ∧ init_claims_vgpu pod (GetPodDeviceClaim pod).

Definition pods_reserve (x : dim) (u : string) (pods : list Pod) : Z :=
  Zsum ((λ p, reserve x p (GetPodDeviceClaim p) u) <$> pods).

Definition counters_in64 (n : NodeInfo) : Prop := ∀ id d x, ni_deviceMap n !! id = Some d → in64 (used x d).

(** The devices of [n'] carry those of [n] plus the occupancy [occ]. *)
Definition occupied_by (n n' : NodeInfo) (occ : dim → string → Z) : Prop :=
  same_node n n' ∧
  ∀ id d, ni_deviceMap n !! id = Some d →
    ∃ d', ni_deviceMap n' !! id = Some d' ∧ ∀ x, used x d' = used x d +w occ x (d_uuid d).

Lemma same_node_pods n pods : same_node n (with_state n (ni_deviceMap n) (ni_stats n) pods).
Proof. split; [done|]. intros id. reflexivity. Qed.

Lemma occupied_by_in64 n n' occ : occupied_by n n' occ → counters_in64 n'.
Proof.
  intros [Hs Hd] id d' x Hd'. symmetry in Hs. destruct (same_node_lookup _ _ _ _ Hs Hd') as (d & Hdn & _).
  destruct (Hd _ _ Hdn) as (d2 & Hd2 & Hu). simplify_eq. rewrite Hu. apply wrap64_in64.
Qed.

Lemma occupied_by_refl n : counters_in64 n → occupied_by n n (λ _ _, 0).
Proof.
  intros Hin. split; [done|]. intros id d Hd. exists d. split; [done|]. intros x. rewrite Z.add_0_r.
  symmetry. apply wrap64_id. by eapply Hin.
Qed.

Lemma occupied_by_trans n1 n2 n3 o1 o2 :
  occupied_by n1 n2 o1 → occupied_by n2 n3 o2 → occupied_by n1 n3 (λ x u, o1 x u + o2 x u).
Proof.
  intros [Hs1 H1] [Hs2 H2]. split; [by etrans|]. intros id d Hd.
  destruct (H1 _ _ Hd) as (d1 & Hd1 & Hu1). destruct (H2 _ _ Hd1) as (d2 & Hd2 & Hu2).
  destruct (same_node_lookup _ _ _ _ Hs1 Hd) as (d1' & Hd1' & Hc). simplify_eq.
  destruct (same_card_fields _ _ Hc) as (_ & Hu & _).
  exists d2. split; [done|]. intros x. rewrite Hu2, Hu1, wrap64_add_l, <- Hu. f_equal. lia.
Qed.

Lemma occupied_by_ext n n' o o' : (∀ x u, o x u = o' x u) → occupied_by n n' o → occupied_by n n' o'.
Proof.
  intros Ho [Hs Hd]. split; [done|]. intros id d Hdn. destruct (Hd _ _ Hdn) as (d' & ? & Hu).
  exists d'. split; [done|]. intros x. by rewrite <- Ho.
Qed.

Lemma add_pods_fold (pods : list Pod) (excluded : gset string) n :
  node_indexed n → counters_in64 n →
  Forall pod_claims_ok (filter (λ p, p_UID p ∉ excluded ∧ ShouldCountPodDeviceAllocation p = true) pods) →
  occupied_by n
    (fold_left (λ n pod, if bool_decide (p_UID pod ∈ excluded) then n
       else AddPodUsedResources (with_state n (ni_deviceMap n) (ni_stats n) (ni_nodePods n ++ [pod])) pod) pods n)
    (λ x u, pods_reserve x u (filter (λ p, p_UID p ∉ excluded ∧ ShouldCountPodDeviceAllocation p = true) pods)).
Proof.
  revert n. induction pods as [|p pods IH]; intros n Hn Hin Hok; [by apply occupied_by_refl|].
  cbn [fold_left]. rewrite filter_cons in *. case_bool_decide as Hex.
  { rewrite decide_False in * by tauto. by apply IH. }
  set (n0 := with_state n _ _ _). assert (same_node n n0) as Hs0 by apply same_node_pods.
  destruct (ShouldCountPodDeviceAllocation p) eqn:Hc.
  - rewrite decide_True in * by done. apply Forall_cons in Hok as [[Hb Hi] Hok].
    assert (occupied_by n (AddPodUsedResources n0 p) (λ x u, reserve x p (GetPodDeviceClaim p) u)) as Hstep.
    { destruct (AddPod_spec n0 p) as [Hs Hd]; [by eapply same_node_indexed|exact Hin|done..|].
      split; [by trans n0|]. intros id d. apply Hd. }
    eapply occupied_by_ext; [|eapply occupied_by_trans; [exact Hstep|apply IH]].
    + intros x u. unfold pods_reserve. by rewrite fmap_cons, Zsum_cons.
    + eapply same_node_indexed; [|exact Hn]. apply Hstep.
    + by eapply occupied_by_in64.
    + done.
  - rewrite decide_False in * by (intros [_ ?]; done).
    assert (AddPodUsedResources n0 p = n0) as -> by (unfold AddPodUsedResources; by rewrite Hc).
    destruct (IH n0) as [Hs Hd]; [by eapply same_node_indexed|exact Hin|done|].
    split; [by trans n0|]. intros id d. apply Hd.
Qed.


(** ** Snapshots *)

Lemma stats_restore s s' :
  set_used_stats s 0 0 0 = set_used_stats s' 0 0 0 →
  set_used_stats s' (st_usedNumber s) (st_usedCores s) (st_usedMemory s) = s.
Proof. destruct s, s'. unfold set_used_stats. simpl. intros [= ]. by subst. Qed.

Lemma with_state_inj n n' s s' d :
  with_state n d s [] = with_state n' d s' [] →
  s = s' ∧ ∀ d2 s2 p2, with_state n d2 s2 p2 = with_state n' d2 s2 p2.
Proof. unfold with_state. intros [= ]. split; [done|]. intros. congruence. Qed.

Lemma restore_snapshot n n' :
  same_node n n' → ni_nodePods n = ni_nodePods n' → RestoreUsage n' (SnapshotUsage n) = n.
Proof.
  intros [Hrest Hdev] Hpods. unfold RestoreUsage, SnapshotUsage. simpl.
  apply with_state_inj in Hrest as [Hstats Hrest].
  rewrite (stats_restore _ _ Hstats), <- Hrest, <- Hpods.
  trans (with_state n (ni_deviceMap n) (ni_stats n) (ni_nodePods n)); [|by destruct n]. f_equal.
  apply map_eq. intros id. rewrite map_lookup_imap, lookup_fmap. specialize (Hdev id).
  inversion Hdev as [d d' Hc E1 E2|E1 E2]; simpl; [|done]. f_equal.
  destruct d, d'. unfold same_card, set_used in *. simpl in *. injection Hc. by intros; subst.
Qed.

(** Rolling back: restoring a snapshot undoes every counter change made
    since it was taken, on the node and on each device. *)
Theorem RestoreUsage_SnapshotUsage n n' :
  same_node n n' → ni_nodePods n = ni_nodePods n' → RestoreUsage n' (SnapshotUsage n) = n.
Proof. apply restore_snapshot. Qed.
End node_pods.

(** ** Aggregates *)

Definition stat_total (x : dim) (s : NodeStats) : Z :=
  match x with Number => st_totalNumber s | Cores => st_totalCores s | Memory => st_totalMemory s end.
Definition stat_used (x : dim) (s : NodeStats) : Z :=
  match x with Number => st_usedNumber s | Cores => st_usedCores s | Memory => st_usedMemory s end.
Definition available (x : dim) (n : NodeInfo) : Z :=
  match x with Number => GetAvailableNumber n | Cores => GetAvailableCores n | Memory => GetAvailableMemory n end.

(** The capacity and the occupancy of one device as [RefreshResourcesData] adds them. *)
Definition capacity (x : dim) (d : Device) : Z :=
  match x with Number => GetTotalNumber d | Cores => GetTotalCores d | Memory => GetTotalMemory d end.
Definition taken (x : dim) (d : Device) : Z := capacity x d -w allocatable x d.

Definition sched_of (l : list Device) : list Device := filter (λ d, schedulable d = true) l.

(** The aggregates are sums and maxima over the schedulable devices of [l]. *)
Record aggregates (l : list Device) (s : NodeStats) : Prop := {
  ag_count : st_schedulableDevices s = wrap64 (Z.of_nat (length (sched_of l)));
  ag_total x : stat_total x s = wrap64 (Zsum (capacity x <$> sched_of l));
  ag_used x : stat_used x s = wrap64 (Zsum (taken x <$> sched_of l));
  ag_cores : st_maxDeviceCores s = Zmax0 (GetTotalCores <$> sched_of l);
  ag_memory : st_maxDeviceMemory s = Zmax0 (GetTotalMemory <$> sched_of l);
  ag_same : st_allSameCapacity s = true ↔
            ∀ d d', d ∈ sched_of l → d' ∈ sched_of l → GetTotalMemory d = GetTotalMemory d'
}.

Lemma head_app_some {A} (l l' : list A) y : head l = Some y → head (l ++ l') = Some y.
Proof. by destruct l. Qed.

Lemma refresh_fold l :
  aggregates l (fold_left refresh_step l (refresh_init, None)).1 ∧
  (fold_left refresh_step l (refresh_init, None)).2 = GetTotalMemory <$> head (sched_of l).
Proof.
  induction l as [|d l [IH Hcap]] using rev_ind.
  { split; [|done]. split; try done; try (by intros []). simpl. split; [|done]. intros _ d d' Hd.
    by apply not_elem_of_nil in Hd. }
  rewrite fold_left_app. cbn [fold_left].
  destruct (fold_left refresh_step l (refresh_init, None)) as [s cap] eqn:E. simpl in IH, Hcap.
  unfold refresh_step. assert (sched_of (l ++ [d]) = sched_of l ++ (if schedulable d then [d] else [])) as Hl.
  { unfold sched_of. rewrite filter_snoc. by destruct (schedulable d). }
  destruct (schedulable d) eqn:Hd; [|rewrite app_nil_r in Hl; split; [|by rewrite Hl];
    destruct IH as [? ? ? ? ? ?]; split; rewrite ?Hl; simpl; try done; intros; rewrite ?Hl; auto].
  destruct IH as [IC IT IU IMc IMm IS]. split.
  - split; rewrite ?Hl; simpl.
    + rewrite IC, wrap64_add_l, length_app. f_equal. simpl. lia.
    + intros x. rewrite Zsum_snoc. specialize (IT x). destruct x; simpl in *; rewrite IT, wrap64_add_l; done.
    + intros x. rewrite Zsum_snoc. specialize (IU x). destruct x; simpl in *; rewrite IU, wrap64_add_l; done.
    + by rewrite Zmax0_snoc, IMc.
    + by rewrite Zmax0_snoc, IMm.
    + rewrite Hcap. destruct (sched_of l) as [|d0 l0] eqn:El; simpl.
      { rewrite IS. split; [|intros _ ?? H1; by apply not_elem_of_nil in H1].
        intros _ d1 d2 ->%list_elem_of_singleton ->%list_elem_of_singleton. done. }
      case_bool_decide as Hne.
      * split; [done|]. intros Hall. exfalso. apply Hne. apply Hall; set_solver.
      * assert (GetTotalMemory d = GetTotalMemory d0) as Heq
          by (destruct (decide (GetTotalMemory d = GetTotalMemory d0)); done).
        rewrite IS. split; [|intros Hall d1 d2 H1 H2; apply Hall; set_solver].
        intros Hall d1 d2 H1 H2.
        assert (∀ d', d' ∈ d0 :: l0 ++ [d] → GetTotalMemory d' = GetTotalMemory d0) as Hd0.
        { intros d'. rewrite elem_of_cons, elem_of_app, list_elem_of_singleton.
          intros [->|[?| ->]]; [done|apply Hall; set_solver|done]. }
        by rewrite (Hd0 d1), (Hd0 d2).
  - simpl. rewrite Hl, Hcap. by destruct (sched_of l).
Qed.

Lemma aggregates_perm l l' s : l ≡ₚ l' → aggregates l s → aggregates l' s.
Proof.
  intros Hp [IC IT IU IMc IMm IS].
  assert (sched_of l ≡ₚ sched_of l') as Hs by (unfold sched_of; by rewrite Hp).
  split.
  - by rewrite <- Hs.
  - intros x. rewrite IT. by rewrite (Zsum_perm _ _ (fmap_Permutation (capacity x) _ _ Hs)).
  - intros x. rewrite IU. by rewrite (Zsum_perm _ _ (fmap_Permutation (taken x) _ _ Hs)).
  - rewrite IMc. apply Zmax0_perm. by rewrite Hs.
  - rewrite IMm. apply Zmax0_perm. by rewrite Hs.
  - rewrite IS. by setoid_rewrite Hs.
Qed.

Lemma refresh_aggregates `{MapOrder} n :
  aggregates (map_to_list (ni_deviceMap n)).*2 (ni_stats (RefreshResourcesData n)).
Proof.
  unfold RefreshResourcesData. simpl. eapply aggregates_perm; [|apply refresh_fold].
  by rewrite range_perm.
Qed.

(** [RefreshResourcesData] leaves, for every iteration order of the device
    map, the count, the totals and used amounts, the largest card and the
    same-capacity flag of exactly the healthy devices that are not in MIG
    mode; sums are Go's, modulo 2^64. *)
Theorem RefreshResourcesData_aggregates `{MapOrder} n :
  aggregates (map_to_list (ni_deviceMap n)).*2 (ni_stats (RefreshResourcesData n)) ∧
  ni_deviceMap (RefreshResourcesData n) = ni_deviceMap n.
Proof. split; [apply refresh_aggregates|done]. Qed.

(** ** Stale pre-allocations *)

(** The environment at another moment. *)
Definition at_time (e : Env) (t : Z) : Env :=
  {| globalDomainName := globalDomainName; time_now := t; stuckGracePeriod := stuckGracePeriod |}.

(** A pod the scheduler rejected: not bound, its [PodScheduled] condition
    false for being unschedulable. *)
Definition rejected_pod (pod : Pod) : Prop :=
  p_NodeName pod = "" ∧
  ∃ c, p_PodScheduledCondition pod = Some c ∧ pc_Status c = ConditionFalse ∧ pc_Reason c = PodReasonUnschedulable.

Lemma counts_antitone (e : Env) pod t1 t2 :
  t1 ≤ t2 → @ShouldCountPodDeviceAllocation (at_time e t2) pod = true →
  @ShouldCountPodDeviceAllocation (at_time e t1) pod = true.
Proof.
  intros Ht. unfold ShouldCountPodDeviceAllocation, PodAssignedPhaseLabel, PodPredicateTimeAnnotation.
  cbn [globalDomainName time_now at_time]. repeat (case_bool_decide; [done|]). destruct (p_PodScheduledCondition pod) as [c|]; [|done].
  destruct (bool_decide _ || bool_decide _); [done|].
  destruct (ParseInt _) as [w|]; [|done]. repeat (case_bool_decide; [done|]).
  rewrite !bool_decide_eq_true. unfold time_sub.
  change (@grace_period (at_time e t2) pod) with (@grace_period (at_time e t1) pod). lia.
Qed.

(** C38 A pre-allocation that has stopped counting does not count again by the
    mere passing of time, as long as the pod itself does not change; and a pod the scheduler keeps rejecting is released
    once its grace period has passed since the pre-allocation was written. *)
Theorem stale_allocation_released (e : Env) pod :
  (∀ t1 t2, t1 ≤ t2 → @ShouldCountPodDeviceAllocation (at_time e t2) pod = true →
            @ShouldCountPodDeviceAllocation (at_time e t1) pod = true) ∧
  (rejected_pod pod → ∀ t written,
     ParseInt (annotation pod PodPredicateTimeAnnotation) = Some written →
     0 ≤ grace_period pod < int64_max → written + grace_period pod < t →
     @ShouldCountPodDeviceAllocation (at_time e t) pod = false).
Proof.
  split.
  - intros t1 t2. apply counts_antitone.
  - intros (Hn & c & Hc & Hs & Hr) t written Hw Hg Ht. unfold ShouldCountPodDeviceAllocation.
    rewrite bool_decide_eq_false_2 by (intros Hne; by apply Hne). case_bool_decide; [done|].
    rewrite Hc, Hs, Hr. rewrite !(bool_decide_eq_false_2 (_ ≠ _)) by (intros Hne; by apply Hne). simpl.
    case_bool_decide; [done|].
    change (@PodPredicateTimeAnnotation (at_time e t)) with (@PodPredicateTimeAnnotation e).
    rewrite Hw. repeat (case_bool_decide; [done|]). apply bool_decide_eq_false_2.
    change (@grace_period (at_time e t) pod) with (@grace_period e pod). unfold time_sub. simpl. lia.
Qed.
