(* ===== verification/TopologyDomain.v ===== *)
(** * Topology domains of the kubelet plugin ([pkg/kubeletplugin/topology_domain.go])

    The keys published as device attributes, from the link matrix over
    union-find to the hash of a component, and the topology the device plugin
    publishes from the same links ([pkg/device/manager]). *)

From stdpp Require Import base list gmap strings relations.
From Stdlib Require Import ZArith Lia Ascii.
From S2P Require Import Prelude GoMap GoSort GoStrings GoFmt Sha256 UnionFind Links Topology Discovery.
From S2P Require Import Reason Kube Claims Device Footprint NodeInfo.

Open Scope Z_scope.

(** The pairs [i < j < n], in the order of the nested loops. *)
Definition upper_pairs (n : nat) : list (nat * nat) := seq 0 n ≫= λ i, pair i <$> seq (S i) (n - S i).

(** ** The matrix of strongest links *)

Definition set_pair (matrix : list (list P2PLinkType)) (i j : nat) (t : P2PLinkType) : list (list P2PLinkType) :=
  alter (insert i t) j (alter (insert j t) i matrix).

(** A probe that fails leaves the link unknown. *)
Definition probed (r : result probe_error P2PLinkType) : P2PLinkType := match r with Ok t => t | Fail _ => P2PLinkUnknown end.

Definition strongest_link `{Nvml} (cliques : list string) (i j : nat) : P2PLinkType :=
  Z.max (probed (GetP2PLink i j)) (probed (GetNVLinkWithCliques i j (clique_of cliques i) (clique_of cliques j))).

Definition strongestLinks `{Nvml} (cliques : list string) : list (list P2PLinkType) :=
  fold_left (λ matrix '(i, j), set_pair matrix i j (strongest_link cliques i j)) (upper_pairs device_count)
    (replicate device_count (replicate device_count P2PLinkUnknown)).

Definition entry (matrix : list (list P2PLinkType)) (i j : nat) : P2PLinkType :=
  default P2PLinkUnknown (matrix !! i ≫= λ row, row !! j).

(** ** Components *)

Fixpoint join_peers {E} (connects : nat → nat → result E bool) (pairs : list (nat * nat)) (parent : list nat) (linked : list bool)
  : result E (list nat * list bool) :=
  match pairs with
  | [] => Ok (parent, linked)
  | (i, j) :: pairs =>
      let* isPeer := connects i j in
      if negb isPeer then join_peers connects pairs parent linked
      else
        let linked := <[j := true]> (<[i := true]> linked) in
        let '(ri, parent) := find parent i in
        let '(rj, parent) := find parent j in
        join_peers connects pairs (if bool_decide (ri ≠ rj) then <[ri := rj]> parent else parent) linked
  end.

Definition is_linked (linked : list bool) (i : nat) : bool := default false (linked !! i).

Fixpoint gather_members (idx : list nat) (linked : list bool) (parent : list nat) (members : gmap nat (list nat))
  : gmap nat (list nat) * list nat :=
  match idx with
  | [] => (members, parent)
  | i :: idx =>
      if is_linked linked i then
        let '(root, parent) := find parent i in
        gather_members idx linked parent (<[root := default [] (members !! root) ++ [i]]> members)
      else gather_members idx linked parent members
  end.

Fixpoint list_peers (idx : list nat) (linked : list bool) (parent : list nat) (members : gmap nat (list nat)) : list (list nat) :=
  match idx with
  | [] => []
  | i :: idx =>
      if is_linked linked i then
        let '(root, parent) := find parent i in default [] (members !! root) :: list_peers idx linked parent members
      else [] :: list_peers idx linked parent members
  end.

Definition peerSets {E} (n : nat) (connects : nat → nat → result E bool) : result E (list (list nat)) :=
  let* joined := join_peers connects (upper_pairs n) (seq 0 n) (replicate n false) in
  let '(parent, linked) := joined in
  let '(members, parent) := gather_members (seq 0 n) linked parent ∅ in
  Ok (list_peers (seq 0 n) linked parent members).

(** ** Keys *)

Definition NUL : ascii := "000".
Definition topologyCliquePrefix : string := "clique:".
Definition topologyNVLinkPrefix : string := "nvlink:".
Definition topologyPCIePrefix : string := "pcie:".

(** What is hashed of a component. *)
Definition component_text (prefix nodeName : string) (member : list nat) (uuids : list string) : string :=
  prefix +:+ nodeName +:+ String NUL (join_char NUL (sort_strings ((λ i, default "" (uuids !! i)) <$> member))).

Definition componentKey (prefix nodeName : string) (member : list nat) (uuids : list string) : string :=
  prefix +:+ EncodeToString (take 8 (Sha256.Sum256 (str_bytes (component_text prefix nodeName member uuids)))).

Record deviceTopology := { dt_Clique : string; dt_NVLinkDomain : string; dt_PCIeDomain : string }.

Definition nvlinkConnectedThreshold : P2PLinkType := SingleNVLINKLink.
Definition pcieConnectedThreshold : P2PLinkType := P2PLinkMultiSwitch.

(** The callbacks given to [peerSets]; they never fail. *)
Definition connects_at (matrix : list (list P2PLinkType)) (threshold : P2PLinkType) (i j : nat) : result probe_error bool :=
  Ok (bool_decide (threshold ≤ entry matrix i j)).

Definition domain_key (prefix nodeName : string) (peers : list (list nat)) (uuids : list string) (i : nat) : string :=
  let member := default [] (peers !! i) in
  if bool_decide (member ≠ []) then componentKey prefix nodeName member uuids else "".

Definition assembleTopologies (nodeName : string) (uuids cliques : list string) (matrix : list (list P2PLinkType))
  : result probe_error (gmap string deviceTopology) :=
  let* nvlinkPeers := peerSets (length uuids) (connects_at matrix nvlinkConnectedThreshold) in
  let* pciePeers := peerSets (length uuids) (connects_at matrix pcieConnectedThreshold) in
  Ok (fold_left (λ topologies '(i, uuid),
        <[uuid := {| dt_Clique := if bool_decide (clique_of cliques i ≠ "") then topologyCliquePrefix +:+ clique_of cliques i else "";
                     dt_NVLinkDomain := domain_key topologyNVLinkPrefix nodeName nvlinkPeers uuids i;
                     dt_PCIeDomain := domain_key topologyPCIePrefix nodeName pciePeers uuids i |}]> topologies)
      (imap pair uuids) ∅).

Section published.
Context `{Nvml}.

Definition device_uuid (i : nat) : result probe_error string :=
  match GetUUID i with (SUCCESS, uuid) => Ok uuid | (ret, _) => Fail (ErrUUID ret) end.

Definition discoverTopologyDomains (nodeName : string) : result probe_error (gmap string deviceTopology) :=
  let* uuids := rmap device_uuid (seq 0 device_count) in
  assembleTopologies nodeName uuids FabricCliques (strongestLinks FabricCliques).

(** ** What the device plugin publishes *)

(** The links [initDevices] finds for GPU [i], as [GetNodeTopologyInfo] lists them. *)
Definition gpu_topology (devLinksMap : gmap string (gmap Z (list P2PLinkType))) (i : nat) : result probe_error TopologyInfo :=
  let* uuid := device_uuid i in
  match devLinksMap !! uuid with
  | Some links => Ok {| ti_Index := Z.of_nat i; ti_Links := links |}
  | None => Fail (ErrNoLinks (Z.of_nat i))
  end.

Definition GetNodeTopologyInfo : result probe_error (list TopologyInfo) :=
  let* deviceList := deviceList_build in
  rmap (gpu_topology (GetDeviceLinkMap deviceList)) (seq 0 device_count).
End published.
