(* ===== verification/DomainSpec.v ===== *)
(** * Topology domains mean what the extender's tiers mean

    [peerSets] computes connected components ([peerSets_spec]), keys name
    components, and the components are those the scheduler extender works
    with, computed by other code from what the device plugin publishes. *)

From stdpp Require Import base list gmap strings relations.
From Stdlib Require Import ZArith Lia Ascii.
From S2P Require Import Prelude GoMap GoSort GoStrings GoFmt Sha256 UnionFind Links Topology Discovery.
From S2P Require Import Reason Kube Claims Device Footprint NodeInfo TopologyDomain.

Open Scope Z_scope.

(** ** Components *)

Lemma elem_of_upper_pairs n i j : (i, j) ∈ upper_pairs n ↔ (i < j < n)%nat.
Proof.
  unfold upper_pairs. rewrite list_elem_of_bind. split.
  - intros (k & Hk & Hin). apply list_elem_of_fmap in Hk as (m & [= -> ->] & Hm). apply elem_of_seq in Hm, Hin. lia.
  - intros Hij. exists i. split; [apply list_elem_of_fmap_2|]; apply elem_of_seq; lia.
Qed.

Definition endpoint (E : list (nat * nat)) (k : nat) : Prop := ∃ m, (k, m) ∈ E ∨ (m, k) ∈ E.

Lemma endpoint_snoc E i j k : endpoint (E ++ [(i, j)]) k ↔ endpoint E k ∨ k = i ∨ k = j.
Proof. unfold endpoint. setoid_rewrite elem_of_app. setoid_rewrite list_elem_of_singleton. naive_solver. Qed.

Lemma connected_endpoint E i k : connected E i k → endpoint E i → endpoint E k.
Proof.
  intros Hc Hi. unfold connected, rtsc in Hc. apply rtc_inv_r in Hc as [->|(m & _ & Hm)]; [done|].
  exists m. destruct Hm as [?|?]; [by right|by left].
Qed.

(** The edges among the pairs. *)
Definition peer_edges (c : nat → nat → bool) (pairs : list (nat * nat)) : list (nat * nat) := filter (λ p, c p.1 p.2 = true) pairs.

(** The flags mark the endpoints. *)
Definition marks (n : nat) (linked : list bool) (E : list (nat * nat)) : Prop :=
  length linked = n ∧ ∀ k, (k < n)%nat → is_linked linked k = true ↔ endpoint E k.

Lemma marks_snoc n linked E i j :
  (i < n)%nat → (j < n)%nat → marks n linked E → marks n (<[j := true]> (<[i := true]> linked)) (E ++ [(i, j)]).
Proof.
  intros Hi Hj [Hl Hm]. split; [by rewrite !length_insert|]. intros k Hk. rewrite endpoint_snoc, <- Hm by done. unfold is_linked.
  destruct (decide (k = j)) as [->|Hkj]; [rewrite list_lookup_insert_eq by (rewrite length_insert; lia); simpl; tauto|].
  rewrite list_lookup_insert_ne by done.
  destruct (decide (k = i)) as [->|Hki]; [rewrite list_lookup_insert_eq by lia; simpl; tauto|].
  rewrite list_lookup_insert_ne by done. tauto.
Qed.

Lemma join_peers_spec {E'} (c : nat → nat → bool) n pairs parent linked E :
  Forall (λ p, (p.1 < p.2 < n)%nat) pairs → represents n parent E → marks n linked E →
  ∃ parent' linked', join_peers (E := E') (λ i j, Ok (c i j)) pairs parent linked = Ok (parent', linked') ∧
    represents n parent' (E ++ peer_edges c pairs) ∧ marks n linked' (E ++ peer_edges c pairs).
Proof.
  revert parent linked E. induction pairs as [|[i j] pairs IH]; intros parent linked E Hin Hrep Hmark; cbn [join_peers].
  { exists parent, linked. by rewrite app_nil_r. }
  apply Forall_cons in Hin as [Hij Hin]. cbn [rbind fst snd] in *. unfold peer_edges. rewrite filter_cons. cbn [fst snd].
  destruct (c i j) eqn:Ec; cbn [negb].
  2:{ rewrite decide_False by done. by apply IH. }
  rewrite decide_True by done. pose proof Hrep as (Hlen & Hforest & _).
  destruct (find_spec parent i Hforest ltac:(lia)) as (ri & p1 & -> & Hri & Hs1).
  pose proof (represents_same_roots _ _ _ _ Hs1 Hrep) as Hrep1. pose proof Hrep1 as (Hlen1 & Hforest1 & _).
  destruct (find_spec p1 j Hforest1 ltac:(lia)) as (rj & p2 & -> & Hrj & Hs2).
  pose proof (represents_same_roots _ _ _ _ Hs2 Hrep1) as Hrep2. cbv zeta.
  assert (root_of p2 i ri) as Hri2 by (apply Hs2, Hs1, Hri). assert (root_of p2 j rj) as Hrj2 by (apply Hs2, Hrj).
  pose proof (same_set_roots _ _ _ _ _ Hri2 Hrj2) as Hsame.
  change ((i, j) :: filter _ pairs) with ([(i, j)] ++ peer_edges c pairs). rewrite (assoc_L (++)).
  apply IH; [done| |by apply marks_snoc; [lia..|]]. case_bool_decide as Hne.
  - apply (represents_link n p2 E i j rj ri); [done|by rewrite Hsame|lia|lia|by right].
  - apply represents_snoc_same; [lia|lia|by apply Hsame|done].
Qed.

Lemma find_root_of n parent E i : represents n parent E → (i < n)%nat →
  ∃ r parent', find parent i = (r, parent') ∧ root_of parent i r ∧ same_roots parent parent'.
Proof. intros (Hl & Hf & _) Hi. apply find_spec; [done|lia]. Qed.

Lemma gather_members_spec n E idx linked parent members :
  represents n parent E → Forall (λ i, (i < n)%nat) idx →
  ∃ members' parent', gather_members idx linked parent members = (members', parent') ∧ same_roots parent parent' ∧
    ∀ r k, k ∈ default [] (members' !! r) ↔
           k ∈ default [] (members !! r) ∨ (k ∈ idx ∧ is_linked linked k = true ∧ root_of parent k r).
Proof.
  intros Hrep Hidx. revert parent members Hrep. induction idx as [|i idx IH]; intros parent members Hrep; cbn [gather_members].
  { exists members, parent. split_and!; [done|done|]. intros r k. split; [by left|]. intros [?|(Hk & _)]; [done|]. by apply elem_of_nil in Hk. }
  apply Forall_cons in Hidx as [Hi Hidx]. specialize (IH Hidx). destruct (is_linked linked i) eqn:El.
  - destruct (find_root_of _ _ _ _ Hrep Hi) as (ri & p1 & -> & Hri & Hs1).
    destruct (IH p1 (<[ri := default [] (members !! ri) ++ [i]]> members) (represents_same_roots _ _ _ _ Hs1 Hrep))
      as (m' & p' & -> & Hs' & Hm). exists m', p'. split_and!; [done|by trans p1|]. intros r k. rewrite Hm.
    destruct Hs1 as [_ Hs1]. setoid_rewrite <- Hs1. rewrite elem_of_cons. destruct (decide (r = ri)) as [->|Hne].
    + rewrite lookup_insert_eq. simpl. rewrite elem_of_app, list_elem_of_singleton. naive_solver.
    + rewrite lookup_insert_ne by done. split; [naive_solver|]. intros [?|([->|?] & ? & Hr)]; [by left| |by right].
      by destruct Hne; eapply root_of_det.
  - destruct (IH parent members Hrep) as (m' & p' & -> & Hs' & Hm). exists m', p'. split_and!; [done|done|]. intros r k.
    rewrite Hm, elem_of_cons. split; [naive_solver|]. intros [?|([->|?] & ? & ?)]; [by left|congruence|by right].
Qed.

Lemma list_peers_spec n E idx linked parent members :
  represents n parent E → Forall (λ i, (i < n)%nat) idx →
  Forall2 (λ i l, if is_linked linked i then ∃ r, root_of parent i r ∧ l = default [] (members !! r) else l = [])
    idx (list_peers idx linked parent members).
Proof.
  intros Hrep Hidx. revert parent Hrep. induction idx as [|i idx IH]; intros parent Hrep; cbn [list_peers]; [done|].
  apply Forall_cons in Hidx as [Hi Hidx]. specialize (IH Hidx). destruct (is_linked linked i) eqn:El.
  - destruct (find_root_of _ _ _ _ Hrep Hi) as (ri & p1 & -> & Hri & Hs1). constructor.
    + rewrite El. by exists ri.
    + eapply Forall2_impl; [apply (IH p1), (represents_same_roots _ _ _ _ Hs1 Hrep)|]. intros k l.
      cbv beta. destruct (is_linked linked k); [|done]. intros (r & Hr & ->). exists r. split; [by apply Hs1|done].
  - constructor; [by rewrite El|by apply IH].
Qed.

(** The peers of a device are its component, or none when it has no edge; the
    devices of one component have the same list. *)
Lemma peerSets_spec {E'} n (c : nat → nat → bool) (E := peer_edges c (upper_pairs n)) :
  ∃ peers, peerSets (E := E') n (λ i j, Ok (c i j)) = Ok peers ∧ length peers = n ∧
    (∀ i k, (i < n)%nat → k ∈ default [] (peers !! i) ↔ endpoint E i ∧ (k < n)%nat ∧ connected E i k) ∧
    (∀ i j, (i < n)%nat → (j < n)%nat → endpoint E i → connected E i j → peers !! i = peers !! j).
Proof.
  assert (Forall (λ p, (p.1 < p.2 < n)%nat) (upper_pairs n)) as Hup by (apply Forall_forall; intros [i j]; by rewrite elem_of_upper_pairs).
  assert (marks n (replicate n false) []) as Hm0.
  { split; [apply length_replicate|]. intros k Hk. unfold is_linked. rewrite lookup_replicate_2 by done. split; [done|].
    intros (m & [Hm|Hm]); by apply elem_of_nil in Hm. }
  destruct (join_peers_spec (E' := E') c n _ _ _ [] Hup (represents_init n) Hm0) as (parent & linked & Ej & Hrep & Hl & Hmark).
  assert (Forall (λ i, (i < n)%nat) (seq 0 n)) as Hseq by (apply Forall_forall; intros i Hi%elem_of_seq; lia).
  destruct (gather_members_spec n _ _ linked parent ∅ Hrep Hseq) as (members & p' & Eg & Hs & Hmem).
  pose proof (list_peers_spec n _ _ linked p' members (represents_same_roots _ _ _ _ Hs Hrep) Hseq) as HF.
  unfold peerSets. rewrite Ej. cbn [rbind]. rewrite Eg. set (peers := list_peers _ _ _ _) in *.
  simpl in Hrep, Hmark. fold E in Hrep, Hmark. exists peers. split_and!; [done|by rewrite <- (Forall2_length _ _ _ HF), length_seq|..].
  - intros i k Hi. destruct (Forall2_lookup_l _ _ _ i i HF) as (l & Hli & Hl'); [by apply lookup_seq_lt|]. rewrite Hli. simpl.
    rewrite <- Hmark by done. destruct (is_linked linked i) eqn:El; [|subst l; by split; [intros ?%elem_of_nil|intros [? _]]].
    destruct Hl' as (r & Hr & ->). rewrite Hmem, lookup_empty. simpl. destruct Hs as [_ Hs]. apply Hs in Hr. split.
    + intros [?%elem_of_nil|(Hk & _ & Hrk)]; [done|]. apply elem_of_seq in Hk. split_and!; [done|lia|].
      apply Hrep; [lia|lia|]. by exists r.
    + intros (_ & Hk & Hc). right. split_and!; [apply elem_of_seq; lia| |].
      * apply Hmark; [done|]. apply (connected_endpoint _ i); [done|]. by apply Hmark.
      * apply Hrep in Hc as (r' & Hr1 & Hr2); [|done..]. by rewrite (root_of_det _ _ _ _ Hr Hr1).
  - intros i j Hi Hj Hep Hc. destruct (Forall2_lookup_l _ _ _ i i HF) as (l & -> & Hl1); [by apply lookup_seq_lt|].
    destruct (Forall2_lookup_l _ _ _ j j HF) as (l' & -> & Hl2); [by apply lookup_seq_lt|]. f_equal.
    rewrite (proj2 (Hmark i Hi) Hep) in Hl1. rewrite (proj2 (Hmark j Hj) (connected_endpoint _ _ _ Hc Hep)) in Hl2.
    destruct Hl1 as (r & Hr & ->), Hl2 as (r' & Hr' & ->). destruct Hs as [_ Hs]. apply Hs in Hr, Hr'.
    apply Hrep in Hc; [|done..]. by rewrite (proj1 (same_set_roots _ _ _ _ _ Hr Hr') Hc).
Qed.

(** ** The matrix *)

Lemma entry_set_pair n matrix i j t a b :
  length matrix = n → Forall (λ row, length row = n) matrix → (i < j < n)%nat →
  length (set_pair matrix i j t) = n ∧ Forall (λ row, length row = n) (set_pair matrix i j t) ∧
  entry (set_pair matrix i j t) a b = if decide ((a, b) = (i, j) ∨ (a, b) = (j, i)) then t else entry matrix a b.
Proof.
  intros Hn Hrows Hij. unfold set_pair. split_and!.
  - by rewrite !length_alter.
  - repeat apply Forall_alter; try done; intros; by rewrite length_insert.
  - assert (∀ k row, matrix !! k = Some row → length row = n) as Hrow by (intros; by eapply Forall_lookup_1 in Hrows).
    assert (is_Some (matrix !! i)) as [ri Hri] by (apply lookup_lt_is_Some; lia).
    assert (is_Some (matrix !! j)) as [rj Hrj] by (apply lookup_lt_is_Some; lia).
    pose proof (Hrow _ _ Hri). pose proof (Hrow _ _ Hrj). unfold entry.
    destruct (decide (a = j)) as [->|Haj]; [|destruct (decide (a = i)) as [->|Hai]].
    + rewrite list_lookup_alter_eq, list_lookup_alter_ne, Hrj by lia. simpl. destruct (decide (b = i)) as [->|Hb].
      * rewrite list_lookup_insert_eq by lia. rewrite decide_True by (by right). done.
      * rewrite list_lookup_insert_ne by done. rewrite decide_False; [done|]. intros [[=]|[=]]; [lia|done].
    + rewrite list_lookup_alter_ne, list_lookup_alter_eq, Hri by done. simpl. destruct (decide (b = j)) as [->|Hb].
      * rewrite list_lookup_insert_eq by lia. rewrite decide_True by (by left). done.
      * rewrite list_lookup_insert_ne by done. rewrite decide_False; [done|]. intros [[=]|[=]]; [done|lia].
    + rewrite !list_lookup_alter_ne by done. rewrite decide_False; [done|]. by intros [[=]|[=]].
Qed.

Lemma strongestLinks_entry `{Nvml} cliques i j :
  (i < j < device_count)%nat → entry (strongestLinks cliques) i j = strongest_link cliques i j.
Proof.
  intros Hij. set (n := device_count) in *. unfold strongestLinks. fold n.
  assert (∀ pairs matrix, Forall (λ p, (p.1 < p.2 < n)%nat) pairs → length matrix = n → Forall (λ row, length row = n) matrix →
    (i, j) ∈ pairs ∨ entry matrix i j = strongest_link cliques i j →
    entry (fold_left (λ m '(i, j), set_pair m i j (strongest_link cliques i j)) pairs matrix) i j = strongest_link cliques i j) as Hgen.
  { induction pairs as [|[a b] pairs IH]; intros matrix Hp Hn Hrows Hor; simpl.
    { destruct Hor as [Hor|?]; [by apply elem_of_nil in Hor|done]. }
    apply Forall_cons in Hp as [Hab Hp]. simpl in Hab.
    destruct (entry_set_pair n matrix a b (strongest_link cliques a b) i j Hn Hrows Hab) as (Hn' & Hrows' & He).
    apply IH; [done..|]. rewrite He. case_decide as Hd; [destruct Hd as [[= -> ->]|[= -> ->]]; [by right|lia]|].
    destruct Hor as [[Heq|?]%elem_of_cons|?]; [|by left|by right]. destruct Hd. by left. }
  apply Hgen.
  - apply Forall_forall. intros [a b]. by rewrite elem_of_upper_pairs.
  - apply length_replicate.
  - apply Forall_replicate, length_replicate.
  - left. by apply elem_of_upper_pairs.
Qed.

(** ** The linked devices *)

Section linked.
Context `{Nvml}.

(** The links found for a pair. *)
Definition found_links (cliques : list string) (i j : nat) (ls : list P2PLinkType) : Prop :=
  ∃ p v, GetP2PLink i j = Ok p ∧ GetNVLinkWithCliques i j (clique_of cliques i) (clique_of cliques j) = Ok v ∧
    ∀ t, t ∈ ls ↔ t ≠ P2PLinkUnknown ∧ (t = p ∨ t = v).

Lemma append_link_links dev j t k u :
  u ∈ links_to (append_link dev j t) (Z.of_nat k) ↔ u ∈ links_to dev (Z.of_nat k) ∨ (k = j ∧ u = t ∧ t ≠ P2PLinkUnknown).
Proof.
  unfold append_link. case_bool_decide as Ht; [|naive_solver]. unfold links_to at 1. simpl. destruct (decide (k = j)) as [->|Hne].
  - rewrite lookup_insert_eq. simpl. rewrite elem_of_app, list_elem_of_singleton. naive_solver.
  - rewrite lookup_insert_ne by lia. unfold links_to. naive_solver.
Qed.

Lemma append_link_uuid dev j t : g_UUID (append_link dev j t) = g_UUID dev.
Proof. unfold append_link. by case_bool_decide. Qed.

Lemma link_device_spec cliques i js dev dev' :
  link_device cliques i js dev = Ok dev' →
  g_UUID dev' = g_UUID dev ∧
  (∀ j, j ∈ js → j ≠ i → ∃ p v, GetP2PLink i j = Ok p ∧ GetNVLinkWithCliques i j (clique_of cliques i) (clique_of cliques j) = Ok v) ∧
  ∀ k u, u ∈ links_to dev' (Z.of_nat k) ↔ u ∈ links_to dev (Z.of_nat k) ∨
    (k ∈ js ∧ k ≠ i ∧ u ≠ P2PLinkUnknown ∧
     (GetP2PLink i k = Ok u ∨ GetNVLinkWithCliques i k (clique_of cliques i) (clique_of cliques k) = Ok u)).
Proof.
  revert dev. induction js as [|j js IH]; intros dev; cbn [link_device].
  { intros [= ->]. split_and!; [done|by intros j ?%elem_of_nil|]. intros k u. split; [by left|]. intros [?|(Hk & _)]; [done|].
    by apply elem_of_nil in Hk. }
  case_bool_decide as Hij.
  { subst j. intros Hok. destruct (IH _ Hok) as (Hu & Hp & Hl). split_and!; [done|..].
    - intros j [->|?]%elem_of_cons ?; [done|by apply Hp].
    - intros k u. rewrite Hl, elem_of_cons. naive_solver. }
  destruct (GetP2PLink i j) as [p|] eqn:Ep; [|done]. cbn [rbind].
  destruct (GetNVLinkWithCliques i j _ _) as [v|] eqn:Ev; [|done]. cbn [rbind]. intros Hok.
  destruct (IH _ Hok) as (Hu & Hp & Hl). split_and!.
  - by rewrite Hu, !append_link_uuid.
  - intros k [->|?]%elem_of_cons ?; [by exists p, v|by apply Hp].
  - intros k u. rewrite Hl, !append_link_links, elem_of_cons. split.
    + intros [[[?|(-> & -> & ?)]|(-> & -> & ?)]|?]; [by left|right; rewrite Ep; naive_solver|right; rewrite Ev; naive_solver|naive_solver].
    + intros [?|([->|?] & ? & ? & [E|E])]; [naive_solver| | |naive_solver..].
      * rewrite Ep in E. injection E as ->. naive_solver.
      * rewrite Ev in E. injection E as ->. naive_solver.
Qed.

Lemma build_spec devs :
  deviceList_build = Ok devs →
  length devs = device_count ∧ ∀ i dev, devs !! i = Some dev →
    GetUUID i = (SUCCESS, g_UUID dev) ∧
    ∀ j, (j < device_count)%nat → j ≠ i → found_links FabricCliques i j (links_to dev (Z.of_nat j)).
Proof.
  unfold deviceList_build. destruct (rmap newDevice _) as [ds|] eqn:En; [|done]. cbn [rbind]. intros Hok.
  apply rmap_inv in En, Hok. pose proof (Forall2_length _ _ _ En) as Hlen. pose proof (Forall2_length _ _ _ Hok) as Hlen'.
  rewrite length_seq in Hlen. rewrite length_imap in Hlen'. split; [congruence|]. intros i dev Hi.
  destruct (Forall2_lookup_r _ _ _ _ _ Hok Hi) as ([i' d] & Hd & Hlink).
  rewrite list_lookup_imap in Hd. apply fmap_Some in Hd as (d' & Hd & [= -> ->]).
  destruct (Forall2_lookup_r _ _ _ _ _ En Hd) as (i'' & Hi'' & Hnew). apply lookup_seq in Hi'' as [-> Hlt]. simpl in Hnew.
  destruct (link_device_spec _ _ _ _ _ Hlink) as (Hu & Hp & Hl). unfold newDevice in Hnew.
  destruct (GetUUID i) as [ret uuid] eqn:Eu. destruct ret; try done. destruct (GetPciInfo i) as [ret pci]. destruct ret; try done.
  injection Hnew as <-. split; [by rewrite Hu|]. intros j Hj Hne. destruct (Hp j) as (p & v & Ep & Ev); [apply elem_of_seq; lia|done|].
  exists p, v. split_and!; [done|done|]. intros t. rewrite Hl. rewrite Ep, Ev. unfold links_to. simpl. rewrite lookup_empty. simpl. split.
  - intros [Hn|(_ & _ & Ht & [E|E])]; [by apply elem_of_nil in Hn|injection E as ->; by split; [|left]|injection E as ->; by split; [|right]].
  - intros (? & [-> | ->]); right; (split_and!; [apply elem_of_seq; lia|done|done|]); naive_solver.
Qed.

Lemma device_uuids devs : deviceList_build = Ok devs → rmap device_uuid (seq 0 device_count) = Ok (g_UUID <$> devs).
Proof.
  intros Hb. destruct (build_spec _ Hb) as [Hlen Hdevs].
  destruct (rmap_total device_uuid (seq 0 device_count)) as [us Hus].
  { intros i Hi%elem_of_seq. destruct (lookup_lt_is_Some_2 devs i) as [dev Hdev]; [lia|]. destruct (Hdevs _ _ Hdev) as [Hu _].
    exists (g_UUID dev). unfold device_uuid. by rewrite Hu. }
  rewrite Hus. f_equal. apply rmap_inv in Hus. apply list_eq. intros i. rewrite list_lookup_fmap.
  pose proof (Forall2_length _ _ _ Hus) as Hl. rewrite length_seq in Hl. destruct (devs !! i) as [dev|] eqn:Hdev.
  - simpl. pose proof (lookup_lt_Some _ _ _ Hdev). destruct (Forall2_lookup_l _ _ _ i i Hus) as (u & -> & Hu).
    { apply lookup_seq_lt. lia. }
    destruct (Hdevs _ _ Hdev) as [E _]. unfold device_uuid in Hu. rewrite E in Hu. by injection Hu as ->.
  - simpl. apply lookup_ge_None. apply lookup_ge_None in Hdev. lia.
Qed.

(** ** Published and read back *)

Lemma fold_insert_lookup {A B} (step : gmap string B → A → gmap string B) (key : A → string) (val : A → B) l m x :
  (∀ m a, step m a = <[key a := val a]> m) → NoDup (key <$> l) → x ∈ l → fold_left step l m !! key x = Some (val x).
Proof.
  intros Hstep. revert m. induction l as [|a l IH]; intros m Hnd Hx; [by apply elem_of_nil in Hx|].
  rewrite fmap_cons in Hnd. apply NoDup_cons in Hnd as [Ha Hnd]. apply elem_of_cons in Hx as [->|Hx]; [|by apply IH]. simpl.
  assert (∀ m', m' !! key a = Some (val a) → fold_left step l m' !! key a = Some (val a)) as Hkeep.
  { clear IH Hnd. induction l as [|b l IH]; intros m' Hm'; [done|]. rewrite fmap_cons, not_elem_of_cons in Ha. destruct Ha as [Hne Ha].
    simpl. apply IH; [done|]. by rewrite Hstep, lookup_insert_ne. }
  apply Hkeep. rewrite Hstep. apply lookup_insert_eq.
Qed.

Lemma link_map_lookup devs i dev :
  NoDup (g_UUID <$> devs) → devs !! i = Some dev → GetDeviceLinkMap devs !! g_UUID dev = Some (g_Links dev).
Proof. intros Hnd Hi. apply (fold_insert_lookup _ g_UUID g_Links); [done|done|]. by eapply list_elem_of_lookup_2. Qed.

(** The published topology lists, for every device, the links of the device list. *)
Lemma published_spec devs topo :
  deviceList_build = Ok devs → NoDup (g_UUID <$> devs) → GetNodeTopologyInfo = Ok topo →
  Forall2 (λ info dev, ti_Links info = g_Links dev) topo devs ∧ ∀ i info, topo !! i = Some info → ti_Index info = Z.of_nat i.
Proof.
  intros Hb Hnd. unfold GetNodeTopologyInfo. rewrite Hb. cbn [rbind]. intros Hok%rmap_inv.
  destruct (build_spec _ Hb) as [Hlen Hdevs]. pose proof (Forall2_length _ _ _ Hok) as Hl. rewrite length_seq in Hl.
  assert (∀ i info, topo !! i = Some info → ∃ dev, devs !! i = Some dev ∧ ti_Index info = Z.of_nat i ∧ ti_Links info = g_Links dev) as Hone.
  { intros i info Hi. destruct (Forall2_lookup_r _ _ _ _ _ Hok Hi) as (i' & Hi' & Hg). apply lookup_seq in Hi' as [-> Hlt]. simpl in Hg.
    destruct (lookup_lt_is_Some_2 devs i) as [dev Hdev]; [lia|]. exists dev. split; [done|].
    destruct (Hdevs _ _ Hdev) as [Hu _]. unfold gpu_topology, device_uuid in Hg. rewrite Hu in Hg. cbn [rbind] in Hg.
    rewrite (link_map_lookup _ _ _ Hnd Hdev) in Hg. by injection Hg as <-. }
  split; [|intros i info Hi; by destruct (Hone _ _ Hi) as (? & _ & ? & _)]. apply Forall2_same_length_lookup_2; [congruence|].
  intros i info dev Hi Hd. destruct (Hone _ _ Hi) as (dev' & Hd' & _ & E). congruence.
Qed.
End linked.

(** A registered list: entry [i] is the device of index [i]. *)
Definition indexed_list (n : nat) (l : DeviceList) : Prop :=
  length l = n ∧ ∀ i, (i < n)%nat → ∃ g, l !! i = Some (Some g) ∧ g_Index g = Z.of_nat i.

Lemma add_links_spec n edges l l' :
  indexed_list n l → add_links l edges = Ok l' →
  indexed_list n l' ∧ ∀ i g, l !! i = Some (Some g) → ∃ g', l' !! i = Some (Some g') ∧
    ∀ j u, u ∈ links_to g' j ↔ u ∈ links_to g j ∨ (Z.of_nat i, j, u) ∈ edges.
Proof.
  revert l. induction edges as [|[[from to] t] edges IH]; intros l Hidx; cbn [add_links].
  { intros [= ->]. split; [done|]. intros i g Hg. exists g. split; [done|]. intros j u. split; [by left|].
    intros [?|Hn]; [done|]. by apply elem_of_nil in Hn. }
  destruct (DeviceList_AddLink l from to t) as [l1|] eqn:E1; [|done]. intros Hok. unfold DeviceList_AddLink in E1.
  revert E1. case_bool_decide as Hpos; [|done]. destruct (l !! Z.to_nat from) as [[f|]|] eqn:Ef; [|done..].
  destruct (l !! Z.to_nat to) as [[g2|]|] eqn:Et; [|done..]. intros [= <-]. destruct Hidx as [Hlen Hidx].
  assert (g_Index g2 = to) as Hto.
  { destruct (Hidx (Z.to_nat to)) as (g & Hg & Hi); [apply lookup_lt_Some in Et; lia|]. rewrite Et in Hg. injection Hg as ->. lia. }
  assert (Z.to_nat from < n)%nat as Hfrom by (apply lookup_lt_Some in Ef; lia).
  assert (indexed_list n (<[Z.to_nat from := Some (GDevice_AddLink f g2 t)]> l)) as Hidx1.
  { split; [by rewrite length_insert|]. intros i Hi. destruct (decide (i = Z.to_nat from)) as [->|Hne].
    - rewrite list_lookup_insert_eq by lia. eexists. split; [done|]. simpl. destruct (Hidx _ Hi) as (g & Hg & Hgi).
      rewrite Ef in Hg. by injection Hg as ->.
    - rewrite list_lookup_insert_ne by done. by apply Hidx. }
  destruct (IH _ Hidx1 Hok) as [Hidx' Hl']. split; [done|]. intros i g Hg. destruct (decide (i = Z.to_nat from)) as [->|Hne].
  - rewrite Ef in Hg. injection Hg as ->. destruct (Hl' (Z.to_nat from) (GDevice_AddLink g g2 t)) as (g' & Hg' & Hlinks).
    { apply list_lookup_insert_eq. lia. }
    exists g'. split; [done|]. intros j u. rewrite Hlinks, elem_of_cons, Z2Nat.id by lia. unfold links_to at 1. simpl. rewrite Hto.
    destruct (decide (j = to)) as [->|Hj].
    + rewrite lookup_insert_eq. simpl. rewrite elem_of_app, list_elem_of_singleton. naive_solver.
    + rewrite lookup_insert_ne by done. unfold links_to. naive_solver.
  - destruct (Hl' i g) as (g' & Hg' & Hlinks); [by rewrite list_lookup_insert_ne|]. exists g'. split; [done|].
    intros j u. rewrite Hlinks, elem_of_cons. split; [naive_solver|]. intros [?|[[= Hi _ _]|?]]; [by left|lia|by right].
Qed.

Section agree.
Context `{MapOrder} `{Nvml}.

Lemma elem_of_topology_edges topo i j u :
  (i, j, u) ∈ topology_edges topo ↔ ∃ info ls, info ∈ topo ∧ ti_Index info = i ∧ ti_Links info !! j = Some ls ∧ u ∈ ls.
Proof.
  unfold topology_edges. rewrite list_elem_of_join. split.
  - intros (l & Hl & (info & -> & Hinfo)%list_elem_of_fmap). apply list_elem_of_join in Hl as (l & Hl & ([k ls] & -> & Hk)%list_elem_of_fmap).
    apply list_elem_of_fmap in Hl as (t & [= -> -> ->] & Ht). apply elem_of_range in Hk. by exists info, ls.
  - intros (info & ls & Hinfo & <- & Hls & Hu). eexists. split; [|by apply list_elem_of_fmap_2]. apply list_elem_of_join.
    exists ((λ t, (ti_Index info, j, t)) <$> ls). split; [by apply (list_elem_of_fmap_2 (λ t, (ti_Index info, j, t)))|].
    apply list_elem_of_fmap. exists (j, ls). split; [done|]. by apply elem_of_range.
Qed.

(** The list the extender builds from the published topology has, between
    [i < j], the links the device plugin found. *)
Lemma extender_direct devs topo l0 l tier i j :
  deviceList_build = Ok devs → NoDup (g_UUID <$> devs) → GetNodeTopologyInfo = Ok topo →
  indexed_list (length devs) l0 → (∀ k g, l0 !! k = Some (Some g) → g_Links g = ∅) →
  add_links l0 (topology_edges topo) = Ok l →
  direct l tier i j ↔ (i < j < length devs)%nat ∧ linkTierThreshold tier ≤ strongest_link FabricCliques i j.
Proof.
  intros Hb Hnd Hp Hidx Hempty Hadd. destruct (add_links_spec _ _ _ _ Hidx Hadd) as [[Hlen _] Hl].
  destruct (published_spec _ _ Hb Hnd Hp) as [Hlinks Hindex]. destruct (build_spec _ Hb) as [Hcount Hdevs].
  unfold direct. rewrite Hlen. assert (∀ P Q R : Prop, (P → (Q ↔ R)) → (P ∧ Q ↔ P ∧ R)) as Hcong by tauto. apply Hcong. clear Hcong. intros Hij.
  destruct Hidx as [_ Hidx].
  destruct (Hidx i) as (g & Hg & _); [lia|]. destruct (Hl _ _ Hg) as (g' & Hg' & Hg'l).
  destruct (lookup_lt_is_Some_2 devs i) as [dev Hdev]; [lia|]. destruct (Forall2_lookup_r _ _ _ _ _ Hlinks Hdev) as (info & Hinfo & Eq).
  destruct (Hdevs _ _ Hdev) as [_ Hfound]. destruct (Hfound j) as (p & v & Ep & Ev & Hmem); [lia|lia|].
  assert (∀ u, u ∈ links_to g' (Z.of_nat j) ↔ u ∈ links_to dev (Z.of_nat j)) as Hsame.
  { intros u. rewrite Hg'l. unfold links_to at 1. rewrite (Hempty _ _ Hg), lookup_empty, elem_of_topology_edges. unfold links_to. split.
    - intros [Hn|(info' & ls & Hin & Hi & Hls & Hu)]; [by apply elem_of_nil in Hn|]. apply list_elem_of_lookup in Hin as [k Hk].
      rewrite (Hindex _ _ Hk) in Hi. apply Nat2Z.inj in Hi as ->. rewrite Hinfo in Hk. injection Hk as ->. rewrite <- Eq, Hls. done.
    - intros Hu. right. destruct (g_Links dev !! Z.of_nat j) as [ls|] eqn:Els; [|by apply elem_of_nil in Hu].
      exists info, ls. split_and!; [by eapply list_elem_of_lookup_2|by apply Hindex|congruence|done]. }
  pose proof (threshold_pos tier). unfold strongest_link. rewrite Ep, Ev. simpl. split.
  - intros (d & u & Hd & Hu & Ht). rewrite Hg' in Hd. injection Hd as <-. apply Hsame, Hmem in Hu as [_ [-> | ->]]; lia.
  - intros Ht. exists g', (Z.max p v). split_and!; [done| |done]. apply Hsame, Hmem. unfold P2PLinkUnknown. lia.
Qed.

(** ** Keys *)

Definition digest (text : string) : string := EncodeToString (take 8 (Sha256.Sum256 (str_bytes text))).

(** The hash tells the components of this node apart. *)
Definition no_collision (prefix nodeName : string) (uuids : list string) (peers : list (list nat)) : Prop :=
  Forall (λ a, Forall (λ b, digest (component_text prefix nodeName a uuids) = digest (component_text prefix nodeName b uuids) →
                            component_text prefix nodeName a uuids = component_text prefix nodeName b uuids) peers) peers.

Definition plain_uuids (uuids : list string) : Prop := NoDup uuids ∧ Forall (λ u, free_of NUL u = true) uuids.

(** Equal texts name the same devices. *)
Lemma component_text_inj prefix nodeName uuids a b :
  plain_uuids uuids → Forall (λ k, (k < length uuids)%nat) a → Forall (λ k, (k < length uuids)%nat) b → a ≠ [] → b ≠ [] →
  component_text prefix nodeName a uuids = component_text prefix nodeName b uuids → ∀ k, k ∈ a → k ∈ b.
Proof.
  intros [Hnd Hfree] Ha Hb Hna Hnb E k Hk. apply str_app_inj_l, str_app_inj_l in E. injection E as E.
  set (name := λ i, default "" (uuids !! i)) in *.
  assert (∀ m, Forall (λ k, (k < length uuids)%nat) m → m ≠ [] →
    split_char NUL (join_char NUL (sort_strings (name <$> m))) = sort_strings (name <$> m)) as Hsplit.
  { intros m Hm Hne. apply split_join.
    - intros Hnil. apply Hne. apply length_zero_iff_nil. rewrite <- (length_fmap name), <- (sort_slice_length str_lt).
      unfold sort_strings in Hnil. by rewrite Hnil.
    - apply Forall_forall. intros w Hw. apply elem_of_sort_slice, list_elem_of_fmap in Hw as (i & -> & Hi).
      rewrite Forall_forall in Hm. destruct (lookup_lt_is_Some_2 uuids i (Hm i Hi)) as [u Hu]. unfold name. rewrite Hu. simpl.
      by eapply Forall_lookup_1 in Hfree. }
  apply (f_equal (split_char NUL)) in E. rewrite (Hsplit a Ha Hna), (Hsplit b Hb Hnb) in E.
  assert (name k ∈ name <$> b) as Hin.
  { apply (elem_of_sort_slice str_lt). fold (sort_strings (name <$> b)). rewrite <- E. apply elem_of_sort_slice. by apply list_elem_of_fmap_2. }
  apply list_elem_of_fmap in Hin as (k' & Hn & Hk'). rewrite Forall_forall in Ha, Hb. unfold name in Hn.
  destruct (lookup_lt_is_Some_2 uuids k (Ha k Hk)) as [u Hu], (lookup_lt_is_Some_2 uuids k' (Hb k' Hk')) as [u' Hu'].
  rewrite Hu, Hu' in Hn. simpl in Hn. subst u'. by rewrite (NoDup_lookup _ _ _ _ Hnd Hu Hu').
Qed.

(** Two devices have one key exactly when they are connected. *)
Lemma domain_key_connected prefix nodeName uuids matrix threshold peers i j (n := length uuids)
    (E := peer_edges (λ i j, bool_decide (threshold ≤ entry matrix i j)) (upper_pairs n)) :
  prefix ≠ "" → plain_uuids uuids → peerSets n (connects_at matrix threshold) = Ok peers → no_collision prefix nodeName uuids peers →
  (i < n)%nat → (j < n)%nat → i ≠ j →
  domain_key prefix nodeName peers uuids i ≠ "" ∧ domain_key prefix nodeName peers uuids i = domain_key prefix nodeName peers uuids j
  ↔ connected E i j.
Proof.
  intros Hpre Hplain Hpeers Hcol Hi Hj Hne.
  destruct (peerSets_spec (E' := probe_error) n (λ i j, bool_decide (threshold ≤ entry matrix i j))) as (peers' & E1 & Hlen & Hmem & Hsame).
  fold E in Hmem, Hsame. unfold connects_at in Hpeers. rewrite E1 in Hpeers. injection Hpeers as ->. unfold domain_key.
  assert (∀ k, (k < n)%nat → Forall (λ k, (k < n)%nat) (default [] (peers !! k))) as Hrange.
  { intros k Hk. apply Forall_forall. intros m Hm. by apply Hmem in Hm as (_ & ? & _). }
  split.
  - intros [Hk Heq]. revert Hk Heq. case_bool_decide as Hmi; [|done]. case_bool_decide as Hmj; [|done]. intros _ Heq%str_app_inj_l.
    destruct (lookup_lt_is_Some_2 peers i) as [a Ha]; [lia|]. destruct (lookup_lt_is_Some_2 peers j) as [b Hb]; [lia|].
    pose proof (Hrange i Hi) as Hra. pose proof (Hrange j Hj) as Hrb. pose proof (Hmem i) as Hi'. pose proof (Hmem j) as Hj'.
    rewrite Ha in *. rewrite Hb in *. simpl in *.
    assert (component_text prefix nodeName a uuids = component_text prefix nodeName b uuids) as Ht.
    { unfold no_collision in Hcol. rewrite Forall_forall in Hcol. specialize (Hcol a (list_elem_of_lookup_2 _ _ _ Ha)).
      rewrite Forall_forall in Hcol. apply (Hcol b); [by eapply list_elem_of_lookup_2|exact Heq]. }
    destruct a as [|k a']; [done|]. assert (endpoint E i) as Hep by (by apply (Hi' k Hi); left).
    assert (i ∈ b) as Hib by (eapply component_text_inj; [done|exact Hra|exact Hrb|done|done|exact Ht|apply Hi'; done]).
    apply (Hj' i Hj) in Hib as (_ & _ & Hc). by symmetry.
  - intros Hc. assert (endpoint E i) as Hep.
    { unfold connected, rtsc in Hc. inversion Hc as [|? z ? [Hz|Hz] _]; subst; [done|exists z; by left|exists z; by right]. }
    rewrite (Hsame i j Hi Hj Hep Hc). assert (j ∈ default [] (peers !! j)) as Hin.
    { apply (Hmem j j Hj). split_and!; [by eapply connected_endpoint|done|done]. }
    rewrite bool_decide_eq_true_2 by (intros Hn; rewrite Hn in Hin; by apply elem_of_nil in Hin). split; [|done].
    unfold componentKey. destruct prefix; [done|]. done.
Qed.

(** ** Both paths *)

(** Two GPUs published in one domain. *)
Definition same_domain (domain : deviceTopology → string) (topologies : gmap string deviceTopology) (u v : string) : Prop :=
  ∃ s t, topologies !! u = Some s ∧ topologies !! v = Some t ∧ domain s ≠ "" ∧ domain s = domain t.

(** The hash tells the components of both levels apart. *)
Definition distinct_hashes (nodeName : string) (uuids : list string) : Prop :=
  Forall (λ '(prefix, threshold), ∀ peers, peerSets (length uuids) (connects_at (strongestLinks FabricCliques) threshold) = Ok peers →
            no_collision prefix nodeName uuids peers)
    [(topologyNVLinkPrefix, nvlinkConnectedThreshold); (topologyPCIePrefix, pcieConnectedThreshold)].

(** The topology published for a GPU. *)
Lemma assembled nodeName uuids cliques matrix topologies :
  NoDup uuids → assembleTopologies nodeName uuids cliques matrix = Ok topologies →
  ∃ nv pc, peerSets (length uuids) (connects_at matrix nvlinkConnectedThreshold) = Ok nv ∧
    peerSets (length uuids) (connects_at matrix pcieConnectedThreshold) = Ok pc ∧
    ∀ i uuid, uuids !! i = Some uuid → ∃ t, topologies !! uuid = Some t ∧
      dt_NVLinkDomain t = domain_key topologyNVLinkPrefix nodeName nv uuids i ∧
      dt_PCIeDomain t = domain_key topologyPCIePrefix nodeName pc uuids i.
Proof.
  intros Hnd. unfold assembleTopologies. destruct (peerSets _ _) as [nv|]; [|done]. cbn [rbind].
  destruct (peerSets _ _) as [pc|]; [|done]. cbn [rbind]. intros [= <-]. exists nv, pc. split_and!; [done|done|].
  intros i uuid Hi.
  set (val := λ a : nat * string,
    {| dt_Clique := if bool_decide (clique_of cliques a.1 ≠ "") then topologyCliquePrefix +:+ clique_of cliques a.1 else "";
       dt_NVLinkDomain := domain_key topologyNVLinkPrefix nodeName nv uuids a.1;
       dt_PCIeDomain := domain_key topologyPCIePrefix nodeName pc uuids a.1 |}).
  exists (val (i, uuid)). split; [|done]. apply (fold_insert_lookup _ snd val (imap pair uuids) ∅ (i, uuid)).
  - by intros m [? ?].
  - rewrite fmap_imap. assert (imap (λ n, snd ∘ pair n) uuids = uuids) as ->; [|done].
    apply list_eq. intros k. rewrite list_lookup_imap. by destruct (uuids !! k).
  - apply elem_of_lookup_imap. by exists i, uuid.
Qed.

(** Equal domains at one level are connection at the extender's tier. *)
Lemma level_agrees devs topo l0 l (uuids : list string) tier i j :
  deviceList_build = Ok devs → NoDup (g_UUID <$> devs) → GetNodeTopologyInfo = Ok topo →
  indexed_list (length devs) l0 → (∀ k g, l0 !! k = Some (Some g) → g_Links g = ∅) →
  add_links l0 (topology_edges topo) = Ok l → length uuids = length devs → (i < length devs)%nat → (j < length devs)%nat →
  connected (peer_edges (λ i j, bool_decide (linkTierThreshold tier ≤ entry (strongestLinks FabricCliques) i j)) (upper_pairs (length uuids))) i j
  ↔ rootOf (Some (computeTieredComponents l)) tier (Z.of_nat i) = rootOf (Some (computeTieredComponents l)) tier (Z.of_nat j).
Proof.
  intros Hb Hnd Hp Hidx Hempty Hadd Hlen Hi Hj. destruct (add_links_spec _ _ _ _ Hidx Hadd) as [[Hl _] _].
  rewrite rootOf_linked by lia. destruct (build_spec _ Hb) as [Hcount _]. unfold connected, linked.
  assert (∀ a b, edge_rel (peer_edges (λ i j, bool_decide (linkTierThreshold tier ≤ entry (strongestLinks FabricCliques) i j))
                             (upper_pairs (length uuids))) a b ↔ direct l tier a b) as Hedge.
  { intros a b. rewrite (extender_direct devs topo l0 l tier a b) by done. unfold edge_rel, peer_edges. rewrite list_elem_of_filter.
    simpl. rewrite elem_of_upper_pairs, bool_decide_eq_true, Hlen. split.
    - intros [Ht Hab]. split; [done|]. by rewrite <- strongestLinks_entry by lia.
    - intros [Hab Ht]. split; [|done]. by rewrite strongestLinks_entry by lia. }
  split; intros Hc; (eapply (rtsc_congruence id); [|exact Hc]); intros; by apply Hedge.
Qed.

(** C17 Both ways of placing a pod see one interconnect: two GPUs carry the same
    NVLink (or PCIe) domain, which the kubelet plugin publishes for resource
    claims, exactly when the scheduler extender, reading what the device
    plugin published of the same driver, puts them in one component of the
    NVLink (or switch) tier. *)
Theorem domains_match_tiers nodeName devs topo topologies l0 l i j du dv :
  deviceList_build = Ok devs → GetNodeTopologyInfo = Ok topo → discoverTopologyDomains nodeName = Ok topologies →
  plain_uuids (g_UUID <$> devs) → distinct_hashes nodeName (g_UUID <$> devs) →
  indexed_list (length devs) l0 → (∀ k g, l0 !! k = Some (Some g) → g_Links g = ∅) →
  add_links l0 (topology_edges topo) = Ok l →
  devs !! i = Some du → devs !! j = Some dv → i ≠ j →
  (same_domain dt_NVLinkDomain topologies (g_UUID du) (g_UUID dv) ↔
     rootOf (Some (computeTieredComponents l)) TierNVLink (Z.of_nat i) = rootOf (Some (computeTieredComponents l)) TierNVLink (Z.of_nat j)) ∧
  (same_domain dt_PCIeDomain topologies (g_UUID du) (g_UUID dv) ↔
     rootOf (Some (computeTieredComponents l)) TierSwitch (Z.of_nat i) = rootOf (Some (computeTieredComponents l)) TierSwitch (Z.of_nat j)).
Proof.
  intros Hb Hp Hd Hplain Hhash Hidx Hempty Hadd Hu Hv Hne. pose proof Hplain as [Hnd _]. set (uuids := g_UUID <$> devs) in *.
  assert (rmap device_uuid (seq 0 device_count) = Ok uuids) as Eu by (by apply device_uuids).
  unfold discoverTopologyDomains in Hd. rewrite Eu in Hd. cbn [rbind] in Hd.
  destruct (assembled _ _ _ _ _ Hnd Hd) as (nv & pc & Env & Epc & Htop).
  assert (length uuids = length devs) as Hlen by apply length_fmap.
  assert (uuids !! i = Some (g_UUID du)) as Hui by (unfold uuids; by rewrite list_lookup_fmap, Hu).
  assert (uuids !! j = Some (g_UUID dv)) as Huj by (unfold uuids; by rewrite list_lookup_fmap, Hv).
  apply lookup_lt_Some in Hu, Hv. destruct (Htop _ _ Hui) as (s & Hs & Hsn & Hsp), (Htop _ _ Huj) as (t & Ht & Htn & Htp).
  unfold distinct_hashes in Hhash. rewrite !Forall_cons in Hhash. destruct Hhash as (Hnv & Hpc & _).
  pose proof (domain_key_connected topologyNVLinkPrefix nodeName uuids _ _ nv i j ltac:(discriminate) Hplain Env (Hnv nv Env)
    ltac:(lia) ltac:(lia) Hne) as K1.
  pose proof (domain_key_connected topologyPCIePrefix nodeName uuids _ _ pc i j ltac:(discriminate) Hplain Epc (Hpc pc Epc)
    ltac:(lia) ltac:(lia) Hne) as K2.
  pose proof (level_agrees devs topo l0 l uuids TierNVLink i j Hb Hnd Hp Hidx Hempty Hadd Hlen Hu Hv) as L1.
  pose proof (level_agrees devs topo l0 l uuids TierSwitch i j Hb Hnd Hp Hidx Hempty Hadd Hlen Hu Hv) as L2.
  assert (∀ domain, same_domain domain topologies (g_UUID du) (g_UUID dv) ↔ domain s ≠ "" ∧ domain s = domain t) as Hsame.
  { intros domain. unfold same_domain. rewrite Hs, Ht. split; [intros (? & ? & [= <-] & [= <-] & ?); done|intros [? ?]; by exists s, t]. }
  rewrite !Hsame, Hsn, Htn, Hsp, Htp. split; [exact (iff_trans K1 L1)|exact (iff_trans K2 L2)].
Qed.
End agree.

(** ** Three GPUs: two bridged by NVLink, the third behind a PCIe switch *)
Module DomainDemo.
#[local] Existing Instance canonical_order.

Definition bus (i : nat) : list Z := [48; 49 + Z.of_nat i; 0; 7].

#[export] Instance nvml : Nvml := {|
  NVLINK_MAX_LINKS := 3;
  device_count := 3;
  GetUUID i := (SUCCESS, nth i ["GPU-a"; "GPU-b"; "GPU-c"] "");
  GetPciInfo i := (SUCCESS, bus i);
  GetTopologyCommonAncestor i j :=
    (SUCCESS, match (i + j)%nat with 1%nat => TOPOLOGY_SYSTEM | 2%nat => TOPOLOGY_NODE | _ => TOPOLOGY_MULTIPLE end);
  GetNvLinkState i k := match k with 2%nat => (ERROR_NOT_SUPPORTED, false) | _ => (SUCCESS, bool_decide (i < 2)%nat) end;
  GetNvLinkRemotePciInfo i _ := (SUCCESS, bus (1 - i));
  GetNvLinkRemoteDeviceType _ _ := (SUCCESS, false);
  GetGpuFabricInfoV := None;
  GetGpuFabricInfo := None
|}.

Definition devs : list GDevice := match deviceList_build with Ok l => l | Fail _ => [] end.
Definition topo : list TopologyInfo := match GetNodeTopologyInfo with Ok l => l | Fail _ => [] end.
Definition topologies : gmap string deviceTopology := match discoverTopologyDomains "node-a" with Ok m => m | Fail _ => ∅ end.
Definition registered : DeviceList := imap (λ i u, Some (NewGDevice (Z.of_nat i) u "")) ["GPU-a"; "GPU-b"; "GPU-c"].
Definition extender_list : DeviceList := match add_links registered (topology_edges topo) with Ok l => l | Fail _ => [] end.

Lemma hashes : distinct_hashes "node-a" ["GPU-a"; "GPU-b"; "GPU-c"].
Proof.
  repeat constructor; intros peers Hp; vm_compute in Hp; injection Hp as <-; (repeat constructor); intros E; try reflexivity;
    exfalso; revert E; vm_compute; discriminate.
Qed.

Lemma domains_match_tiers_witness :
  same_domain dt_PCIeDomain topologies "GPU-a" "GPU-c" ∧ ¬ same_domain dt_NVLinkDomain topologies "GPU-a" "GPU-c".
Proof.
  destruct (domains_match_tiers "node-a" devs topo topologies registered extender_list 0 2
    {| g_Index := 0; g_UUID := "GPU-a"; g_BusID := "01"; g_Links := list_to_map [(1, [1; 8]); (2, [2])] |}
    {| g_Index := 2; g_UUID := "GPU-c"; g_BusID := "03"; g_Links := list_to_map [(0, [2]); (1, [4])] |}) as [Hnv Hpc].
  - vm_compute. reflexivity.
  - vm_compute. reflexivity.
  - vm_compute. reflexivity.
  - split; [refine (bool_decide_unpack _ _); vm_compute; exact I|repeat constructor].
  - exact hashes.
  - split; [reflexivity|]. intros [|[|[|i]]] Hi; [eexists; split; reflexivity..|simpl in Hi; lia].
  - intros [|[|[|k]]] g [= <-]; reflexivity.
  - vm_compute. reflexivity.
  - vm_compute. reflexivity.
  - vm_compute. reflexivity.
  - discriminate.
  - split; [apply Hpc; vm_compute; reflexivity|]. intros Hn. apply Hnv in Hn. revert Hn. vm_compute. discriminate.
Defined.
End DomainDemo.
