(* ===== verification/Affinity.v ===== *)
(** * Cross-pod affinity queries of [NodeInfo] ([pkg/device/types.go])

    Rail keys, domain signatures and the component a gang already occupies.
    The votes are maps, visited in an open order; the theorems say that the
    winner is the majority with a fixed tie-break, whatever the order. *)

From stdpp Require Import base list gmap strings.
From Stdlib Require Import ZArith Lia Ascii.
From S2P Require Import Prelude GoMap GoSort GoStrings Float64 GoTime Kube Claims Links Topology Device Footprint.
From S2P Require Import Reason NodeInfo.

Open Scope Z_scope.

Definition railKeyOf (n : NodeInfo) (uuid : string) : option string :=
  match ni_gpuRail n !! uuid with
  | Some rail => Some ("rail:" +:+ rail)
  | None =>
      match ni_deviceIndexMap n !! uuid with
      | Some index => Some ("idx:" +:+ Itoa index)
      | None => None
      end
  end.

(** The keys in order of appearance, without repetitions. *)
Fixpoint dedup_keys (seen : gset string) (keys : list (option string)) : list string :=
  match keys with
  | [] => []
  | None :: keys' => dedup_keys seen keys'
  | Some k :: keys' =>
      if bool_decide (k ∈ seen) then dedup_keys seen keys' else k :: dedup_keys ({[k]} ∪ seen) keys'
  end.

Definition RailSignatureOfUUIDs (n : NodeInfo) (uuids : list string) : option string :=
  match dedup_keys ∅ (railKeyOf n <$> uuids) with
  | [] => None
  | keys => Some (join_char "," (sort_strings keys))
  end.

Definition ComponentUUIDs (n : NodeInfo) (root : Z) : list string :=
  default [] (nv_ToUUIDs (ni_nvlink n) !! root).

Definition ComponentByDomain (n : NodeInfo) (domain : string) : option Z :=
  if bool_decide (domain = "") then None else nv_RootByDomain (ni_nvlink n) !! domain.

Section votes.
Context `{Env} `{MapOrder}.

Definition UUIDsMatchingRailSignature (n : NodeInfo) (signature : string) : list string :=
  if bool_decide (signature = "") then []
  else
    let want : gset string := list_to_set (split_char "," signature) in
    sort_strings (filter (λ uuid, match railKeyOf n uuid with Some key => bool_decide (key ∈ want) | None => false end = true)
                    (range_str (ni_deviceIndexMap n)).*1).

Definition vote {K} `{Countable K} (votes : gmap K Z) (k : K) : gmap K Z :=
  <[k := default 0 (votes !! k) + 1]> votes.

(** The domains of the distinct known UUIDs. *)
Fixpoint domains_of (n : NodeInfo) (seen : gset string) (uuids : list string) : list string :=
  match uuids with
  | [] => []
  | uuid :: uuids' =>
      if bool_decide (uuid ∈ seen) then domains_of n seen uuids'
      else
        let rest := domains_of n ({[uuid]} ∪ seen) uuids' in
        match nv_ByUUID (ni_nvlink n) !! uuid with
        | None => rest
        | Some root =>
            match nv_Domain (ni_nvlink n) !! root with
            | Some dom => dom :: rest
            | None => rest
            end
        end
  end.

Definition better_domain (best : string * Z) (cand : string * Z) : string * Z :=
  let '(bestDom, bestVotes) := best in
  let '(dom, v) := cand in
  if bool_decide (bestVotes < v) || (bool_decide (v = bestVotes) && (bool_decide (bestDom = "") || str_lt dom bestDom))
  then (dom, v) else best.

Definition DomainOfUUIDs (n : NodeInfo) (uuids : list string) : option string :=
  if bool_decide (uuids = []) || bool_decide (nv_ByUUID (ni_nvlink n) = ∅) then None
  else
    let votes := fold_left vote (domains_of n ∅ uuids) ∅ in
    if bool_decide (votes = ∅) then None
    else Some (fold_left better_domain (range_str votes) ("", 0)).1.

(** Whether a pod on the node is a sibling: same gang, or same controller for
    pods without one. *)
Definition is_sibling (gangName : string) (owner : option OwnerReference) (p : Pod) : bool :=
  if bool_decide (gangName ≠ "") then bool_decide (PodGangKey p = Some gangName)
  else
    match owner with
    | None => true
    | Some o => match p_GetControllerOf p with
                | None => false
                | Some ref => bool_decide (or_UID o = or_UID ref)
                end
    end.

(** The component roots of the GPUs the counted siblings hold. *)
Definition sibling_roots (n : NodeInfo) (gangName : string) (owner : option OwnerReference) (excluded : gset string)
  : list Z :=
  mjoin ((λ p, omap (λ uuid, nv_ByUUID (ni_nvlink n) !! uuid) (PodPreAllocatedUUIDs p)) <$>
         filter (λ p, p_UID p ∉ excluded ∧ is_sibling gangName owner p = true ∧
                      ShouldCountPodDeviceAllocation p = true) (ni_nodePods n)).

Definition ordinal_of (n : NodeInfo) (root : Z) : Z := default int64_max (nv_Ordinal (ni_nvlink n) !! root).

Definition better_root (n : NodeInfo) (best : Z * Z * Z) (cand : Z * Z) : Z * Z * Z :=
  let '(bestRoot, bestVotes, bestOrd) := best in
  let '(root, v) := cand in
  let ord := ordinal_of n root in
  if bool_decide (bestVotes < v) || (bool_decide (v = bestVotes) && bool_decide (ord < bestOrd))
  then (root, v, ord) else best.

Definition GangAnchorComponent (n : NodeInfo) (gangName : string) (owner : option OwnerReference)
    (excluded : gset string) : option Z :=
  if bool_decide (nv_ByUUID (ni_nvlink n) = ∅) || bool_decide (ni_nodePods n = []) then None
  else if bool_decide (gangName = "") && bool_decide (owner = None) then None
  else
    let votes := fold_left vote (sibling_roots n gangName owner excluded) ∅ in
    if bool_decide (votes = ∅) then None
    else Some (fold_left (better_root n) (range votes) (-1, 0, int64_max)).1.1.
End votes.

(** ** Elections *)

(** The number of votes for [k]. *)
Definition tally {K} `{EqDecision K} (ballots : list K) (k : K) : Z := Z.of_nat (length (filter (λ b, b = k) ballots)).

Lemma tally_pos {K} `{EqDecision K} (ballots : list K) k : 0 < tally ballots k ↔ k ∈ ballots.
Proof.
  unfold tally. split.
  - intros Hl. destruct (filter (λ b, b = k) ballots) as [|b l] eqn:E; [simpl in Hl; lia|].
    assert (b ∈ filter (λ b, b = k) ballots) as [<- ?]%list_elem_of_filter by (rewrite E; by left). done.
  - intros Hk. assert (k ∈ filter (λ b, b = k) ballots) as Hf by by apply list_elem_of_filter.
    destruct (filter _ ballots); [by apply elem_of_nil in Hf|simpl; lia].
Qed.

Lemma votes_lookup {K} `{Countable K} (ballots : list K) k v :
  fold_left vote ballots ∅ !! k = Some v ↔ v = tally ballots k ∧ k ∈ ballots.
Proof.
  revert v. induction ballots as [|b ballots IH] using rev_ind; intros v.
  { simpl. rewrite lookup_empty. split; [done|]. by intros [_ ?%elem_of_nil]. }
  rewrite fold_left_app. simpl. unfold vote at 1. rewrite lookup_insert.
  assert (tally (ballots ++ [b]) k = tally ballots k + (if decide (b = k) then 1 else 0)) as ->.
  { unfold tally. rewrite filter_app, length_app, Nat2Z.inj_add. f_equal.
    rewrite filter_cons, filter_nil. by destruct (decide (b = k)). }
  rewrite elem_of_app, list_elem_of_singleton. case_decide as E.
  - subst. assert (default 0 (fold_left vote ballots ∅ !! k) = tally ballots k) as ->.
    { destruct (fold_left vote ballots ∅ !! k) as [c|] eqn:Ek; simpl.
      - by destruct (proj1 (IH c) eq_refl) as [-> _].
      - assert (k ∉ ballots) as Hk.
        { intros Hk. by assert (None = Some (tally ballots k)) by by apply IH. }
        rewrite <- tally_pos in Hk. assert (0 ≤ tally ballots k) by (unfold tally; lia). lia. }
    split; [intros [= <-]|intros [-> _]]; [split; [done|by right]|done].
  - rewrite Z.add_0_r, IH. naive_solver.
Qed.

Lemma votes_empty {K} `{Countable K} (ballots : list K) : fold_left vote ballots ∅ = ∅ ↔ ballots = [].
Proof.
  split; [|by intros ->]. intros He. destruct ballots as [|b l]; [done|].
  assert (fold_left vote (b :: l) ∅ !! b = Some (tally (b :: l) b)) as E by (apply votes_lookup; split; [done|by left]).
  by rewrite He, lookup_empty in E.
Qed.

(** [k] wins: every other candidate has fewer votes, or as many and loses the tie. *)
Definition wins {K} `{EqDecision K} (ballots : list K) (before : K → K → Prop) (k : K) : Prop :=
  k ∈ ballots ∧ ∀ k', k' ∈ ballots → tally ballots k' < tally ballots k ∨
                                     (tally ballots k' = tally ballots k ∧ (k' = k ∨ before k k')).

(** A fold that keeps the better entry elects the winner, from any start that
    every entry with a vote beats and for any order of the entries. *)
Lemma election {K} `{Countable K} (ballots : list K) (less : K * Z → K * Z → bool) (before : K → K → Prop)
    (entries : list (K * Z)) k0 :
  (∀ k v, (k, v) ∈ entries ↔ fold_left vote ballots ∅ !! k = Some v) →
  StrictWeak (λ e, e ∈ entries) less →
  (∀ e e', e ∈ entries → e' ∈ entries →
     less e e' = true ↔ e'.2 < e.2 ∨ (e.2 = e'.2 ∧ before e.1 e'.1)) →
  (∀ k k', k ∈ ballots → k' ∈ ballots → k = k' ∨ before k k' ∨ before k' k) →
  (∀ e, e ∈ entries → less e k0 = true) → ballots ≠ [] →
  ∀ k, wins ballots before k ↔ k = (fold_left (λ b x, if less x b then x else b) entries k0).1.
Proof.
  intros He Hsw Hless Htot H0 Hne k.
  assert (∀ e, e ∈ entries ↔ e.2 = tally ballots e.1 ∧ e.1 ∈ ballots) as Hent
    by (intros [e v]; by rewrite He, votes_lookup).
  assert (∃ r, r ∈ entries ∧ (fold_left (λ b x, if less x b then x else b) entries k0) = r ∧
    ∀ x, x ∈ entries → less x r = false) as (r & Hr & -> & Hmin).
  { clear Hless Htot. destruct entries as [|e l].
    - destruct ballots as [|b l]; [done|]. exfalso.
      assert ((b, tally (b :: l) b) ∈ ([] : list (K * Z))) as Hn by (apply Hent; split; [done|by left]). by apply elem_of_nil in Hn.
    - cbn [fold_left]. rewrite (H0 e) by by left.
      destruct (fold_best _ less Hsw l e) as [Hin Hmin]; [by apply Forall_forall|]. eauto. }
  destruct r as [kr vr]. apply Hent in Hr as Hr'. simpl in Hr'. destruct Hr' as [-> Hkr]. simpl.
  assert (∀ k', k' ∈ ballots → ¬ (tally ballots kr < tally ballots k' ∨
    (tally ballots k' = tally ballots kr ∧ before k' kr))) as Hbest.
  { intros k' Hk' Hb. assert ((k', tally ballots k') ∈ entries) as Hin by by apply Hent.
    assert (less (k', tally ballots k') (kr, tally ballots kr) = true) as Hl by by apply Hless.
    by rewrite Hmin in Hl. }
  split.
  - intros [Hk Hw]. destruct (Hw kr Hkr) as [Hlt|[Heq [->|Hb]]]; [|done|].
    + exfalso. apply (Hbest k Hk). by left.
    + exfalso. apply (Hbest k Hk). by right.
  - intros ->. split; [done|]. intros k' Hk'. specialize (Hbest k' Hk').
    destruct (Z.lt_trichotomy (tally ballots k') (tally ballots kr)) as [?|[?|?]]; [by left| |exfalso; tauto].
    right. split; [done|]. destruct (Htot k' kr Hk' Hkr) as [?|[?|?]]; [by left| |by right]. exfalso. tauto.
Qed.

(** ** The two votes *)
Section elections.
Context `{Env} `{MapOrder}.

Lemma better_domain_fold l b :
  (b.1 ≠ "" ∨ b.2 = 0) → Forall (λ e, e.1 ≠ "" ∧ 0 < e.2) l →
  fold_left better_domain l b = fold_left (λ b x, if count_less x b then x else b) l b.
Proof.
  intros Hb Hl. revert b Hb. induction Hl as [|[d v] l [Hd Hv] Hl IH]; intros [bd bv] Hb; [done|].
  simpl in Hb, Hd, Hv. cbn [fold_left].
  assert (better_domain (bd, bv) (d, v) = if count_less (d, v) (bd, bv) then (d, v) else (bd, bv)) as ->.
  { unfold better_domain, count_less, by_count_desc, by_str. simpl.
    repeat case_bool_decide; simpl; try done; try lia. destruct Hb; [done|lia]. }
  apply IH. destruct (count_less _ _); [by left|done].
Qed.

Lemma count_less_iff e e' : count_less e e' = true ↔ e'.2 < e.2 ∨ (e.2 = e'.2 ∧ str_lt e.1 e'.1 = true).
Proof.
  unfold count_less, by_count_desc, by_str. simpl. repeat case_bool_decide; try (split; [tauto|done] || naive_solver lia).
Qed.

Lemma domains_named n seen uuids :
  (∀ root d, nv_Domain (ni_nvlink n) !! root = Some d → d ≠ "") → Forall (λ d, d ≠ "") (domains_of n seen uuids).
Proof.
  intros Hnamed. revert seen. induction uuids as [|u uuids IH]; intros seen; simpl; [constructor|].
  repeat case_match; eauto.
Qed.

Lemma domains_none n seen uuids : nv_ByUUID (ni_nvlink n) = ∅ → domains_of n seen uuids = [].
Proof.
  intros He. revert seen. induction uuids as [|u uuids IH]; intros seen; simpl; [done|].
  rewrite He, lookup_empty. by case_bool_decide.
Qed.

Lemma wins_nil {K} `{EqDecision K} before (k : K) : ¬ wins [] before k.
Proof. by intros [?%elem_of_nil _]. Qed.

(** The domain of a set of GPUs is elected: every distinct GPU with a known
    component votes for its component's domain, the most votes win and a tie
    goes to the smaller signature, whatever the iteration order of the vote
    map.  Without a vote there is no domain. *)
Theorem DomainOfUUIDs_elected n uuids dom :
  (∀ root d, nv_Domain (ni_nvlink n) !! root = Some d → d ≠ "") →
  DomainOfUUIDs n uuids = Some dom ↔
  wins (domains_of n ∅ uuids) (λ d d', str_lt d d' = true) dom.
Proof.
  intros Hnamed. unfold DomainOfUUIDs. destruct (_ || _) eqn:E0.
  { rewrite orb_true_iff, !bool_decide_eq_true in E0.
    assert (domains_of n ∅ uuids = []) as -> by (destruct E0 as [->|?]; [done|by apply domains_none]).
    split; [done|]. by intros ?%wins_nil. }
  clear E0. pose proof (domains_named n ∅ uuids Hnamed) as Hb. set (ballots := domains_of n ∅ uuids) in *.
  case_bool_decide as Hv.
  { apply votes_empty in Hv. rewrite Hv. split; [done|]. by intros ?%wins_nil. }
  rewrite votes_empty in Hv.
  assert (∀ e, e ∈ range_str (fold_left vote ballots ∅) → e.1 ≠ "" ∧ 0 < e.2) as Hent.
  { intros [d v] [-> Hd]%elem_of_range_str%votes_lookup. rewrite Forall_forall in Hb. simpl.
    split; [by apply Hb|by apply tally_pos]. }
  rewrite better_domain_fold by (by right || by apply Forall_forall).
  unshelve epose proof (election ballots count_less (λ d d', str_lt d d' = true)
    (range_str (fold_left vote ballots ∅)) ("", 0) _ _ _ _ _ _ dom) as Hel; cbv beta in *.
  - intros k v. apply elem_of_range_str.
  - apply count_less_sw.
  - intros e e' _ _. apply count_less_iff.
  - intros d d' _ _. destruct (str_lt d d') eqn:E1; [by right; left|]. destruct (str_lt d' d) eqn:E2; [by right; right|].
    left. by apply str_lt_total.
  - intros e He. apply count_less_iff. left. by apply Hent.
  - done.
  - split; [intros [= <-]; by apply Hel|by intros ->%Hel].
Qed.

(** ** The gang's anchor *)

Definition root_less (n : NodeInfo) (e e' : Z * Z) : bool :=
  bool_decide (e'.2 < e.2) || (bool_decide (e.2 = e'.2) && bool_decide (ordinal_of n e.1 < ordinal_of n e'.1)).

Lemma root_less_sw n P : StrictWeak P (root_less n).
Proof.
  unfold root_less. constructor; intros *; rewrite ?orb_true_iff, ?orb_false_iff, ?andb_true_iff, ?andb_false_iff,
    ?bool_decide_eq_true, ?bool_decide_eq_false; lia.
Qed.

(** The third component follows the first. *)
Lemma better_root_fold n l b o :
  (o = ordinal_of n b.1 ∨ b.2 = 0) → Forall (λ e : Z * Z, 0 < e.2) l →
  (fold_left (better_root n) l (b.1, b.2, o)).1 = fold_left (λ b x, if root_less n x b then x else b) l b.
Proof.
  intros Ho Hl. revert b o Ho. induction Hl as [|[r v] l Hv Hl IH]; intros [br bv] o Ho; [done|].
  simpl in Ho, Hv. cbn [fold_left]. unfold better_root at 2. unfold root_less at 2. simpl.
  destruct (decide (bv < v)) as [Hlt|Hge].
  { rewrite (bool_decide_eq_true_2 (bv < v)) by done. simpl. apply (IH (r, v)). by left. }
  rewrite (bool_decide_eq_false_2 (bv < v)) by done. simpl. destruct Ho as [->|?]; [|lia].
  destruct (bool_decide (v = bv) && _); [apply (IH (r, v))|apply (IH (br, bv))]; by left.
Qed.

(** C37 The anchor of a gang is elected: every GPU a counted sibling on the node
    holds votes for its NVLink component, the most votes win and a tie goes to
    the lower ordinal, whatever the iteration order of the vote map.  Without
    a sibling, or on a node without NVLink components, there is no anchor. *)
Theorem GangAnchorComponent_elected n gangName owner excluded root :
  (∀ r r', r ∈ sibling_roots n gangName owner excluded → r' ∈ sibling_roots n gangName owner excluded →
     ordinal_of n r = ordinal_of n r' → r = r') →
  gangName ≠ "" ∨ owner ≠ None →
  GangAnchorComponent n gangName owner excluded = Some root ↔
  wins (sibling_roots n gangName owner excluded) (λ r r', ordinal_of n r < ordinal_of n r') root.
Proof.
  intros Hinj Hgang. unfold GangAnchorComponent. destruct (_ || _) eqn:E0.
  { rewrite orb_true_iff, !bool_decide_eq_true in E0.
    assert (sibling_roots n gangName owner excluded = []) as ->.
    { unfold sibling_roots. destruct E0 as [E0| ->]; [|done]. induction (filter _ (ni_nodePods n)) as [|p l IH]; [done|].
      rewrite fmap_cons. change (mjoin (?x :: ?y)) with (x ++ mjoin y). rewrite IH, app_nil_r, E0.
      induction (PodPreAllocatedUUIDs p) as [|u us IHu]; [done|]. simpl. by rewrite lookup_empty. }
    split; [done|]. by intros ?%wins_nil. }
  assert (bool_decide (gangName = "") && bool_decide (owner = None) = false) as ->
    by (repeat case_bool_decide; naive_solver).
  clear E0. set (ballots := sibling_roots n gangName owner excluded) in *. case_bool_decide as Hv.
  { apply votes_empty in Hv. rewrite Hv. split; [done|]. by intros ?%wins_nil. }
  rewrite votes_empty in Hv.
  assert (∀ e, e ∈ range (fold_left vote ballots ∅) → 0 < e.2) as Hent.
  { intros [r v] [-> Hd]%elem_of_range%votes_lookup. by apply tally_pos. }
  rewrite (better_root_fold n _ (-1, 0)) by (by right || by apply Forall_forall).
  unshelve epose proof (election ballots (root_less n) (λ r r', ordinal_of n r < ordinal_of n r')
    (range (fold_left vote ballots ∅)) (-1, 0) _ _ _ _ _ _ root) as Hel; cbv beta in *.
  - intros k v. apply elem_of_range.
  - apply root_less_sw.
  - intros e e' _ _. unfold root_less. rewrite orb_true_iff, andb_true_iff, !bool_decide_eq_true. done.
  - intros r r' Hr Hr'. destruct (Z.lt_trichotomy (ordinal_of n r) (ordinal_of n r')) as [?|[?|?]]; [tauto| |tauto].
    left. by apply Hinj.
  - intros e He. unfold root_less. rewrite bool_decide_eq_true_2; [done|]. by apply Hent.
  - done.
  - split; [intros [= <-]; by apply Hel|by intros ->%Hel].
Qed.
End elections.
