(* ===== verification/Request.v ===== *)
(** * Allocation requests ([pkg/device/allocator/request.go], [profile.go])

    [AllocationRequest] is what the allocator reads of a pod, parsed once, with
    the peak demand of the pod's lifecycle; [ResetStatistics] recomputes that
    demand with the memory factor and card capacity of one node.  The theorem
    says what the two aggregates are when they fit 64 bits. *)

From stdpp Require Import base list gmap strings.
From Stdlib Require Import ZArith Lia.
From S2P Require Import Prelude GoMap GoSort GoStrings Float64 GoTime Kube Claims Links Topology Device Footprint.
From S2P Require Import Reason NodeInfo.

Open Scope Z_scope.

(** ** Modes and policies ([pkg/util/consts.go]) *)

Definition SchedulerPolicy : Type := string.
Definition NonePolicy : SchedulerPolicy := "none".
Definition BinpackPolicy : SchedulerPolicy := "binpack".
Definition SpreadPolicy : SchedulerPolicy := "spread".

Definition TopologyMode : Type := string.
Definition NoneTopology : TopologyMode := "none".
Definition NUMATopology : TopologyMode := "numa".
Definition NUMATopologyStrict : TopologyMode := "numa-strict".
Definition LinkTopology : TopologyMode := "link".
Definition LinkTopologyStrict : TopologyMode := "link-strict".
Definition PCIeTopology : TopologyMode := "pcie".
Definition PCIeTopologyStrict : TopologyMode := "pcie-strict".

Definition IsStrictTopology (m : TopologyMode) : bool :=
  bool_decide (m = NUMATopologyStrict) || bool_decide (m = LinkTopologyStrict) || bool_decide (m = PCIeTopologyStrict).

Definition BaseTopology (m : TopologyMode) : TopologyMode :=
  if bool_decide (m = NUMATopology) || bool_decide (m = NUMATopologyStrict) then NUMATopology
  else if bool_decide (m = LinkTopology) || bool_decide (m = LinkTopologyStrict) then LinkTopology
  else if bool_decide (m = PCIeTopology) || bool_decide (m = PCIeTopologyStrict) then PCIeTopology
  else if bool_decide (m = NoneTopology) || bool_decide (m = "") then NoneTopology
  else m.

Definition UsesLinkTiers (m : TopologyMode) : bool :=
  bool_decide (BaseTopology m = LinkTopology) || bool_decide (BaseTopology m = PCIeTopology).

Definition ContainerKind : Type := string.
Definition ContainerKindInit : ContainerKind := "init".
Definition ContainerKindApp : ContainerKind := "app".

(** ** Data *)

Record ContainerNeed := {
  cn_Name : string;
  cn_Kind : ContainerKind;
  cn_Restartable : bool;
  cn_Number : Z;
  cn_Cores : Z;
  cn_Memory : Z
}.

(** The zero value, and an aggregate, which has no name and no kind. *)
Definition aggregate (number cores memory : Z) : ContainerNeed :=
  {| cn_Name := ""; cn_Kind := ""; cn_Restartable := false; cn_Number := number; cn_Cores := cores;
     cn_Memory := memory |}.

Record TopologyOutcome := { to_Result : string; to_Alignment : string }.

Record RequestProfile := { rp_NumWeight : float64; rp_MemWeight : float64; rp_CoreWeight : float64 }.

Record AllocationRequest := {
  rq_Pod : Pod;
  rq_AccessMode : string;
  rq_ControllerOwner : option OwnerReference;
  rq_Containers : list ContainerNeed;
  rq_Total : ContainerNeed;
  rq_Max : ContainerNeed;
  rq_NodePolicy : SchedulerPolicy;
  rq_DevicePolicy : SchedulerPolicy;
  rq_Topology : TopologyMode;
  rq_TopologyStrict : bool;
  rq_GangName : string;
  rq_CrossPodTopology : bool;
  rq_GangDomainKey : string;
  rq_GangRailKey : string;
  rq_topoOutcome : TopologyOutcome;
  rq_Profile : RequestProfile;
  rq_CheckDeviceUuid : bool;
  rq_CheckDeviceType : bool;
  rq_HasSequentialInit : bool
}.

(** ** Topology outcomes *)

Definition ResultNVLink : string := "nvlink".
Definition ResultSwitch : string := "switch".
Definition ResultNUMA : string := "numa".
Definition ResultAny : string := "any".
Definition ResultSpanned : string := "spanned".
Definition ResultCrossNUMA : string := "cross-numa".
Definition ResultNone : string := "none".

Definition resultSeverity (result : string) : Z :=
  if bool_decide (result = ResultNVLink) then 0
  else if bool_decide (result = ResultSwitch) then 1
  else if bool_decide (result = ResultNUMA) then 2
  else if bool_decide (result = ResultAny) then 3
  else if bool_decide (result = ResultCrossNUMA) || bool_decide (result = ResultSpanned) then 4
  else if bool_decide (result = ResultNone) then 5
  else 6.

(** [recordTopologyOutcome] on the outcome it updates. *)
Definition recordTopologyOutcome (o : TopologyOutcome) (result alignment : string) : TopologyOutcome :=
  {| to_Result := if bool_decide (to_Result o = "") || bool_decide (resultSeverity (to_Result o) < resultSeverity result)
                  then result else to_Result o;
     to_Alignment := if bool_decide (to_Alignment o = "") then alignment else to_Alignment o |}.

(** ** Demand *)

Definition resolveContainerNeeds (need : ContainerNeed) (memoryFactor : Z) (allSameCapacity : bool)
    (memoryCapacity : Z) : Z * Z :=
  let cores := cn_Cores need in
  let memory := cn_Memory need in
  let memory := if bool_decide (0 < memory) && bool_decide (0 < memoryFactor) then memory *w memoryFactor else memory in
  let cores := if bool_decide (cores = 0) && bool_decide (memory = 0) then HundredCore else cores in
  let memory := if bool_decide (memory = 0) && allSameCapacity then memoryCapacity else memory in
  (cores, memory).

(** The locals of the aggregation loop. *)
Record demand_state := {
  ds_max : ContainerNeed;
  ds_sidecarAgg : ContainerNeed;
  ds_regularAgg : ContainerNeed;
  ds_initMaxAgg : ContainerNeed
}.

Definition demand_init : demand_state :=
  {| ds_max := aggregate 0 0 0; ds_sidecarAgg := aggregate 0 0 0; ds_regularAgg := aggregate 0 0 0;
     ds_initMaxAgg := aggregate 0 0 0 |}.

Definition need_max (a : ContainerNeed) (number cores memory : Z) : ContainerNeed :=
  aggregate (Z.max (cn_Number a) number) (Z.max (cn_Cores a) cores) (Z.max (cn_Memory a) memory).
Definition need_add (a : ContainerNeed) (number cores memory : Z) : ContainerNeed :=
  aggregate (cn_Number a +w number) (cn_Cores a +w cores) (cn_Memory a +w memory).

Definition is_init_need (need : ContainerNeed) : bool :=
  bool_decide (cn_Kind need = ContainerKindInit) && negb (cn_Restartable need).

(** The loop body of [ResetStatistics], and of [addContainer] in
    [BuildAllocationRequest] (with no factor and no capacity). *)
Definition demand_step (memoryFactor : Z) (allSameCapacity : bool) (memoryCapacity : Z)
    (ds : demand_state) (need : ContainerNeed) : demand_state :=
  let '(cores, memory) := resolveContainerNeeds need memoryFactor allSameCapacity memoryCapacity in
  let number := cn_Number need in
  let aggCores := cores *w number in
  let aggMemory := memory *w number in
  let m := need_max (ds_max ds) number cores memory in
  if is_init_need need then
    {| ds_max := m; ds_sidecarAgg := ds_sidecarAgg ds; ds_regularAgg := ds_regularAgg ds;
       ds_initMaxAgg := need_max (ds_initMaxAgg ds) number aggCores aggMemory |}
  else if cn_Restartable need then
    {| ds_max := m; ds_sidecarAgg := need_add (ds_sidecarAgg ds) number aggCores aggMemory;
       ds_regularAgg := ds_regularAgg ds; ds_initMaxAgg := ds_initMaxAgg ds |}
  else
    {| ds_max := m; ds_sidecarAgg := ds_sidecarAgg ds;
       ds_regularAgg := need_add (ds_regularAgg ds) number aggCores aggMemory; ds_initMaxAgg := ds_initMaxAgg ds |}.

(** [sidecarAgg + max(regularAgg, initMaxAgg)] *)
Definition demand_total (ds : demand_state) : ContainerNeed :=
  need_add (ds_sidecarAgg ds)
    (Z.max (cn_Number (ds_regularAgg ds)) (cn_Number (ds_initMaxAgg ds)))
    (Z.max (cn_Cores (ds_regularAgg ds)) (cn_Cores (ds_initMaxAgg ds)))
    (Z.max (cn_Memory (ds_regularAgg ds)) (cn_Memory (ds_initMaxAgg ds))).

Definition with_stats (req : AllocationRequest) (total max : ContainerNeed) : AllocationRequest :=
  {| rq_Pod := rq_Pod req; rq_AccessMode := rq_AccessMode req; rq_ControllerOwner := rq_ControllerOwner req;
     rq_Containers := rq_Containers req; rq_Total := total; rq_Max := max; rq_NodePolicy := rq_NodePolicy req;
     rq_DevicePolicy := rq_DevicePolicy req; rq_Topology := rq_Topology req;
     rq_TopologyStrict := rq_TopologyStrict req; rq_GangName := rq_GangName req;
     rq_CrossPodTopology := rq_CrossPodTopology req; rq_GangDomainKey := rq_GangDomainKey req;
     rq_GangRailKey := rq_GangRailKey req; rq_topoOutcome := rq_topoOutcome req; rq_Profile := rq_Profile req;
     rq_CheckDeviceUuid := rq_CheckDeviceUuid req; rq_CheckDeviceType := rq_CheckDeviceType req;
     rq_HasSequentialInit := rq_HasSequentialInit req |}.

(** The demand of the containers on a node. *)
Definition node_demand (req : AllocationRequest) (n : NodeInfo) : demand_state :=
  fold_left (demand_step (nc_MemoryFactor (ni_config n)) (HasSameCapacity n) (GetMaxDeviceMemory n))
    (rq_Containers req) demand_init.

Definition ResetStatistics (req : AllocationRequest) (n : NodeInfo) : AllocationRequest :=
  let ds := node_demand req n in with_stats req (demand_total ds) (ds_max ds).

(** ** The scoring profile ([profile.go]) *)

Definition UniformProfile : RequestProfile :=
  let third := f64_div f64_1 (f64_of_Z 3) in
  {| rp_NumWeight := third; rp_MemWeight := third; rp_CoreWeight := third |}.

(** Of the request it reads [Total] only. *)
Definition NewRequestProfile (total : ContainerNeed) : RequestProfile :=
  let number := f64_of_Z (cn_Number total) in
  if f64_le number f64_0 then UniformProfile
  else
    let rNum := number in
    let cores := f64_of_Z (cn_Cores total) in
    let memory := f64_of_Z (cn_Memory total) in
    let rCore := if f64_lt f64_0 cores then f64_div cores (f64_of_Z HundredCore) else f64_0 in
    let rMem := if f64_le memory f64_0 then number
                else f64_max (f64_ceil (f64_div memory (f64_of_Z 1024))) number in
    let sum := f64_add (f64_add rNum rMem) rCore in
    if f64_eq sum f64_0 then UniformProfile
    else {| rp_NumWeight := f64_div rNum sum; rp_MemWeight := f64_div rMem sum;
            rp_CoreWeight := f64_div rCore sum |}.

(** ** Parsing a pod *)
Section build.
Context `{Env}.

Definition parseSchedulerPolicy (pod : Pod) (key : string) : SchedulerPolicy :=
  let lower := ToLower (annotation pod key) in
  if bool_decide (lower = BinpackPolicy) then BinpackPolicy
  else if bool_decide (lower = SpreadPolicy) then SpreadPolicy
  else if bool_decide (lower = NonePolicy) || bool_decide (lower = "") then NonePolicy
  else lower.

Definition ParsePodTopologyMode (pod : Pod) : TopologyMode * bool :=
  let tm := ToLower (annotation pod DeviceTopologyModeAnnotation) in
  (tm, IsStrictTopology tm).

Definition container_need (c : Container) (kind : ContainerKind) (restartable : bool) : ContainerNeed :=
  {| cn_Name := c_Name c; cn_Kind := kind; cn_Restartable := restartable;
     cn_Number := GetResourceOfContainer c VGPUNumberResourceName;
     cn_Cores := GetResourceOfContainer c VGPUCoreResourceName;
     cn_Memory := GetResourceOfContainer c VGPUMemoryResourceName |}.

(** The containers [addContainer] keeps, init containers first. *)
Definition pod_needs (pod : Pod) : list ContainerNeed :=
  filter (λ need, 0 < cn_Number need)
    (((λ c, container_need c ContainerKindInit (IsRestartableInitContainer c)) <$> p_InitContainers pod)
     ++ ((λ c, container_need c ContainerKindApp false) <$> p_Containers pod)).

Definition has_annotation (pod : Pod) (k : string) : bool := bool_decide (is_Some (HasAnnotation pod k)).

Definition BuildAllocationRequest (pod : Pod) : AllocationRequest :=
  let needs := pod_needs pod in
  let ds := fold_left (demand_step 0 false 0) needs demand_init in
  let total := demand_total ds in
  let vgpu := negb (bool_decide (needs = [])) in
  let topo := ParsePodTopologyMode pod in
  {| rq_Pod := pod;
     rq_AccessMode := (PodVGPUAccessMode pod).1;
     rq_ControllerOwner := p_GetControllerOf pod;
     rq_Containers := needs;
     rq_Total := total;
     rq_Max := ds_max ds;
     rq_NodePolicy := if vgpu then parseSchedulerPolicy pod NodeSchedulerPolicyAnnotation else "";
     rq_DevicePolicy := if vgpu then parseSchedulerPolicy pod DeviceSchedulerPolicyAnnotation else "";
     rq_Topology := if vgpu then topo.1 else "";
     rq_TopologyStrict := if vgpu then topo.2 else false;
     rq_GangName := if vgpu then default "" (PodGangKey pod) else "";
     rq_CrossPodTopology :=
       if vgpu then match HasAnnotation pod CrossPodTopologyAnnotation with
                    | Some v => EqualFold v "true"
                    | None => false
                    end
       else false;
     rq_GangDomainKey := "";
     rq_GangRailKey := "";
     rq_topoOutcome := {| to_Result := ""; to_Alignment := "" |};
     rq_Profile := if vgpu then NewRequestProfile total
                   else {| rp_NumWeight := f64_0; rp_MemWeight := f64_0; rp_CoreWeight := f64_0 |};
     rq_CheckDeviceUuid :=
       vgpu && (has_annotation pod PodIncludeGPUUUIDAnnotation || has_annotation pod PodExcludeGPUUUIDAnnotation);
     rq_CheckDeviceType :=
       vgpu && (has_annotation pod PodIncludeGpuTypeAnnotation || has_annotation pod PodExcludeGpuTypeAnnotation);
     rq_HasSequentialInit := existsb is_init_need needs |}.
End build.

(** ** What the demand means *)

(** A need in one dimension, per device or in all. *)
Definition need_dim (x : dim) (need : ContainerNeed) : Z :=
  match x with Number => cn_Number need | Cores => cn_Cores need | Memory => cn_Memory need end.

Section demand.
Context (memoryFactor : Z) (allSameCapacity : bool) (memoryCapacity : Z).

Definition per_device (x : dim) (need : ContainerNeed) : Z :=
  let '(cores, memory) := resolveContainerNeeds need memoryFactor allSameCapacity memoryCapacity in
  match x with Number => cn_Number need | Cores => cores | Memory => memory end.

(** What the container asks for in all. *)
Definition ask (x : dim) (need : ContainerNeed) : Z :=
  match x with Number => cn_Number need | _ => per_device x need * cn_Number need end.

Definition is_sidecar_class (need : ContainerNeed) : Prop := is_init_need need = false ∧ cn_Restartable need = true.
Definition is_app_class (need : ContainerNeed) : Prop := is_init_need need = false ∧ cn_Restartable need = false.
Definition is_init_class (need : ContainerNeed) : Prop := is_init_need need = true.

#[export] Instance is_sidecar_class_dec need : Decision (is_sidecar_class need).
Proof. unfold is_sidecar_class. apply _. Defined.
#[export] Instance is_app_class_dec need : Decision (is_app_class need).
Proof. unfold is_app_class. apply _. Defined.
#[export] Instance is_init_class_dec need : Decision (is_init_class need).
Proof. unfold is_init_class. apply _. Defined.

(** Every container's demand, and that of each concurrent phase, is a
    non-negative machine integer. *)
Record asks_fit (needs : list ContainerNeed) : Prop := {
  af_each need x : need ∈ needs → 0 ≤ ask x need ≤ int64_max;
  af_sidecars x : Zsum (ask x <$> filter is_sidecar_class needs) ≤ int64_max;
  af_apps x : Zsum (ask x <$> filter is_app_class needs) ≤ int64_max
}.

Lemma asks_fit_prefix needs need : asks_fit (needs ++ [need]) → asks_fit needs.
Proof.
  intros [He Hs Ha]. split.
  - intros n x Hn. apply He, elem_of_app. by left.
  - intros x. specialize (Hs x). rewrite filter_app, fmap_app, Zsum_app in Hs.
    assert (0 ≤ Zsum (ask x <$> filter is_sidecar_class [need])); [|lia].
    apply Zsum_nonneg, Forall_fmap, Forall_filter. constructor; [|done]. apply He, elem_of_app. right. by left.
  - intros x. specialize (Ha x). rewrite filter_app, fmap_app, Zsum_app in Ha.
    assert (0 ≤ Zsum (ask x <$> filter is_app_class [need])); [|lia].
    apply Zsum_nonneg, Forall_fmap, Forall_filter. constructor; [|done]. apply He, elem_of_app. right. by left.
Qed.

(** The four aggregates after the loop. *)
Record demand_is (needs : list ContainerNeed) (ds : demand_state) : Prop := {
  di_max x : need_dim x (ds_max ds) = Zmax0 (per_device x <$> needs);
  di_side x : need_dim x (ds_sidecarAgg ds) = Zsum (ask x <$> filter is_sidecar_class needs);
  di_app x : need_dim x (ds_regularAgg ds) = Zsum (ask x <$> filter is_app_class needs);
  di_init x : need_dim x (ds_initMaxAgg ds) = Zmax0 (ask x <$> filter is_init_class needs)
}.

Lemma need_dim_max x a number cores memory :
  need_dim x (need_max a number cores memory)
  = Z.max (need_dim x a) (match x with Number => number | Cores => cores | Memory => memory end).
Proof. by destruct x. Qed.

Lemma need_dim_add x a number cores memory :
  need_dim x (need_add a number cores memory)
  = need_dim x a +w (match x with Number => number | Cores => cores | Memory => memory end).
Proof. by destruct x. Qed.

Lemma filter_one (P : ContainerNeed → Prop) `{!∀ n, Decision (P n)} needs need :
  filter P (needs ++ [need]) = filter P needs ++ (if decide (P need) then [need] else []).
Proof. by rewrite filter_app, filter_cons, filter_nil. Qed.

Lemma demand_step_eq ds need :
  demand_step memoryFactor allSameCapacity memoryCapacity ds need
  = let m := need_max (ds_max ds) (cn_Number need) (per_device Cores need) (per_device Memory need) in
    let aggCores := per_device Cores need *w cn_Number need in
    let aggMemory := per_device Memory need *w cn_Number need in
    if is_init_need need then
      {| ds_max := m; ds_sidecarAgg := ds_sidecarAgg ds; ds_regularAgg := ds_regularAgg ds;
         ds_initMaxAgg := need_max (ds_initMaxAgg ds) (cn_Number need) aggCores aggMemory |}
    else if cn_Restartable need then
      {| ds_max := m; ds_sidecarAgg := need_add (ds_sidecarAgg ds) (cn_Number need) aggCores aggMemory;
         ds_regularAgg := ds_regularAgg ds; ds_initMaxAgg := ds_initMaxAgg ds |}
    else
      {| ds_max := m; ds_sidecarAgg := ds_sidecarAgg ds;
         ds_regularAgg := need_add (ds_regularAgg ds) (cn_Number need) aggCores aggMemory; ds_initMaxAgg := ds_initMaxAgg ds |}.
Proof. unfold demand_step, per_device. by destruct (resolveContainerNeeds _ _ _ _). Qed.

Lemma demand_step_is needs need ds :
  asks_fit (needs ++ [need]) → demand_is needs ds →
  demand_is (needs ++ [need]) (demand_step memoryFactor allSameCapacity memoryCapacity ds need).
Proof.
  intros Hfit [Hm Hs Ha Hi].
  assert (∀ x, 0 ≤ ask x need ≤ int64_max) as Hask by (intros x; apply (af_each _ Hfit), elem_of_app; right; by left).
  pose proof (af_sidecars _ Hfit) as Hss. pose proof (af_apps _ Hfit) as Haa.
  pose proof (asks_fit_prefix _ _ Hfit) as [He _ _].
  assert (∀ (P : ContainerNeed → Prop) `{!∀ n, Decision (P n)} x, 0 ≤ Zsum (ask x <$> filter P needs)) as Hnn.
  { intros P HP x. apply Zsum_nonneg, Forall_fmap, Forall_filter, Forall_forall. intros n Hn. by apply He. }
  set (agg x := match x with Number => cn_Number need | _ => wrap64 (per_device x need * cn_Number need) end).
  assert (∀ x, agg x = ask x need) as Hagg.
  { intros x. specialize (Hask x). destruct x; [done|..]; apply wrap64_id; unfold in64, int64_min; simpl in *; lia. }
  assert (∀ x, need_dim x (need_max (ds_max ds) (cn_Number need) (per_device Cores need) (per_device Memory need))
    = Zmax0 (per_device x <$> needs ++ [need])) as Hmax'.
  { intros x. rewrite need_dim_max, Zmax0_snoc, Hm. by destruct x. }
  assert (∀ a x, need_dim x (need_max a (cn_Number need) (agg Cores) (agg Memory)) = Z.max (need_dim x a) (ask x need)) as Hmx.
  { intros a x. rewrite need_dim_max, <- Hagg. by destruct x. }
  assert (∀ a x, 0 ≤ need_dim x a → need_dim x a + ask x need ≤ int64_max →
    need_dim x (need_add a (cn_Number need) (agg Cores) (agg Memory)) = need_dim x a + ask x need) as Hadd.
  { intros a x H1 H2. specialize (Hask x). rewrite need_dim_add.
    replace (match x with Number => _ | Cores => _ | Memory => _ end) with (ask x need) by (rewrite <- Hagg; by destruct x).
    apply wrap64_id. unfold in64, int64_min. lia. }
  rewrite demand_step_eq. fold (agg Cores) (agg Memory). destruct (is_init_need need) eqn:Ei; [|destruct (cn_Restartable need) eqn:Er].
  - split; intros x; simpl; rewrite ?filter_one; [done|..].
    + rewrite decide_False by (intros [? ?]; congruence). by rewrite app_nil_r.
    + rewrite decide_False by (intros [? ?]; congruence). by rewrite app_nil_r.
    + rewrite decide_True by done. by rewrite Zmax0_snoc, Hmx, Hi.
  - split; intros x; simpl; rewrite ?filter_one; [done|..].
    + specialize (Hss x). rewrite filter_one, decide_True, Zsum_snoc in Hss by done.
      rewrite decide_True, Zsum_snoc, <- Hs by done. apply Hadd; [rewrite Hs; apply Hnn|by rewrite Hs].
    + rewrite decide_False by (intros [? ?]; congruence). by rewrite app_nil_r.
    + rewrite decide_False by (unfold is_init_class; congruence). by rewrite app_nil_r.
  - split; intros x; simpl; rewrite ?filter_one; [done|..].
    + rewrite decide_False by (intros [? ?]; congruence). by rewrite app_nil_r.
    + specialize (Haa x). rewrite filter_one, decide_True, Zsum_snoc in Haa by done.
      rewrite decide_True, Zsum_snoc, <- Ha by done. apply Hadd; [rewrite Ha; apply Hnn|by rewrite Ha].
    + rewrite decide_False by (unfold is_init_class; congruence). by rewrite app_nil_r.
Qed.

Lemma demand_fold needs :
  asks_fit needs → demand_is needs (fold_left (demand_step memoryFactor allSameCapacity memoryCapacity) needs demand_init).
Proof.
  induction needs as [|need needs IH] using rev_ind; intros Hfit.
  - split; by intros [].
  - rewrite fold_left_app. apply demand_step_is; [done|]. apply IH. by eapply asks_fit_prefix.
Qed.

(** [sidecars + max(apps, init)] *)
Definition lifecycle_demand (x : dim) (needs : list ContainerNeed) : Z :=
  Zsum (ask x <$> filter is_sidecar_class needs) +
  Z.max (Zsum (ask x <$> filter is_app_class needs)) (Zmax0 (ask x <$> filter is_init_class needs)).

Lemma demand_total_is needs ds x :
  demand_is needs ds → asks_fit needs → lifecycle_demand x needs ≤ int64_max →
  need_dim x (demand_total ds) = lifecycle_demand x needs.
Proof.
  intros [_ Hs Ha Hi] [He _ _] Hle. unfold demand_total. rewrite need_dim_add.
  assert (0 ≤ Zsum (ask x <$> filter is_sidecar_class needs)) as Hnn.
  { apply Zsum_nonneg, Forall_fmap, Forall_filter, Forall_forall. intros n Hn. by apply He. }
  pose proof (Zmax0_nonneg (ask x <$> filter is_init_class needs)) as Hin. rewrite <- (Hi x) in Hin.
  unfold lifecycle_demand in *. rewrite <- (Hs x) in Hnn, Hle |- *. rewrite <- (Ha x), <- (Hi x) in Hle |- *.
  transitivity (wrap64 (need_dim x (ds_sidecarAgg ds) + Z.max (need_dim x (ds_regularAgg ds)) (need_dim x (ds_initMaxAgg ds)))).
  { by destruct x. }
  apply wrap64_id. unfold in64, int64_min. lia.
Qed.
End demand.

(** The demand of a request on a node, per dimension. *)
Definition node_ask (n : NodeInfo) : dim → ContainerNeed → Z :=
  ask (nc_MemoryFactor (ni_config n)) (HasSameCapacity n) (GetMaxDeviceMemory n).
Definition node_per_device (n : NodeInfo) : dim → ContainerNeed → Z :=
  per_device (nc_MemoryFactor (ni_config n)) (HasSameCapacity n) (GetMaxDeviceMemory n).

Lemma reset_demand req n :
  asks_fit (nc_MemoryFactor (ni_config n)) (HasSameCapacity n) (GetMaxDeviceMemory n) (rq_Containers req) →
  ∀ x, need_dim x (rq_Max (ResetStatistics req n)) = Zmax0 (node_per_device n x <$> rq_Containers req) ∧
    (lifecycle_demand (nc_MemoryFactor (ni_config n)) (HasSameCapacity n) (GetMaxDeviceMemory n) x (rq_Containers req) ≤ int64_max →
     need_dim x (rq_Total (ResetStatistics req n))
     = lifecycle_demand (nc_MemoryFactor (ni_config n)) (HasSameCapacity n) (GetMaxDeviceMemory n) x (rq_Containers req)).
Proof.
  intros Hfit x. pose proof (demand_fold _ _ _ _ Hfit) as Hd. split.
  - apply (di_max _ _ _ _ _ Hd).
  - intros Hle. by apply (demand_total_is _ _ _ (rq_Containers req) (node_demand req n)).
Qed.

(** C21 The demand the scheduler compares with a node: [Max] is the largest
    per-device request of any container, [Total] the sidecars plus the larger
    of the app containers together and the heaviest sequential init container,
    with the node's memory factor and whole-card rules applied — provided
    these amounts are machine integers. *)
Theorem ResetStatistics_demand req n x :
  let f := nc_MemoryFactor (ni_config n) in
  asks_fit f (HasSameCapacity n) (GetMaxDeviceMemory n) (rq_Containers req) →
  lifecycle_demand f (HasSameCapacity n) (GetMaxDeviceMemory n) x (rq_Containers req) ≤ int64_max →
  need_dim x (rq_Max (ResetStatistics req n)) = Zmax0 (node_per_device n x <$> rq_Containers req) ∧
  need_dim x (rq_Total (ResetStatistics req n))
  = Zsum (node_ask n x <$> filter is_sidecar_class (rq_Containers req)) +
    Z.max (Zsum (node_ask n x <$> filter is_app_class (rq_Containers req)))
          (Zmax0 (node_ask n x <$> filter is_init_class (rq_Containers req))).
Proof. intros f Hfit Hle. destruct (reset_demand req n Hfit x) as [Hm Ht]. split; [done|]. by apply Ht. Qed.
