(* ===== verification/Admission.v ===== *)
(** * Pod admission: defaults and conversion
      ([pkg/webhook/pod/mutate], [pkg/webhook/common], [pkg/controller/reschedule])

    What the mutating webhook does to a pod before it exists: missing vGPU
    resources are filled in, stale allocation metadata is removed, defaults
    are set, a pinned node becomes a node selector, and on request the vGPU
    resources become claims.  [PodHelpers] are the library functions it calls;
    the codec of the recorded resources is JSON over the library's
    quantities, a parameter with its round trip. *)

From stdpp Require Import base list gmap strings.
From Stdlib Require Import ZArith Lia.
From S2P Require Import Prelude GoMap GoSort GoStrings GoFmt GoTime Kube Claims DnsName Footprint Device NodeInfo Request.

Open Scope Z_scope.

(** [resource.PodLimits] and [helper.IsExtendedResourceName]. *)
Class PodHelpers : Type := {
  PodLimits : Pod → gmap string Z;
  IsExtendedResourceName : string → bool
}.

Record Options := {
  op_SchedulerName : string;
  op_DefaultNodePolicy : string;
  op_DefaultDevicePolicy : string;
  op_DefaultTopologyMode : string;
  op_DefaultRuntimeClass : string;
  op_VGPUDeviceClassName : string;
  op_DRAAdmissionEnabled : bool;
  op_DefaultConvertToDRA : bool;
  op_CombinedResourceClaim : bool
}.

Record ResourceInfo := {
  ri_Name : string;
  ri_ClaimName : string;
  ri_RequestName : string;
  ri_Resources : gmap string Z
}.
Definition ResourceInfos : Type := list ResourceInfo.

Class ResourceInfosCodec : Type := {
  ResourceInfos_Encode : ResourceInfos → result string string;
  ResourceInfos_Decode : string → result string ResourceInfos;
  infos_roundtrip infos text : ResourceInfos_Encode infos = Ok text → text ≠ "" ∧ ResourceInfos_Decode text = Ok infos
}.

Definition DefaultSchedulerName : string := "default-scheduler".
Definition LabelHostname : string := "kubernetes.io/hostname".
Definition Windows : string := "windows".
Definition DRADriverName : string := "manager.nvidia.com".
Definition DRAOriResAnnotation : string := "vgpu-manager.io/original-resources".
Definition VGpuDeviceType : string := "vgpu".

(** ** Updating a pod in place *)

Definition with_spec (p : Pod) (node : string) (inits containers : list Container) (rest : PodRest) : Pod :=
  {| p_Name := p_Name p; p_Namespace := p_Namespace p; p_UID := p_UID p; p_Labels := p_Labels p;
     p_Annotations := p_Annotations p; p_OwnerReferences := p_OwnerReferences p; p_GetControllerOf := p_GetControllerOf p;
     p_DeletionTimestamp := p_DeletionTimestamp p; p_NodeName := node; p_Containers := containers;
     p_InitContainers := inits; p_PodGroupName := p_PodGroupName p; p_Phase := p_Phase p;
     p_StatusReason := p_StatusReason p; p_ContainerStatuses := p_ContainerStatuses p;
     p_InitContainerStatuses := p_InitContainerStatuses p; p_PodScheduledCondition := p_PodScheduledCondition p;
     p_OS := p_OS p; p_Priority := p_Priority p; p_CreationTimestamp := p_CreationTimestamp p;
     p_Tolerations := p_Tolerations p; p_IsCriticalPod := p_IsCriticalPod p; p_Rest := rest |}.

Definition with_containers (p : Pod) (inits containers : list Container) : Pod :=
  with_spec p (p_NodeName p) inits containers (p_Rest p).
Definition with_rest (p : Pod) (rest : PodRest) : Pod :=
  with_spec p (p_NodeName p) (p_InitContainers p) (p_Containers p) rest.

Definition rest_with (r : PodRest) (scheduler : string) (selector : gmap string string) (runtime : option string)
    (claims : list PodResourceClaim) : PodRest :=
  {| ps_GenerateName := ps_GenerateName r; ps_ResourceVersion := ps_ResourceVersion r; ps_SchedulerName := scheduler;
     ps_NodeSelector := selector; ps_RuntimeClassName := runtime; ps_ResourceClaims := claims;
     ps_ResourceClaimStatuses := ps_ResourceClaimStatuses r; ps_DNSPolicy := ps_DNSPolicy r;
     ps_DNSConfig := ps_DNSConfig r; ps_HostNetwork := ps_HostNetwork r |}.

Definition with_resources (c : Container) (limits requests : gmap string Z) (claims : list ContainerClaim) : Container :=
  {| c_Name := c_Name c; c_Limits := limits; c_Requests := requests; c_Claims := claims;
     c_IsRestartableInitContainer := c_IsRestartableInitContainer c; c_Env := c_Env c |}.

Definition DeleteAnnotation (p : Pod) (k : string) : Pod := with_metadata p (p_Labels p) (delete k (p_Annotations p)).
Definition DeleteLabel (p : Pod) (k : string) : Pod := with_metadata p (delete k (p_Labels p)) (p_Annotations p).

(** Reading and updating claims through the API server: whether a claim has a
    controller already, and the errors of the three calls. *)
Inductive claim_error := ClaimNotFound | ClaimError (text : string).
Class ClaimApi : Type := {
  get_claim_controller : string → string → result claim_error bool;
  set_controller : Pod → string → option string;
  update_claim : string → string → option string
}.

Section admission.
Context `{Env} `{PodHelpers} `{ResourceInfosCodec}.

Definition DelResourceOfContainer (c : Container) (name : string) : Container :=
  with_resources c (delete name (c_Limits c)) (delete name (c_Requests c)) (c_Claims c).

(** ** Metadata ([recovery.go]) *)

Definition removedLabels : list string := [PodAssignedPhaseLabel; PodMetricsNodeLabel].
Definition removedAnnotations : list string :=
  [PodVGPUPreAllocAnnotation; PodVGPURealAllocAnnotation; PodPredicateNodeAnnotation; PodPredicateTimeAnnotation].
Definition removedDRAAnnotations : list string := [DRAOriResAnnotation].

Definition CleanupDRAMetadata (pod : Pod) : Pod := fold_left DeleteAnnotation removedDRAAnnotations pod.
Definition CleanupMetadata (pod : Pod) : Pod :=
  fold_left DeleteAnnotation removedAnnotations (fold_left DeleteLabel removedLabels pod).

(** ** Defaults ([pod_mutate.go]) *)

Definition setDefaultSchedulerName (pod : Pod) (o : Options) : Pod :=
  let r := p_Rest pod in
  if bool_decide (op_SchedulerName o ≠ "") &&
     (bool_decide (ps_SchedulerName r = "") || bool_decide (ps_SchedulerName r = DefaultSchedulerName))
  then with_rest pod (rest_with r (op_SchedulerName o) (ps_NodeSelector r) (ps_RuntimeClassName r) (ps_ResourceClaims r))
  else pod.

(** The two policies share their body but for the annotation. *)
Definition setDefaultPolicy (pod : Pod) (key value : string) : Pod :=
  match HasAnnotation pod key with
  | Some _ => pod
  | None =>
      let value := ToLower value in
      if bool_decide (value = BinpackPolicy) || bool_decide (value = SpreadPolicy) then InsertAnnotation pod key value else pod
  end.
Definition setDefaultNodeSchedulerPolicy (pod : Pod) (o : Options) : Pod :=
  setDefaultPolicy pod NodeSchedulerPolicyAnnotation (op_DefaultNodePolicy o).
Definition setDefaultDeviceSchedulerPolicy (pod : Pod) (o : Options) : Pod :=
  setDefaultPolicy pod DeviceSchedulerPolicyAnnotation (op_DefaultDevicePolicy o).

Definition setDefaultDeviceTopologyMode (pod : Pod) (o : Options) : Pod :=
  match HasAnnotation pod DeviceTopologyModeAnnotation with
  | Some _ => pod
  | None =>
      let mode := ToLower (op_DefaultTopologyMode o) in
      if bool_decide (mode ∈ [NUMATopology; NUMATopologyStrict; LinkTopology; LinkTopologyStrict; PCIeTopology; PCIeTopologyStrict])
      then InsertAnnotation pod DeviceTopologyModeAnnotation mode else pod
  end.

Definition setDefaultRuntimeClassName (pod : Pod) (o : Options) : Pod :=
  let r := p_Rest pod in
  if bool_decide (op_DefaultRuntimeClass o ≠ "") && bool_decide (default "" (ps_RuntimeClassName r) = "")
  then with_rest pod (rest_with r (ps_SchedulerName r) (ps_NodeSelector r) (Some (op_DefaultRuntimeClass o)) (ps_ResourceClaims r))
  else pod.

Definition fixSpecifiedNodeName (pod : Pod) : Pod :=
  if bool_decide (p_NodeName pod = "") then pod
  else
    let r := p_Rest pod in
    with_spec pod "" (p_InitContainers pod) (p_Containers pod)
      (rest_with r (ps_SchedulerName r) (<[LabelHostname := p_NodeName pod]> (ps_NodeSelector r)) (ps_RuntimeClassName r)
         (ps_ResourceClaims r)).

Definition cleanupInvalidSchedulerAnnotation (pod : Pod) : Pod :=
  fold_left DeleteAnnotation [NodeSchedulerPolicyAnnotation; DeviceSchedulerPolicyAnnotation; MemorySchedulerPolicyAnnotation] pod.

Definition HasDRARequests (pod : Pod) : bool := bool_decide (ps_ResourceClaims (p_Rest pod) ≠ []).
Definition HasExtendedResource (pod : Pod) : bool :=
  existsb (λ '(name, qty), IsExtendedResourceName name && bool_decide (0 < qty)) (map_to_list (PodLimits pod)).

(** [setDefaultResource] on one container; the number it ends with decides the two flags. *)
Definition setDefaultResource (c : Container) : Container :=
  let number := GetResourceOfContainer c VGPUNumberResourceName in
  let cores := GetResourceOfContainer c VGPUCoreResourceName in
  let memory := GetResourceOfContainer c VGPUMemoryResourceName in
  let orphan := bool_decide (number = 0) && (bool_decide (0 < cores) || bool_decide (0 < memory)) in
  let limits := if orphan then <[VGPUNumberResourceName := 1]> (c_Limits c) else c_Limits c in
  let number := if orphan then 1 else number in
  let limits := if bool_decide (0 < number) && bool_decide (cores = 0) && bool_decide (memory = 0)
                then <[VGPUCoreResourceName := HundredCore]> limits else limits in
  with_resources c limits (c_Requests c) (c_Claims c).

Definition all_containers (pod : Pod) : list Container := p_InitContainers pod ++ p_Containers pod.
Definition asks (k : Z) (pod : Pod) : bool :=
  existsb (λ c, bool_decide (k < GetResourceOfContainer c VGPUNumberResourceName)) (all_containers pod).

(** ** Conversion to claims ([common/util.go], [pod_mutate.go]) *)

Definition ConvertDRAContainerRequest (resourceName : string) (o : Options) (c : Container) : Container * option ResourceInfo :=
  if negb (IsVGPURequiredContainer c) then (c, None)
  else
    let claimName := if op_CombinedResourceClaim o then GenerateK8sSafeResourceName [resourceName]
                     else GenerateK8sSafeResourceName [resourceName; c_Name c] in
    let requestName := if op_CombinedResourceClaim o then GenerateK8sSafeResourceName [c_Name c; VGpuDeviceType]
                       else VGpuDeviceType in
    let info := {| ri_Name := c_Name c; ri_ClaimName := claimName; ri_RequestName := requestName;
                   ri_Resources := <[VGPUNumberResourceName := GetResourceOfContainer c VGPUNumberResourceName]>
                     (<[VGPUCoreResourceName := GetResourceOfContainer c VGPUCoreResourceName]>
                       {[ VGPUMemoryResourceName := GetResourceOfContainer c VGPUMemoryResourceName ]}) |} in
    let c := with_resources c (c_Limits c) (c_Requests c) (c_Claims c ++ [{| cc_Name := claimName; cc_Request := requestName |}]) in
    (fold_left DelResourceOfContainer [VGPUNumberResourceName; VGPUCoreResourceName; VGPUMemoryResourceName] c, Some info).

Definition CombinedResourceClaim (infos : ResourceInfos) : bool :=
  match infos with
  | [] => false
  | [_] => true
  | first :: _ => forallb (λ info, bool_decide (ri_ClaimName first = ri_ClaimName info)) infos
  end.

Inductive admission_error := ErrInvalid (what : string) | ErrBadRequest (what : string) | ErrDenied (what : string).

Definition pod_claim (name : string) : PodResourceClaim :=
  {| prc_Name := name; prc_ResourceClaimName := Some name; prc_ResourceClaimTemplateName := None |}.

Definition TrimSuffix (s suffix : string) : string :=
  if HasSuffix s suffix then str_take (String.length s - String.length suffix) s else s.

(** The [random] argument is what [utilrand.String(5)] returns. *)
Definition dra_resource_name (o : Options) (random : string) (pod : Pod) : string :=
  let generate := ps_GenerateName (p_Rest pod) in
  if bool_decide (generate ≠ "") then TrimSuffix generate "-" +:+ "-" +:+ random
  else if op_CombinedResourceClaim o then p_Name pod +:+ "-" +:+ random
  else p_Name pod.

(** Claims packed into one are listed once. *)
Definition pod_claims (infos : ResourceInfos) : list PodResourceClaim :=
  (pod_claim ∘ ri_ClaimName) <$> (if CombinedResourceClaim infos then take 1 infos else infos).

Definition convert_containers (o : Options) (resourceName : string) (pod : Pod) : Pod * ResourceInfos :=
  let inits := ConvertDRAContainerRequest resourceName o <$> p_InitContainers pod in
  let containers := ConvertDRAContainerRequest resourceName o <$> p_Containers pod in
  let infos := omap snd (inits ++ containers) in
  let r := p_Rest pod in
  (with_spec pod (p_NodeName pod) inits.*1 containers.*1
     (rest_with r (ps_SchedulerName r) (ps_NodeSelector r) (ps_RuntimeClassName r) (ps_ResourceClaims r ++ pod_claims infos)),
   infos).

Definition convertDRARequest (o : Options) (random : string) (pod : Pod) : result admission_error Pod :=
  let '(pod, infos) := convert_containers o (dra_resource_name o random pod) pod in
  if bool_decide (infos = []) then Ok pod
  else
    match ResourceInfos_Encode infos with
    | Ok text => Ok (InsertAnnotation pod DRAOriResAnnotation text)
    | Fail e => Fail (ErrBadRequest e)
    end.

(** ** The handlers *)

Definition windows_message : string := "vgpu-manager currently does not support windows pod".

(** The whole of [MutateCreate], up to the conversion. *)
Definition mutate_defaults (o : Options) (pod : Pod) : result admission_error Pod :=
  let pod := with_containers pod (setDefaultResource <$> p_InitContainers pod) (setDefaultResource <$> p_Containers pod) in
  let isVGPUPod := asks 0 pod in
  let isMultiGPUs := asks 1 pod in
  let pod := CleanupMetadata pod in
  let* pod :=
    if isVGPUPod then
      if bool_decide (p_OS pod = Some Windows) then Fail (ErrInvalid windows_message)
      else Ok (setDefaultRuntimeClassName (setDefaultDeviceSchedulerPolicy
                (setDefaultNodeSchedulerPolicy (setDefaultSchedulerName pod o) o) o) o)
    else Ok (cleanupInvalidSchedulerAnnotation pod) in
  let pod := if isMultiGPUs then setDefaultDeviceTopologyMode pod o else pod in
  Ok (if isVGPUPod || HasDRARequests pod || HasExtendedResource pod then fixSpecifiedNodeName pod else pod).

Definition MutateCreate (o : Options) (random : string) (raw : Pod) : result admission_error Pod :=
  let* pod := mutate_defaults o raw in
  if op_DefaultConvertToDRA o && asks 0 pod then convertDRARequest o random (CleanupDRAMetadata pod) else Ok pod.

Section update.
Context `{ClaimApi}.

(** The error, and the claim written. *)
Definition updateResourceClaimOwner (pod : Pod) (claim : string) : option string * list string :=
  match get_claim_controller (p_Namespace pod) claim with
  | Fail ClaimNotFound => (None, [])
  | Fail (ClaimError e) => (Some e, [])
  | Ok true => (None, [])
  | Ok false =>
      match set_controller pod claim with
      | Some e => (Some e, [])
      | None => match update_claim (p_Namespace pod) claim with Some e => (Some e, []) | None => (None, [claim]) end
      end
  end.

Definition references (pod : Pod) (claim : string) : bool :=
  existsb (λ c, bool_decide (prc_ResourceClaimName c = Some claim)) (ps_ResourceClaims (p_Rest pod)).

Definition updateCombinedResourceClaim (pod : Pod) (info : ResourceInfo) (dryRun : bool)
  : result admission_error (Pod * list string) :=
  let '(err, written) :=
    if references pod (ri_ClaimName info) && negb dryRun then updateResourceClaimOwner pod (ri_ClaimName info) else (None, []) in
  match err with
  | Some e => Fail (ErrDenied e)
  | None => Ok (DeleteAnnotation pod DRAOriResAnnotation, written)
  end.

(** The infos whose claim could not be taken over stay recorded. *)
Definition updateMultiResourceClaims (pod : Pod) (infos : ResourceInfos) (dryRun : bool)
  : result admission_error (Pod * list string) :=
  let outcomes := (λ info, (info, if references pod (ri_ClaimName info) && negb dryRun
                                  then updateResourceClaimOwner pod (ri_ClaimName info) else (None, []))) <$> infos in
  let left := omap (λ '(info, (err, _)), (λ _, info) <$> err) outcomes in
  let written := outcomes ≫= λ '(_, (_, w)), w in
  if bool_decide (left = []) then Ok (DeleteAnnotation pod DRAOriResAnnotation, written)
  else
    match ResourceInfos_Encode left with
    | Ok text => Ok (InsertAnnotation pod DRAOriResAnnotation text, written)
    | Fail e => Fail (ErrBadRequest e)
    end.

Definition updateResourceClaims (pod : Pod) (dryRun : bool) : result admission_error (Pod * list string) :=
  let val := annotation pod DRAOriResAnnotation in
  if bool_decide (val = "") then Ok (pod, [])
  else
    match ResourceInfos_Decode val with
    | Fail _ => Ok (pod, [])
    | Ok [] => Ok (pod, [])
    | Ok (info :: infos) =>
        if CombinedResourceClaim (info :: infos) then updateCombinedResourceClaim pod info dryRun
        else updateMultiResourceClaims pod (info :: infos) dryRun
    end.

Definition MutateUpdate (o : Options) (pod : Pod) (dryRun : bool) : result admission_error (Pod * list string) :=
  if op_DefaultConvertToDRA o then updateResourceClaims pod dryRun else Ok (pod, []).

Inductive Operation := OpCreate | OpUpdate | OpOther.

(** The decoded request to the patched pod; anything else is let through. *)
Definition mutateHandle_Handle (o : Options) (random : string) (op : Operation) (dryRun : bool) (pod : Pod)
  : result admission_error (Pod * list string) :=
  match op with
  | OpCreate => let* pod := MutateCreate o random pod in Ok (pod, [])
  | OpUpdate => MutateUpdate o pod dryRun
  | OpOther => Ok (pod, [])
  end.
End update.
End admission.
