(* ===== verification/AdmissionSpec.v ===== *)
(** * What admission promises

    The defaults are a normal form reached in one pass ([settled]); an
    admitted pod carries no trace of an earlier allocation; converting the
    vGPU resources to claims moves every request and loses none. *)

From stdpp Require Import base list gmap strings.
From Stdlib Require Import ZArith Lia Ascii.
From S2P Require Import Prelude GoMap GoSort GoStrings GoFmt GoTime Kube Claims DnsName Footprint Device NodeInfo Request.
From S2P Require Import Admission.

Open Scope Z_scope.

Lemma pod_eta p : with_spec p (p_NodeName p) (p_InitContainers p) (p_Containers p) (p_Rest p) = p.
Proof. by destruct p. Qed.

Lemma rest_eta r : rest_with r (ps_SchedulerName r) (ps_NodeSelector r) (ps_RuntimeClassName r) (ps_ResourceClaims r) = r.
Proof. by destruct r. Qed.

Lemma DeleteAnnotation_id p k : p_Annotations p !! k = None → DeleteAnnotation p k = p.
Proof. intros Hk. destruct p. unfold DeleteAnnotation, with_metadata. simpl in *. by rewrite delete_id. Qed.

Lemma DeleteLabel_id p k : p_Labels p !! k = None → DeleteLabel p k = p.
Proof. intros Hk. destruct p. unfold DeleteLabel, with_metadata. simpl in *. by rewrite delete_id. Qed.

Lemma fold_id {A B} (f : A → B → A) l x : Forall (λ k, f x k = x) l → fold_left f l x = x.
Proof. induction 1 as [|k l Hk Hl IH]; [done|]. simpl. by rewrite Hk. Qed.

Section spec.
Context `{Env} `{PodHelpers} `{ResourceInfosCodec}.

(** ** One container *)

(** Something is asked for exactly when a number is, and then cores or memory. *)
Record complete (c : Container) : Prop := {
  cm_orphan : GetResourceOfContainer c VGPUNumberResourceName = 0 →
    GetResourceOfContainer c VGPUCoreResourceName ≤ 0 ∧ GetResourceOfContainer c VGPUMemoryResourceName ≤ 0;
  cm_share : 0 < GetResourceOfContainer c VGPUNumberResourceName →
    GetResourceOfContainer c VGPUCoreResourceName ≠ 0 ∨ GetResourceOfContainer c VGPUMemoryResourceName ≠ 0
}.

Lemma limit_insert c limits k k' v :
  GetResourceOfContainer (with_resources c (<[k := v]> limits) (c_Requests c) (c_Claims c)) k'
  = if decide (k = k') then v else default 0 (limits !! k').
Proof. unfold GetResourceOfContainer. simpl. rewrite lookup_insert. by destruct (decide (k = k')). Qed.

Lemma vgpu_names_ne :
  VGPUNumberResourceName ≠ VGPUCoreResourceName ∧ VGPUNumberResourceName ≠ VGPUMemoryResourceName ∧
  VGPUCoreResourceName ≠ VGPUMemoryResourceName.
Proof. split_and!; by apply key_ne. Qed.

Lemma default_resource c :
  let number := GetResourceOfContainer c VGPUNumberResourceName in
  let cores := GetResourceOfContainer c VGPUCoreResourceName in
  let memory := GetResourceOfContainer c VGPUMemoryResourceName in
  let number' := if decide (number = 0 ∧ (0 < cores ∨ 0 < memory)) then 1 else number in
  GetResourceOfContainer (setDefaultResource c) VGPUNumberResourceName = number' ∧
  GetResourceOfContainer (setDefaultResource c) VGPUCoreResourceName
    = (if decide (0 < number' ∧ cores = 0 ∧ memory = 0) then HundredCore else cores) ∧
  GetResourceOfContainer (setDefaultResource c) VGPUMemoryResourceName = memory.
Proof.
  destruct vgpu_names_ne as (Hnc & Hnm & Hcm). cbv zeta. unfold setDefaultResource.
  set (n := GetResourceOfContainer c VGPUNumberResourceName). set (k := GetResourceOfContainer c VGPUCoreResourceName).
  set (m := GetResourceOfContainer c VGPUMemoryResourceName).
  assert (default 0 (c_Limits c !! VGPUNumberResourceName) = n) as En by done.
  assert (default 0 (c_Limits c !! VGPUCoreResourceName) = k) as Ek by done.
  assert (default 0 (c_Limits c !! VGPUMemoryResourceName) = m) as Em by done. clearbody n k m.
  destruct (decide (n = 0 ∧ (0 < k ∨ 0 < m))) as [Ho|Ho].
  - rewrite (bool_decide_eq_true_2 (n = 0)) by tauto.
    replace (bool_decide (0 < k) || bool_decide (0 < m)) with true
      by (symmetry; apply orb_true_iff; rewrite !bool_decide_eq_true; tauto). simpl andb.
    rewrite (decide_False (P := 0 < 1 ∧ _ ∧ _)) by lia.
    replace (bool_decide (k = 0) && bool_decide (m = 0)) with false
      by (symmetry; rewrite !andb_false_iff, !bool_decide_eq_false; lia).
    rewrite !limit_insert. by repeat first [rewrite decide_True by done | rewrite decide_False by congruence].
  - replace (bool_decide (n = 0) && (bool_decide (0 < k) || bool_decide (0 < m))) with false
      by (symmetry; rewrite andb_false_iff, orb_false_iff, !bool_decide_eq_false; lia).
    destruct (decide (0 < n ∧ k = 0 ∧ m = 0)) as [Hs|Hs].
    + replace (bool_decide (0 < n) && bool_decide (k = 0) && bool_decide (m = 0)) with true
        by (symmetry; rewrite !andb_true_iff, !bool_decide_eq_true; tauto).
      rewrite !limit_insert. by repeat first [rewrite decide_True by done | rewrite decide_False by congruence].
    + replace (bool_decide (0 < n) && bool_decide (k = 0) && bool_decide (m = 0)) with false
        by (symmetry; rewrite !andb_false_iff, !bool_decide_eq_false; lia).
      unfold GetResourceOfContainer. simpl. by rewrite En, Ek, Em.
Qed.

Lemma default_complete c : complete (setDefaultResource c).
Proof.
  destruct (default_resource c) as (En & Ek & Em). split; rewrite En, Ek, Em; clear.
  - repeat case_decide; unfold HundredCore; lia.
  - repeat case_decide; unfold HundredCore; lia.
Qed.

Lemma complete_default c : complete c → setDefaultResource c = c.
Proof.
  intros [Ho Hs]. unfold setDefaultResource.
  set (n := GetResourceOfContainer c VGPUNumberResourceName) in *. set (k := GetResourceOfContainer c VGPUCoreResourceName) in *.
  set (m := GetResourceOfContainer c VGPUMemoryResourceName) in *.
  replace (bool_decide (n = 0) && (bool_decide (0 < k) || bool_decide (0 < m))) with false
    by (symmetry; rewrite andb_false_iff, orb_false_iff, !bool_decide_eq_false; lia).
  replace (bool_decide (0 < n) && bool_decide (k = 0) && bool_decide (m = 0)) with false
    by (symmetry; rewrite !andb_false_iff, !bool_decide_eq_false; lia). by destruct c.
Qed.

(** ** The whole pod *)

Definition choice_made (pod : Pod) (key value : string) (allowed : list string) : Prop :=
  is_Some (HasAnnotation pod key) ∨ ToLower value ∉ allowed.

(** The shape the defaults bring every pod to. *)
Record settled (o : Options) (pod : Pod) : Prop := {
  se_complete : Forall complete (all_containers pod);
  se_labels : Forall (λ k, p_Labels pod !! k = None) removedLabels;
  se_annotations : Forall (λ k, p_Annotations pod !! k = None) removedAnnotations;
  se_os : asks 0 pod = true → p_OS pod ≠ Some Windows;
  se_scheduler : asks 0 pod = true → op_SchedulerName o = "" ∨
    ps_SchedulerName (p_Rest pod) = op_SchedulerName o ∨
    (ps_SchedulerName (p_Rest pod) ≠ "" ∧ ps_SchedulerName (p_Rest pod) ≠ DefaultSchedulerName);
  se_node : asks 0 pod = true →
    choice_made pod NodeSchedulerPolicyAnnotation (op_DefaultNodePolicy o) [BinpackPolicy; SpreadPolicy];
  se_device : asks 0 pod = true →
    choice_made pod DeviceSchedulerPolicyAnnotation (op_DefaultDevicePolicy o) [BinpackPolicy; SpreadPolicy];
  se_runtime : asks 0 pod = true → op_DefaultRuntimeClass o = "" ∨ default "" (ps_RuntimeClassName (p_Rest pod)) ≠ "";
  se_plain : asks 0 pod = false → Forall (λ k, p_Annotations pod !! k = None)
    [NodeSchedulerPolicyAnnotation; DeviceSchedulerPolicyAnnotation; MemorySchedulerPolicyAnnotation];
  se_topology : asks 1 pod = true → choice_made pod DeviceTopologyModeAnnotation (op_DefaultTopologyMode o)
    [NUMATopology; NUMATopologyStrict; LinkTopology; LinkTopologyStrict; PCIeTopology; PCIeTopologyStrict];
  se_unpinned : asks 0 pod || HasDRARequests pod || HasExtendedResource pod = true → p_NodeName pod = ""
}.

Lemma policy_fixed pod key value : choice_made pod key value [BinpackPolicy; SpreadPolicy] → setDefaultPolicy pod key value = pod.
Proof.
  unfold choice_made, setDefaultPolicy. destruct (HasAnnotation pod key); [done|]. intros [[? [=]]|Hn].
  rewrite !bool_decide_eq_false_2 by set_solver. done.
Qed.

Lemma policy_chosen pod key value : choice_made (setDefaultPolicy pod key value) key value [BinpackPolicy; SpreadPolicy].
Proof.
  unfold choice_made, setDefaultPolicy. destruct (HasAnnotation pod key) as [v|] eqn:E; [left; by eexists|].
  destruct (_ || _) eqn:Eo; [|right; apply orb_false_iff in Eo; rewrite !bool_decide_eq_false in Eo; set_solver].
  left. unfold HasAnnotation. simpl. rewrite lookup_insert_eq. by eexists.
Qed.

(** A pod the defaults change in nothing but the annotations [keys], the node and the rest of the spec. *)
Record frame (keys : list string) (p p' : Pod) : Prop := {
  fr_inits : p_InitContainers p' = p_InitContainers p;
  fr_containers : p_Containers p' = p_Containers p;
  fr_os : p_OS p' = p_OS p;
  fr_labels : p_Labels p' = p_Labels p;
  fr_claims : ps_ResourceClaims (p_Rest p') = ps_ResourceClaims (p_Rest p);
  fr_annotations k : k ∉ keys → p_Annotations p' !! k = p_Annotations p !! k
}.

Lemma frame_refl p : frame [] p p.
Proof. by split. Qed.

Lemma frame_trans k1 k2 p1 p2 p3 : frame k1 p1 p2 → frame k2 p2 p3 → frame (k1 ++ k2) p1 p3.
Proof.
  intros [A1 A2 A3 A4 A5 A6] [B1 B2 B3 B4 B5 B6]. split; [congruence..|]. intros k Hk. rewrite B6, A6; set_solver.
Qed.

Lemma frame_asks keys p p' k : frame keys p p' → asks k p' = asks k p.
Proof. intros [A1 A2 _ _ _ _]. unfold asks, all_containers. by rewrite A1, A2. Qed.

Lemma frame_insert p k v : frame [k] p (InsertAnnotation p k v).
Proof. split; [done..|]. intros k' Hk. simpl. rewrite lookup_insert_ne; [done|set_solver]. Qed.

Lemma frame_weaken keys keys' p p' : keys ⊆ keys' → frame keys p p' → frame keys' p p'.
Proof. intros Hs [A1 A2 A3 A4 A5 A6]. split; [done..|]. intros k Hk. apply A6. set_solver. Qed.

Lemma frame_policy p key value : frame [key] p (setDefaultPolicy p key value).
Proof.
  unfold setDefaultPolicy. destruct (HasAnnotation p key); [by split|].
  destruct (_ || _); [apply frame_insert|by split].
Qed.

Lemma frame_topology p o : frame [DeviceTopologyModeAnnotation] p (setDefaultDeviceTopologyMode p o).
Proof.
  unfold setDefaultDeviceTopologyMode. destruct (HasAnnotation p _); [by split|].
  destruct (bool_decide _); [apply frame_insert|by split].
Qed.

Lemma frame_scheduler p o : frame [] p (setDefaultSchedulerName p o).
Proof. unfold setDefaultSchedulerName. destruct (_ && _); by split. Qed.
Lemma frame_runtime p o : frame [] p (setDefaultRuntimeClassName p o).
Proof. unfold setDefaultRuntimeClassName. destruct (_ && _); by split. Qed.
Lemma frame_fix p : frame [] p (fixSpecifiedNodeName p).
Proof. unfold fixSpecifiedNodeName. destruct (bool_decide _); by split. Qed.

Lemma frame_deletes keys p : frame keys p (fold_left DeleteAnnotation keys p).
Proof.
  revert p. induction keys as [|k keys IH]; intros p; [by split|]. simpl.
  apply (frame_trans [k] keys _ (DeleteAnnotation p k)); [|apply IH]. split; [done..|].
  intros k' Hk. simpl. rewrite lookup_delete_ne; [done|set_solver].
Qed.

Lemma deletes_absent keys p : Forall (λ k, p_Annotations (fold_left DeleteAnnotation keys p) !! k = None) keys.
Proof.
  revert p. induction keys as [|k keys IH]; intros p; [done|]. simpl. constructor; [|apply IH].
  destruct (decide (k ∈ keys)) as [Hin|Hin]; [specialize (IH (DeleteAnnotation p k)); rewrite Forall_forall in IH; by apply IH|].
  rewrite (fr_annotations _ _ _ (frame_deletes keys (DeleteAnnotation p k))) by done. simpl. apply lookup_delete_eq.
Qed.

Lemma labels_stay_absent keys k p : p_Labels p !! k = None → p_Labels (fold_left DeleteLabel keys p) !! k = None.
Proof.
  revert p. induction keys as [|k' keys IH]; intros p Hk; [done|]. simpl. apply IH. simpl. by apply lookup_delete_None; right.
Qed.

Lemma labels_absent keys p : Forall (λ k, p_Labels (fold_left DeleteLabel keys p) !! k = None) keys.
Proof.
  revert p. induction keys as [|k keys IH]; intros p; [done|]. simpl. constructor; [|apply IH].
  apply labels_stay_absent. simpl. apply lookup_delete_eq.
Qed.

(** Removing labels changes nothing else. *)
Lemma labels_frame keys p :
  let p' := fold_left DeleteLabel keys p in
  p_InitContainers p' = p_InitContainers p ∧ p_Containers p' = p_Containers p ∧ p_OS p' = p_OS p.
Proof. revert p. induction keys as [|k keys IH]; intros p; [done|]. simpl. destruct (IH (DeleteLabel p k)) as (-> & -> & ->). done. Qed.

Lemma settled_fixed o pod : settled o pod → mutate_defaults o pod = Ok pod.
Proof.
  intros [Hc Hl Ha Hos Hsch Hn Hd Hr Hp Ht Hu]. apply Forall_app in Hc as [Hci Hcc]. unfold mutate_defaults.
  assert (with_containers pod (setDefaultResource <$> p_InitContainers pod) (setDefaultResource <$> p_Containers pod) = pod) as ->.
  { rewrite !(Forall_fmap_id setDefaultResource) by (eapply Forall_impl; [eassumption|]; apply complete_default). apply pod_eta. }
  assert (CleanupMetadata pod = pod) as ->.
  { unfold CleanupMetadata. rewrite (fold_id DeleteLabel), (fold_id DeleteAnnotation); [done|..];
      (eapply Forall_impl; [eassumption|]); [apply DeleteAnnotation_id|apply DeleteLabel_id]. }
  cbv zeta. assert ((if asks 0 pod then _ else Ok (cleanupInvalidSchedulerAnnotation pod)) = Ok pod) as ->.
  { destruct (asks 0 pod) eqn:Easks.
    - rewrite bool_decide_eq_false_2 by auto. f_equal.
      assert (setDefaultSchedulerName pod o = pod) as ->.
      { unfold setDefaultSchedulerName. destruct (_ && _) eqn:E; [|done]. apply andb_true_iff in E as [E1 E2].
        apply bool_decide_eq_true in E1. apply orb_true_iff in E2. rewrite !bool_decide_eq_true in E2.
        destruct (Hsch eq_refl) as [?|[Hs|[??]]]; [done| |by destruct E2].
        rewrite <- Hs, rest_eta. apply pod_eta. }
      unfold setDefaultNodeSchedulerPolicy, setDefaultDeviceSchedulerPolicy. rewrite (policy_fixed pod _ _ (Hn eq_refl)).
      rewrite (policy_fixed pod _ _ (Hd eq_refl)). unfold setDefaultRuntimeClassName.
      destruct (_ && _) eqn:E; [|done]. apply andb_true_iff in E as [E1 E2]. apply bool_decide_eq_true in E1, E2.
      by destruct (Hr eq_refl).
    - f_equal. apply fold_id. eapply Forall_impl; [apply Hp; done|]. apply DeleteAnnotation_id. }
  cbn [rbind]. assert ((if asks 1 pod then setDefaultDeviceTopologyMode pod o else pod) = pod) as ->.
  { destruct (asks 1 pod); [|done]. unfold setDefaultDeviceTopologyMode. destruct (Ht eq_refl) as [[v Hv]|Hv]; [by rewrite Hv|].
    destruct (HasAnnotation pod _); [done|]. by rewrite bool_decide_eq_false_2. }
  f_equal. destruct (_ || _) eqn:E; [|done]. unfold fixSpecifiedNodeName. by rewrite bool_decide_eq_true_2 by auto.
Qed.

Lemma choice_frame keys p p' key value allowed :
  frame keys p p' → key ∉ keys → choice_made p key value allowed → choice_made p' key value allowed.
Proof. intros Hf Hk. unfold choice_made, HasAnnotation. by rewrite (fr_annotations _ _ _ Hf) by done. Qed.

Lemma topology_chosen pod o :
  choice_made (setDefaultDeviceTopologyMode pod o) DeviceTopologyModeAnnotation (op_DefaultTopologyMode o)
    [NUMATopology; NUMATopologyStrict; LinkTopology; LinkTopologyStrict; PCIeTopology; PCIeTopologyStrict].
Proof.
  unfold choice_made, setDefaultDeviceTopologyMode. destruct (HasAnnotation pod _) as [v|] eqn:E; [left; by eexists|].
  case_bool_decide; [|by right]. left. unfold HasAnnotation. simpl. rewrite lookup_insert_eq. by eexists.
Qed.

Lemma policy_rest p key value : p_Rest (setDefaultPolicy p key value) = p_Rest p ∧ p_NodeName (setDefaultPolicy p key value) = p_NodeName p.
Proof. unfold setDefaultPolicy. destruct (HasAnnotation p key); [done|]. by destruct (_ || _). Qed.

Lemma topology_rest p o : p_Rest (setDefaultDeviceTopologyMode p o) = p_Rest p.
Proof. unfold setDefaultDeviceTopologyMode. destruct (HasAnnotation p _); [done|]. by destruct (bool_decide _). Qed.

Lemma fix_rest p :
  ps_SchedulerName (p_Rest (fixSpecifiedNodeName p)) = ps_SchedulerName (p_Rest p) ∧
  ps_RuntimeClassName (p_Rest (fixSpecifiedNodeName p)) = ps_RuntimeClassName (p_Rest p) ∧
  p_NodeName (fixSpecifiedNodeName p) = "".
Proof. unfold fixSpecifiedNodeName. case_bool_decide; done. Qed.

(** The defaults of a pod that asks for vGPUs. *)
Definition vgpu_defaults (o : Options) (p : Pod) : Pod :=
  setDefaultRuntimeClassName (setDefaultDeviceSchedulerPolicy (setDefaultNodeSchedulerPolicy (setDefaultSchedulerName p o) o) o) o.

Lemma policy_keys_ne : NodeSchedulerPolicyAnnotation ≠ DeviceSchedulerPolicyAnnotation ∧
  NodeSchedulerPolicyAnnotation ≠ DeviceTopologyModeAnnotation ∧ DeviceSchedulerPolicyAnnotation ≠ DeviceTopologyModeAnnotation ∧
  MemorySchedulerPolicyAnnotation ≠ DeviceTopologyModeAnnotation.
Proof. split_and!; by apply key_ne. Qed.

Lemma vgpu_defaults_spec o p :
  frame [NodeSchedulerPolicyAnnotation; DeviceSchedulerPolicyAnnotation] p (vgpu_defaults o p) ∧
  choice_made (vgpu_defaults o p) NodeSchedulerPolicyAnnotation (op_DefaultNodePolicy o) [BinpackPolicy; SpreadPolicy] ∧
  choice_made (vgpu_defaults o p) DeviceSchedulerPolicyAnnotation (op_DefaultDevicePolicy o) [BinpackPolicy; SpreadPolicy] ∧
  (op_SchedulerName o = "" ∨ ps_SchedulerName (p_Rest (vgpu_defaults o p)) = op_SchedulerName o ∨
   (ps_SchedulerName (p_Rest (vgpu_defaults o p)) ≠ "" ∧ ps_SchedulerName (p_Rest (vgpu_defaults o p)) ≠ DefaultSchedulerName)) ∧
  (op_DefaultRuntimeClass o = "" ∨ default "" (ps_RuntimeClassName (p_Rest (vgpu_defaults o p))) ≠ "").
Proof.
  destruct policy_keys_ne as (Hne & _). unfold vgpu_defaults. set (p1 := setDefaultSchedulerName p o).
  set (p2 := setDefaultNodeSchedulerPolicy p1 o). set (p3 := setDefaultDeviceSchedulerPolicy p2 o).
  pose proof (frame_policy p1 NodeSchedulerPolicyAnnotation (op_DefaultNodePolicy o)) as F2.
  pose proof (frame_policy p2 DeviceSchedulerPolicyAnnotation (op_DefaultDevicePolicy o)) as F3.
  pose proof (frame_runtime p3 o) as F4.
  assert (ps_SchedulerName (p_Rest (setDefaultRuntimeClassName p3 o)) = ps_SchedulerName (p_Rest p1)) as Hs.
  { trans (ps_SchedulerName (p_Rest p3)); [unfold setDefaultRuntimeClassName; by destruct (_ && _)|].
    destruct (policy_rest p2 DeviceSchedulerPolicyAnnotation (op_DefaultDevicePolicy o)) as [E3 _].
    destruct (policy_rest p1 NodeSchedulerPolicyAnnotation (op_DefaultNodePolicy o)) as [E2 _].
    exact (eq_trans (f_equal _ E3) (f_equal _ E2)). }
  split_and!.
  - apply (frame_trans [] _ p p1); [apply frame_scheduler|].
    apply (frame_trans [_] [_] p1 p2); [exact F2|]. apply (frame_trans [_] [] p2 p3); [exact F3|exact F4].
  - eapply choice_frame; [exact F4|set_solver|]. eapply choice_frame; [exact F3|set_solver|apply policy_chosen].
  - eapply choice_frame; [exact F4|set_solver|apply policy_chosen].
  - rewrite Hs. unfold p1, setDefaultSchedulerName. destruct (_ && _) eqn:E; [right; by left|].
    apply andb_false_iff in E as [E|E]; [left; by apply bool_decide_eq_false, dec_stable in E|].
    apply orb_false_iff in E. rewrite !bool_decide_eq_false in E. tauto.
  - unfold setDefaultRuntimeClassName. destruct (_ && _) eqn:E.
    + apply andb_true_iff in E as [E _]. apply bool_decide_eq_true in E. right. exact E.
    + apply andb_false_iff in E. rewrite !bool_decide_eq_false in E. destruct E as [E|E]; [left; by apply dec_stable in E|by right].
Qed.

Lemma removed_not_policy k : k ∈ removedAnnotations →
  k ∉ [NodeSchedulerPolicyAnnotation; DeviceSchedulerPolicyAnnotation; MemorySchedulerPolicyAnnotation; DeviceTopologyModeAnnotation].
Proof.
  intros Hk. apply not_elem_of_cons; split; [|apply not_elem_of_cons; split; [|apply not_elem_of_cons; split;
    [|apply not_elem_of_cons; split; [|apply not_elem_of_nil]]]]; revert k Hk; apply Forall_forall;
    (repeat constructor); by apply key_ne.
Qed.

(** What the clean-up leaves of a pod. *)
Lemma cleanup_spec p :
  all_containers (CleanupMetadata p) = all_containers p ∧ p_OS (CleanupMetadata p) = p_OS p ∧
  Forall (λ k, p_Labels (CleanupMetadata p) !! k = None) removedLabels ∧
  Forall (λ k, p_Annotations (CleanupMetadata p) !! k = None) removedAnnotations.
Proof.
  destruct (labels_frame removedLabels p) as (A & B & C). unfold CleanupMetadata, all_containers.
  destruct (frame_deletes removedAnnotations (fold_left DeleteLabel removedLabels p)) as [A' B' C' D' _ _].
  rewrite A', B', C', D', A, B, C. split_and!; [done|done|apply labels_absent|apply deletes_absent].
Qed.

Lemma defaults_settled o pod pod' : mutate_defaults o pod = Ok pod' → settled o pod'.
Proof.
  unfold mutate_defaults. set (p1 := with_containers _ _ _). set (p2 := CleanupMetadata p1). cbv zeta. intros Hok.
  match type of Hok with rbind ?r _ = _ => destruct r as [p3|e] eqn:E3; [|done] end. cbn [rbind] in Hok.
  set (p4 := if asks 1 p1 then setDefaultDeviceTopologyMode p3 o else p3) in Hok.
  destruct policy_keys_ne as (Hnd & Hnt & Hdt & Hmt).
  assert (Forall complete (all_containers p1)) as Hc by (apply Forall_app; split; apply Forall_fmap, Forall_true; apply default_complete).
  destruct (cleanup_spec p1) as (A1 & _ & Hlab & Hann). fold p2 in A1, Hlab, Hann. rewrite <- A1 in Hc.
  assert (∀ k, asks k p2 = asks k p1) as A2 by (intros k; unfold asks; by rewrite A1).
  assert (frame [NodeSchedulerPolicyAnnotation; DeviceSchedulerPolicyAnnotation; MemorySchedulerPolicyAnnotation] p2 p3) as F3.
  { revert E3. destruct (asks 0 p1); [|intros [= <-]; apply frame_deletes]. case_bool_decide; [done|]. intros [= <-].
    eapply frame_weaken; [|apply vgpu_defaults_spec]. set_solver. }
  assert (frame [DeviceTopologyModeAnnotation] p3 p4) as F4 by (unfold p4; destruct (asks 1 p1); [apply frame_topology|by split]).
  assert (frame [] p4 pod') as F5 by (injection Hok as <-; destruct (_ || _); [apply frame_fix|apply frame_refl]).
  pose proof (frame_trans _ _ _ _ _ F4 F5) as F45. pose proof (frame_trans _ _ _ _ _ F3 F45) as F. simpl in F.
  assert (∀ k, asks k pod' = asks k p1) as A by (intros k; rewrite (frame_asks _ _ _ k F); apply A2).
  assert (asks 0 p1 = true → p_OS p2 ≠ Some Windows ∧ p3 = vgpu_defaults o p2) as Hv.
  { intros Hask. rewrite Hask in E3. revert E3. case_bool_decide; [done|]. by intros [= <-]. }
  assert (p_Rest p4 = p_Rest p3) as R4 by (unfold p4; destruct (asks 1 p1); [apply topology_rest|done]).
  assert (ps_SchedulerName (p_Rest pod') = ps_SchedulerName (p_Rest p3) ∧
          ps_RuntimeClassName (p_Rest pod') = ps_RuntimeClassName (p_Rest p3)) as [R5 R5'].
  { injection Hok as <-. rewrite <- R4. destruct (_ || _); [|done]. destruct (fix_rest p4) as (-> & -> & _). done. }
  split.
  - unfold all_containers. by rewrite (fr_inits _ _ _ F), (fr_containers _ _ _ F).
  - by rewrite (fr_labels _ _ _ F).
  - rewrite Forall_forall in *. intros k Hk. rewrite (fr_annotations _ _ _ F); [by apply Hann|]. apply (removed_not_policy k Hk).
  - rewrite A, (fr_os _ _ _ F). intros Hask. by apply Hv.
  - rewrite A, R5. intros Hask. destruct (Hv Hask) as [_ ->]. apply vgpu_defaults_spec.
  - rewrite A. intros Hask. destruct (Hv Hask) as [_ ->]. eapply choice_frame; [exact F45|set_solver|]. apply vgpu_defaults_spec.
  - rewrite A. intros Hask. destruct (Hv Hask) as [_ ->]. eapply choice_frame; [exact F45|set_solver|]. apply vgpu_defaults_spec.
  - rewrite A, R5'. intros Hask. destruct (Hv Hask) as [_ ->]. apply vgpu_defaults_spec.
  - rewrite A. intros Hask. rewrite Hask in E3. injection E3 as <-.
    pose proof (deletes_absent [NodeSchedulerPolicyAnnotation; DeviceSchedulerPolicyAnnotation; MemorySchedulerPolicyAnnotation] p2) as Hd.
    rewrite Forall_forall in *. intros k Hk. rewrite (fr_annotations _ _ _ F45); [by apply Hd|]. set_solver.
  - rewrite A. intros Hask. eapply choice_frame; [exact F5|set_solver|]. unfold p4. rewrite Hask. apply topology_chosen.
  - rewrite A. intros Hcond. injection Hok as <-. destruct (_ || _) eqn:E; [apply fix_rest|]. by rewrite E in Hcond.
Qed.

(** Of the containers the defaults change the resources only. *)
Lemma defaults_containers o pod pod' : mutate_defaults o pod = Ok pod' → all_containers pod' = setDefaultResource <$> all_containers pod.
Proof.
  unfold mutate_defaults. set (p1 := with_containers _ _ _). cbv zeta. intros Hok.
  match type of Hok with rbind ?r _ = _ => destruct r as [p3|e] eqn:E3; [|done] end. cbn [rbind] in Hok.
  trans (all_containers p1); [|unfold all_containers; by rewrite fmap_app]. destruct (cleanup_spec p1) as [<- _].
  assert (∃ keys, frame keys (CleanupMetadata p1) p3) as [keys F].
  { revert E3. destruct (asks 0 p1); [|intros [= <-]; eexists; apply frame_deletes]. case_bool_decide; [done|].
    intros [= <-]. eexists. apply vgpu_defaults_spec. }
  assert (frame [DeviceTopologyModeAnnotation] p3 (if asks 1 p1 then setDefaultDeviceTopologyMode p3 o else p3)) as F4
    by (destruct (asks 1 p1); [apply frame_topology|by split]).
  assert (frame [] (if asks 1 p1 then setDefaultDeviceTopologyMode p3 o else p3) pod') as F5
    by (injection Hok as <-; destruct (_ || _); [apply frame_fix|apply frame_refl]).
  pose proof (frame_trans _ _ _ _ _ F (frame_trans _ _ _ _ _ F4 F5)) as G.
  unfold all_containers. by rewrite (fr_inits _ _ _ G), (fr_containers _ _ _ G).
Qed.

(** ** Admitted pods hold nothing *)

Lemma unallocated pod : Forall (λ k, p_Annotations pod !! k = None) removedAnnotations → GetPodDeviceClaim pod = [].
Proof.
  intros Ha. unfold GetPodDeviceClaim, annotation, HasAnnotation.
  assert (p_Annotations pod !! PodVGPURealAllocAnnotation = None ∧ p_Annotations pod !! PodVGPUPreAllocAnnotation = None) as [-> ->]
    by (rewrite Forall_forall in Ha; split; apply Ha; set_solver). done.
Qed.

(** The record of the conversion is none of the keys of an allocation: the last letters differ. *)
Lemma original_key_ne k : k ∈ removedAnnotations → DRAOriResAnnotation ≠ k.
Proof.
  intros Hk E. assert (str_last k = Some "s"%char) as Hl by (rewrite <- E; done). revert Hl. revert k Hk E.
  assert (Forall (λ k, str_last k ≠ Some "s"%char) removedAnnotations) as Hall.
  { unfold removedAnnotations, PodVGPUPreAllocAnnotation, PodVGPURealAllocAnnotation, PodPredicateNodeAnnotation, PodPredicateTimeAnnotation.
    repeat (apply Forall_cons; split); [rewrite str_last_app; [discriminate|done]..|done]. }
  rewrite Forall_forall in Hall. intros k Hk _. by apply Hall.
Qed.

Lemma convert_annotations o random pod pod' k :
  convertDRARequest o random pod = Ok pod' → k ≠ DRAOriResAnnotation → p_Annotations pod' !! k = p_Annotations pod !! k.
Proof.
  unfold convertDRARequest. destruct (convert_containers o _ pod) as [pod1 infos] eqn:E.
  assert (p_Annotations pod1 = p_Annotations pod) as Ha by by injection E as <- _.
  case_bool_decide; [intros [= <-] _; by rewrite Ha|]. destruct (ResourceInfos_Encode _); [|done]. intros [= <-] Hk.
  simpl. by rewrite lookup_insert_ne, Ha.
Qed.

Lemma admitted_clean o random raw pod :
  MutateCreate o random raw = Ok pod → Forall (λ k, p_Annotations pod !! k = None) removedAnnotations.
Proof.
  unfold MutateCreate. destruct (mutate_defaults o raw) as [p|e] eqn:E; [|done]. cbn [rbind]. apply defaults_settled in E as [_ _ Ha _ _ _ _ _ _ _ _].
  destruct (_ && _); [|by intros [= <-]]. intros Hc. rewrite Forall_forall in *. intros k Hk.
  rewrite (convert_annotations _ _ _ _ _ Hc) by (apply not_eq_sym; by apply original_key_ne).
  unfold CleanupDRAMetadata. rewrite (fr_annotations _ _ _ (frame_deletes _ _)); [by apply Ha|].
  intros Hin%list_elem_of_singleton. by apply (original_key_ne k).
Qed.

(** C11 Admission: the defaults bring every pod to a normal form in one pass (a
    container asks for vGPUs exactly when it has a number, and then for cores
    or memory; policies, topology, scheduler and runtime class are set where a
    default exists; a pinned node is released), a second pass changes
    nothing, and with or without conversion no allocation metadata survives,
    so an admitted pod holds no device whatever annotations it came with. *)
Theorem MutateCreate_settles o random raw pod :
  MutateCreate o random raw = Ok pod →
  GetPodDeviceClaim pod = [] ∧
  (op_DefaultConvertToDRA o = false → settled o pod ∧ MutateCreate o random pod = Ok pod).
Proof.
  intros Hm. split; [by eapply unallocated, admitted_clean|]. intros Hc. unfold MutateCreate in *. rewrite Hc in *.
  destruct (mutate_defaults o raw) as [p|e] eqn:E; [|done]. injection Hm as <-. apply defaults_settled in E.
  split; [done|]. by rewrite settled_fixed.
Qed.

(** ** Conversion to claims *)

Definition vgpu_resources : list string := [VGPUNumberResourceName; VGPUCoreResourceName; VGPUMemoryResourceName].

(** What one container becomes, and what is recorded of it. *)
Record converted (c c' : Container) (info : ResourceInfo) : Prop := {
  cv_name : c_Name c' = c_Name c ∧ ri_Name info = c_Name c;
  cv_claims : c_Claims c' = c_Claims c ++ [{| cc_Name := ri_ClaimName info; cc_Request := ri_RequestName info |}];
  cv_amounts r : r ∈ vgpu_resources → ri_Resources info !! r = Some (GetResourceOfContainer c r);
  cv_gone r : r ∈ vgpu_resources → c_Limits c' !! r = None ∧ c_Requests c' !! r = None;
  cv_others r : r ∉ vgpu_resources → c_Limits c' !! r = c_Limits c !! r ∧ c_Requests c' !! r = c_Requests c !! r
}.

Lemma del_resources keys c :
  let c' := fold_left DelResourceOfContainer keys c in
  c_Name c' = c_Name c ∧ c_Claims c' = c_Claims c ∧
  (∀ r, r ∈ keys → c_Limits c' !! r = None ∧ c_Requests c' !! r = None) ∧
  (∀ r, r ∉ keys → c_Limits c' !! r = c_Limits c !! r ∧ c_Requests c' !! r = c_Requests c !! r).
Proof.
  revert c. induction keys as [|k keys IH]; intros c; simpl; [split_and!; [done|done|by intros r ?%elem_of_nil|done]|].
  destruct (IH (DelResourceOfContainer c k)) as (-> & -> & Hin & Hout). split_and!; [done|done|..].
  - intros r Hr. destruct (decide (r ∈ keys)); [by apply Hin|]. destruct (Hout r) as [-> ->]; [done|]. simpl.
    assert (r = k) as -> by set_solver. by rewrite !lookup_delete_eq.
  - intros r Hr. destruct (Hout r) as [-> ->]; [set_solver|]. simpl. rewrite !lookup_delete_ne by set_solver. done.
Qed.

Lemma convert_container name o c :
  match ConvertDRAContainerRequest name o c with
  | (c', Some info) => IsVGPURequiredContainer c = true ∧ converted c c' info
  | (c', None) => IsVGPURequiredContainer c = false ∧ c' = c
  end.
Proof.
  unfold ConvertDRAContainerRequest. destruct (IsVGPURequiredContainer c) eqn:E; [|done]. cbn [negb]. cbv zeta.
  split; [done|]. destruct (vgpu_names_ne) as (Hnc & Hnm & Hcm).
  match goal with |- converted _ (fold_left _ _ ?c1) _ => destruct (del_resources vgpu_resources c1) as (Hn & Hcl & Hin & Hout) end.
  split; [by split|exact Hcl| |exact Hin|exact Hout].
  unfold vgpu_resources. simpl. intros r [->|[->|[->|[]%elem_of_nil]%elem_of_cons]%elem_of_cons]%elem_of_cons.
  - by rewrite lookup_insert_eq.
  - by rewrite lookup_insert_ne, lookup_insert_eq by congruence.
  - by rewrite !lookup_insert_ne, lookup_singleton_eq by congruence.
Qed.

(** The containers and what is recorded of them, in order. *)
Lemma convert_list name o cs :
  let out := ConvertDRAContainerRequest name o <$> cs in
  Forall2 (λ c c', (IsVGPURequiredContainer c = false → c' = c) ∧
                   (IsVGPURequiredContainer c = true → ∃ info, converted c c' info)) cs out.*1 ∧
  Forall2 (λ c info, ∃ c', c' ∈ out.*1 ∧ converted c c' info) (filter (λ c, IsVGPURequiredContainer c = true) cs) (omap snd out).
Proof.
  induction cs as [|c cs [IH1 IH2]]; [by split|]. cbv zeta in *. rewrite fmap_cons, filter_cons. pose proof (convert_container name o c) as Hc.
  destruct (ConvertDRAContainerRequest name o c) as [c' [info|]]; destruct Hc as [Hv Hc]; cbn [omap list_omap fmap list_fmap].
  - rewrite decide_True by done. split.
    + constructor; [|exact IH1]. split; [congruence|by exists info].
    + constructor; [exists c'; split; [by left|done]|]. eapply Forall2_impl; [exact IH2|].
      intros d i (d' & Hd & Hi). exists d'. split; [by right|done].
  - rewrite decide_False by congruence. subst c'. split.
    + constructor; [|exact IH1]. split; [done|congruence].
    + eapply Forall2_impl; [exact IH2|]. intros d i (d' & Hd & Hi). exists d'. split; [by right|done].
Qed.

Lemma combined_same infos info : CombinedResourceClaim infos = true → info ∈ infos →
  ∃ first, take 1 infos = [first] ∧ ri_ClaimName info = ri_ClaimName first.
Proof.
  destruct infos as [|i1 [|i2 infos]]; [done|..]; intros Hc Hin.
  - exists i1. split; [done|]. by apply list_elem_of_singleton in Hin as ->.
  - exists i1. split; [done|]. unfold CombinedResourceClaim in Hc. rewrite forallb_forall in Hc.
    apply list_elem_of_In in Hin. specialize (Hc _ Hin). by apply bool_decide_eq_true in Hc.
Qed.

Lemma claims_listed infos info : info ∈ infos → pod_claim (ri_ClaimName info) ∈ pod_claims infos.
Proof.
  intros Hin. unfold pod_claims. destruct (CombinedResourceClaim infos) eqn:E.
  - destruct (combined_same _ _ E Hin) as (first & -> & ->). by left.
  - by apply (list_elem_of_fmap_2 (pod_claim ∘ ri_ClaimName)).
Qed.

Lemma convert_containers_spec o name pod pod1 infos :
  convert_containers o name pod = (pod1, infos) →
  Forall2 (λ c c', (IsVGPURequiredContainer c = false → c' = c) ∧
                   (IsVGPURequiredContainer c = true → ∃ info, converted c c' info)) (all_containers pod) (all_containers pod1) ∧
  Forall2 (λ c info, references pod1 (ri_ClaimName info) = true ∧ ∃ c', c' ∈ all_containers pod1 ∧ converted c c' info)
    (filter (λ c, IsVGPURequiredContainer c = true) (all_containers pod)) infos.
Proof.
  intros E. destruct (convert_list name o (all_containers pod)) as [Hall Hinfos].
  assert ((ConvertDRAContainerRequest name o <$> all_containers pod).*1 = all_containers pod1) as Eall
    by (injection E as <- _; unfold all_containers; by rewrite !fmap_app).
  assert (omap snd (ConvertDRAContainerRequest name o <$> all_containers pod) = infos) as Einf
    by (injection E as _ <-; unfold all_containers; by rewrite fmap_app).
  rewrite Eall, Einf in *. split.
  - exact Hall.
  - eapply Forall2_impl_r; [exact Hinfos|]. intros c info Hin Hc. split; [|exact Hc].
    unfold references. apply existsb_exists. exists (pod_claim (ri_ClaimName info)). split; [|by apply bool_decide_eq_true].
    apply list_elem_of_In. injection E as <- Ei. simpl. rewrite Ei. apply elem_of_app. right. by apply claims_listed.
Qed.

(** No container asks for vGPUs any more. *)
Lemma converted_none cs cs' :
  Forall2 (λ c c', (IsVGPURequiredContainer c = false → c' = c) ∧
                   (IsVGPURequiredContainer c = true → ∃ info, converted c c' info)) cs cs' →
  Forall (λ c', IsVGPURequiredContainer c' = false) cs'.
Proof.
  induction 1 as [|c c' cs cs' [Hsame Hconv] _ IH]; [done|]. constructor; [|done].
  destruct (IsVGPURequiredContainer c) eqn:E; [|by rewrite Hsame].
  destruct (Hconv eq_refl) as [info Hc]. destruct (cv_gone _ _ _ Hc VGPUNumberResourceName) as [Hn _]; [set_solver|].
  unfold IsVGPURequiredContainer, GetResourceOfContainer. by rewrite Hn.
Qed.

(** What is recorded of a converted pod, and where it can be read back. *)
Lemma convert_infos o random pod pod' :
  convertDRARequest o random pod = Ok pod' →
  ∃ infos, (infos ≠ [] → annotation pod' DRAOriResAnnotation ≠ "" ∧
                         ResourceInfos_Decode (annotation pod' DRAOriResAnnotation) = Ok infos) ∧
    Forall2 (λ c info, references pod' (ri_ClaimName info) = true ∧ ∃ c', c' ∈ all_containers pod' ∧ converted c c' info)
      (filter (λ c, IsVGPURequiredContainer c = true) (all_containers pod)) infos.
Proof.
  unfold convertDRARequest. destruct (convert_containers o _ pod) as [pod1 infos] eqn:E.
  destruct (convert_containers_spec _ _ _ _ _ E) as [_ Hinfos]. intros Hok. exists infos. case_bool_decide; [by injection Hok as <-|].
  destruct (ResourceInfos_Encode infos) as [text|] eqn:Ee; [|done]. injection Hok as <-. split; [|exact Hinfos].
  intros _. rewrite annotation_insert. by apply infos_roundtrip.
Qed.

(** Conversion to claims loses nothing: every container that asked for
    vGPUs is recorded once, in order, with its number, cores and memory, gets
    a reference to a claim the pod lists, and keeps none of the three as
    extended resources; all other containers and resources stay; what is
    recorded can be read back, and the extender no longer sees a vGPU pod. *)
Theorem convertDRARequest_conserves o random pod pod' :
  convertDRARequest o random pod = Ok pod' →
  IsVGPUResourcePod pod' = false ∧
  Forall2 (λ c c', IsVGPURequiredContainer c = false → c' = c) (all_containers pod) (all_containers pod') ∧
  ∃ infos, (infos ≠ [] → ResourceInfos_Decode (annotation pod' DRAOriResAnnotation) = Ok infos) ∧
    Forall2 (λ c info, references pod' (ri_ClaimName info) = true ∧ ∃ c', c' ∈ all_containers pod' ∧ converted c c' info)
      (filter (λ c, IsVGPURequiredContainer c = true) (all_containers pod)) infos.
Proof.
  intros Hok. pose proof (convert_infos _ _ _ _ Hok) as Hrec. revert Hok.
  unfold convertDRARequest. destruct (convert_containers o _ pod) as [pod1 infos] eqn:E. intros Hok.
  destruct (convert_containers_spec _ _ _ _ _ E) as [Hall _].
  assert (∃ a, pod' = with_metadata pod1 (p_Labels pod1) a) as [a Hpod'].
  { revert Hok. case_bool_decide; [intros [= <-]; exists (p_Annotations pod1); by destruct pod1|].
    destruct (ResourceInfos_Encode infos); [|done]. intros [= <-]. by eexists. }
  assert (all_containers pod' = all_containers pod1) as Eall by by rewrite Hpod'. rewrite Eall. split_and!.
  - apply converted_none, Forall_app in Hall as [Hi Hc]. unfold IsVGPUResourcePod. rewrite Hpod'.
    apply orb_false_iff. split; apply existsb_none; [exact Hc|exact Hi].
  - eapply Forall2_impl; [exact Hall|]. intros c c' [Hsame _]. exact Hsame.
  - destruct Hrec as (infos' & Hread & Hrec). rewrite Eall in Hrec. exists infos'. split; [|exact Hrec]. intros Hne. by apply Hread.
Qed.
End spec.

(** ** A concrete webhook *)
Module AdmissionDemo.
#[export] Existing Instance Demo.env.

Definition helpers : PodHelpers := {| PodLimits _ := ∅; IsExtendedResourceName _ := false |}.
#[export] Existing Instance helpers.

Definition info_tuple (i : ResourceInfo) : string * string * string * gmap string Z :=
  (ri_Name i, ri_ClaimName i, ri_RequestName i, ri_Resources i).
Definition tuple_info (t : string * string * string * gmap string Z) : ResourceInfo :=
  {| ri_Name := t.1.1.1; ri_ClaimName := t.1.1.2; ri_RequestName := t.1.2; ri_Resources := t.2 |}.

(** Texts are the binary digits of the number that encodes the tuples. *)
Fixpoint print_bits (p : positive) : string :=
  match p with xH => "." | xO p => String "0" (print_bits p) | xI p => String "1" (print_bits p) end.
Fixpoint parse_bits (text : string) : option positive :=
  match text with
  | EmptyString => None
  | String c rest =>
      if char_eqb c "." then Some xH
      else if char_eqb c "0" then xO <$> parse_bits rest else if char_eqb c "1" then xI <$> parse_bits rest else None
  end.

Definition print_infos (infos : ResourceInfos) : string := print_bits (encode (info_tuple <$> infos)).
Definition parse_infos (text : string) : result string ResourceInfos :=
  match parse_bits text ≫= decode with Some l => Ok (tuple_info <$> l) | None => Fail "malformed" end.

Lemma parse_print infos : print_infos infos ≠ "" ∧ parse_infos (print_infos infos) = Ok infos.
Proof.
  split; [unfold print_infos; by destruct (encode (info_tuple <$> infos))|].
  assert (∀ p, parse_bits (print_bits p) = Some p) as Hbits by (induction p as [p IH|p IH|]; simpl; by rewrite ?IH).
  unfold parse_infos, print_infos. rewrite Hbits. simpl. rewrite decode_encode. f_equal.
  rewrite <- list_fmap_compose. apply Forall_fmap_id, Forall_true. by intros [].
Qed.

#[export] Program Instance codec : ResourceInfosCodec :=
  {| ResourceInfos_Encode infos := Ok (print_infos infos); ResourceInfos_Decode := parse_infos |}.
Next Obligation. intros infos text [= <-]. apply parse_print. Qed.

Definition options (convert : bool) : Options :=
  {| op_SchedulerName := "vgpu-scheduler"; op_DefaultNodePolicy := "Binpack"; op_DefaultDevicePolicy := "";
     op_DefaultTopologyMode := "link"; op_DefaultRuntimeClass := "nvidia"; op_VGPUDeviceClassName := "vgpu.nvidia.com";
     op_DRAAdmissionEnabled := true; op_DefaultConvertToDRA := convert; op_CombinedResourceClaim := false |}.

(** Two vGPUs without shares, a memory limit without a number, and a forged allocation. *)
Definition submitted : Pod :=
  Demo.pod "job" [(PodVGPUPreAllocAnnotation, "main[0_GPU-0_100_24000]"); (PodPredicateNodeAnnotation, "node-a")] []
    [Demo.container "main" [(VGPUNumberResourceName, 2)]; Demo.container "side" [(VGPUMemoryResourceName, 1000)]].

Definition admitted : Pod := match MutateCreate (options false) "abcde" submitted with Ok p => p | Fail _ => submitted end.
Definition handed_over : Pod := match convertDRARequest (options true) "abcde" admitted with Ok p => p | Fail _ => submitted end.

Lemma MutateCreate_settles_witness :
  (λ c, GetResourceOfContainer c <$> vgpu_resources) <$> p_Containers admitted = [[2; 100; 0]; [1; 0; 1000]] ∧
  ps_SchedulerName (p_Rest admitted) = "vgpu-scheduler" ∧
  GetPodDeviceClaim submitted ≠ [] ∧ GetPodDeviceClaim admitted = [] ∧ MutateCreate (options false) "abcde" admitted = Ok admitted.
Proof.
  split_and!; [vm_compute; reflexivity|vm_compute; reflexivity|vm_compute; discriminate|..];
    apply (MutateCreate_settles (options false) "abcde" submitted admitted); vm_compute; reflexivity.
Defined.

Lemma convertDRARequest_conserves_witness :
  c_Claims <$> p_Containers handed_over
    = [[{| cc_Name := "job-main-f84ae4a8"; cc_Request := "vgpu" |}]; [{| cc_Name := "job-side-064f14b1"; cc_Request := "vgpu" |}]] ∧
  IsVGPUResourcePod handed_over = false.
Proof.
  split; [vm_compute; reflexivity|].
  apply (convertDRARequest_conserves (options true) "abcde" admitted handed_over). vm_compute. reflexivity.
Defined.
End AdmissionDemo.
