(* ===== verification/Scoring.v ===== *)
(** * Scores and rankings ([pkg/device/allocator/profile.go], [priority.go])

    Utilisations and policy scores in the program's floating-point arithmetic,
    and the comparator chains devices and nodes are sorted with.  Products and
    sums are rounded separately, as the compiler does on amd64.  Devices reach
    the sort in map iteration order; the theorem says that the result does not
    depend on it. *)

From stdpp Require Import base list gmap strings.
From Stdlib Require Import ZArith Lia Sorted.
From S2P Require Import Prelude GoMap GoSort GoStrings Float64 GoTime Kube Claims Links Topology Device Footprint.
From S2P Require Import Reason NodeInfo Request.

Open Scope Z_scope.

(** ** Utilisation *)

Record ResourceUtilization := { ru_Num : float64; ru_Mem : float64; ru_Core : float64 }.

Definition zero_utilization : ResourceUtilization := {| ru_Num := f64_0; ru_Mem := f64_0; ru_Core := f64_0 |}.

(** [1 - util.SafeDiv(avail, float64(total))] *)
Definition used_fraction (avail : float64) (total : Z) : float64 := f64_sub f64_1 (SafeDiv avail (f64_of_Z total)).

Definition GetTotalNumberOf (n : NodeInfo) : Z := st_totalNumber (ni_stats n).
Definition GetTotalMemoryOf (n : NodeInfo) : Z := st_totalMemory (ni_stats n).
Definition GetTotalCoresOf (n : NodeInfo) : Z := st_totalCores (ni_stats n).

Definition NodeUtilization (info : NodeInfo) (req : option AllocationRequest) : ResourceUtilization :=
  let availNum := f64_of_Z (GetAvailableNumber info) in
  let availMem := f64_of_Z (GetAvailableMemory info) in
  let availCore := f64_of_Z (GetAvailableCores info) in
  let utilization num mem core :=
    {| ru_Num := used_fraction num (GetTotalNumberOf info); ru_Mem := used_fraction mem (GetTotalMemoryOf info);
       ru_Core := used_fraction core (GetTotalCoresOf info) |} in
  match req with
  | None => utilization availNum availMem availCore
  | Some req =>
      let reqNumber := f64_of_Z (cn_Number (rq_Total req)) in
      let reqCores := f64_of_Z (cn_Cores (rq_Total req)) in
      let reqMemory := f64_of_Z (cn_Memory (rq_Total req)) in
      if f64_lt availNum reqNumber || f64_lt availCore reqCores || f64_lt availMem reqMemory then
        if bool_decide (rq_NodePolicy req = SpreadPolicy)
        then {| ru_Num := f64_1; ru_Mem := f64_1; ru_Core := f64_1 |}
        else zero_utilization
      else if bool_decide (rq_NodePolicy req = BinpackPolicy) then
        utilization (f64_sub availNum reqNumber) (f64_sub availMem reqMemory) (f64_sub availCore reqCores)
      else utilization availNum availMem availCore
  end.

Definition DeviceUtilization (d : Device) : ResourceUtilization :=
  {| ru_Num := used_fraction (f64_of_Z (AllocatableNumber d)) (GetTotalNumber d);
     ru_Mem := used_fraction (f64_of_Z (AllocatableMemory d)) (GetTotalMemory d);
     ru_Core := used_fraction (f64_of_Z (AllocatableCores d)) (GetTotalCores d) |}.

Definition NumaUtilization (devices : list Device) : ResourceUtilization :=
  if bool_decide (length devices = 0%nat) then zero_utilization
  else
    let agg := fold_left (λ agg d, let u := DeviceUtilization d in
        {| ru_Num := f64_add (ru_Num agg) (ru_Num u); ru_Mem := f64_add (ru_Mem agg) (ru_Mem u);
           ru_Core := f64_add (ru_Core agg) (ru_Core u) |}) devices zero_utilization in
    let n := f64_of_Z (Z.of_nat (length devices)) in
    {| ru_Num := f64_div (ru_Num agg) n; ru_Mem := f64_div (ru_Mem agg) n; ru_Core := f64_div (ru_Core agg) n |}.

Definition Score (u : ResourceUtilization) (p : RequestProfile) (policy : SchedulerPolicy) : float64 :=
  if bool_decide (policy = BinpackPolicy) then
    (rp_NumWeight p * ru_Num u + rp_MemWeight p * ru_Mem u + rp_CoreWeight p * ru_Core u)%f64
  else if bool_decide (policy = SpreadPolicy) then
    (rp_NumWeight p * (f64_1 - ru_Num u) + rp_MemWeight p * (f64_1 - ru_Mem u)
     + rp_CoreWeight p * (f64_1 - ru_Core u))%f64
  else f64_0.

(** ** Comparators *)

Definition LessFunc (T : Type) : Type := T → T → bool.

Definition ByDeviceScoreAsc : LessFunc Device := λ p1 p2, f64_lt (Device.Score p1) (Device.Score p2).
Definition ByDeviceScoreDes : LessFunc Device := λ p1 p2, f64_lt (Device.Score p2) (Device.Score p1).
Definition ByDeviceIdAsc : LessFunc Device := λ p1 p2, bool_decide (d_id p1 < d_id p2).
Definition ByNuma : LessFunc Device := λ p1 p2,
  if bool_decide (d_numa p1 < 0) && bool_decide (d_numa p2 < 0) then false
  else if bool_decide (d_numa p1 < 0) then false
  else if bool_decide (d_numa p2 < 0) then true
  else bool_decide (d_numa p1 < d_numa p2).

Definition NewDevicePolicyPriority (req : AllocationRequest) : list (LessFunc Device) :=
  if bool_decide (rq_DevicePolicy req = BinpackPolicy) then [ByDeviceScoreAsc; ByDeviceIdAsc]
  else if bool_decide (rq_DevicePolicy req = SpreadPolicy) then [ByDeviceScoreDes; ByDeviceIdAsc]
  else [ByNuma; ByDeviceIdAsc].

(** Sorting the candidates with that chain. *)
Definition sort_devices (req : AllocationRequest) (deviceStore : list Device) : list Device :=
  sort_slice (chain_less (NewDevicePolicyPriority req)) deviceStore.

(** ** Node ranking *)

(** [allocator.NodeInfo]: a node with its own request, when it has one. *)
Record RankedNode := { rn_NodeInfo : NodeInfo; rn_AllocationRequest : option AllocationRequest }.

Definition rn_name (n : RankedNode) : string := GetName (rn_NodeInfo n).

Definition gpuTopologyFitness (n : RankedNode) (needNumber : Z) : Z := LinkTopologyFitness (rn_NodeInfo n) needNumber.

Definition numaTopologyFitness (n : RankedNode) (needNumber : Z) : Z :=
  if negb (HasNUMATopology (rn_NodeInfo n)) then 0
  else if bool_decide (needNumber ≤ MaxNUMAGroupSize (rn_NodeInfo n)) then 2
  else 1.

Definition ByNodeGPUTopologyFitness (needNumber : Z) : LessFunc RankedNode :=
  λ p1 p2, bool_decide (gpuTopologyFitness p2 needNumber < gpuTopologyFitness p1 needNumber).
Definition ByNodeNUMATopologyFitness (needNumber : Z) : LessFunc RankedNode :=
  λ p1 p2, bool_decide (numaTopologyFitness p2 needNumber < numaTopologyFitness p1 needNumber).
Definition ByNodeNameAsc : LessFunc RankedNode := by_str rn_name.

(** [cachedNodeScore]; the cache is keyed by the node name, which identifies
    the node, so it returns what it would compute. *)
Definition cachedNodeScore (info : RankedNode) (req : AllocationRequest) : float64 :=
  let nodeReq := default req (rn_AllocationRequest info) in
  f64_mul (Score (NodeUtilization (rn_NodeInfo info) (Some nodeReq)) (rq_Profile nodeReq) (rq_NodePolicy nodeReq))
    (f64_of_Z HundredCore).

Definition WeightedNodeLess (req : AllocationRequest) : LessFunc RankedNode :=
  λ p1 p2, f64_lt (cachedNodeScore p2 req) (cachedNodeScore p1 req).

Definition ApplyTopologyMode (req : AllocationRequest) (less : list (LessFunc RankedNode)) : list (LessFunc RankedNode) :=
  let mode := BaseTopology (rq_Topology req) in
  if bool_decide (mode = LinkTopology) || bool_decide (mode = PCIeTopology)
  then ByNodeGPUTopologyFitness (cn_Number (rq_Max req)) :: less
  else if bool_decide (mode = NUMATopology) then ByNodeNUMATopologyFitness (cn_Number (rq_Max req)) :: less
  else less.

Definition NewNodePolicyPriority (req : AllocationRequest) : list (LessFunc RankedNode) :=
  ApplyTopologyMode req [WeightedNodeLess req; ByNodeNameAsc].

Definition sort_nodes (req : AllocationRequest) (nodes : list RankedNode) : list RankedNode :=
  sort_slice (chain_less (NewNodePolicyPriority req)) nodes.

(** ** The device order *)

Lemma clamp_range z : int64_min ≤ z ≤ int64_max → 0 ≤ (if bool_decide (z < 0) then 0 else z) ≤ int64_max.
Proof. unfold int64_min, int64_max. intros. case_bool_decide; lia. Qed.

Lemma allocatable_range x d : 0 ≤ allocatable x d ≤ int64_max.
Proof.
  destruct x; simpl; unfold AllocatableNumber, AllocatableCores, AllocatableMemory;
    match goal with |- context [wrap64 ?z] => pose proof (wrap64_in64 z) end;
    case_bool_decide; unfold in64, int64_min, int64_max in *; lia.
Qed.

(** The registered capacities are machine integers. *)
Definition totals_in64 (d : Device) : Prop := ∀ x, in64 (total x d).

Lemma device_score_nonneg d : totals_in64 d → nonneg64 (Device.Score d).
Proof.
  intros Hd. unfold Device.Score.
  assert (nonneg64 (SafeDiv (f64_of_Z (AllocatableNumber d)) (f64_of_Z (GetTotalNumber d)))).
  { apply SafeDiv_nonneg; apply f64_of_Z_finite; [apply (allocatable_range Number)|apply clamp_range, (Hd Number)]. }
  assert (nonneg64 (SafeDiv (f64_of_Z (AllocatableMemory d)) (f64_of_Z (GetTotalMemory d)))).
  { apply SafeDiv_nonneg; apply f64_of_Z_finite; [apply (allocatable_range Memory)|apply clamp_range, (Hd Memory)]. }
  assert (nonneg64 (SafeDiv (f64_of_Z (AllocatableCores d)) (f64_of_Z (GetTotalCores d)))).
  { apply SafeDiv_nonneg; apply f64_of_Z_finite; [apply (allocatable_range Cores)|apply clamp_range, (Hd Cores)]. }
  apply f64_mul_nonneg; [|done]. apply f64_div_nonneg; [|done]. by repeat apply f64_add_nonneg.
Qed.

Lemma ByNuma_sw (P : Device → Prop) : StrictWeak P ByNuma.
Proof.
  unfold ByNuma. constructor; intros *; repeat case_bool_decide; simpl; rewrite ?bool_decide_eq_false; try done; lia.
Qed.

(** A set of devices with distinct ids and machine-integer capacities. *)
Definition cards (store : list Device) (d : Device) : Prop := d ∈ store.

Lemma device_chain_sw req store :
  Forall totals_in64 store → Forall (StrictWeak (cards store)) (NewDevicePolicyPriority req).
Proof.
  intros Hs. rewrite Forall_forall in Hs.
  assert (StrictWeak (cards store) ByDeviceIdAsc) by apply (by_key_sw _ d_id).
  assert (∀ d, cards store d → not_nan (Device.Score d))
    by (intros d Hd; by apply nonneg_not_nan, device_score_nonneg, Hs).
  unfold NewDevicePolicyPriority. repeat case_bool_decide; repeat (apply Forall_cons; split); try done; try by apply Forall_nil.
  - by apply (f64_lt_sw _ Device.Score).
  - by apply (f64_gt_sw _ Device.Score).
  - apply ByNuma_sw.
Qed.

Lemma device_chain_separates req store :
  Forall totals_in64 store → NoDup (d_id <$> store) →
  separates (cards store) (chain_less (NewDevicePolicyPriority req)).
Proof.
  intros Hs Hnd. apply (chain_less_separates _ _ ByDeviceIdAsc).
  - unfold NewDevicePolicyPriority. repeat case_bool_decide; set_solver.
  - by apply device_chain_sw.
  - apply (by_key_separates _ d_id). intros d1 d2 Hd1 Hd2 He.
    apply list_elem_of_lookup in Hd1 as [i Hi], Hd2 as [j Hj].
    assert (i = j) as -> by (eapply (NoDup_lookup _ i j (d_id d1) Hnd); rewrite list_lookup_fmap; simplify_option_eq; congruence).
    congruence.
Qed.

(** The order in which devices are offered to the allocator is a function
    of the set of devices: however Go's map iteration delivers them and
    whichever sorting algorithm is used, the slice sorted by the policy's
    comparators is the same list. *)
Theorem sort_devices_order_independent req store store' :
  Forall totals_in64 store → NoDup (d_id <$> store) → store ≡ₚ store' →
  sort_devices req store = sort_devices req store' ∧
  ∀ sorted, sorted ≡ₚ store' → StronglySorted (not_after (chain_less (NewDevicePolicyPriority req))) sorted →
    sorted = sort_devices req store.
Proof.
  intros Hs Hnd Hp.
  assert (StrictWeak (cards store) (chain_less (NewDevicePolicyPriority req))) as Hsw by by apply chain_less_sw, device_chain_sw.
  pose proof (device_chain_separates req store Hs Hnd) as Hsep.
  assert (Forall (cards store) store) as Hc by by apply Forall_forall.
  split; [by apply (sort_slice_unique (cards store))|].
  intros sorted Hsp Hss. apply (sorted_perm_unique (cards store)); [done..|]. by rewrite Hp.
Qed.
