(* ===== verification/SubsetSearch.v ===== *)
(** * The subset search ([pkg/device/allocator/subset_search.go], [tiered.go])

    [forEachCombination] enumerates index sets with an iterative successor
    function; [searchBestSubsetWithFixed] keeps the best scoring one, breaking
    ties by what is left over.  Counts are non-negative [int]s, here [nat].
    The loop gets as many steps as there are combinations; the theorems say
    that this is enough, that every subset is visited once, and that the
    result is optimal. *)

From stdpp Require Import base list gmap sorting strings.
From Stdlib Require Import ZArith Lia Sorted.
From S2P Require Import Prelude GoMap GoSort GoStrings Links.

#[local] Open Scope nat_scope.

(** ** Enumeration *)

(** [for i >= 0 && idx[i] == i+n-k { i-- }] from [i - 1]; [None] is [i < 0]. *)
Fixpoint last_movable (n k : nat) (idx : list nat) (i : nat) : option nat :=
  match i with
  | O => None
  | S i' => if bool_decide (idx !! i' = Some (i' + n - k)) then last_movable n k idx i' else Some i'
  end.

(** The next combination: [idx[i]++], and consecutive indices after it. *)
Definition next_combination (n k : nat) (idx : list nat) : option (list nat) :=
  match last_movable n k idx k with
  | None => None
  | Some i => Some (take i idx ++ seq (S (default 0 (idx !! i))) (k - i))
  end.

(** The number of combinations, the step bound of the loop. *)
Fixpoint binomial (n k : nat) : nat :=
  match n, k with
  | _, O => 1
  | O, S _ => 0
  | S n', S k' => binomial n' k' + binomial n' k
  end.

(** [for { fn(idx); idx = next; ... }]; [None] is an exhausted step bound. *)
Fixpoint comb_loop {A} (fuel : nat) (n k : nat) (fn : A → list nat → A) (s : A) (idx : list nat) : option A :=
  match fuel with
  | O => None
  | S fuel' =>
      let s := fn s idx in
      match next_combination n k idx with
      | None => Some s
      | Some idx' => comb_loop fuel' n k fn s idx'
      end
  end.

(** [fn] updates the variables its closure captures, the state [s]. *)
Definition forEachCombination {A} (n k : nat) (fn : A → list nat → A) (s : A) : A :=
  if bool_decide (k = 0 ∨ n < k) then s
  else default s (comb_loop (binomial n k) n k fn s (seq 0 k)).

(** ** Scores *)

Fixpoint setScore (set : list GDevice) : Z :=
  match set with
  | [] => 0%Z
  | a :: rest => (Zsum (PairScore a <$> rest) + setScore rest)%Z
  end.

Definition setScoreWithFixed (set fixed : list GDevice) : Z :=
  (setScore set + Zsum (mjoin ((λ a, PairScore a <$> fixed) <$> set)))%Z.

(** One round of [greedyPick]: the first unused device with the largest gain. *)
Definition best_gain (chosen : list GDevice) (devices : list GDevice) (used : list bool) : option nat :=
  (fold_left (λ '(bestIdx, bestGain) '(i, cand),
      if default false (used !! i) then (bestIdx, bestGain)
      else
        let gain := Zsum ((λ c, PairScore c cand) <$> chosen) in
        if bool_decide (bestGain < gain)%Z then (Some i, gain) else (bestIdx, bestGain))
    (zip (seq 0 (length devices)) devices) (None, (-1)%Z)).1.

Fixpoint greedy_loop (rounds : nat) (devices chosen : list GDevice) (used : list bool) : list GDevice :=
  match rounds with
  | O => chosen
  | S rounds' =>
      match best_gain chosen devices used with
      | None => chosen
      | Some i =>
          match devices !! i with
          | None => chosen
          | Some d => greedy_loop rounds' devices (chosen ++ [d]) (<[i := true]> used)
          end
      end
  end.

Definition greedyPick (devices fixed : list GDevice) (need : nat) : list GDevice :=
  if bool_decide (need = 0 ∨ length devices < need) then []
  else drop (length fixed) (greedy_loop need devices fixed (replicate (length devices) false)).

Definition pick_at {A} (l : list A) (idx : list nat) : list A := omap (λ i, l !! i) idx.

Definition complementScore (devices : list GDevice) (chosen : list nat) (need : nat) : Z :=
  let rest := pick_at devices (filter (λ i, i ∉ chosen) (seq 0 (length devices))) in
  if bool_decide (length rest < need ∨ need < 2) then 0%Z
  else setScore (greedyPick rest [] need).

(** ** The search *)

(** The captured variables: [bestScore], [bestRemainder], [best]. *)
Definition search_state : Type := Z * Z * option (list GDevice).

Definition search_step (devices fixed : list GDevice) (need : nat) (st : search_state) (idx : list nat) : search_state :=
  let '(bestScore, bestRemainder, best) := st in
  let current := pick_at devices idx in
  let score := setScoreWithFixed current fixed in
  if bool_decide (score < bestScore)%Z then st
  else
    let remainder := complementScore devices idx need in
    if bool_decide (bestScore < score)%Z || bool_decide (bestRemainder < remainder)%Z
    then (score, remainder, Some current) else st.

Definition searchBestSubsetWithFixed (devices fixed : list GDevice) (need : nat) : Z * list GDevice :=
  if bool_decide (need = 0 ∨ length devices < need) then (0%Z, [])
  else
    match forEachCombination (length devices) need (search_step devices fixed need) ((-1)%Z, (-1)%Z, None) with
    | (_, _, None) => (0%Z, [])
    | (bestScore, _, Some best) => (bestScore, best)
    end.

Definition searchBestSubset (devices : list GDevice) (need : nat) : Z * list GDevice :=
  searchBestSubsetWithFixed devices [] need.

Definition maxCombinationSearch : Z := 50000.

(** The loop of [combinationCount] for [i, i+1, ...], [rounds] times. *)
Fixpoint count_loop (rounds : nat) (n k i result : Z) : Z :=
  match rounds with
  | O => result
  | S rounds' =>
      let result := ((result *w (n - k + i)) ÷ i)%Z in
      if bool_decide (maxCombinationSearch < result)%Z then (maxCombinationSearch + 1)%Z
      else count_loop rounds' n k (i + 1) result
  end.

Definition combinationCount (n k : Z) : Z :=
  if bool_decide (k < 0 ∨ n < k)%Z then 0%Z
  else
    let k := if bool_decide (n - k < k)%Z then (n - k)%Z else k in
    count_loop (Z.to_nat k) n k 1 1.

(** ** What the enumeration visits *)

(** The ascending [k]-element index lists of [lo .. lo+m-1], in lexicographic order. *)
Fixpoint combs (m lo k : nat) : list (list nat) :=
  match k with
  | O => [[]]
  | S k' => match m with
            | O => []
            | S m' => (cons lo <$> combs m' (S lo) k') ++ combs m' (S lo) k
            end
  end.

Definition ascending (lo hi : nat) (idx : list nat) : Prop :=
  StronglySorted lt idx ∧ Forall (λ i, lo ≤ i < hi) idx.

Lemma elem_of_combs m lo k idx : idx ∈ combs m lo k ↔ length idx = k ∧ ascending lo (lo + m) idx.
Proof.
  unfold ascending. revert lo k idx. induction m as [|m IH]; intros lo k idx.
  - destruct k; simpl; [|rewrite elem_of_nil; split; [done|]].
    + rewrite list_elem_of_singleton. split; [intros ->; repeat constructor|]. by destruct idx; intros [? _].
    + intros (Hl & _ & Hf). destruct idx as [|i idx]; [done|]. apply Forall_cons in Hf. lia.
  - destruct k as [|k]; simpl.
    { rewrite list_elem_of_singleton. split; [intros ->; repeat constructor|]. by destruct idx; intros [? _]. }
    rewrite elem_of_app, list_elem_of_fmap. setoid_rewrite IH. split.
    + intros [(r & -> & Hl & Hs & Hf)|(Hl & Hs & Hf)].
      * split_and!; [simpl; lia| |].
        -- constructor; [done|]. eapply Forall_impl; [exact Hf|]. simpl. lia.
        -- constructor; [lia|]. eapply Forall_impl; [exact Hf|]. simpl. lia.
      * split_and!; [done..|]. eapply Forall_impl; [exact Hf|]. simpl. lia.
    + intros (Hl & Hs & Hf). destruct idx as [|i idx]; [done|].
      apply Forall_cons in Hf as [Hi Hf]. apply StronglySorted_inv in Hs as [Hs Hlt].
      destruct (decide (i = lo)) as [->|Hne].
      * left. exists idx. split_and!; [done|simpl in Hl; lia|done|].
        rewrite Forall_forall in *. intros x Hx. specialize (Hf x Hx). specialize (Hlt x Hx). lia.
      * right. split_and!; [done|by constructor|]. constructor; [lia|].
        rewrite Forall_forall in *. intros x Hx. specialize (Hf x Hx). specialize (Hlt x Hx). lia.
Qed.

Lemma NoDup_combs m lo k : NoDup (combs m lo k).
Proof.
  revert lo k. induction m as [|m IH]; intros lo k; (destruct k as [|k]; simpl; [apply NoDup_singleton|]); [constructor|].
  apply NoDup_app. split_and!; [by apply (NoDup_fmap_2 _)| |done].
  intros idx (r & -> & Hr)%list_elem_of_fmap [_ [_ Hf]]%elem_of_combs. apply Forall_cons in Hf. lia.
Qed.

Lemma length_combs m lo k : length (combs m lo k) = binomial m k.
Proof.
  revert lo k. induction m as [|m IH]; intros lo k; (destruct k as [|k]; simpl; [done|]); [done|].
  by rewrite length_app, length_fmap, !IH.
Qed.

(** ** The successor *)

(** The successor by recursion on the list. *)
Fixpoint advance (n : nat) (idx : list nat) : option (list nat) :=
  match idx with
  | [] => None
  | a :: r =>
      match advance n r with
      | Some r' => Some (a :: r')
      | None => if bool_decide (a = n - S (length r)) then None else Some (seq (S a) (S (length r)))
      end
  end.

Lemma last_movable_cons n a r i :
  S (length r) ≤ n → i ≤ length r →
  last_movable n (S (length r)) (a :: r) (S i)
  = match last_movable n (length r) r i with
    | Some j => Some (S j)
    | None => if bool_decide (a = n - S (length r)) then None else Some 0
    end.
Proof.
  intros Hn. induction i as [|i IH]; intros Hi.
  - simpl. replace (0 + n - S (length r)) with (n - S (length r)) by lia. repeat case_bool_decide; congruence.
  - cbn [last_movable]. cbn [last_movable] in IH. change ((a :: r) !! S i) with (r !! i).
    replace (S i + n - S (length r)) with (i + n - length r) by lia.
    destruct (bool_decide (r !! i = _)); [apply IH; lia|done].
Qed.

Lemma next_advance n idx : length idx ≤ n → next_combination n (length idx) idx = advance n idx.
Proof.
  unfold next_combination. induction idx as [|a r IH]; intros Hn; [done|]. simpl in Hn.
  cbn [length advance]. rewrite last_movable_cons by lia. rewrite <- IH by lia.
  destruct (last_movable n (length r) r (length r)) as [i|] eqn:E; [done|].
  by case_bool_decide.
Qed.

(** [l] is what [advance] goes through from its first element. *)
Inductive chain (n : nat) : list (list nat) → Prop :=
| chain_one idx : advance n idx = None → chain n [idx]
| chain_cons idx idx' l : advance n idx = Some idx' → chain n (idx' :: l) → chain n (idx :: idx' :: l).

Lemma chain_cons_app n a l l' :
  l ≠ [] → chain n l → Forall (λ idx, length idx = length (default [] (head l))) l →
  (a = n - S (length (default [] (head l))) → l' = []) →
  (a ≠ n - S (length (default [] (head l))) →
     head l' = Some (seq (S a) (S (length (default [] (head l))))) ∧ chain n l') →
  chain n ((cons a <$> l) ++ l').
Proof.
  intros Hne Hc. induction Hc as [idx Hn|idx idx' l Hn Hc IH]; intros Hlen H1 H2; simpl in *.
  - destruct (decide (a = n - S (length idx))) as [E|E].
    + rewrite (H1 E). constructor. simpl. rewrite Hn. by rewrite bool_decide_eq_true_2.
    + destruct (H2 E) as [Hh Hc]. destruct l' as [|x l']; [done|]. simpl in Hh. simplify_eq.
      constructor; [|done]. simpl. rewrite Hn. by rewrite bool_decide_eq_false_2.
  - apply Forall_cons in Hlen as [_ Hlen]. apply Forall_cons in Hlen as [Hl' Hlen].
    constructor; [simpl; by rewrite Hn|]. apply IH; simpl; rewrite ?Hl'; try done. by constructor.
Qed.

Lemma combs_chain m lo k :
  k ≤ m → 0 < k → combs m lo k ≠ [] ∧ head (combs m lo k) = Some (seq lo k) ∧ chain (lo + m) (combs m lo k).
Proof.
  revert lo k. induction m as [|m IH]; intros lo k Hk Hpos; [lia|]. destruct k as [|k]; [lia|]. cbn [combs].
  set (tail := combs m (S lo) (S k)).
  assert (chain (lo + S m) ((cons lo <$> combs m (S lo) k) ++ tail) ∧ head (combs m (S lo) k) = Some (seq (S lo) k)
          ∧ combs m (S lo) k ≠ []) as (Hc & Hh & Hne).
  { assert (combs m (S lo) k ≠ [] ∧ head (combs m (S lo) k) = Some (seq (S lo) k) ∧ chain (S lo + m) (combs m (S lo) k))
      as (Hne & Hh & Hc).
    { destruct k as [|k]; [|apply IH; lia]. destruct m; (split_and!; [done|done|by constructor]). }
    split_and!; [|done|done]. apply chain_cons_app; rewrite ?Hh; simpl; rewrite ?length_seq.
    - done.
    - by rewrite Nat.add_succ_r.
    - apply Forall_forall. by intros idx [? _]%elem_of_combs.
    - intros E. destruct m as [|m]; [done|]. unfold tail. assert (k = S m) as -> by lia.
      destruct (combs (S m) (S lo) (S (S m))) as [|idx l] eqn:Ec; [done|].
      pose proof (length_combs (S m) (S lo) (S (S m))) as Hl. rewrite Ec in Hl.
      assert (∀ a b, a < b → binomial a b = 0) as Hb.
      { induction a as [|a IHa]; intros [|b] ?; simpl; try lia. rewrite !IHa; lia. }
      rewrite Hb in Hl by lia. done.
    - intros E. destruct (IH (S lo) (S k) ltac:(lia) ltac:(lia)) as (_ & Hh' & Hc').
      by replace (lo + S m) with (S lo + m) by lia. }
  split_and!; [| |done].
  - by destruct (combs m (S lo) k).
  - destruct (combs m (S lo) k); [done|]. simpl in *. by simplify_eq.
Qed.

Lemma comb_loop_chain {A} n k (fn : A → list nat → A) l fuel s idx :
  k ≤ n → chain n l → head l = Some idx → Forall (λ i, length i = k) l → length l ≤ fuel →
  comb_loop fuel n k fn s idx = Some (fold_left fn l s).
Proof.
  intros Hk Hc. revert fuel s idx. induction Hc as [i Hn|i i' l Hn Hc IH]; intros fuel s idx [= ->] Hlen Hf;
    (destruct fuel as [|fuel]; [simpl in Hf; lia|]); apply Forall_cons in Hlen as [Hl Hlen];
    simpl; (assert (next_combination n k idx = advance n idx) as -> by (subst k; by apply next_advance)); rewrite Hn.
  - done.
  - apply IH; [done|done|simpl in *; lia].
Qed.

(** The loop folds over all combinations, in order. *)
Lemma forEachCombination_fold {A} n k (fn : A → list nat → A) s :
  0 < k ≤ n → forEachCombination n k fn s = fold_left fn (combs n 0 k) s.
Proof.
  intros Hk. unfold forEachCombination. rewrite bool_decide_eq_false_2 by lia.
  destruct (combs_chain n 0 k) as (Hne & Hh & Hc); [lia..|].
  rewrite (comb_loop_chain n k fn (combs n 0 k)); [done|lia|done|done| |by rewrite length_combs].
  apply Forall_forall. by intros idx [? _]%elem_of_combs.
Qed.

(** C35 [forEachCombination] calls its function on every [k]-element subset of
    the [n] indices exactly once, in ascending form, and terminates: the fold
    it computes is the fold over a duplicate-free list of all of them. *)
Theorem forEachCombination_all n k :
  0 < k ≤ n →
  ∃ l : list (list nat), NoDup l ∧ length l = binomial n k ∧
    (∀ idx, idx ∈ l ↔ length idx = k ∧ ascending 0 n idx) ∧
    ∀ (A : Type) (fn : A → list nat → A) s, forEachCombination n k fn s = fold_left fn l s.
Proof.
  intros Hk. exists (combs n 0 k). split_and!; [apply NoDup_combs|apply length_combs| |].
  - intros idx. apply elem_of_combs.
  - intros A fn s. by apply forEachCombination_fold.
Qed.

Lemma forEachCombination_all_witness :
  forEachCombination 4 2 (λ acc idx, acc ++ [idx]) [] = [[0; 1]; [0; 2]; [0; 3]; [1; 2]; [1; 3]; [2; 3]] ∧
  ∃ l : list (list nat), NoDup l ∧ length l = binomial 4 2 ∧
    (∀ idx, idx ∈ l ↔ length idx = 2 ∧ ascending 0 4 idx) ∧
    ∀ (A : Type) (fn : A → list nat → A) s, forEachCombination 4 2 fn s = fold_left fn l s.
Proof. split; [reflexivity|]. apply (forEachCombination_all 4 2). lia. Defined.

(** ** Optimality *)

Lemma setScore_nonneg set : (0 ≤ setScore set)%Z.
Proof.
  induction set as [|a rest IH]; cbn [setScore]; [done|].
  assert (0 ≤ Zsum (PairScore a <$> rest))%Z; [|lia].
  apply Zsum_nonneg, Forall_fmap, Forall_forall. intros. apply PairScore_nonneg.
Qed.

Lemma setScoreWithFixed_nonneg set fixed : (0 ≤ setScoreWithFixed set fixed)%Z.
Proof.
  unfold setScoreWithFixed. pose proof (setScore_nonneg set).
  enough (0 ≤ Zsum (mjoin ((λ a, PairScore a <$> fixed) <$> set)))%Z by lia.
  apply Zsum_nonneg, Forall_forall. intros z (l & Hz & Hl)%list_elem_of_join.
  apply list_elem_of_fmap in Hl as (a & -> & _). apply list_elem_of_fmap in Hz as (b & -> & _). apply PairScore_nonneg.
Qed.

(** The state after the combinations [l]: the best of them so far. *)
Definition best_of (devices fixed : list GDevice) (l : list (list nat)) (st : search_state) : Prop :=
  match st with
  | (bestScore, _, None) => l = [] ∧ bestScore = (-1)%Z
  | (bestScore, _, Some best) =>
      (∃ idx, idx ∈ l ∧ best = pick_at devices idx ∧ bestScore = setScoreWithFixed best fixed) ∧
      ∀ idx, idx ∈ l → (setScoreWithFixed (pick_at devices idx) fixed ≤ bestScore)%Z
  end.

Lemma search_step_best devices fixed need l idx st :
  best_of devices fixed l st → best_of devices fixed (l ++ [idx]) (search_step devices fixed need st idx).
Proof.
  destruct st as [[bs br] b]. unfold search_step. set (score := setScoreWithFixed (pick_at devices idx) fixed).
  pose proof (setScoreWithFixed_nonneg (pick_at devices idx) fixed) as Hpos. fold score in Hpos.
  destruct b as [b|]; simpl.
  - intros [(i & Hi & -> & ->) Hmax].
    assert (∀ z, (score ≤ z)%Z → (setScoreWithFixed (pick_at devices i) fixed ≤ z)%Z →
      ∀ j, j ∈ l ++ [idx] → (setScoreWithFixed (pick_at devices j) fixed ≤ z)%Z) as Hall.
    { intros z H1 H2 j [Hj| ->%list_elem_of_singleton]%elem_of_app; [|done]. specialize (Hmax j Hj). lia. }
    case_bool_decide as H1; [|destruct (_ || _) eqn:H2]; simpl.
    + split; [exists i; set_solver|]. apply Hall; lia.
    + split; [exists idx; set_solver|]. apply Hall; fold score; lia.
    + apply orb_false_iff in H2 as [H2 _]. apply bool_decide_eq_false in H2.
      split; [exists i; set_solver|]. apply Hall; lia.
  - intros [-> ->]. rewrite bool_decide_eq_false_2 by lia. rewrite (bool_decide_eq_true_2 (-1 < score)%Z) by lia.
    simpl. split; [exists idx; set_solver|]. intros j ->%list_elem_of_singleton. done.
Qed.

Lemma search_fold_best devices fixed need l :
  best_of devices fixed l (fold_left (search_step devices fixed need) l ((-1)%Z, (-1)%Z, None)).
Proof.
  induction l as [|idx l IH] using rev_ind; [done|]. rewrite fold_left_app. by apply search_step_best.
Qed.

(** The search returns a best choice. *)
Lemma search_optimal devices fixed need :
  0 < need ≤ length devices →
  ∃ idx, length idx = need ∧ ascending 0 (length devices) idx ∧
    searchBestSubsetWithFixed devices fixed need
    = (setScoreWithFixed (pick_at devices idx) fixed, pick_at devices idx) ∧
    ∀ idx', length idx' = need → ascending 0 (length devices) idx' →
      (setScoreWithFixed (pick_at devices idx') fixed ≤ setScoreWithFixed (pick_at devices idx) fixed)%Z.
Proof.
  intros Hn. unfold searchBestSubsetWithFixed. rewrite bool_decide_eq_false_2 by lia.
  rewrite forEachCombination_fold by lia.
  pose proof (search_fold_best devices fixed need (combs (length devices) 0 need)) as Hb.
  destruct (fold_left _ _ _) as [[bs br] [b|]]; simpl in Hb.
  - destruct Hb as [(idx & Hi & -> & ->) Hmax]. apply elem_of_combs in Hi as [Hl Ha].
    exists idx. split_and!; [done..|]. intros idx' Hl' Ha'. by apply Hmax, elem_of_combs.
  - destruct Hb as [Hc _]. pose proof (combs_chain (length devices) 0 need). naive_solver lia.
Qed.

(** C30 [searchBestSubsetWithFixed] is an exact optimiser: it returns [need]
    devices at ascending positions and their score, and no other choice of
    [need] devices has a higher pair score, internally and against the fixed
    devices. *)
Theorem searchBestSubset_optimal devices fixed need :
  0 < need ≤ length devices →
  ∃ idx, length idx = need ∧ ascending 0 (length devices) idx ∧
    searchBestSubsetWithFixed devices fixed need
    = (setScoreWithFixed (pick_at devices idx) fixed, pick_at devices idx) ∧
    ∀ idx', length idx' = need → ascending 0 (length devices) idx' →
      (setScoreWithFixed (pick_at devices idx') fixed ≤ setScoreWithFixed (pick_at devices idx) fixed)%Z.
Proof. apply search_optimal. Qed.

(** Four GPUs with the given link types between them. *)
Definition demo_gpus (edges : list (Z * Z * P2PLinkType)) : list GDevice :=
  (λ i, {| g_Index := i; g_UUID := Itoa i; g_BusID := "";
           g_Links := list_to_map
             (omap (λ '(a, b, t), if bool_decide (a = i) then Some (b, [t])
                                  else if bool_decide (b = i) then Some (a, [t]) else None) edges) |})
  <$> [0; 1; 2; 3]%Z.

Lemma searchBestSubset_optimal_witness :
  let gpus := demo_gpus [(0, 1, 7); (0, 2, 8); (1, 3, 8); (2, 3, 7)]%Z in
  (g_Index <$> (searchBestSubset gpus 2).2 = [0; 2]%Z ∧ (searchBestSubset gpus 2).1 = 200%Z) ∧
  ∃ idx, length idx = 2 ∧ ascending 0 (length gpus) idx ∧
    searchBestSubsetWithFixed gpus [] 2 = (setScoreWithFixed (pick_at gpus idx) [], pick_at gpus idx) ∧
    ∀ idx', length idx' = 2 → ascending 0 (length gpus) idx' →
      (setScoreWithFixed (pick_at gpus idx') [] ≤ setScoreWithFixed (pick_at gpus idx) [])%Z.
Proof.
  split; [vm_compute; done|]. apply (searchBestSubset_optimal _ [] 2). simpl. lia.
Defined.

(** ** The greedy pick *)

Lemma best_gain_fold chosen (used : list bool) (l : list (nat * GDevice)) :
  match fold_left (λ '(bestIdx, bestGain) '(i, cand),
      if default false (used !! i) then (bestIdx, bestGain)
      else
        let gain := Zsum ((λ c, PairScore c cand) <$> chosen) in
        if bool_decide (bestGain < gain)%Z then (Some i, gain) else (bestIdx, bestGain)) l (None, (-1)%Z) with
  | (None, g) => g = (-1)%Z ∧ ∀ p, p ∈ l → default false (used !! p.1) = true
  | (Some i, _) => i ∈ l.*1 ∧ default false (used !! i) = false
  end.
Proof.
  induction l as [|[i cand] l IH] using rev_ind; [split; [done|]; by intros p Hp%elem_of_nil|].
  rewrite fold_left_app, fmap_app. cbn [fold_left]. destruct (fold_left _ l _) as [[j|] g].
  - destruct IH as [Hj Hu]. destruct (default false (used !! i)) eqn:E; [set_solver|].
    case_bool_decide; (split; [set_solver|done]).
  - destruct IH as [-> Hu]. destruct (default false (used !! i)) eqn:E.
    + split; [done|]. intros p [Hp| ->%list_elem_of_singleton]%elem_of_app; [by apply Hu|done].
    + cbv zeta. rewrite bool_decide_eq_true_2; [split; [set_solver|done]|].
      assert (0 ≤ Zsum ((λ c, PairScore c cand) <$> chosen))%Z; [|lia].
      apply Zsum_nonneg, Forall_fmap, Forall_forall. intros. apply PairScore_nonneg.
Qed.

Lemma best_gain_spec chosen devices used i0 :
  i0 < length devices → default false (used !! i0) = false →
  ∃ i d, best_gain chosen devices used = Some i ∧ devices !! i = Some d ∧ default false (used !! i) = false.
Proof.
  intros Hi0 Hu0. unfold best_gain.
  pose proof (best_gain_fold chosen used (zip (seq 0 (length devices)) devices)) as H.
  destruct (fold_left _ _ _) as [[i|] g]; simpl.
  - destruct H as [Hi Hu]. rewrite fst_zip in Hi by by rewrite length_seq.
    apply elem_of_seq in Hi as [_ Hi]. destruct (lookup_lt_is_Some_2 devices i) as [d Hd]; [lia|]. eauto.
  - destruct H as [_ H]. destruct (lookup_lt_is_Some_2 devices i0 Hi0) as [d Hd].
    specialize (H (i0, d)). simpl in H. rewrite Hu0 in H. discriminate H.
    apply list_elem_of_lookup. exists i0. apply lookup_zip_Some. split; [|done]. by apply lookup_seq.
Qed.

Lemma pick_at_app {A} (l : list A) i j : pick_at l (i ++ j) = pick_at l i ++ pick_at l j.
Proof. apply omap_app. Qed.

Lemma length_pick_at {A} (l : list A) idx : Forall (λ i, i < length l) idx → length (pick_at l idx) = length idx.
Proof.
  induction 1 as [|i idx Hi _ IH]; [done|]. simpl. destruct (lookup_lt_is_Some_2 l i Hi) as [x ->]. simpl. by f_equal.
Qed.

(** [used] marks exactly the positions [js]. *)
Definition marks (devices : list GDevice) (used : list bool) (js : list nat) : Prop :=
  length used = length devices ∧ ∀ i, default false (used !! i) = true ↔ i ∈ js.

Lemma marks_free devices used js :
  marks devices used js → NoDup js → Forall (λ i, i < length devices) js → length js < length devices →
  ∃ i, i < length devices ∧ default false (used !! i) = false.
Proof.
  intros [Hl Hm] Hnd Hf Hlt. destruct (decide (Exists (λ i, i ∉ js) (seq 0 (length devices)))) as [He|Hne].
  - apply Exists_exists in He as (i & Hi%elem_of_seq & Hn). exists i. split; [lia|].
    apply not_true_iff_false. by rewrite Hm.
  - exfalso. apply not_Exists_Forall in Hne; [|apply _].
    assert (seq 0 (length devices) ⊆+ js) as Hsub%submseteq_length.
    { apply NoDup_submseteq; [apply NoDup_seq|]. intros i Hi. rewrite Forall_forall in Hne.
      specialize (Hne i Hi). by apply dec_stable in Hne. }
    rewrite length_seq in Hsub. lia.
Qed.

Lemma greedy_loop_spec rounds devices fixed used js :
  marks devices used js → NoDup js → Forall (λ i, i < length devices) js → length js + rounds ≤ length devices →
  ∃ js', greedy_loop rounds devices (fixed ++ pick_at devices js) used = fixed ++ pick_at devices (js ++ js') ∧
    NoDup (js ++ js') ∧ Forall (λ i, i < length devices) (js ++ js') ∧ length js' = rounds.
Proof.
  revert used js. induction rounds as [|rounds IH]; intros used js Hm Hnd Hf Hlen; simpl.
  { exists []. rewrite app_nil_r. done. }
  destruct (marks_free _ _ _ Hm Hnd Hf) as (i0 & Hi0 & Hu0); [lia|].
  destruct (best_gain_spec (fixed ++ pick_at devices js) devices used i0 Hi0 Hu0) as (i & d & -> & Hd & Hu).
  rewrite Hd. pose proof Hm as [Hl Hmk].
  assert (i ∉ js) as Hi by (rewrite <- Hmk, Hu; done).
  assert (i < length devices) as Hlt by by eapply lookup_lt_Some.
  destruct (IH (<[i := true]> used) (js ++ [i])) as (js' & Hg & Hnd' & Hf' & Hl').
  - split; [by rewrite length_insert|]. intros j. rewrite elem_of_app, list_elem_of_singleton, <- Hmk.
    destruct (decide (i = j)) as [->|Hne]; [rewrite list_lookup_insert_eq by lia; naive_solver|].
    rewrite list_lookup_insert_ne by done. naive_solver.
  - apply NoDup_app. split_and!; [done| |apply NoDup_singleton]. set_solver.
  - apply Forall_app. split; [done|]. by constructor.
  - rewrite length_app. simpl. lia.
  - exists (i :: js'). rewrite pick_at_app in Hg. simpl in Hg. rewrite Hd in Hg. simpl in Hg.
    rewrite <- !app_assoc in *. simpl in *. rewrite Hg. by rewrite Hl'.
Qed.

(** The greedy pick takes [need] devices at distinct positions. *)
Lemma greedyPick_spec devices fixed need :
  0 < need ≤ length devices →
  ∃ js, greedyPick devices fixed need = pick_at devices js ∧ NoDup js ∧
        Forall (λ i, i < length devices) js ∧ length js = need.
Proof.
  intros Hn. unfold greedyPick. rewrite bool_decide_eq_false_2 by lia.
  destruct (greedy_loop_spec need devices fixed (replicate (length devices) false) []) as (js & Hg & Hnd & Hf & Hl).
  - split; [by rewrite length_replicate|]. intros i. destruct (replicate _ _ !! i) as [b|] eqn:E; [|set_solver].
    apply lookup_replicate in E as [-> _]. set_solver.
  - constructor.
  - constructor.
  - simpl. lia.
  - simpl in *. rewrite app_nil_r in Hg. rewrite Hg. exists js. by rewrite drop_app_length.
Qed.

(** ** Counting combinations *)

Lemma binomial_0 n : binomial n 0 = 1.
Proof. by destruct n. Qed.

Lemma binomial_absorb n k : S k * binomial (S n) (S k) = S n * binomial n k.
Proof.
  revert k. induction n as [|n IH]; intros k; [destruct k; simpl; lia|].
  change (binomial (S (S n)) (S k)) with (binomial (S n) k + binomial (S n) (S k)).
  destruct k as [|k]; [specialize (IH 0); rewrite !binomial_0 in *; lia|].
  pose proof (IH k). pose proof (IH (S k)).
  change (binomial (S n) (S k)) with (binomial n k + binomial n (S k)) in *. nia.
Qed.

Lemma binomial_sym a b : binomial (a + b) a = binomial (a + b) b.
Proof.
  remember (a + b) as n eqn:E. revert a b E. induction n as [|n IH]; intros a b E.
  { by replace a with 0 by lia; replace b with 0 by lia. }
  assert (∀ m j, m < j → binomial m j = 0) as Hz.
  { induction m as [|m IHm]; intros [|j] ?; simpl; try lia. rewrite !IHm; lia. }
  assert (∀ m, binomial m m = 1) as Hd.
  { induction m as [|m IHm]; [done|]. simpl. rewrite IHm, Hz; lia. }
  destruct a as [|a], b as [|b]; simpl in E; [lia| | |].
  - replace b with n by lia. by rewrite binomial_0, Hd.
  - replace a with n by lia. by rewrite binomial_0, Hd.
  - simpl. rewrite (IH a (S b)), (IH (S a) b) by lia. lia.
Qed.

Lemma binomial_diag_mono m j j' : j ≤ j' → binomial (m + j) j ≤ binomial (m + j') j'.
Proof.
  induction 1 as [|j' _ IH]; [done|]. rewrite Nat.add_succ_r. simpl. lia.
Qed.

Lemma count_loop_spec rounds (m i : nat) n k :
  (n - k = Z.of_nat m)%Z → (Z.of_nat (m + i + rounds) < 2 ^ 31)%Z → (Z.of_nat (binomial (m + i) i) ≤ maxCombinationSearch)%Z →
  count_loop rounds n k (Z.of_nat (S i)) (Z.of_nat (binomial (m + i) i))
  = Z.min (Z.of_nat (binomial (m + i + rounds) (i + rounds))) (maxCombinationSearch + 1).
Proof.
  intros Hm. revert i. induction rounds as [|rounds IH]; intros i Hlt Hb; cbn [count_loop].
  { rewrite !Nat.add_0_r. lia. }
  rewrite Hm. pose proof (binomial_absorb (m + i) i) as Ha. rewrite <- Nat.add_succ_r in Ha.
  set (b := binomial (m + i) i) in *. set (b' := binomial (m + S i) (S i)) in *.
  rewrite wrap64_id by (unfold in64, int64_min, int64_max, maxCombinationSearch in *; nia).
  replace (Z.of_nat b * (Z.of_nat m + Z.of_nat (S i)))%Z with (Z.of_nat b' * Z.of_nat (S i))%Z by lia.
  rewrite Z.quot_mul by lia. case_bool_decide as Hs.
  - pose proof (binomial_diag_mono m (S i) (i + S rounds) ltac:(lia)) as Hmono. fold b' in Hmono.
    rewrite <- Nat.add_assoc. lia.
  - replace (Z.of_nat (S i) + 1)%Z with (Z.of_nat (S (S i))) by lia. subst b b'.
    replace (m + i + S rounds) with (m + S i + rounds) by lia. replace (i + S rounds) with (S i + rounds) by lia.
    apply IH; lia.
Qed.

(** C36 [combinationCount] is the binomial coefficient, saturated one above the
    search budget: it never overflows on the way, so the comparison with the
    budget is exact for any realistic number of devices. *)
Theorem combinationCount_binomial (n k : nat) :
  k ≤ n → (Z.of_nat n < 2 ^ 31)%Z →
  combinationCount (Z.of_nat n) (Z.of_nat k) = Z.min (Z.of_nat (binomial n k)) (maxCombinationSearch + 1).
Proof.
  intros Hk Hn. unfold combinationCount. rewrite bool_decide_eq_false_2 by lia.
  assert (∀ j, j ≤ n → count_loop j (Z.of_nat n) (Z.of_nat j) 1 1
    = Z.min (Z.of_nat (binomial n j)) (maxCombinationSearch + 1)) as Hj.
  { intros j Hjn. pose proof (count_loop_spec j (n - j) 0 (Z.of_nat n) (Z.of_nat j)) as Hc.
    rewrite binomial_0 in Hc. replace (n - j + 0 + j) with n in Hc by lia. unfold maxCombinationSearch in *. apply Hc; lia. }
  case_bool_decide as Hc.
  - replace (Z.of_nat n - Z.of_nat k)%Z with (Z.of_nat (n - k)) by lia. rewrite Nat2Z.id, Hj by lia.
    replace n with (k + (n - k)) at 1 3 by lia. by rewrite (binomial_sym k (n - k)).
  - by rewrite Nat2Z.id, Hj.
Qed.

Lemma combinationCount_binomial_witness :
  (combinationCount 8 4 = 70 ∧ combinationCount 32 16 = 50001)%Z ∧
  combinationCount (Z.of_nat 8) (Z.of_nat 4) = Z.min (Z.of_nat (binomial 8 4)) (maxCombinationSearch + 1).
Proof. split; [done|]. apply (combinationCount_binomial 8 4); lia. Defined.
