(* ===== verification/DemoNode.v ===== *)
(** * A concrete node

    Four cards on two NUMA nodes, paired by NVLink and joined across CPUs, as
    [NewNodeInfo] builds it; the examples of the later files run on it. *)

From stdpp Require Import base list gmap strings.
From Stdlib Require Import ZArith.
From S2P Require Import Prelude GoMap GoSort GoStrings Float64 GoTime Kube Claims Links Topology Device Footprint.
From S2P Require Import Reason NodeInfo.

Module DemoNode.
#[export] Existing Instance canonical_order.
#[export] Existing Instance Demo.env.

Definition card (id : Z) (numa memory : Z) : DeviceInfo :=
  {| di_Id := id; di_Type := "A10"; di_Uuid := "GPU-" +:+ Itoa id; di_Core := 100; di_Memory := memory;
     di_Number := 10; di_Numa := numa; di_Mig := false; di_BusId := ""; di_Capability := f64_of_Z 8;
     di_Healthy := true |}.

Definition links_of (edges : list (Z * Z * P2PLinkType)) (i : Z) : TopologyInfo :=
  {| ti_Index := i;
     ti_Links := list_to_map (omap (λ '(a, b, t), if bool_decide (a = i) then Some (b, [t])
                                                  else if bool_decide (b = i) then Some (a, [t]) else None) edges) |}.

Definition config : NodeConfigInfo :=
  {| nc_DeviceSplit := 10; nc_CoresScaling := f64_1; nc_MemoryFactor := 1; nc_MemoryScaling := f64_1 |}.

(** The topology annotation decodes to [topo]. *)
Definition decoders (topo : list TopologyInfo) : NodeDecoders :=
  {| device_error_text _ := "malformed"; config_error_text _ := "malformed"; decode_NodeDeviceInfo _ := None;
     decode_NodeConfigInfo _ := None; decode_NodeTopology _ := Some topo; decode_GPURail _ := None |}.

Definition node (name : string) : Node :=
  {| n_Name := name; n_Labels := ∅;
     n_Annotations := {[ NodeDeviceTopologyAnnotation := "published" ]}; n_Allocatable := ∅;
     n_DeletionTimestamp := None; n_Taints := [] |}.

Definition options (cards : list DeviceInfo) (pods : list Pod) : NodeInfoOption :=
  {| no_excludedUidSet := ∅; no_nodePods := pods; no_nodeConfig := Some config; no_nodeDevice := Some cards;
     no_resetUsed := false; no_resetPods := false; no_gpuTopologyEnabled := true |}.

Definition build (cards : list DeviceInfo) (topo : list TopologyInfo) (pods : list Pod) : result gather_error NodeInfo :=
  @NewNodeInfo _ _ (decoders topo) (node "node-a") (options cards pods).

Definition cards : list DeviceInfo := [card 0 0 24000; card 1 0 24000; card 2 1 24000; card 3 1 24000].

Definition edges : list (Z * Z * P2PLinkType) :=
  [(0, 1, SingleNVLINKLink); (2, 3, SingleNVLINKLink); (0, 2, P2PLinkCrossCPU); (0, 3, P2PLinkCrossCPU);
   (1, 2, P2PLinkCrossCPU); (1, 3, P2PLinkCrossCPU)]%Z.

Definition built : result gather_error NodeInfo := build cards (links_of edges <$> [0; 1; 2; 3]%Z) [].

(** The built node; [built] succeeds. *)
Definition info : NodeInfo :=
  match built with
  | Ok n => n
  | Fail _ => {| ni_node := node ""; ni_deviceMap := ∅; ni_deviceIndexMap := ∅; ni_deviceList := [];
                 ni_stats := zero_stats; ni_gpuTopology := false; ni_numaTopology := false; ni_tiers := None;
                 ni_gpuRail := ∅; ni_maxNUMAGroupSize := 0; ni_nvlink := empty_nvlink; ni_nodePods := [];
                 ni_config := config |}
  end.

Definition devices : list Device := NewDevice <$> cards.
End DemoNode.
