(* ===== verification/Numa.v ===== *)
(** * NUMA-aligned allocation ([pkg/device/allocator/numa.go], [allocator.go])

    Devices are bucketed by NUMA node; the policy orders the nodes and the
    first one that is large enough provides the devices.  A callback that
    stops the visit is the search for that node. *)

From stdpp Require Import base list gmap strings.
From Stdlib Require Import ZArith Lia.
From S2P Require Import Prelude GoMap GoSort GoStrings Float64 GoTime Kube Claims Reason Links Topology Device.
From S2P Require Import Footprint NodeInfo Request Scoring DemoNode.

Open Scope Z_scope.

Notation NumaNodeDevice := (gmap Z (list Device)).

Definition NewNumaNodeDevice (devices : list Device) : NumaNodeDevice :=
  fold_left (λ m dev, if bool_decide (d_numa dev < 0) then m
                      else <[d_numa dev := default [] (m !! d_numa dev) ++ [dev]]> m) devices ∅.

(** [buildClaims]: a zero request is the whole card's memory. *)
Definition claim_of (needCores needMemory : Z) (d : Device) : DeviceClaim :=
  {| dc_Id := d_id d; dc_Uuid := d_uuid d; dc_Cores := needCores;
     dc_Memory := if bool_decide (needMemory = 0) then GetTotalMemory d else needMemory |}.

Definition buildClaims (picked : list Device) (needCores needMemory : Z) : list DeviceClaim :=
  claim_of needCores needMemory <$> picked.

Section numa.
Context `{MapOrder}.

Definition MaxDeviceNumberForNumaNode (n : NumaNodeDevice) : Z :=
  fold_left (λ maxNum devices, Z.max maxNum (Z.of_nat (length devices))) (range n).*2 0.

Definition numa_score (n : NumaNodeDevice) (profile : RequestProfile) (mode : SchedulerPolicy) (numaNode : Z) : float64 :=
  Scoring.Score (NumaUtilization (default [] (n !! numaNode))) profile mode.

Definition sortByScoreDesc (n : NumaNodeDevice) (profile : RequestProfile) (mode : SchedulerPolicy) : list Z :=
  sort_slice (λ a b, f64_lt (numa_score n profile mode b) (numa_score n profile mode a)) (range n).*1.

(** The order in which [SchedulerPolicyCallback] visits the NUMA nodes. *)
Definition numa_order (n : NumaNodeDevice) (profile : RequestProfile) (policy : SchedulerPolicy) : list Z :=
  if bool_decide (policy = BinpackPolicy) then sortByScoreDesc n profile BinpackPolicy
  else if bool_decide (policy = SpreadPolicy) then sortByScoreDesc n profile SpreadPolicy
  else sort_slice (by_key id) (range n).*1.

(** The first visited node the callback accepts: it has enough devices. *)
Fixpoint first_fitting (n : NumaNodeDevice) (needNumber : nat) (order : list Z) : option (list Device) :=
  match order with
  | [] => None
  | numaNode :: order' =>
      let devices := default [] (n !! numaNode) in
      if bool_decide (length devices < needNumber)%nat then first_fitting n needNumber order'
      else Some (take needNumber devices)
  end.

Definition CanNotCrossNumaNode (gpuNumber : nat) (devices : list Device) : option NumaNodeDevice :=
  let numaDevices := NewNumaNodeDevice devices in
  if bool_decide (Z.of_nat gpuNumber ≤ MaxDeviceNumberForNumaNode numaDevices) then Some numaDevices else None.

(** The devices [allocateNUMA] claims; [None] is a failed attempt. *)
Definition pickNUMA (n : NodeInfo) (deviceStore : list Device) (profile : RequestProfile) (policy : SchedulerPolicy)
    (needNumber : nat) : option (list Device) :=
  if negb (HasNUMATopology n) then None
  else
    match CanNotCrossNumaNode needNumber deviceStore with
    | None => None
    | Some numaNode =>
        let picked := default [] (first_fitting numaNode needNumber (numa_order numaNode profile policy)) in
        if bool_decide (length picked ≠ needNumber) then None else Some picked
    end.

Definition allocateNUMA (n : NodeInfo) (deviceStore : list Device) (profile : RequestProfile)
    (policy : SchedulerPolicy) (needNumber : nat) (needCores needMemory : Z) : option (list DeviceClaim) :=
  (λ picked, buildClaims picked needCores needMemory) <$> pickNUMA n deviceStore profile policy needNumber.

(** ** Proofs *)

(** The devices of the store on one NUMA node, in store order. *)
Definition on_numa (store : list Device) (k : Z) : list Device := filter (λ d, d_numa d = k) store.

Lemma numa_lookup store k :
  NewNumaNodeDevice store !! k
  = if decide (0 ≤ k ∧ on_numa store k ≠ []) then Some (on_numa store k) else None.
Proof.
  unfold NewNumaNodeDevice. induction store as [|d store IH] using rev_ind.
  { rewrite decide_False by (intros [_ Hne]; by apply Hne). apply lookup_empty. }
  rewrite fold_left_app. cbn [fold_left]. set (m := fold_left _ store ∅) in *.
  unfold on_numa in *. rewrite filter_snoc. case_bool_decide as Hneg.
  - rewrite IH. destruct (decide (d_numa d = k)) as [E|E].
    + rewrite !decide_False by (intros [? _]; lia). done.
    + rewrite app_nil_r. done.
  - rewrite lookup_insert. destruct (decide (d_numa d = k)) as [E|E].
    + rewrite (decide_True (P := 0 ≤ k ∧ _)); [|split; [lia|by destruct (filter _ store)]].
      rewrite E, IH. case_decide as Hd; [done|]. simpl.
      destruct (filter _ store) as [|x l] eqn:Ef; [done|]. exfalso. apply Hd. split; [lia|done].
    + by rewrite app_nil_r, IH.
Qed.

Lemma on_numa_sublist store k : on_numa store k `sublist_of` store.
Proof. apply sublist_filter. Qed.

(** Every NUMA node of the grouping is visited. *)
Lemma elem_of_numa_order n profile policy k : k ∈ numa_order n profile policy ↔ is_Some (n !! k).
Proof.
  assert (k ∈ (range n).*1 ↔ is_Some (n !! k)) as Hr.
  { rewrite list_elem_of_fmap. split.
    - intros ([k' l] & -> & Hk%elem_of_range). by exists l.
    - intros [l Hl]. exists (k, l). split; [done|]. by apply elem_of_range. }
  unfold numa_order, sortByScoreDesc. repeat case_bool_decide; by rewrite elem_of_sort_slice.
Qed.

Lemma first_fitting_spec n need order :
  match first_fitting n need order with
  | Some picked => ∃ k, k ∈ order ∧ (need ≤ length (default [] (n !! k)))%nat ∧ picked = take need (default [] (n !! k))
  | None => ∀ k, k ∈ order → (length (default [] (n !! k)) < need)%nat
  end.
Proof.
  induction order as [|k order IH]; simpl; [by intros k ?%elem_of_nil|]. case_bool_decide as Hlt.
  - destruct (first_fitting n need order).
    + destruct IH as (k' & Hk' & ? & ?). exists k'. split; [by right|done].
    + intros k' [->|Hk']%elem_of_cons; [done|by apply IH].
  - exists k. split; [by left|]. split; [lia|done].
Qed.

Lemma max_numa_spec n b :
  Z.of_nat b ≤ MaxDeviceNumberForNumaNode n ↔ b = 0%nat ∨ ∃ k l, n !! k = Some l ∧ (b ≤ length l)%nat.
Proof.
  unfold MaxDeviceNumberForNumaNode.
  assert (∀ l acc, Z.of_nat b ≤ fold_left (λ maxNum (devices : list Device), Z.max maxNum (Z.of_nat (length devices))) l acc
    ↔ Z.of_nat b ≤ acc ∨ ∃ x, x ∈ l ∧ (b ≤ length x)%nat) as Hf.
  { induction l as [|x l IH]; intros acc; simpl; [set_solver|]. rewrite IH. split.
    - intros [Hb|(y & Hy & Hb)]; [|right; exists y; split; [by right|done]].
      destruct (Z.le_gt_cases (Z.of_nat b) acc); [by left|]. right. exists x. split; [by left|lia].
    - intros [Hb|(y & [->|Hy]%elem_of_cons & Hb)]; [left; lia|left; lia|right; eauto]. }
  rewrite Hf. split.
  - intros [Hb|(l & Hl & Hb)]; [left; lia|]. right. apply list_elem_of_fmap in Hl as ([k l'] & -> & Hk%elem_of_range).
    by exists k, l'.
  - intros [->|(k & l & Hk & Hb)]; [left; lia|]. right. exists l. split; [|done].
    apply list_elem_of_fmap. exists (k, l). split; [done|]. by apply elem_of_range.
Qed.

(** The outcome of the NUMA attempt on every branch. *)
Lemma pickNUMA_spec n store profile policy need :
  (0 < need)%nat →
  match pickNUMA n store profile policy need with
  | Some picked => HasNUMATopology n = true ∧
      ∃ k, 0 ≤ k ∧ (need ≤ length (on_numa store k))%nat ∧ picked = take need (on_numa store k)
  | None => HasNUMATopology n = false ∨ ∀ k, 0 ≤ k → (length (on_numa store k) < need)%nat
  end.
Proof.
  intros Hneed. unfold pickNUMA, CanNotCrossNumaNode. destruct (HasNUMATopology n); simpl; [|by left].
  pose proof (max_numa_spec (NewNumaNodeDevice store) need) as Hmax. case_bool_decide as Hle.
  - apply Hmax in Hle as [?|(k0 & l0 & Hk0 & Hl0)]; [lia|].
    pose proof (first_fitting_spec (NewNumaNodeDevice store) need
      (numa_order (NewNumaNodeDevice store) profile policy)) as Hff.
    destruct (first_fitting _ need _) as [picked|]; simpl.
    + destruct Hff as (k & [l Hk]%elem_of_numa_order & Hlen & ->). rewrite Hk in *. simpl in *.
      rewrite numa_lookup in Hk. case_decide as Hc; [|done]. injection Hk as <-.
      rewrite bool_decide_eq_false_2 by (intros Hne; apply Hne; rewrite length_take; lia).
      split; [done|]. exists k. tauto.
    + specialize (Hff k0). rewrite Hk0 in Hff. simpl in Hff.
      exfalso. assert (k0 ∈ numa_order (NewNumaNodeDevice store) profile policy) as Hin
        by (apply elem_of_numa_order; eauto).
      specialize (Hff Hin). lia.
  - right. intros k Hk. destruct (decide (length (on_numa store k) < need)%nat) as [|Hge]; [done|].
    exfalso. apply Hle, Hmax. right. exists k, (on_numa store k). split; [|lia].
    rewrite numa_lookup, decide_True; [done|]. split; [done|]. destruct (on_numa store k); [simpl in *; lia|done].
Qed.
End numa.

(** C33 A NUMA-aligned allocation takes the requested number of devices, in
    store order, from one NUMA node with a known id; the attempt fails exactly
    when the node publishes no NUMA topology or no single NUMA node of the
    store has that many devices. *)
Theorem allocateNUMA_aligned `{MapOrder} n store profile policy need needCores needMemory :
  (0 < need)%nat →
  match allocateNUMA n store profile policy need needCores needMemory with
  | Some claims => ∃ k picked, 0 ≤ k ∧ picked `sublist_of` store ∧ Forall (λ d, d_numa d = k) picked ∧
      length picked = need ∧ claims = buildClaims picked needCores needMemory
  | None => HasNUMATopology n = false ∨ ∀ k, 0 ≤ k → (length (on_numa store k) < need)%nat
  end.
Proof.
  intros Hneed. unfold allocateNUMA. pose proof (pickNUMA_spec n store profile policy need Hneed) as Hp.
  destruct (pickNUMA n store profile policy need) as [picked|]; simpl; [|done].
  destruct Hp as (_ & k & Hk & Hlen & ->). exists k, (take need (on_numa store k)). split_and!.
  - done.
  - etrans; [apply sublist_take|apply on_numa_sublist].
  - apply Forall_take, Forall_forall. by intros d [? _]%list_elem_of_filter.
  - rewrite length_take. lia.
  - done.
Qed.

Lemma default_order_unique (o1 o2 : MapOrder) n profile policy :
  policy ≠ BinpackPolicy → policy ≠ SpreadPolicy → @numa_order o1 n profile policy = @numa_order o2 n profile policy.
Proof.
  intros Hb Hs. unfold numa_order. rewrite !bool_decide_eq_false_2 by done.
  apply (sort_slice_unique (λ _, True)).
  - apply by_key_sw.
  - by apply by_key_separates.
  - by apply Forall_forall.
  - by rewrite !range_perm.
Qed.

Lemma max_numa_order (o1 o2 : MapOrder) n :
  @MaxDeviceNumberForNumaNode o1 n = @MaxDeviceNumberForNumaNode o2 n.
Proof.
  unfold MaxDeviceNumberForNumaNode. apply fold_left_perm; [intros; lia|]. by rewrite !range_perm.
Qed.

(** C39 Without a device policy the chosen NUMA node does not depend on Go's map
    iteration order.  With binpack or spread it can: NUMA groups of equal
    score keep the order the map was ranged in. *)
Theorem numa_choice_order (n : NodeInfo) :
  (∀ (o1 o2 : MapOrder) store profile policy need, policy ≠ BinpackPolicy → policy ≠ SpreadPolicy →
     @pickNUMA o1 n store profile policy need = @pickNUMA o2 n store profile policy need) ∧
  (HasNUMATopology n = true → ∃ (o1 o2 : MapOrder) store, ∀ policy, policy ∈ [BinpackPolicy; SpreadPolicy] →
     (d_id <$> default [] (@pickNUMA o1 n store UniformProfile policy 2)) ≠
     (d_id <$> default [] (@pickNUMA o2 n store UniformProfile policy 2))).
Proof.
  split.
  - intros o1 o2 store profile policy need Hb Hs. unfold pickNUMA, CanNotCrossNumaNode.
    rewrite (max_numa_order o1 o2).
    case_bool_decide; [|done]. by rewrite (default_order_unique o1 o2) by done.
  - intros Hn. exists canonical_order, reversed_order, DemoNode.devices. unfold pickNUMA. rewrite Hn. cbn [negb].
    intros policy [->|[->|[]%elem_of_nil]%elem_of_cons]%elem_of_cons; vm_compute; discriminate.
Qed.

Module NumaDemo.
Import DemoNode.

Lemma allocateNUMA_aligned_witness :
  (dc_Id <$> default [] (allocateNUMA info devices UniformProfile NonePolicy 2 10 1000) = [0; 1]) ∧
  match allocateNUMA info devices UniformProfile NonePolicy 2 10 1000 with
  | Some claims => ∃ k picked, 0 ≤ k ∧ picked `sublist_of` devices ∧ Forall (λ d, d_numa d = k) picked ∧
      length picked = 2%nat ∧ claims = buildClaims picked 10 1000
  | None => HasNUMATopology info = false ∨ ∀ k, 0 ≤ k → (length (on_numa devices k) < 2)%nat
  end.
Proof.
  split; [vm_compute; reflexivity|]. apply (allocateNUMA_aligned info devices UniformProfile NonePolicy 2 10 1000). lia.
Defined.
End NumaDemo.
