(* ===== verification/Tiered.v ===== *)
(** * Tiered link allocation ([pkg/device/allocator/tiered.go])

    The tier walk: candidates are grouped into components connected at a tier,
    the tightest tier with a large enough component wins, and within a
    component whole runs of equal policy score are taken in order, link
    quality deciding inside the run that overflows.  Requested counts are
    positive ([BuildAllocationRequest] keeps no other container), here [nat];
    the metrics of the search are not modelled. *)

From stdpp Require Import base list gmap strings.
From Stdlib Require Import ZArith Lia.
From S2P Require Import Prelude GoMap GoSort GoStrings Float64 GoTime Kube Claims Reason UnionFind Links Topology.
From S2P Require Import Device Footprint NodeInfo Request Scoring SubsetSearch.

#[local] Open Scope nat_scope.

Definition topologyProfile : RequestProfile := UniformProfile.

Record linkPlan := {
  lp_Devices : list Device;
  lp_Tier : LinkTier;
  lp_Spanned : bool
}.

Record componentGroup := {
  cg_root : nat;
  cg_devices : list Device
}.

(** ** Grouping *)

(** All [(i, j)] with [i < j < m], in the order of the nested loops. *)
Definition index_pairs (m : nat) : list (nat * nat) :=
  mjoin ((λ i, (λ j, (i, j)) <$> seq (S i) (m - S i)) <$> seq 0 m).

(** [candidates[i]] and [candidates[j]] have a link at the tier. *)
Definition candidates_linked (n : NodeInfo) (tier : LinkTier) (candidates : list Device) (i j : nat) : bool :=
  match candidates !! i, candidates !! j with
  | Some a, Some b => ConnectedAtTier n (d_uuid a) (d_uuid b) tier
  | _, _ => false
  end.

Definition link_pair (n : NodeInfo) (tier : LinkTier) (candidates : list Device) (parent : list nat)
    (pair : nat * nat) : list nat :=
  let '(i, j) := pair in
  if candidates_linked n tier candidates i j then
    let '(ri, parent) := find parent i in
    let '(rj, parent) := find parent j in
    if bool_decide (ri = rj) then parent else <[rj := ri]> parent
  else parent.

(** The devices whose root is [r], in candidate order. *)
Definition bucket (candidates : list Device) (roots : list nat) (r : nat) : list Device :=
  (filter (λ p, p.2 = r) (zip candidates roots)).*1.

Definition first_seen (l : list nat) : list nat :=
  fold_left (λ order r, if bool_decide (r ∈ order) then order else order ++ [r]) l [].

Definition nat_less (a b : nat) : bool := a <? b.

Definition groupByComponent (n : NodeInfo) (tier : LinkTier) (candidates : list Device) : list componentGroup :=
  let m := length candidates in
  let parent := fold_left (link_pair n tier candidates) (index_pairs m) (seq 0 m) in
  let roots := (snapshot_roots (seq 0 m) parent).1 in
  (λ r, {| cg_root := r; cg_devices := bucket candidates roots r |}) <$> sort_slice nat_less (first_seen roots).

Definition groupsWithAtLeast (groups : list componentGroup) (n : nat) : list componentGroup :=
  filter (λ g, n ≤ length (cg_devices g)) groups.

(** ** The link-aware shape of a device *)

Definition toLinkDevices (n : NodeInfo) (devices : list Device) : list GDevice :=
  let byUUID := fold_left (λ m d, match d with Some d => <[g_UUID d := d]> m | None => m end) (ni_deviceList n)
                  (∅ : gmap string GDevice) in
  omap (λ d, byUUID !! d_uuid d) devices.

Definition fromLinkDevices (picked : list GDevice) (store : list Device) : list Device :=
  let want : gset string := list_to_set (g_UUID <$> picked) in
  filter (λ d, d_uuid d ∈ want) store.

Definition inStoreOrder (picked store : list Device) : list Device :=
  let want : gset string := list_to_set (d_uuid <$> picked) in
  filter (λ d, d_uuid d ∈ want) store.

(** ** Picking a group *)

Definition bestLinkScore (n : NodeInfo) (devices : list Device) (tier : LinkTier) (needNumber : nat) : Z :=
  if bool_decide (length devices < needNumber ∨ needNumber < 2) then 0%Z
  else
    let linked := toLinkDevices n devices in
    if bool_decide (length linked < needNumber) then 0%Z
    else if LinkTierIsUniform n tier then
      match linked with
      | a :: b :: _ => (PairScore a b * Z.of_nat needNumber * (Z.of_nat needNumber - 1) ÷ 2)%Z
      | _ => 0%Z
      end
    else (searchBestSubset linked needNumber).1.

Record scored := { sc_group : componentGroup; sc_policyScore : float64; sc_linkScore : Z }.

Definition scored_less (x y : scored) : bool :=
  if negb (f64_eq (sc_policyScore x) (sc_policyScore y)) then f64_lt (sc_policyScore y) (sc_policyScore x)
  else if bool_decide (sc_linkScore x ≠ sc_linkScore y) then bool_decide (sc_linkScore y < sc_linkScore x)%Z
  else cg_root (sc_group x) <? cg_root (sc_group y).

Definition group_policy_score (req : AllocationRequest) (g : componentGroup) : float64 :=
  Scoring.Score (NumaUtilization (cg_devices g)) topologyProfile (rq_DevicePolicy req).

(** [None] only for no group at all, which the caller excludes. *)
Definition pickGroup (n : NodeInfo) (req : AllocationRequest) (groups : list componentGroup) (tier : LinkTier)
    (needNumber : nat) : option componentGroup :=
  if bool_decide (length groups = 1) then head groups
  else
    sc_group <$> head (sort_slice scored_less
      ((λ g, {| sc_group := g; sc_policyScore := group_policy_score req g;
                sc_linkScore := bestLinkScore n (cg_devices g) tier needNumber |}) <$> groups)).

(** ** Picking members *)

(** The loop of [policyRuns], with the current run and its score. *)
Fixpoint split_runs (score : Device → float64) (cur : float64) (run l : list Device) : list (list Device) :=
  match l with
  | [] => [run]
  | d :: l' =>
      let s := score d in
      if f64_eq s cur then split_runs score cur (run ++ [d]) l' else run :: split_runs score s [d] l'
  end.

Definition policyRuns (req : AllocationRequest) (devices : list Device) : list (list Device) :=
  match devices with
  | [] => []
  | d :: devices' =>
      if negb (bool_decide (rq_DevicePolicy req = BinpackPolicy)) && negb (bool_decide (rq_DevicePolicy req = SpreadPolicy))
      then [devices]
      else
        let score d := Scoring.Score (DeviceUtilization d) topologyProfile (rq_DevicePolicy req) in
        split_runs score (score d) [d] devices'
  end.

Definition pickWithinRun (n : NodeInfo) (run : list Device) (tier : LinkTier) (need : nat)
    (alreadyPicked : list Device) : list Device :=
  if bool_decide (length run ≤ need) then run
  else if LinkTierIsUniform n tier then take need run
  else
    let linkedRun := toLinkDevices n run in
    let linkedFixed := toLinkDevices n alreadyPicked in
    if bool_decide (maxCombinationSearch < combinationCount (Z.of_nat (length run)) (Z.of_nat need))%Z
    then fromLinkDevices (greedyPick linkedRun linkedFixed need) run
    else fromLinkDevices (searchBestSubsetWithFixed linkedRun linkedFixed need).2 run.

Fixpoint pick_runs (n : NodeInfo) (tier : LinkTier) (needNumber : nat) (picked : list Device) (runs : list (list Device))
  : list Device :=
  match runs with
  | [] => picked
  | run :: runs' =>
      let remaining := needNumber - length picked in
      if bool_decide (remaining = 0) then picked
      else if bool_decide (length run ≤ remaining) then pick_runs n tier needNumber (picked ++ run) runs'
      else picked ++ pickWithinRun n run tier remaining picked
  end.

(** The empty list is Go's nil. *)
Definition pickMembers (n : NodeInfo) (req : AllocationRequest) (devices : list Device) (tier : LinkTier)
    (needNumber : nat) : list Device :=
  if bool_decide (length devices < needNumber) then []
  else
    let picked := pick_runs n tier needNumber [] (policyRuns req devices) in
    if bool_decide (length picked ≠ needNumber) then [] else inStoreOrder picked devices.

(** ** Spanning components *)

Definition span_less (req : AllocationRequest) (x y : componentGroup) : bool :=
  if bool_decide (length (cg_devices x) ≠ length (cg_devices y)) then length (cg_devices y) <? length (cg_devices x)
  else
    let si := group_policy_score req x in
    let sj := group_policy_score req y in
    if negb (f64_eq si sj) then f64_lt sj si else cg_root x <? cg_root y.

Fixpoint span_loop (n : NodeInfo) (req : AllocationRequest) (tier : LinkTier) (needNumber : nat) (all : list Device)
    (groups : list componentGroup) : list Device :=
  match groups with
  | [] => all
  | g :: groups' =>
      let remaining := needNumber - length all in
      if bool_decide (remaining = 0) then all
      else
        let take := if bool_decide (length (cg_devices g) < remaining) then length (cg_devices g) else remaining in
        span_loop n req tier needNumber (all ++ pickMembers n req (cg_devices g) tier take) groups'
  end.

Definition spanGroups (n : NodeInfo) (req : AllocationRequest) (candidates : list Device) (groups : list componentGroup)
    (tier : LinkTier) (needNumber : nat) : list Device :=
  let all := span_loop n req tier needNumber [] (sort_slice (span_less req) groups) in
  if bool_decide (length all ≠ needNumber) then [] else inStoreOrder all candidates.

Section walk.
Context `{MapOrder}.

(** A lone device counts only with a peer at the tier. *)
Definition group_connected (n : NodeInfo) (tier : LinkTier) (g : componentGroup) : bool :=
  (1 <? length (cg_devices g)) ||
  match cg_devices g with d :: _ => HasLinkPeerAtTier n (d_uuid d) tier | [] => false end.

Definition groupsFittingAtTier (n : NodeInfo) (groups : list componentGroup) (tier : LinkTier) (needNumber : nat)
  : list componentGroup :=
  let fitting := groupsWithAtLeast groups needNumber in
  if bool_decide (1 < needNumber) then fitting
  else filter (λ g, group_connected n tier g = true) fitting.

(** One tier of the walk. *)
Definition plan_at_tier (n : NodeInfo) (req : AllocationRequest) (candidates : list Device) (needNumber : nat)
    (tier : LinkTier) : option linkPlan :=
  let groups := groupByComponent n tier candidates in
  let single :=
    match groupsFittingAtTier n groups tier needNumber with
    | [] => None
    | fitting =>
        match pickGroup n req fitting tier needNumber with
        | None => None
        | Some best =>
            let picked := pickMembers n req (cg_devices best) tier needNumber in
            if bool_decide (length picked = needNumber)
            then Some {| lp_Devices := picked; lp_Tier := tier; lp_Spanned := false |} else None
        end
    end in
  match groups, single with
  | [], _ => None
  | _, Some plan => Some plan
  | _, None =>
      if bool_decide (tier = TierAny) && bool_decide (1 < needNumber) then
        let picked := spanGroups n req candidates groups tier needNumber in
        if bool_decide (length picked = needNumber)
        then Some {| lp_Devices := picked; lp_Tier := tier; lp_Spanned := true |} else None
      else None
  end.

Fixpoint tier_walk (n : NodeInfo) (req : AllocationRequest) (candidates : list Device) (needNumber : nat)
    (tiers : list LinkTier) : option linkPlan :=
  match tiers with
  | [] => None
  | tier :: tiers' =>
      match plan_at_tier n req candidates needNumber tier with
      | Some plan => Some plan
      | None => tier_walk n req candidates needNumber tiers'
      end
  end.

(** The candidates inside the window; no window is [None]. *)
Definition in_window (restrictUUIDs : option (gset string)) (d : Device) : Prop :=
  match restrictUUIDs with None => True | Some w => d_uuid d ∈ w end.
#[export] Instance in_window_dec w d : Decision (in_window w d).
Proof. unfold in_window. destruct w; apply _. Defined.

Definition allocateTiered (n : NodeInfo) (req : AllocationRequest) (deviceStore : list Device) (needNumber : nat)
    (restrictUUIDs : option (gset string)) : option linkPlan :=
  if bool_decide (needNumber = 0) || negb (HasGPUTopology n) then None
  else
    let candidates := filter (in_window restrictUUIDs) deviceStore in
    if bool_decide (length candidates < needNumber) then None
    else tier_walk n req candidates needNumber tierLadder.
End walk.
