(* ===== verification/TieredSpec.v ===== *)
(** * What the tier walk guarantees

    The groups of [groupByComponent] are the connectivity components of the
    candidates; picking members always yields as many as asked for; hence a
    plan is a subsequence of the store of the requested size, connected at the
    tier it reports, and that tier is the tightest possible. *)

From stdpp Require Import base list gmap strings relations sorting.
From Stdlib Require Import ZArith Lia Sorted.
From S2P Require Import Prelude GoMap GoSort GoStrings Float64 GoTime Kube Claims Reason UnionFind Links Topology.
From S2P Require Import Device Footprint NodeInfo Request Scoring SubsetSearch DemoNode Tiered.

#[local] Open Scope nat_scope.

(** ** Components *)

(** The pairs of candidate positions with a link at the tier. *)
Definition linked_pairs (n : NodeInfo) (tier : LinkTier) (c : list Device) : list (nat * nat) :=
  filter (λ p, candidates_linked n tier c p.1 p.2 = true) (index_pairs (length c)).

Lemma elem_of_index_pairs m p : p ∈ index_pairs m ↔ p.1 < p.2 < m.
Proof.
  destruct p as [i j]. unfold index_pairs. rewrite list_elem_of_join. simpl. split.
  - intros (l & Hl & (k & -> & Hk%elem_of_seq)%list_elem_of_fmap).
    apply list_elem_of_fmap in Hl as (j' & [= -> ->] & Hj%elem_of_seq). lia.
  - intros [Hij Hj]. exists ((λ j, (i, j)) <$> seq (S i) (m - S i)). split.
    + apply list_elem_of_fmap. exists j. split; [done|]. apply elem_of_seq. lia.
    + apply list_elem_of_fmap. exists i. split; [done|]. apply elem_of_seq. lia.
Qed.

Lemma link_pair_represents n tier c parent E i j :
  represents (length c) parent E → i < length c → j < length c →
  represents (length c) (link_pair n tier c parent (i, j))
    (if candidates_linked n tier c i j then E ++ [(i, j)] else E).
Proof.
  intros Hr Hi Hj. unfold link_pair. destruct (candidates_linked n tier c i j); [|done].
  pose proof Hr as (Hl & Hf & Hc).
  destruct (find_spec parent i) as (ri & p1 & -> & Hri & Hs1); [done|lia|].
  assert (represents (length c) p1 E) as Hr1 by by eapply represents_same_roots. pose proof Hr1 as (Hl1 & Hf1 & Hc1).
  destruct (find_spec p1 j) as (rj & p2 & -> & Hrj & Hs2); [done|lia|].
  assert (represents (length c) p2 E) as Hr2 by by eapply represents_same_roots. pose proof Hr2 as (Hl2 & Hf2 & Hc2).
  assert (root_of p2 i ri) as Hri2 by (by apply Hs2, Hs1). assert (root_of p2 j rj) as Hrj2 by by apply Hs2.
  pose proof (same_set_roots p2 i j ri rj Hri2 Hrj2) as Hsame. case_bool_decide as E1.
  - apply represents_snoc_same; [done|done|by apply Hsame|done].
  - apply represents_link; [done| |done|done|by left]. by rewrite Hsame.
Qed.

Lemma link_pairs_represents n tier c l parent E :
  represents (length c) parent E → Forall (λ p, p.1 < p.2 < length c) l →
  represents (length c) (fold_left (link_pair n tier c) l parent)
    (E ++ filter (λ p, candidates_linked n tier c p.1 p.2 = true) l).
Proof.
  intros Hr Hl. revert parent E Hr. induction Hl as [|[i j] l Hij _ IH]; intros parent E Hr; cbn [fold_left].
  { by rewrite app_nil_r. }
  simpl in Hij. pose proof (link_pair_represents n tier c parent E i j Hr ltac:(lia) ltac:(lia)) as Hr'.
  apply IH in Hr'. rewrite filter_cons. cbn [fst snd]. destruct (candidates_linked n tier c i j).
  - rewrite <- app_assoc in Hr'. exact Hr'.
  - exact Hr'.
Qed.

(** The roots the groups are made from. *)
Definition component_roots (n : NodeInfo) (tier : LinkTier) (c : list Device) : list nat :=
  (snapshot_roots (seq 0 (length c)) (fold_left (link_pair n tier c) (index_pairs (length c)) (seq 0 (length c)))).1.

Lemma component_roots_spec n tier c :
  length (component_roots n tier c) = length c ∧
  ∀ i j ri rj, component_roots n tier c !! i = Some ri → component_roots n tier c !! j = Some rj →
    ri = rj ↔ connected (linked_pairs n tier c) i j.
Proof.
  pose proof (link_pairs_represents n tier c (index_pairs (length c)) (seq 0 (length c)) []
    (represents_init _) ltac:(by apply Forall_forall; intros p ?%elem_of_index_pairs)) as Hr.
  simpl in Hr. fold (linked_pairs n tier c) in Hr. destruct Hr as (Hl & Hf & Hc). unfold component_roots.
  set (p := fold_left _ _ _) in *.
  destruct (snapshot_spec (seq 0 (length c)) p Hf) as (rs & q & -> & _ & Hrs).
  { apply Forall_forall. intros i Hi%elem_of_seq. lia. }
  simpl. assert (length rs = length c) as Hlen by (rewrite <- (Forall2_length _ _ _ Hrs); apply length_seq).
  split; [done|]. intros i j ri rj Hi Hj.
  pose proof (lookup_lt_Some _ _ _ Hi). pose proof (lookup_lt_Some _ _ _ Hj).
  assert (root_of p i ri) by (eapply (Forall2_lookup_lr _ _ _ i); [exact Hrs|apply lookup_seq; split; [done|lia]|done]).
  assert (root_of p j rj) by (eapply (Forall2_lookup_lr _ _ _ j); [exact Hrs|apply lookup_seq; split; [done|lia]|done]).
  rewrite <- (Hc i j) by lia. symmetry. by apply same_set_roots.
Qed.

Lemma first_seen_spec l : NoDup (first_seen l) ∧ ∀ r, r ∈ first_seen l ↔ r ∈ l.
Proof.
  unfold first_seen. induction l as [|r l [Hnd Hin]] using rev_ind; [split; [constructor|done]|].
  rewrite fold_left_app. simpl. set (o := fold_left _ l []) in *. case_bool_decide as Hr.
  - split; [done|]. intros s. rewrite Hin, elem_of_app, list_elem_of_singleton. apply Hin in Hr. naive_solver.
  - split; [apply NoDup_app; split_and!; [done|set_solver|apply NoDup_singleton]|].
    intros s. rewrite !elem_of_app, Hin. done.
Qed.

Definition group_keys (n : NodeInfo) (tier : LinkTier) (c : list Device) : list nat :=
  sort_slice nat_less (first_seen (component_roots n tier c)).

Lemma groupByComponent_keys n tier c :
  groupByComponent n tier c
  = (λ r, {| cg_root := r; cg_devices := bucket c (component_roots n tier c) r |}) <$> group_keys n tier c.
Proof. done. Qed.

Lemma elem_of_bucket c roots r d : d ∈ bucket c roots r ↔ ∃ i, c !! i = Some d ∧ roots !! i = Some r.
Proof.
  unfold bucket. rewrite list_elem_of_fmap. split.
  - intros ([d' r'] & -> & [Hr Hz]%list_elem_of_filter). simpl in *. subst.
    apply list_elem_of_lookup in Hz as [i Hi]. apply lookup_zip_Some in Hi. eauto.
  - intros (i & Hc & Hr). exists (d, r). split; [done|]. apply list_elem_of_filter. split; [done|].
    apply list_elem_of_lookup. exists i. by apply lookup_zip_Some.
Qed.

Lemma bucket_sublist c roots r : bucket c roots r `sublist_of` c.
Proof.
  unfold bucket. revert roots. induction c as [|d c IH]; intros [|r' roots]; simpl; try done.
  { apply sublist_nil_l. }
  rewrite filter_cons. case_decide; simpl; [by constructor|by apply sublist_cons].
Qed.

(** Buckets over a duplicate-free list of keys that has every root split the candidates. *)
Lemma buckets_partition c roots keys :
  length roots = length c → NoDup keys → (∀ r, r ∈ roots → r ∈ keys) →
  mjoin (bucket c roots <$> keys) ≡ₚ c.
Proof.
  revert roots. induction c as [|d c IH]; intros roots Hl Hnd Hin.
  { assert (∀ r, bucket [] roots r = []) as Hb by done. clear -Hb. induction keys as [|k keys IHk]; [done|].
    rewrite fmap_cons, Hb. exact IHk. }
  destruct roots as [|r roots]; [done|]. simpl in Hl.
  assert (r ∈ keys) as Hr by (apply Hin; by left).
  apply list_elem_of_split in Hr as (k1 & k2 & ->).
  apply NoDup_app in Hnd as Hnd'. destruct Hnd' as (_ & Hd1 & Hd2). apply NoDup_cons in Hd2 as [Hd2 _].
  assert (∀ k, bucket (d :: c) (r :: roots) k = if decide (r = k) then d :: bucket c roots k else bucket c roots k) as Hb.
  { intros k. unfold bucket. simpl. rewrite filter_cons. simpl. by case_decide. }
  assert (∀ ks : list nat, r ∉ ks → bucket (d :: c) (r :: roots) <$> ks = bucket c roots <$> ks) as Hks.
  { intros ks Hks. apply list_fmap_ext. intros i k Hk. rewrite Hb, decide_False; [done|].
    intros ->. apply Hks. by eapply list_elem_of_lookup_2. }
  rewrite fmap_app, fmap_cons, Hb, decide_True by done.
  rewrite !Hks; [|done|by intros Hk; apply (Hd1 r Hk); left].
  pose proof (IH roots ltac:(lia) Hnd ltac:(intros; apply Hin; by right)) as Hp.
  rewrite fmap_app, fmap_cons, join_app in *. cbn [mjoin list_join] in *. cbn [app].
  rewrite <- Permutation_middle. by constructor.
Qed.

Lemma groups_partition n tier c : mjoin (cg_devices <$> groupByComponent n tier c) ≡ₚ c.
Proof.
  rewrite groupByComponent_keys, <- list_fmap_compose. destruct (component_roots_spec n tier c) as [Hl _].
  apply (buckets_partition c (component_roots n tier c)); [done| |].
  - apply NoDup_sort_slice, first_seen_spec.
  - intros r Hr. apply elem_of_sort_slice. by apply first_seen_spec.
Qed.

(** ** Connectivity of devices *)

Definition adjacent (n : NodeInfo) (tier : LinkTier) (c : list Device) (a b : Device) : Prop :=
  a ∈ c ∧ b ∈ c ∧ ConnectedAtTier n (d_uuid a) (d_uuid b) tier = true.

(** [a] reaches [b] over links of the tier between candidates of [c]. *)
Definition reach (n : NodeInfo) (tier : LinkTier) (c : list Device) : relation Device := rtsc (adjacent n tier c).

(** The published links hold in both directions. *)
Definition symmetric_links (n : NodeInfo) (c : list Device) : Prop :=
  ∀ tier a b, a ∈ c → b ∈ c →
    ConnectedAtTier n (d_uuid a) (d_uuid b) tier = ConnectedAtTier n (d_uuid b) (d_uuid a) tier.

Lemma symmetric_links_sublist n l l' : l `sublist_of` l' → symmetric_links n l' → symmetric_links n l.
Proof. intros Hs H tier a b Ha Hb. apply H; by eapply elem_of_sublist. Qed.

Lemma edge_adjacent n tier c i j a b :
  edge_rel (linked_pairs n tier c) i j → c !! i = Some a → c !! j = Some b → adjacent n tier c a b.
Proof.
  unfold edge_rel, linked_pairs. intros [Hl _]%list_elem_of_filter Ha Hb. simpl in Hl.
  unfold candidates_linked in Hl. rewrite Ha, Hb in Hl.
  split_and!; [by eapply list_elem_of_lookup_2..|done].
Qed.

Lemma edge_range n tier c i j : edge_rel (linked_pairs n tier c) i j → i < length c ∧ j < length c.
Proof. intros [_ Hp%elem_of_index_pairs]%list_elem_of_filter. simpl in Hp. lia. Qed.

Lemma connected_reach n tier c i j a b :
  connected (linked_pairs n tier c) i j → c !! i = Some a → c !! j = Some b → reach n tier c a b.
Proof.
  unfold connected, reach, rtsc. intros H. revert a. induction H as [i|i k j Hik _ IH]; intros a Ha Hb.
  { simplify_eq. reflexivity. }
  assert (k < length c) as Hk by (destruct Hik as [E|E]; apply edge_range in E; lia).
  destruct (lookup_lt_is_Some_2 c k Hk) as [d Hd]. eapply rtc_l; [|by apply IH].
  destruct Hik as [E|E]; [left|right]; by eapply edge_adjacent.
Qed.

Lemma adjacent_connected n tier c i j a b :
  symmetric_links n c → c !! i = Some a → c !! j = Some b → adjacent n tier c a b →
  connected (linked_pairs n tier c) i j.
Proof.
  intros Hsym Ha Hb (Hca & Hcb & Hc). destruct (decide (i = j)) as [->|Hne]; [reflexivity|].
  assert (∀ x y, x < y → x < length c → y < length c → candidates_linked n tier c x y = true →
    edge_rel (linked_pairs n tier c) x y) as He.
  { intros x y Hxy Hx Hy Hl. apply list_elem_of_filter. split; [done|]. apply elem_of_index_pairs. simpl. lia. }
  pose proof (lookup_lt_Some _ _ _ Ha). pose proof (lookup_lt_Some _ _ _ Hb).
  destruct (decide (i < j)) as [Hlt|Hge].
  - apply rtsc_lr, He; [done..|]. unfold candidates_linked. by rewrite Ha, Hb.
  - apply rtsc_rl, He; [lia|done..|]. unfold candidates_linked. by rewrite Ha, Hb, Hsym.
Qed.

Lemma reach_connected n tier c i j a b :
  symmetric_links n c → NoDup c → reach n tier c a b → c !! i = Some a → c !! j = Some b →
  connected (linked_pairs n tier c) i j.
Proof.
  intros Hsym Hnd. unfold reach, rtsc. intros H. revert i. induction H as [a|a e b Hae _ IH]; intros i Ha Hb.
  { assert (i = j) as -> by by eapply NoDup_lookup. reflexivity. }
  assert (∃ k, c !! k = Some e) as [k Hk].
  { apply list_elem_of_lookup. destruct Hae as [(?&?&?)|(?&?&?)]; done. }
  etrans; [|by apply IH]. destruct Hae as [E|E]; [by eapply adjacent_connected|].
  symmetry. by eapply adjacent_connected.
Qed.

(** ** Groups are the components *)

Lemma elem_of_groups n tier c g :
  g ∈ groupByComponent n tier c ↔
  cg_root g ∈ component_roots n tier c ∧ cg_devices g = bucket c (component_roots n tier c) (cg_root g).
Proof.
  rewrite groupByComponent_keys, list_elem_of_fmap. unfold group_keys. setoid_rewrite elem_of_sort_slice.
  split.
  - intros (r & -> & Hr). simpl. split; [|done]. by apply first_seen_spec.
  - intros [Hr Hd]. exists (cg_root g). split; [destruct g; simpl in *; by subst|]. by apply first_seen_spec.
Qed.

Lemma group_sublist n tier c g : g ∈ groupByComponent n tier c → cg_devices g `sublist_of` c.
Proof. intros [_ ->]%elem_of_groups. apply bucket_sublist. Qed.

Lemma group_reach n tier c g a b :
  g ∈ groupByComponent n tier c → a ∈ cg_devices g → b ∈ cg_devices g → reach n tier c a b.
Proof.
  intros [_ ->]%elem_of_groups (i & Hi & Hri)%elem_of_bucket (j & Hj & Hrj)%elem_of_bucket.
  eapply connected_reach; [|done..]. by eapply component_roots_spec.
Qed.

(** Mutually reachable candidates are members of one group. *)
Lemma reach_group n tier c (l : list Device) d0 :
  symmetric_links n c → NoDup c → d0 ∈ l → (∀ d, d ∈ l → d ∈ c ∧ reach n tier c d0 d) →
  ∃ g, g ∈ groupByComponent n tier c ∧ ∀ d, d ∈ l → d ∈ cg_devices g.
Proof.
  intros Hsym Hnd Hd0 Hl. destruct (component_roots_spec n tier c) as [Hlen Hroots].
  destruct (Hl d0 Hd0) as [[i Hi]%list_elem_of_lookup _].
  destruct (lookup_lt_is_Some_2 (component_roots n tier c) i) as [r Hr].
  { rewrite Hlen. by eapply lookup_lt_Some. }
  exists {| cg_root := r; cg_devices := bucket c (component_roots n tier c) r |}. split.
  { apply elem_of_groups. simpl. split; [by eapply list_elem_of_lookup_2|done]. }
  intros d Hd. simpl. apply elem_of_bucket. destruct (Hl d Hd) as [[j Hj]%list_elem_of_lookup Hreach].
  exists j. split; [done|]. destruct (lookup_lt_is_Some_2 (component_roots n tier c) j) as [r' Hr'].
  { rewrite Hlen. by eapply lookup_lt_Some. }
  rewrite Hr'. f_equal. symmetry. apply (Hroots i j r r' Hr Hr'). by eapply reach_connected.
Qed.

(** ** Picking members *)

(** Every device of the store is on the node's link-aware list. *)
Definition linkable (n : NodeInfo) (store : list Device) : Prop :=
  Forall (λ d, ∃ g, Some g ∈ ni_deviceList n ∧ g_UUID g = d_uuid d) store.

Definition distinct_uuids (store : list Device) : Prop := NoDup (d_uuid <$> store).

Lemma distinct_uuids_sublist l l' : l `sublist_of` l' → distinct_uuids l' → distinct_uuids l.
Proof. intros Hs Hd. eapply sublist_NoDup; [done|by apply fmap_sublist]. Qed.

Lemma distinct_uuids_inj store a b :
  distinct_uuids store → a ∈ store → b ∈ store → d_uuid a = d_uuid b → a = b.
Proof.
  intros Hnd [i Hi]%list_elem_of_lookup [j Hj]%list_elem_of_lookup Hu.
  assert (i = j) as -> by (eapply (NoDup_lookup _ i j (d_uuid a) Hnd); rewrite list_lookup_fmap;
    simplify_option_eq; congruence).
  congruence.
Qed.

Lemma linkable_sublist n l l' : l `sublist_of` l' → linkable n l' → linkable n l.
Proof. unfold linkable. rewrite !Forall_forall. intros Hs H d Hd. apply H. by eapply elem_of_sublist. Qed.

Lemma toLinkDevices_uuids n run : linkable n run → g_UUID <$> toLinkDevices n run = d_uuid <$> run.
Proof.
  unfold toLinkDevices. set (step := λ (m : gmap string GDevice) d, _). set (m := fold_left step _ _).
  assert (∀ g, Some g ∈ ni_deviceList n → ∃ g', m !! g_UUID g = Some g' ∧ g_UUID g' = g_UUID g) as Hm.
  { subst m. induction (ni_deviceList n) as [|x l IH] using rev_ind; [by intros g ?%elem_of_nil|].
    intros g Hg. rewrite fold_left_app. simpl. set (m := fold_left step l ∅) in *.
    destruct x as [x|]; simpl; [|apply IH; set_solver]. rewrite lookup_insert. case_decide as E; [eauto|].
    apply IH. apply elem_of_app in Hg as [Hg|Hg%list_elem_of_singleton]; [done|]. congruence. }
  induction 1 as [|d run (g & Hg & Hu) _ IH]; [done|]. simpl.
  destruct (Hm g Hg) as (g' & Hg' & Hu'). rewrite <- Hu, Hg'. simpl. f_equal; [done|exact IH].
Qed.

Lemma inStoreOrder_sublist picked store : inStoreOrder picked store `sublist_of` store.
Proof. apply sublist_filter. Qed.

Lemma inStoreOrder_perm picked store :
  distinct_uuids store → NoDup picked → picked ⊆ store → inStoreOrder picked store ≡ₚ picked.
Proof.
  intros Hs Hp Hsub. apply NoDup_Permutation; [|done|].
  - apply NoDup_filter. by apply (NoDup_fmap_1 d_uuid).
  - intros d. unfold inStoreOrder. rewrite list_elem_of_filter, elem_of_list_to_set, list_elem_of_fmap. split.
    + intros [(e & He & Hin) Hd]. by rewrite (distinct_uuids_inj store d e) by auto.
    + intros Hd. split; [eauto|auto].
Qed.

Lemma inStoreOrder_length picked store :
  distinct_uuids store → NoDup picked → picked ⊆ store → length (inStoreOrder picked store) = length picked.
Proof. intros. by rewrite inStoreOrder_perm. Qed.

Lemma elem_of_pick_at {A} (l : list A) idx x : x ∈ pick_at l idx ↔ ∃ i, i ∈ idx ∧ l !! i = Some x.
Proof. unfold pick_at. apply list_elem_of_omap. Qed.

Lemma NoDup_pick_at {A} (l : list A) idx : NoDup l → NoDup idx → NoDup (pick_at l idx).
Proof.
  intros Hl. induction 1 as [|i idx Hi _ IH]; [constructor|]. simpl. destruct (l !! i) as [x|] eqn:E; [|done].
  constructor; [|done]. intros (j & Hj & Hx)%elem_of_pick_at. by rewrite (NoDup_lookup l i j x) in Hi.
Qed.

Lemma fmap_pick_at {A B} (f : A → B) l idx : f <$> pick_at l idx = pick_at (f <$> l) idx.
Proof.
  induction idx as [|i idx IH]; [done|]. simpl. rewrite list_lookup_fmap. destruct (l !! i); simpl; [f_equal|]; exact IH.
Qed.

(** Going back from picked link devices keeps exactly the picked positions. *)
Lemma fromLinkDevices_pick n run idx :
  linkable n run → distinct_uuids run → NoDup idx → Forall (λ i, i < length run) idx →
  length (fromLinkDevices (pick_at (toLinkDevices n run) idx) run) = length idx ∧
  fromLinkDevices (pick_at (toLinkDevices n run) idx) run `sublist_of` run.
Proof.
  intros Hl Hd Hnd Hidx.
  assert (fromLinkDevices (pick_at (toLinkDevices n run) idx) run = inStoreOrder (pick_at run idx) run) as ->.
  { unfold fromLinkDevices, inStoreOrder. by rewrite !fmap_pick_at, toLinkDevices_uuids. }
  split; [|apply inStoreOrder_sublist]. rewrite inStoreOrder_length; [by apply length_pick_at|done| |].
  - apply NoDup_pick_at; [by apply (NoDup_fmap_1 d_uuid)|done].
  - intros d (i & _ & Hi)%elem_of_pick_at. by eapply list_elem_of_lookup_2.
Qed.

Lemma ascending_NoDup lo hi idx : ascending lo hi idx → NoDup idx ∧ Forall (λ i, i < hi) idx.
Proof.
  intros [Hs Hf]. split; [|eapply Forall_impl; [exact Hf|simpl; lia]].
  induction Hs as [|i idx Hs IH Hi]; [constructor|]. apply Forall_cons in Hf as [_ Hf].
  constructor; [|by apply IH]. intros Hin. rewrite Forall_forall in Hi. specialize (Hi i Hin). lia.
Qed.

Lemma pickWithinRun_spec n run tier need fixed :
  linkable n run → distinct_uuids run → 0 < need < length run →
  length (pickWithinRun n run tier need fixed) = need ∧ pickWithinRun n run tier need fixed `sublist_of` run.
Proof.
  intros Hl Hd Hn. unfold pickWithinRun. rewrite bool_decide_eq_false_2 by lia.
  destruct (LinkTierIsUniform n tier).
  { split; [rewrite length_take; lia|apply sublist_take]. }
  assert (length (toLinkDevices n run) = length run) as Hlen.
  { by rewrite <- (length_fmap g_UUID), toLinkDevices_uuids, length_fmap. }
  case_bool_decide.
  - destruct (greedyPick_spec (toLinkDevices n run) (toLinkDevices n fixed) need) as (js & -> & Hnd & Hf & <-); [lia|].
    apply fromLinkDevices_pick; [done..|]. by rewrite <- Hlen.
  - destruct (search_optimal (toLinkDevices n run) (toLinkDevices n fixed) need) as (idx & <- & Ha & -> & _); [lia|].
    apply ascending_NoDup in Ha as [Hnd Hf]. apply fromLinkDevices_pick; [done..|]. by rewrite <- Hlen.
Qed.

Lemma split_runs_join score cur run l : mjoin (split_runs score cur run l) = run ++ l.
Proof.
  revert cur run. induction l as [|d l IH]; intros cur run; simpl; [done|].
  destruct (f64_eq (score d) cur); [by rewrite IH, <- app_assoc|]. cbn [mjoin list_join]. by rewrite IH.
Qed.

(** The runs are the devices, cut into pieces. *)
Lemma policyRuns_join req devices : mjoin (policyRuns req devices) = devices.
Proof.
  unfold policyRuns. destruct devices as [|d devices]; [done|].
  destruct (_ && _); [|apply split_runs_join]. cbn. by rewrite app_nil_r.
Qed.

Lemma pick_runs_spec n tier need picked runs :
  linkable n (picked ++ mjoin runs) → distinct_uuids (picked ++ mjoin runs) →
  length picked ≤ need ≤ length (picked ++ mjoin runs) →
  length (pick_runs n tier need picked runs) = need ∧
  pick_runs n tier need picked runs `sublist_of` picked ++ mjoin runs.
Proof.
  revert picked. induction runs as [|run runs IH]; intros picked Hl Hd Hn; cbn [pick_runs].
  { simpl in *. rewrite app_nil_r in *. split; [lia|done]. }
  change (mjoin (run :: runs)) with (run ++ mjoin runs) in *.
  case_bool_decide as H0; [split; [lia|by apply sublist_inserts_r]|].
  rewrite app_assoc in *. case_bool_decide as H1.
  - apply IH; [done|done|]. rewrite !length_app in *. lia.
  - assert (run `sublist_of` (picked ++ run) ++ mjoin runs) as Hs
      by (by apply sublist_inserts_r, sublist_inserts_l).
    destruct (pickWithinRun_spec n run tier (need - length picked) picked) as [Hlen Hsub];
      [by eapply linkable_sublist|by eapply distinct_uuids_sublist|lia|].
    split; [rewrite length_app; lia|]. apply sublist_inserts_r. by apply sublist_app.
Qed.

(** [pickMembers] always finds as many as asked for, in store order. *)
Lemma pickMembers_spec n req devices tier need :
  linkable n devices → distinct_uuids devices → need ≤ length devices →
  length (pickMembers n req devices tier need) = need ∧ pickMembers n req devices tier need `sublist_of` devices.
Proof.
  intros Hl Hd Hn. unfold pickMembers. rewrite bool_decide_eq_false_2 by lia.
  pose proof (policyRuns_join req devices) as Hj.
  destruct (pick_runs_spec n tier need [] (policyRuns req devices)) as [Hlen Hsub].
  { by rewrite Hj. } { by rewrite Hj. } { rewrite Hj. simpl. lia. }
  rewrite Hj in Hsub. simpl in Hsub. rewrite bool_decide_eq_false_2 by (intros Hne; by apply Hne).
  split; [|apply inStoreOrder_sublist]. rewrite inStoreOrder_length; [done|done| |].
  - eapply sublist_NoDup; [|done]. by apply (NoDup_fmap_1 d_uuid).
  - intros d Hin. by eapply elem_of_sublist.
Qed.

(** ** Spanning *)

(** Taking from the groups in turn reaches the requested number when the groups have it. *)
Lemma span_loop_spec n req tier need all groups :
  linkable n (all ++ mjoin (cg_devices <$> groups)) → distinct_uuids (all ++ mjoin (cg_devices <$> groups)) →
  length all ≤ need ≤ length (all ++ mjoin (cg_devices <$> groups)) →
  length (span_loop n req tier need all groups) = need ∧
  span_loop n req tier need all groups `sublist_of` all ++ mjoin (cg_devices <$> groups).
Proof.
  revert all. induction groups as [|g groups IH]; intros all Hl Hd Hn.
  { simpl in *. rewrite app_nil_r in *. split; [lia|done]. }
  rewrite fmap_cons in *. cbn [span_loop].
  change (mjoin (cg_devices g :: ?l)) with (cg_devices g ++ mjoin l) in *.
  case_bool_decide as H0; [split; [lia|by apply sublist_inserts_r]|].
  set (k := if bool_decide _ then _ else _).
  assert (k ≤ length (cg_devices g)) as Hk by (unfold k; case_bool_decide; lia).
  assert (cg_devices g `sublist_of` all ++ cg_devices g ++ mjoin (cg_devices <$> groups)) as Hs
    by (by apply sublist_inserts_l, sublist_inserts_r).
  destruct (pickMembers_spec n req (cg_devices g) tier k) as [Hlen Hsub];
    [by eapply linkable_sublist|by eapply distinct_uuids_sublist|done|].
  assert ((all ++ pickMembers n req (cg_devices g) tier k) ++ mjoin (cg_devices <$> groups)
    `sublist_of` all ++ cg_devices g ++ mjoin (cg_devices <$> groups)) as Hs2.
  { rewrite <- app_assoc. apply sublist_app; [done|]. by apply sublist_app. }
  destruct (IH (all ++ pickMembers n req (cg_devices g) tier k)) as [IHl IHs].
  - by eapply linkable_sublist.
  - by eapply distinct_uuids_sublist.
  - rewrite !length_app in *. rewrite Hlen. unfold k in *. case_bool_decide; lia.
  - split; [done|]. by etrans.
Qed.

Lemma spanGroups_spec n req c tier need :
  linkable n c → distinct_uuids c → need ≤ length c →
  let picked := spanGroups n req c (groupByComponent n tier c) tier need in
  length picked = need ∧ picked `sublist_of` c.
Proof.
  intros Hl Hd Hn. simpl. unfold spanGroups. set (gs := sort_slice _ _).
  assert (mjoin (cg_devices <$> gs) ≡ₚ c) as Hp.
  { etrans; [|apply (groups_partition n tier c)]. unfold gs. by rewrite sort_slice_perm. }
  destruct (span_loop_spec n req tier need [] gs) as [Hlen Hsub]; simpl in *.
  - unfold linkable. by rewrite Hp.
  - unfold distinct_uuids. by rewrite Hp.
  - rewrite Hp. lia.
  - rewrite bool_decide_eq_false_2 by (intros Hne; by apply Hne). split; [|apply inStoreOrder_sublist].
    rewrite inStoreOrder_length; [done|done| |].
    + eapply sublist_NoDup; [|done]. rewrite Hp. by apply (NoDup_fmap_1 d_uuid).
    + intros d Hin. rewrite <- Hp. by eapply elem_of_sublist.
Qed.

(** ** The walk *)
Section walk.
Context `{MapOrder}.

Lemma pickGroup_spec n req groups tier need :
  groups ≠ [] → ∃ g, pickGroup n req groups tier need = Some g ∧ g ∈ groups.
Proof.
  intros Hne. unfold pickGroup. case_bool_decide as H1.
  - destruct groups as [|g groups]; [done|]. exists g. split; [done|by left].
  - set (mk := λ g, {| sc_group := g |}). set (l := sort_slice _ _).
    assert (l ≡ₚ mk <$> groups) as Hp by apply sort_slice_perm.
    destruct l as [|x l].
    { apply Permutation_nil_l in Hp. by destruct groups. }
    exists (sc_group x). split; [done|].
    assert (x ∈ mk <$> groups) as (g & -> & Hg)%list_elem_of_fmap by (rewrite <- Hp; by left). done.
Qed.

Lemma elem_of_fitting n c tier need g :
  g ∈ groupsFittingAtTier n (groupByComponent n tier c) tier need →
  g ∈ groupByComponent n tier c ∧ need ≤ length (cg_devices g) ∧ (1 < need ∨ group_connected n tier g = true).
Proof.
  unfold groupsFittingAtTier, groupsWithAtLeast. case_bool_decide; rewrite ?list_elem_of_filter; naive_solver.
Qed.

Lemma fitting_big n c tier need g :
  1 < need → g ∈ groupByComponent n tier c → need ≤ length (cg_devices g) →
  g ∈ groupsFittingAtTier n (groupByComponent n tier c) tier need.
Proof.
  intros Hn Hg Hl. unfold groupsFittingAtTier. rewrite bool_decide_eq_true_2 by done.
  by apply list_elem_of_filter.
Qed.

(** What one tier of the walk yields. *)
Lemma plan_at_tier_spec n req c need tier :
  linkable n c → distinct_uuids c → 0 < need ≤ length c →
  match plan_at_tier n req c need tier with
  | Some plan =>
      lp_Tier plan = tier ∧ length (lp_Devices plan) = need ∧ lp_Devices plan `sublist_of` c ∧
      if lp_Spanned plan
      then tier = TierAny ∧ groupsFittingAtTier n (groupByComponent n tier c) tier need = []
      else ∃ g, g ∈ groupsFittingAtTier n (groupByComponent n tier c) tier need ∧
                lp_Devices plan `sublist_of` cg_devices g
  | None =>
      groupsFittingAtTier n (groupByComponent n tier c) tier need = [] ∧ ¬ (tier = TierAny ∧ 1 < need)
  end.
Proof.
  intros Hl Hd Hn. unfold plan_at_tier.
  assert (groupByComponent n tier c ≠ []) as Hne.
  { intros Hg. pose proof (groups_partition n tier c) as Hp. rewrite Hg in Hp. simpl in Hp.
    apply Permutation_nil_l in Hp. subst. simpl in Hn. lia. }
  destruct (groupsFittingAtTier n _ tier need) as [|g0 fit] eqn:Ef.
  - pose proof (spanGroups_spec n req c tier need Hl Hd ltac:(lia)) as [Hlen Hsub].
    destruct (groupByComponent n tier c) as [|g gs]; [done|].
    destruct (decide (tier = TierAny ∧ 1 < need)) as [[H1 H2]|Hn'].
    + rewrite !bool_decide_eq_true_2 by done. simpl. by rewrite Hlen.
    + assert (bool_decide (tier = TierAny) && bool_decide (1 < need) = false) as ->; [|done].
      repeat case_bool_decide; tauto.
  - rewrite <- Ef. destruct (pickGroup_spec n req (g0 :: fit) tier need) as (g & Hg & Hin); [done|]. rewrite Ef, Hg.
    rewrite <- Ef in Hin. destruct (elem_of_fitting n c tier need g Hin) as (Hgg & Hgl & _).
    pose proof (group_sublist n tier c g Hgg) as Hs.
    destruct (pickMembers_spec n req (cg_devices g) tier need) as [Hlen Hsub];
      [by eapply linkable_sublist|by eapply distinct_uuids_sublist|done|].
    rewrite bool_decide_eq_true_2 by done.
    destruct (groupByComponent n tier c) as [|g1 gs]; [done|]. simpl.
    split_and!; [done|done|by etrans|]. exists g. by rewrite <- Ef.
Qed.

(** The walk stops at the first tier that yields a plan. *)
Lemma tier_walk_spec n req c need tiers :
  match tier_walk n req c need tiers with
  | Some plan => ∃ before tier after, tiers = before ++ tier :: after ∧
      plan_at_tier n req c need tier = Some plan ∧ Forall (λ t, plan_at_tier n req c need t = None) before
  | None => Forall (λ t, plan_at_tier n req c need t = None) tiers
  end.
Proof.
  induction tiers as [|tier tiers IH]; simpl; [done|].
  destruct (plan_at_tier n req c need tier) as [plan|] eqn:E; [by exists [], tier, tiers|].
  destruct (tier_walk n req c need tiers) as [plan|].
  - destruct IH as (before & t & after & -> & Hp & Hb). exists (tier :: before), t, after. by repeat constructor.
  - by constructor.
Qed.

Lemma ladder_before before tier after t :
  tierLadder = before ++ tier :: after → tier_index t < tier_index tier → t ∈ before.
Proof.
  intros E Ht. assert (before = take (length before) tierLadder) as Hb by (rewrite E; by rewrite take_app_length).
  assert (tierLadder !! length before = Some tier) as Hk by (rewrite E; by rewrite list_lookup_middle).
  clear E. revert Hb Hk Ht. generalize (length before). intros [|[|[|[|k]]]]; simpl; intros -> [= <-];
    destruct t; simpl; try lia; set_solver.
Qed.

Definition window (store : list Device) (w : option (gset string)) : list Device := filter (in_window w) store.

Lemma window_sublist store w : window store w `sublist_of` store.
Proof. apply sublist_filter. Qed.

(** No [need] distinct candidates reach each other at the tier. *)
Definition no_component (n : NodeInfo) (tier : LinkTier) (c : list Device) (need : nat) : Prop :=
  ∀ l : list Device, NoDup l → (∀ d, d ∈ l → d ∈ c) → (∀ a b, a ∈ l → b ∈ l → reach n tier c a b) → length l < need.

Lemma no_fitting_no_component n tier c need :
  symmetric_links n c → distinct_uuids c → 1 < need →
  groupsFittingAtTier n (groupByComponent n tier c) tier need = [] → no_component n tier c need.
Proof.
  intros Hsym Hd Hn Hf l Hnd Hc Hr. destruct (decide (length l < need)) as [|Hge]; [done|exfalso].
  destruct l as [|d0 l]; [simpl in Hge; lia|].
  destruct (reach_group n tier c (d0 :: l) d0 Hsym) as (g & Hg & Hin).
  - by apply (NoDup_fmap_1 d_uuid).
  - by left.
  - intros d Hdl. split; [by apply Hc|]. apply Hr; [by left|done].
  - assert (d0 :: l ⊆+ cg_devices g) as Hlen%submseteq_length by by apply NoDup_submseteq.
    assert (g ∈ groupsFittingAtTier n (groupByComponent n tier c) tier need) as Hfit by (apply fitting_big; [done|done|lia]).
    rewrite Hf in Hfit. by apply elem_of_nil in Hfit.
Qed.

Lemma reach_neighbour n tier c a b :
  reach n tier c a b → a ≠ b → ∃ e, e ∈ c ∧ (adjacent n tier c a e ∨ adjacent n tier c e a).
Proof.
  unfold reach, rtsc. intros Hr Hne. inversion Hr as [|? e ? Hae]; subst; [done|].
  exists e. destruct Hae as [E|E]; (split; [apply E|]); [by left|by right].
Qed.

(** The device has a link of the tier to some GPU of the node. *)
Definition has_interconnect (n : NodeInfo) (tier : LinkTier) (c : list Device) (d : Device) : Prop :=
  HasLinkPeerAtTier n (d_uuid d) tier = true ∨ ∃ e, e ∈ c ∧ (adjacent n tier c d e ∨ adjacent n tier c e d).

(** Members of a fitting group have an interconnect at the tier. *)
Lemma fitting_interconnect n c tier need g d :
  distinct_uuids c → 0 < need → g ∈ groupsFittingAtTier n (groupByComponent n tier c) tier need →
  d ∈ cg_devices g → has_interconnect n tier c d.
Proof.
  intros Hdist Hn (Hg & Hl & Hc)%elem_of_fitting Hd.
  pose proof (group_sublist n tier c g Hg) as Hs.
  destruct (cg_devices g) as [|x [|y l]] eqn:Eg; [by apply elem_of_nil in Hd| |].
  - apply list_elem_of_singleton in Hd as ->. simpl in Hl. destruct Hc as [Hc|Hc]; [lia|].
    unfold group_connected in Hc. rewrite Eg in Hc. simpl in Hc. by left.
  - right. assert (NoDup (x :: y :: l)) as Hnd.
    { apply (NoDup_fmap_1 d_uuid). by eapply distinct_uuids_sublist. }
    assert (∃ e, e ∈ x :: y :: l ∧ d ≠ e) as (e & He & Hne).
    { apply NoDup_cons in Hnd as [Hx _]. destruct (decide (d_uuid d = d_uuid x)) as [E|E].
      - exists y. split; [right; by left|]. intros ->.
        assert (x = y) as -> by (eapply (distinct_uuids_inj c); [done|..|done];
          (eapply elem_of_sublist; [|done]); [by left|right; by left]).
        apply Hx. by left.
      - exists x. split; [by left|]. congruence. }
    eapply reach_neighbour; [|exact Hne]. eapply group_reach; [done|by rewrite Eg..].
Qed.

(** What a plan is. *)
Record good_plan (n : NodeInfo) (store : list Device) (need : nat) (w : option (gset string)) (plan : linkPlan) : Prop := {
  gp_length : length (lp_Devices plan) = need;
  gp_sublist : lp_Devices plan `sublist_of` store;
  gp_window : Forall (in_window w) (lp_Devices plan);
  gp_connected : lp_Spanned plan = false → ∀ a b, a ∈ lp_Devices plan → b ∈ lp_Devices plan →
    reach n (lp_Tier plan) (window store w) a b;
  gp_interconnect : lp_Spanned plan = false → ∀ d, d ∈ lp_Devices plan →
    has_interconnect n (lp_Tier plan) (window store w) d;
  gp_spanned : lp_Spanned plan = true → lp_Tier plan = TierAny ∧ 1 < need
}.

Lemma tiered_sound n req store need w plan :
  linkable n store → distinct_uuids store →
  allocateTiered n req store need w = Some plan → good_plan n store need w plan.
Proof.
  intros Hl Hd. unfold allocateTiered. destruct (_ || _) eqn:E0; [done|]. apply orb_false_iff in E0 as [E0 _].
  apply bool_decide_eq_false in E0. fold (window store w). set (c := window store w).
  case_bool_decide as Hc; [done|]. intros Hp.
  pose proof (window_sublist store w) as Hs. fold c in Hs.
  assert (linkable n c) as Hlc by by eapply linkable_sublist.
  assert (distinct_uuids c) as Hdc by by eapply distinct_uuids_sublist.
  pose proof (tier_walk_spec n req c need tierLadder) as Hw. rewrite Hp in Hw.
  destruct Hw as (before & tier & after & _ & Hpt & _).
  pose proof (plan_at_tier_spec n req c need tier Hlc Hdc ltac:(lia)) as Hps. rewrite Hpt in Hps.
  destruct Hps as (<- & Hlen & Hsub & Hsp). split.
  - done.
  - by etrans.
  - apply Forall_forall. intros d Hin. eapply elem_of_sublist in Hin; [|done].
    by apply list_elem_of_filter in Hin as [? _].
  - intros E. rewrite E in Hsp. destruct Hsp as (g & Hg & Hgs). intros a b Ha Hb.
    apply elem_of_fitting in Hg as [Hg _]. eapply group_reach; [exact Hg|by eapply elem_of_sublist..].
  - intros E. rewrite E in Hsp. destruct Hsp as (g & Hg & Hgs). intros d Hin.
    eapply fitting_interconnect; [done| |exact Hg|by eapply elem_of_sublist]. lia.
  - intros E. rewrite E in Hsp. destruct Hsp as [-> _]. split; [done|].
    destruct (decide (1 < need)) as [|Hn]; [done|]. exfalso. revert Hpt. unfold plan_at_tier.
    rewrite (bool_decide_eq_false_2 (1 < need)) by done. rewrite andb_false_r.
    destruct (groupByComponent n _ c); [done|]. destruct (groupsFittingAtTier n _ _ need); [done|].
    destruct (pickGroup n req _ _ need); [|done]. case_bool_decide; [|done]. intros [= Hpl]. by rewrite <- Hpl in E.
Qed.

Lemma tiered_tightest n req store need w :
  linkable n store → distinct_uuids store → symmetric_links n (window store w) →
  HasGPUTopology n = true → 1 < need ≤ length (window store w) →
  ∃ plan, allocateTiered n req store need w = Some plan ∧
    (∀ t, tier_index t < tier_index (lp_Tier plan) → no_component n t (window store w) need) ∧
    (lp_Spanned plan = true → ∀ t, no_component n t (window store w) need).
Proof.
  intros Hl Hd Hsym Ht Hn. unfold allocateTiered. rewrite bool_decide_eq_false_2 by lia. rewrite Ht.
  cbn [negb orb]. fold (window store w). set (c := window store w) in *. rewrite bool_decide_eq_false_2 by lia.
  pose proof (window_sublist store w) as Hs. fold c in Hs.
  assert (linkable n c) as Hlc by by eapply linkable_sublist.
  assert (distinct_uuids c) as Hdc by by eapply distinct_uuids_sublist.
  assert (∀ t, plan_at_tier n req c need t = None → no_component n t c need) as Hnone.
  { intros t E. pose proof (plan_at_tier_spec n req c need t Hlc Hdc ltac:(lia)) as Hps. rewrite E in Hps.
    destruct Hps as [Hf _]. apply no_fitting_no_component; [done|done|lia|done]. }
  pose proof (tier_walk_spec n req c need tierLadder) as Hw.
  destruct (tier_walk n req c need tierLadder) as [plan|].
  - destruct Hw as (before & tier & after & Hb & Hpt & Hall). exists plan. split; [done|].
    pose proof (plan_at_tier_spec n req c need tier Hlc Hdc ltac:(lia)) as Hps. rewrite Hpt in Hps.
    destruct Hps as (<- & _ & _ & Hsp). rewrite Forall_forall in Hall.
    assert (∀ t, tier_index t < tier_index (lp_Tier plan) → no_component n t c need) as Hlt.
    { intros t Hlt. apply Hnone, Hall. by eapply ladder_before. }
    split; [done|]. intros E t. rewrite E in Hsp. destruct Hsp as [Ht' Hf].
    destruct (decide (t = TierAny)) as [->|Hne].
    + rewrite Ht' in Hf. apply no_fitting_no_component; [done|done|lia|done].
    + apply Hlt. rewrite Ht'. destruct t; simpl; try lia. done.
  - exfalso. rewrite Forall_forall in Hw. specialize (Hw TierAny ltac:(set_solver)).
    pose proof (plan_at_tier_spec n req c need TierAny Hlc Hdc ltac:(lia)) as Hps. rewrite Hw in Hps.
    destruct Hps as [_ Hps]. apply Hps. split; [done|lia].
Qed.
End walk.

(** C24 A plan of [allocateTiered] is a subsequence of the device store of the
    requested length inside the window; unless it is reported as spanning, its
    devices reach each other over links of the reported tier between
    candidates, and each has an interconnect of that tier, also when it is the
    only one asked for.  Only a request for several devices spans, at the
    loosest tier. *)
Theorem allocateTiered_sound `{MapOrder} n req store need w plan :
  linkable n store → distinct_uuids store →
  allocateTiered n req store need w = Some plan → good_plan n store need w plan.
Proof. apply tiered_sound. Qed.


(** The demo node meets the conditions. *)
Module TieredDemo.
Import DemoNode.

Definition req : AllocationRequest := BuildAllocationRequest (Demo.pod "p" [] [] []).

Lemma demo_linkable : linkable info devices.
Proof.
  assert (Forall (λ d, existsb (λ o, match o with Some g => bool_decide (g_UUID g = d_uuid d) | None => false end)
                         (ni_deviceList info) = true) devices) as Hf
    by (refine (bool_decide_unpack _ _); vm_compute; done).
  eapply Forall_impl; [exact Hf|]. intros d (o & Ho & Hb)%existsb_exists. destruct o as [g|]; [|done].
  exists g. split; [by apply list_elem_of_In|]. by apply bool_decide_eq_true_1 in Hb.
Qed.

Lemma demo_distinct : distinct_uuids devices.
Proof. unfold distinct_uuids. refine (bool_decide_unpack _ _); vm_compute. done. Qed.

Lemma demo_symmetric : symmetric_links info devices.
Proof.
  assert (∀ tier, Forall (λ a, Forall (λ b, ConnectedAtTier info (d_uuid a) (d_uuid b) tier
    = ConnectedAtTier info (d_uuid b) (d_uuid a) tier) devices) devices) as Hf.
  { intros tier. refine (bool_decide_unpack _ _); destruct tier; vm_compute; done. }
  intros tier a b Ha Hb. specialize (Hf tier). rewrite Forall_forall in Hf. specialize (Hf a Ha).
  rewrite Forall_forall in Hf. by apply Hf.
Qed.

Lemma allocateTiered_sound_witness :
  let plan := {| lp_Devices := take 2 DemoNode.devices; lp_Tier := TierNVLink; lp_Spanned := false |} in
  good_plan DemoNode.info DemoNode.devices 2 None plan.
Proof.
  apply (allocateTiered_sound _ req).
  - apply demo_linkable.
  - apply demo_distinct.
  - vm_compute. reflexivity.
Defined.

End TieredDemo.
