(* ===== verification/Allocator.v ===== *)
(** * The device allocator ([pkg/device/allocator/allocator.go])

    [Allocate] places the vGPU containers of a pod on the devices of one node.
    Its effects are explicit: a state monad over the node's accounting, the
    recorded topology outcome and the events sent, with the three results of
    the source — a value, a rejection of this node, an internal error.  Log
    lines and metrics are not modelled; events keep their arguments. *)

From stdpp Require Import base list gmap strings.
From Stdlib Require Import ZArith Lia.
From S2P Require Import Prelude GoMap GoSort GoStrings Float64 GoTime Kube Claims Reason Links Topology Device.
From S2P Require Import Footprint NodeInfo Affinity Request Scoring SubsetSearch Numa Tiered.

Open Scope Z_scope.

(** ** Results and effects *)

Inductive alloc_error := ErrAccounting | ErrNilClaim (container : string).

Inductive outcome (A : Type) :=
| Done (a : A)
| Rejected (r : FilterReason)
| Broken (e : alloc_error).
Arguments Done {A} _.
Arguments Rejected {A} _.
Arguments Broken {A} _.

Inductive Event :=
| UnsupportedDevicePolicy (policy : SchedulerPolicy)
| UnsupportedTopologyMode (mode : TopologyMode)
| TopologyFallback (attemptKind node detail fallbackKind : string)
| LinkDowngraded (attemptKind node : string) (needNumber : nat) (achieved floor : string) (mode : TopologyMode).

Record alloc_state := {
  as_node : NodeInfo;
  as_outcome : TopologyOutcome;
  as_events : list Event
}.

(** [allocator] without its node: whether there is an event recorder, and
    whether this is a dry run. *)
Record alloc_config := { ac_recorder : bool; ac_simulate : bool }.

Definition M (A : Type) : Type := alloc_state → outcome A * alloc_state.

Definition ret {A} (a : A) : M A := λ s, (Done a, s).
Definition reject {A} (r : FilterReason) : M A := λ s, (Rejected r, s).
Definition fail {A} (e : alloc_error) : M A := λ s, (Broken e, s).
Definition bind {A B} (m : M A) (k : A → M B) : M B :=
  λ s, match m s with
       | (Done a, s') => k a s'
       | (Rejected r, s') => (Rejected r, s')
       | (Broken e, s') => (Broken e, s')
       end.
Notation "'do' x '<-' m ';' k" := (bind m (λ x, k))
  (at level 60, x binder, m at level 59, k at level 60, right associativity) : go_scope.

Definition get_node : M NodeInfo := λ s, (Done (as_node s), s).
Definition put_node (n : NodeInfo) : M unit :=
  λ s, (Done tt, {| as_node := n; as_outcome := as_outcome s; as_events := as_events s |}).

Definition sendEventf (cfg : alloc_config) (ev : Event) : M unit :=
  λ s, (Done tt, if ac_recorder cfg && negb (ac_simulate cfg)
                 then {| as_node := as_node s; as_outcome := as_outcome s; as_events := as_events s ++ [ev] |} else s).

Definition recordOutcome (cfg : alloc_config) (result alignment : string) : M unit :=
  λ s, (Done tt, if ac_simulate cfg then s
                 else {| as_node := as_node s;
                         as_outcome := recordTopologyOutcome (as_outcome s) result alignment;
                         as_events := as_events s |}).

(** ** Filtering devices *)
Section allocator.
Context `{Env} `{MapOrder}.

(** The gate that rejects the device, if any, in the order of the loop. *)
Definition device_verdict (req : AllocationRequest) (needCores needMemory : Z) (d : Device) : option Code :=
  if negb (d_healthy d) then Some DeviceUnhealthy
  else if d_mig d then Some DeviceMIGEnabled
  else if bool_decide (AllocatableNumber d = 0) then Some InsufficientVGPUSlot
  else
    let reqMemory := if bool_decide (needMemory = 0) then GetTotalMemory d else needMemory in
    if bool_decide (AllocatableMemory d < reqMemory) then Some InsufficientVGPUMemory
    else if bool_decide (AllocatableCores d < needCores) || bool_decide (AllocatableCores d = 0)
    then Some InsufficientVGPUCore
    else if rq_CheckDeviceType req && negb (CheckDeviceType (p_Annotations (rq_Pod req)) (d_deviceType d))
    then Some DeviceTypeMismatch
    else if rq_CheckDeviceUuid req && negb (CheckDeviceUuid (p_Annotations (rq_Pod req)) (d_uuid d))
    then Some DeviceUUIDMismatch
    else None.

Definition filterDevices (n : NodeInfo) (req : AllocationRequest) (needCores needMemory : Z)
    (restrictUUIDs : option (gset string)) : list Device * gmap Code Z :=
  let considered := filter (in_window restrictUUIDs) (range (ni_deviceMap n)).*2 in
  (filter (λ d, device_verdict req needCores needMemory d = None) considered,
   fold_left vote (omap (device_verdict req needCores needMemory) considered) ∅).

(** ** Topology *)

Definition topologyFloor (mode : TopologyMode) : LinkTier :=
  if bool_decide (mode = PCIeTopology) then TierSwitch else TierNVLink.
Definition topologyUnsatisfiedCode (mode : TopologyMode) : Code :=
  if bool_decide (mode = PCIeTopology) then PCIeTopologyUnsatisfied else LinkTopologyUnsatisfied.
Definition topologyAttemptKind (mode : TopologyMode) : string :=
  if bool_decide (mode = PCIeTopology) then "PCIe topology" else "Link topology".

Definition LinkTier_String (t : LinkTier) : string :=
  match t with TierNVLink => "nvlink" | TierSwitch => "switch" | TierNUMA => "numa" | TierAny => "any" end.

Definition linkResult (plan : linkPlan) : string :=
  if lp_Spanned plan then ResultSpanned
  else match lp_Tier plan with
       | TierNVLink => ResultNVLink | TierSwitch => ResultSwitch | TierNUMA => ResultNUMA | TierAny => ResultAny
       end.

Definition AlignRail : string := "rail".
Definition AlignComponent : string := "component".
Definition AlignNone : string := "none".

Definition alignmentOf (req : AllocationRequest) (anchorRoot : option Z) : string :=
  if negb (rq_CrossPodTopology req) || bool_decide (BaseTopology (rq_Topology req) ≠ LinkTopology) then ""
  else if bool_decide (rq_GangRailKey req ≠ "") then AlignRail
  else if bool_decide (is_Some anchorRoot) then AlignComponent
  else AlignNone.

Definition linkFallbackReason (n : NodeInfo) (needNumber : nat) (floor : LinkTier) : string :=
  if negb (HasGPUTopology n) then "node has no GPU link topology"
  else "no " +:+ LinkTier_String floor +:+ "-connected set of " +:+ Itoa (Z.of_nat needNumber) +:+ " GPUs (largest "
       +:+ LinkTier_String floor +:+ " component " +:+ Itoa (LinkTierMaxComponentSize n floor) +:+ ")".

Definition numaFallbackReason (n : NodeInfo) (needNumber : nat) (deviceStore : list Device) : string :=
  if negb (HasNUMATopology n) then "node has no NUMA topology"
  else "no NUMA node has " +:+ Itoa (Z.of_nat needNumber) +:+ " GPUs (max single-NUMA capacity "
       +:+ Itoa (MaxDeviceNumberForNumaNode (NewNumaNodeDevice deviceStore)) +:+ ")".

(** Strict rejects the node, non-strict reports and goes on. *)
Definition handleTopologyFallback (cfg : alloc_config) (n : NodeInfo) (strict : bool) (strictCode : Code)
    (attemptKind fallbackKind detail : string) : M unit :=
  if strict then reject (WithDetail (New strictCode) detail)
  else sendEventf cfg (TopologyFallback attemptKind (GetName n) detail fallbackKind).

(** [p.Tier <= floor] *)
Definition tier_le (a b : LinkTier) : bool := bool_decide (tier_index a ≤ tier_index b)%nat.

Definition acceptable (req : AllocationRequest) (floor : LinkTier) (p : linkPlan) : bool :=
  negb (rq_TopologyStrict req) || (tier_le (lp_Tier p) floor && negb (lp_Spanned p)).

(** The loop over the attempts: the first acceptable plan, else the first plan. *)
Fixpoint try_windows (n : NodeInfo) (req : AllocationRequest) (store : list Device) (needNumber : nat) (floor : LinkTier)
    (plan : option linkPlan) (attempts : list (option (gset string))) : option linkPlan :=
  match attempts with
  | [] => plan
  | window :: attempts' =>
      match allocateTiered n req store needNumber window with
      | Some got => if acceptable req floor got then Some got
                    else try_windows n req store needNumber floor (match plan with None => Some got | _ => plan end) attempts'
      | None => try_windows n req store needNumber floor plan attempts'
      end
  end.

(** The windows, finest first; [None] when strict cannot keep the anchor. *)
Definition link_attempts (n : NodeInfo) (req : AllocationRequest) (anchorRoot : option Z) (needNumber : nat)
  : option (list (option (gset string))) :=
  let rail : gset string := list_to_set (UUIDsMatchingRailSignature n (rq_GangRailKey req)) in
  let railWindow := if bool_decide (rq_GangRailKey req ≠ "") && bool_decide (needNumber ≤ size rail)%nat
                    then [Some rail] else [] in
  let unwindowed := if rq_TopologyStrict req && bool_decide (is_Some anchorRoot) then [] else [None] in
  match anchorRoot with
  | None => Some (railWindow ++ unwindowed)
  | Some root =>
      let component : gset string := list_to_set (ComponentUUIDs n root) in
      if bool_decide (needNumber ≤ size component)%nat then Some (railWindow ++ [Some component] ++ unwindowed)
      else if rq_TopologyStrict req then None
      else Some (railWindow ++ unwindowed)
  end.

Definition allocateLink (n : NodeInfo) (deviceStore : list Device) (req : AllocationRequest) (anchorRoot : option Z)
    (needNumber : nat) (floor : LinkTier) : option linkPlan :=
  if negb (HasGPUTopology n) then None
  else
    match link_attempts n req anchorRoot needNumber with
    | None => None
    | Some attempts =>
        match try_windows n req deviceStore needNumber floor None attempts with
        | Some plan => if acceptable req floor plan then Some plan else None
        | None => None
        end
    end.

(** A root below zero, which stands for no anchor, cannot come from a component map. *)
Definition anchor_root (n : NodeInfo) (req : AllocationRequest) (mode : TopologyMode) : option Z :=
  if bool_decide (mode = LinkTopology) && rq_CrossPodTopology req &&
     (bool_decide (rq_GangName req ≠ "") || bool_decide (is_Some (rq_ControllerOwner req)))
  then match GangAnchorComponent n (rq_GangName req) (rq_ControllerOwner req) {[p_UID (rq_Pod req)]} with
       | Some root => Some root
       | None => ComponentByDomain n (rq_GangDomainKey req)
       end
  else None.

Definition reportLinkDowngrade (cfg : alloc_config) (n : NodeInfo) (plan : linkPlan) (needNumber : nat)
    (mode : TopologyMode) (floor : LinkTier) : M unit :=
  let achieved := LinkTier_String (lp_Tier plan) +:+ (if lp_Spanned plan then " (spanning multiple components)" else "") in
  sendEventf cfg (LinkDowngraded (topologyAttemptKind mode) (GetName n) needNumber achieved (LinkTier_String floor) mode).

Definition allocateByTopologyMode (cfg : alloc_config) (req : AllocationRequest) (deviceStore : list Device)
    (needNumber : nat) (needCores needMemory : Z) : M (list DeviceClaim) :=
  do n <- get_node;
  let mode := BaseTopology (rq_Topology req) in
  let plain := ret (buildClaims (take needNumber deviceStore) needCores needMemory) in
  if bool_decide (mode = LinkTopology) || bool_decide (mode = PCIeTopology) then
    let floor := topologyFloor mode in
    let anchorRoot := anchor_root n req mode in
    match allocateLink n deviceStore req anchorRoot needNumber floor with
    | Some plan =>
        do _ <- (if negb (tier_le (lp_Tier plan) floor) || lp_Spanned plan
                 then reportLinkDowngrade cfg n plan needNumber mode floor else ret tt);
        do _ <- recordOutcome cfg (linkResult plan) (alignmentOf req anchorRoot);
        ret (buildClaims (lp_Devices plan) needCores needMemory)
    | None =>
        do _ <- handleTopologyFallback cfg n (rq_TopologyStrict req) (topologyUnsatisfiedCode mode)
                  (topologyAttemptKind mode) "non-topology allocation" (linkFallbackReason n needNumber floor);
        do _ <- recordOutcome cfg ResultNone (alignmentOf req anchorRoot);
        plain
    end
  else if bool_decide (mode = NUMATopology) then
    match allocateNUMA n deviceStore UniformProfile (rq_DevicePolicy req) needNumber needCores needMemory with
    | Some claims => do _ <- recordOutcome cfg ResultNUMA ""; ret claims
    | None =>
        do _ <- handleTopologyFallback cfg n (rq_TopologyStrict req) NUMATopologyUnsatisfied
                  "NUMA topology" "cross-NUMA allocation" (numaFallbackReason n needNumber deviceStore);
        do _ <- recordOutcome cfg ResultCrossNUMA "";
        plain
    end
  else if bool_decide (mode = NoneTopology) then plain
  else do _ <- sendEventf cfg (UnsupportedTopologyMode (rq_Topology req)); plain.

(** ** One container *)

Definition sortDeviceStore (cfg : alloc_config) (req : AllocationRequest) (deviceStore : list Device) : M (list Device) :=
  do _ <- (if bool_decide (rq_DevicePolicy req = BinpackPolicy) || bool_decide (rq_DevicePolicy req = SpreadPolicy)
              || bool_decide (rq_DevicePolicy req = NonePolicy)
           then ret tt else sendEventf cfg (UnsupportedDevicePolicy (rq_DevicePolicy req)));
  ret (sort_devices req deviceStore).

Definition pickDeviceClaims (cfg : alloc_config) (req : AllocationRequest) (deviceStore : list Device)
    (needNumber : nat) (needCores needMemory : Z) : M (list DeviceClaim) :=
  if bool_decide (length deviceStore < needNumber)%nat then ret []
  else
    do deviceStore <- sortDeviceStore cfg req deviceStore;
    allocateByTopologyMode cfg req deviceStore needNumber needCores needMemory.

Definition allocateOne (cfg : alloc_config) (req : AllocationRequest) (need : ContainerNeed)
    (restrictUUIDs : option (gset string)) : M ContainerDeviceClaim :=
  do n <- get_node;
  if bool_decide (GetSchedulableDeviceCount n < cn_Number need) then
    reject (WithDetail (New InsufficientGPUCards)
      ("need " +:+ Itoa (cn_Number need) +:+ " devices, node has " +:+ Itoa (GetSchedulableDeviceCount n) +:+ " schedulable"))
  else
    let '(needCores, needMemory) :=
      resolveContainerNeeds need (nc_MemoryFactor (ni_config n)) (HasSameCapacity n) (GetMaxDeviceMemory n) in
    let '(deviceStore, deviceCounts) := filterDevices n req needCores needMemory restrictUUIDs in
    do claims <- pickDeviceClaims cfg req deviceStore (Z.to_nat (cn_Number need)) needCores needMemory;
    if bool_decide (Z.of_nat (length claims) ≠ cn_Number need) then
      reject (default (WithDetail (New InsufficientGPUResources) ("need " +:+ Itoa (cn_Number need) +:+ " devices, none qualify"))
                (FromCounts deviceCounts (GetDeviceCount n)))
    else ret {| cdc_Name := cn_Name need; cdc_DeviceClaims := sort_slice (by_key dc_Id) claims |}.

(** [addContainerAllocate] *)
Fixpoint addClaims (n : NodeInfo) (claims : list DeviceClaim) : result account_error NodeInfo :=
  match claims with
  | [] => Ok n
  | claim :: claims' => let* n := AddUsedResources n claim in addClaims n claims'
  end.

Definition allocateAndAccumulate (cfg : alloc_config) (req : AllocationRequest) (need : ContainerNeed)
    (restrictUUIDs : option (gset string)) : M ContainerDeviceClaim :=
  do claim <- allocateOne cfg req need restrictUUIDs;
  do n <- get_node;
  match addClaims n (cdc_DeviceClaims claim) with
  | Ok n' => do _ <- put_node n'; ret claim
  | Fail _ => fail ErrAccounting
  end.

(** ** The whole pod *)

Fixpoint each {A B} (f : A → M B) (l : list A) : M (list B) :=
  match l with
  | [] => ret []
  | a :: l' => do b <- f a; do bs <- each f l'; ret (b :: bs)
  end.

Definition is_sidecar_need (need : ContainerNeed) : bool :=
  bool_decide (cn_Kind need = ContainerKindInit) && cn_Restartable need.
Definition is_app_need (need : ContainerNeed) : bool := bool_decide (cn_Kind need = ContainerKindApp).

(** A sequential init container: the pod's GPUs first, then the whole node.
    A rejection of the first attempt is dropped, its state is kept. *)
Definition allocateInit (cfg : alloc_config) (req : AllocationRequest) (preferred : gset string) (need : ContainerNeed)
  : M ContainerDeviceClaim :=
  if bool_decide (preferred = ∅) then allocateOne cfg req need None
  else λ s, match allocateOne cfg req need (Some preferred) s with
            | (Rejected _, s') => allocateOne cfg req need None s'
            | r => r
            end.

(** [claimByName], filled pass by pass; a later entry replaces an earlier one. *)
Definition by_name (claims : list ContainerDeviceClaim) : gmap string ContainerDeviceClaim :=
  fold_left (λ m c, <[cdc_Name c := c]> m) claims ∅.

Definition two_pass (cfg : alloc_config) (req : AllocationRequest) : M (list ContainerDeviceClaim) :=
  let needs := rq_Containers req in
  do sidecars <- each (λ need, allocateAndAccumulate cfg req need None) (filter (λ need, is_sidecar_need need = true) needs);
  do n <- get_node;
  let viewBaseSidecar := SnapshotUsage n in
  do apps <- each (λ need, allocateAndAccumulate cfg req need None) (filter (λ need, is_app_need need = true) needs);
  do n <- get_node;
  do _ <- put_node (RestoreUsage n viewBaseSidecar);
  let preferred : gset string := list_to_set (dc_Uuid <$> mjoin (cdc_DeviceClaims <$> sidecars ++ apps)) in
  do inits <- each (allocateInit cfg req preferred) (filter (λ need, is_init_need need = true) needs);
  let claimByName := by_name (sidecars ++ apps ++ inits) in
  each (λ need, match claimByName !! cn_Name need with
                | Some c => ret c
                | None => fail (ErrNilClaim (cn_Name need))
                end) needs.

Definition allocateContainers (cfg : alloc_config) (req : AllocationRequest) : M (list ContainerDeviceClaim) :=
  if rq_HasSequentialInit req then two_pass cfg req
  else each (λ need, allocateAndAccumulate cfg req need None) (rq_Containers req).

Definition clear_outcome : M unit :=
  λ s, (Done tt, {| as_node := as_node s; as_outcome := {| to_Result := ""; to_Alignment := "" |}; as_events := as_events s |}).

Definition Allocate (cfg : alloc_config) (req : AllocationRequest) : M Pod :=
  do _ <- clear_outcome;
  do deviceClaims <- allocateContainers cfg req;
  do n <- get_node;
  let newPod := InsertAnnotation (rq_Pod req) PodVGPUPreAllocAnnotation (PodDeviceClaim_MarshalText deviceClaims) in
  ret (InsertAnnotation newPod PodPredicateNodeAnnotation (GetName n)).
End allocator.
