(* ===== verification/AllocatorSpec.v ===== *)
(** * What the allocator places

    The selection layer never touches the accounting; a successful
    [allocateOne] claims the requested number of distinct devices that pass
    every gate, so the claims fit what is free. *)

From stdpp Require Import base list gmap strings relations.
From Stdlib Require Import ZArith Lia.
From S2P Require Import Prelude GoMap GoSort GoStrings Float64 GoTime Kube Claims Reason UnionFind Links Topology.
From S2P Require Import Device Footprint NodeInfo Accounting Affinity Request Scoring SubsetSearch DemoNode Numa.
From S2P Require Import Tiered TieredSpec Allocator.

Open Scope Z_scope.

(** ** The monad *)

Lemma bind_done {A B} (m : M A) (k : A → M B) s b s' :
  bind m k s = (Done b, s') ↔ ∃ a s1, m s = (Done a, s1) ∧ k a s1 = (Done b, s').
Proof.
  unfold bind. split.
  - destruct (m s) as [[a|r|e] s1] eqn:E; intros Hb; try done. by exists a, s1.
  - by intros (a & s1 & -> & ?).
Qed.

(** Splits a successful sequence into its successful steps. *)
Ltac inv_done :=
  repeat match goal with
  | H : bind _ _ _ = (Done _, _) |- _ => apply bind_done in H as (? & ? & ? & ?)
  | H : ret _ _ = (Done _, _) |- _ => injection H as ??; subst
  | H : get_node _ = (Done _, _) |- _ => injection H as ??; subst
  | H : put_node _ _ = (Done _, _) |- _ => injection H as ??; subst
  | H : reject _ _ = (Done _, _) |- _ => discriminate H
  | H : fail _ _ = (Done _, _) |- _ => discriminate H
  end.

(** The computation leaves the accounting alone. *)
Definition keeps_node {A} (m : M A) : Prop := ∀ s, as_node (m s).2 = as_node s.

Lemma keeps_ret {A} (a : A) : keeps_node (ret a).
Proof. done. Qed.
Lemma keeps_reject {A} r : keeps_node (@reject A r).
Proof. done. Qed.
Lemma keeps_get : keeps_node get_node.
Proof. done. Qed.
Lemma keeps_event cfg ev : keeps_node (sendEventf cfg ev).
Proof. intros s. unfold sendEventf. simpl. by destruct (_ && _). Qed.
Lemma keeps_record cfg r a : keeps_node (recordOutcome cfg r a).
Proof. intros s. unfold recordOutcome. simpl. by destruct (ac_simulate cfg). Qed.
Lemma keeps_bind {A B} (m : M A) (k : A → M B) : keeps_node m → (∀ a, keeps_node (k a)) → keeps_node (bind m k).
Proof.
  intros Hm Hk s. unfold bind. specialize (Hm s). destruct (m s) as [[a|r|e] s1]; simpl in *; [|done..].
  by rewrite Hk.
Qed.

Create HintDb keeps.
#[export] Hint Resolve keeps_ret keeps_reject keeps_get keeps_event keeps_record keeps_bind : keeps.

Lemma keeps_done {A} (m : M A) s a s' : keeps_node m → m s = (Done a, s') → as_node s' = as_node s.
Proof. intros Hm E. specialize (Hm s). by rewrite E in Hm. Qed.

Section spec.
Context `{Env} `{MapOrder}.

Lemma keeps_fallback cfg n strict code a f d : keeps_node (handleTopologyFallback cfg n strict code a f d).
Proof. unfold handleTopologyFallback. destruct strict; auto with keeps. Qed.

Lemma keeps_topology cfg req store need cores mem : keeps_node (allocateByTopologyMode cfg req store need cores mem).
Proof.
  unfold allocateByTopologyMode. apply keeps_bind; [auto with keeps|]. intros n.
  destruct (_ || _).
  - destruct (allocateLink _ _ _ _ _ _); repeat (apply keeps_bind; [|intros _]); auto using keeps_fallback with keeps.
    destruct (_ || _); [|auto with keeps]. unfold reportLinkDowngrade. auto with keeps.
  - case_bool_decide.
    + destruct (allocateNUMA _ _ _ _ _ _ _); repeat (apply keeps_bind; [|intros _]);
        auto using keeps_fallback with keeps.
    + case_bool_decide; auto with keeps.
Qed.

Lemma keeps_pick cfg req store need cores mem : keeps_node (pickDeviceClaims cfg req store need cores mem).
Proof.
  unfold pickDeviceClaims, sortDeviceStore. case_bool_decide; [auto with keeps|].
  repeat apply keeps_bind; [|intros; auto with keeps|intros; apply keeps_topology]. destruct (_ || _ || _); auto with keeps.
Qed.

Lemma keeps_allocateOne cfg req need w : keeps_node (allocateOne cfg req need w).
Proof.
  unfold allocateOne. apply keeps_bind; [auto with keeps|]. intros n. case_bool_decide; [auto with keeps|].
  destruct (resolveContainerNeeds _ _ _ _) as [cores mem]. destruct (filterDevices _ _ _ _ _) as [store counts].
  apply keeps_bind; [apply keeps_pick|]. intros claims. case_bool_decide; auto with keeps.
Qed.

Lemma keeps_init cfg req preferred need : keeps_node (allocateInit cfg req preferred need).
Proof.
  unfold allocateInit. case_bool_decide; [apply keeps_allocateOne|]. intros s.
  pose proof (keeps_allocateOne cfg req need (Some preferred) s) as Hk.
  destruct (allocateOne cfg req need (Some preferred) s) as [[a|r|e] s1]; simpl in *; [done| |done].
  by rewrite keeps_allocateOne.
Qed.

(** ** The selection *)

(** Distinct devices of the store, as many as asked for. *)
Definition selection (store : list Device) (need : nat) (picked : list Device) : Prop :=
  length picked = need ∧ distinct_uuids picked ∧ ∀ d, d ∈ picked → d ∈ store.

Lemma selection_sublist store need picked :
  distinct_uuids store → picked `sublist_of` store → length picked = need → selection store need picked.
Proof.
  intros Hd Hs Hl. split_and!; [done|by eapply distinct_uuids_sublist|]. intros d Hin. by eapply elem_of_sublist.
Qed.

Lemma try_windows_from n req store need floor attempts plan0 plan :
  try_windows n req store need floor plan0 attempts = Some plan →
  plan0 = Some plan ∨ ∃ w, w ∈ attempts ∧ allocateTiered n req store need w = Some plan.
Proof.
  revert plan0. induction attempts as [|w attempts IH]; intros plan0; simpl; [by left|].
  destruct (allocateTiered n req store need w) as [got|] eqn:E.
  - destruct (acceptable req floor got).
    + intros [= <-]. right. exists w. split; [by left|done].
    + intros [Hp|(w' & Hw & Ht)]%IH; [|right; exists w'; split; [by right|done]].
      destruct plan0 as [p|]; [by left|]. right. exists w. split; [by left|congruence].
  - intros [Hp|(w' & Hw & Ht)]%IH; [by left|]. right. exists w'. split; [by right|done].
Qed.

(** A link plan comes from one of the windows and honours strictness. *)
Lemma allocateLink_from n store req anchor need floor plan :
  allocateLink n store req anchor need floor = Some plan →
  acceptable req floor plan = true ∧ ∃ w, allocateTiered n req store need w = Some plan.
Proof.
  unfold allocateLink. destruct (HasGPUTopology n); simpl; [|done].
  destruct (link_attempts n req anchor need) as [attempts|]; [|done].
  destruct (try_windows n req store need floor None attempts) as [p|] eqn:E; [|done].
  destruct (acceptable req floor p) eqn:Ea; [|done]. intros [= <-]. split; [done|].
  apply try_windows_from in E as [?|(w & _ & Ht)]; [done|]. by exists w.
Qed.

Lemma pickNUMA_sublist n store profile policy need picked :
  pickNUMA n store profile policy need = Some picked → (0 < need)%nat →
  picked `sublist_of` store ∧ length picked = need.
Proof.
  intros E Hn. pose proof (pickNUMA_spec n store profile policy need Hn) as Hp. rewrite E in Hp.
  destruct Hp as (_ & k & _ & Hlen & ->). split; [|rewrite length_take; lia].
  etrans; [apply sublist_take|apply on_numa_sublist].
Qed.

Definition on_node (n : NodeInfo) (d : Device) : Prop := ∃ id, ni_deviceMap n !! id = Some d.

(** What a strict topology request promises of the GPUs of a container: at the
    link modes they reach each other over links no looser than the mode's
    floor, and each has such a link also when it is the only one; at the NUMA
    mode they sit on one NUMA node. *)
Definition topology_met (n : NodeInfo) (req : AllocationRequest) (uuids : list string) : Prop :=
  let mode := BaseTopology (rq_Topology req) in
  rq_TopologyStrict req = true →
  (mode = LinkTopology ∨ mode = PCIeTopology → ∃ tier, (tier_index tier ≤ tier_index (topologyFloor mode))%nat ∧
     (∀ u v, u ∈ uuids → v ∈ uuids → rtsc (λ a b, ConnectedAtTier n a b tier = true) u v) ∧
     ∀ u, u ∈ uuids → HasLinkPeerAtTier n u tier = true ∨
                      ∃ v, ConnectedAtTier n u v tier = true ∨ ConnectedAtTier n v u tier = true) ∧
  (mode = NUMATopology → ∃ k, 0 ≤ k ∧
     ∀ u, u ∈ uuids → ∃ id d, ni_deviceMap n !! id = Some d ∧ d_uuid d = u ∧ d_numa d = k).

Lemma reach_uuids n tier c a b :
  reach n tier c a b → rtsc (λ u v, ConnectedAtTier n u v tier = true) (d_uuid a) (d_uuid b).
Proof.
  apply rtc_congruence. intros x y [(_ & _ & Hc)|(_ & _ & Hc)]; [by left|by right].
Qed.

Lemma plan_topology n req store need w plan :
  good_plan n store need w plan → acceptable req (topologyFloor (BaseTopology (rq_Topology req))) plan = true →
  BaseTopology (rq_Topology req) ≠ NUMATopology → topology_met n req (d_uuid <$> lp_Devices plan).
Proof.
  intros [_ _ _ Hconn Hint _] Hacc Hmode Hstrict. split; [|done]. intros _. exists (lp_Tier plan).
  unfold acceptable in Hacc. rewrite Hstrict in Hacc. apply andb_true_iff in Hacc as [Ht Hsp].
  apply negb_true_iff in Hsp. specialize (Hconn Hsp). specialize (Hint Hsp).
  apply bool_decide_eq_true_1 in Ht. split; [done|]. split.
  - intros u v (a & -> & Ha)%list_elem_of_fmap (b & -> & Hb)%list_elem_of_fmap. eapply reach_uuids. by apply Hconn.
  - intros u (a & -> & Ha)%list_elem_of_fmap.
    destruct (Hint a Ha) as [?|(e & _ & [(_ & _ & Hc)|(_ & _ & Hc)])]; eauto.
Qed.

Lemma numa_topology n req (picked : list Device) k :
  0 ≤ k → (∀ d, d ∈ picked → on_node n d ∧ d_numa d = k) → BaseTopology (rq_Topology req) = NUMATopology →
  topology_met n req (d_uuid <$> picked).
Proof.
  intros Hk Hd Hmode _. rewrite Hmode. split; [by intros [?|?]|]. intros _. exists k. split; [done|].
  intros u (d & -> & Hin)%list_elem_of_fmap. destruct (Hd d Hin) as [[id Hid] ?]. eauto.
Qed.

(** A strict request does not survive a failed attempt. *)
Lemma fallback_lenient cfg n strict code a f detail s u s' :
  handleTopologyFallback cfg n strict code a f detail s = (Done u, s') → strict = false.
Proof. unfold handleTopologyFallback. by destruct strict. Qed.

(** Whatever the topology mode, a successful selection is one, and honours strictness. *)
Lemma topology_selection cfg req store need cores mem s claims s' :
  linkable (as_node s) store → distinct_uuids store → (∀ d, d ∈ store → on_node (as_node s) d) →
  (0 < need ≤ length store)%nat →
  allocateByTopologyMode cfg req store need cores mem s = (Done claims, s') →
  ∃ picked, selection store need picked ∧ topology_met (as_node s) req (d_uuid <$> picked) ∧
            claims = buildClaims picked cores mem.
Proof.
  intros Hl Hd Hon Hn. unfold allocateByTopologyMode. intros Hdone. apply bind_done in Hdone as (n & s0 & E & Hdone).
  injection E as <- <-. set (n := as_node s) in *.
  assert (topology_met n req (d_uuid <$> take need store) → ∃ picked, selection store need picked ∧
    topology_met n req (d_uuid <$> picked) ∧
    buildClaims (take need store) cores mem = buildClaims picked cores mem) as Hplain.
  { exists (take need store). split; [|done]. apply selection_sublist; [done|apply sublist_take|]. rewrite length_take. lia. }
  assert (rq_TopologyStrict req = false → ∀ us, topology_met n req us) as Hlen.
  { intros E us E'. congruence. }
  revert Hdone. destruct (_ || _) eqn:Emode.
  - destruct (allocateLink _ _ _ _ _ _) as [plan|] eqn:El; intros Hdone; inv_done.
    + apply allocateLink_from in El as (Hacc & w & Ht). apply tiered_sound in Ht as Hg; [|done..].
      exists (lp_Devices plan). split_and!; [by apply selection_sublist; [|apply Hg..]| |done].
      eapply plan_topology; [exact Hg|done|]. intros E. rewrite E in Emode. done.
    + apply Hplain, Hlen. by eapply fallback_lenient.
  - apply orb_false_iff in Emode as [E1 E2]. apply bool_decide_eq_false in E1, E2. case_bool_decide as E3.
    + unfold allocateNUMA. destruct (pickNUMA _ _ _ _ _) as [picked|] eqn:Ep; simpl; intros Hdone; inv_done.
      * pose proof (pickNUMA_spec n store UniformProfile (rq_DevicePolicy req) need ltac:(lia)) as Hp.
        apply pickNUMA_sublist in Ep as Hsub; [|lia]. destruct Hsub as [Hsub Hlp]. rewrite Ep in Hp.
        destruct Hp as (_ & k & Hk & _ & ->). eexists. split_and!; [by apply selection_sublist| |done].
        apply (numa_topology n req _ k Hk); [|done]. intros d Hin. split; [apply Hon; by eapply elem_of_sublist|].
        eapply elem_of_sublist in Hin; [|apply sublist_take]. by apply list_elem_of_filter in Hin as [? _].
      * apply Hplain, Hlen. by eapply fallback_lenient.
    + assert (topology_met n req (d_uuid <$> take need store)) as Hv by (intros _; split; [intros [?|?]; done|done]).
      case_bool_decide; intros Hdone; inv_done; by apply Hplain.
Qed.

(** ** One container *)

(** Devices are indexed consistently and known to the link view. *)
Record node_ok (n : NodeInfo) : Prop := {
  no_indexed : node_indexed n;
  no_linked id d : ni_deviceMap n !! id = Some d → ∃ g, Some g ∈ ni_deviceList n ∧ g_UUID g = d_uuid d
}.

Lemma elem_of_range_values n d : d ∈ (range (ni_deviceMap n)).*2 ↔ on_node n d.
Proof.
  unfold on_node. rewrite list_elem_of_fmap. split.
  - intros ([id d'] & -> & Hd%elem_of_range). by exists id.
  - intros [id Hd]. exists (id, d). split; [done|]. by apply elem_of_range.
Qed.

Lemma range_distinct n : node_indexed n → distinct_uuids (range (ni_deviceMap n)).*2.
Proof.
  intros [_ Hi]. unfold distinct_uuids. rewrite <- list_fmap_compose. apply NoDup_fmap_2_strong.
  - intros [k1 d1] [k2 d2] H1%elem_of_range H2%elem_of_range Hu. simpl in Hu.
    destruct (Hi _ _ H1) as [_ Hu1], (Hi _ _ H2) as [_ Hu2]. rewrite Hu in Hu1.
    assert (k1 = k2) as -> by congruence. congruence.
  - apply (NoDup_fmap_1 fst), NoDup_range_keys.
Qed.

Lemma filterDevices_store n req cores mem w :
  let store := (filterDevices n req cores mem w).1 in
  store `sublist_of` (range (ni_deviceMap n)).*2 ∧
  ∀ d, d ∈ store ↔ on_node n d ∧ in_window w d ∧ device_verdict req cores mem d = None.
Proof.
  simpl. split; [etrans; apply sublist_filter|]. intros d.
  rewrite !list_elem_of_filter, elem_of_range_values. tauto.
Qed.

(** The claims of a container: distinct devices of the node that pass every
    gate, in the requested number, with the topology a strict request asks for. *)
Definition placed (n : NodeInfo) (req : AllocationRequest) (need : ContainerNeed) (w : option (gset string))
    (claim : ContainerDeviceClaim) : Prop :=
  let '(cores, mem) := resolveContainerNeeds need (nc_MemoryFactor (ni_config n)) (HasSameCapacity n)
                         (GetMaxDeviceMemory n) in
  cdc_Name claim = cn_Name need ∧ topology_met n req (dc_Uuid <$> cdc_DeviceClaims claim) ∧
  ∃ picked, cdc_DeviceClaims claim ≡ₚ buildClaims picked cores mem ∧ Z.of_nat (length picked) = cn_Number need ∧
    distinct_uuids picked ∧
    ∀ d, d ∈ picked → on_node n d ∧ in_window w d ∧ device_verdict req cores mem d = None.

Lemma linkable_node n store : node_ok n → (∀ d, d ∈ store → on_node n d) → linkable n store.
Proof. intros Hn Hs. apply Forall_forall. intros d [id Hd]%Hs. by eapply no_linked. Qed.

Lemma topology_met_perm n req us us' : us' ≡ₚ us → topology_met n req us → topology_met n req us'.
Proof.
  intros Hp Hm Hstrict. destruct (Hm Hstrict) as [Hlink Hnuma]. split.
  - intros Hmode. destruct (Hlink Hmode) as (tier & Ht & Hc & Hi). exists tier. split; [done|].
    split; [intros u v|intros u]; rewrite !Hp; auto.
  - intros Hmode. destruct (Hnuma Hmode) as (k & Hk & Hu). exists k. split; [done|]. intros u. rewrite Hp. auto.
Qed.

Lemma sorted_store cfg req store s store' s' :
  sortDeviceStore cfg req store s = (Done store', s') → store' ≡ₚ store ∧ as_node s' = as_node s.
Proof.
  intros Hsort. split.
  - unfold sortDeviceStore in Hsort. apply bind_done in Hsort as (u & s3 & _ & Hr). inv_done. apply sort_slice_perm.
  - eapply keeps_done; [|exact Hsort]. unfold sortDeviceStore. apply keeps_bind; [|auto with keeps].
    destruct (_ || _ || _); auto with keeps.
Qed.

Lemma allocateOne_placed cfg req need w s claim s' :
  node_ok (as_node s) → 0 < cn_Number need → allocateOne cfg req need w s = (Done claim, s') →
  placed (as_node s) req need w claim ∧ as_node s' = as_node s.
Proof.
  intros Hn Hpos Hdone. split; [|by eapply keeps_done; [apply keeps_allocateOne|]].
  unfold allocateOne in Hdone. apply bind_done in Hdone as (n & s0 & E & Hdone). injection E as <- <-.
  set (n := as_node s) in *. unfold placed. revert Hdone. case_bool_decide; [done|].
  destruct (resolveContainerNeeds _ _ _ _) as [cores mem].
  pose proof (filterDevices_store n req cores mem w) as [Hsub Hst].
  destruct (filterDevices n req cores mem w) as [store counts]. simpl in Hsub, Hst. intros Hdone.
  apply bind_done in Hdone as (claims & s1 & Hpick & Hdone). revert Hdone. case_bool_decide as Hlen; [done|].
  intros Hdone. inv_done. simpl. split; [done|].
  assert (Z.of_nat (length claims) = cn_Number need) as Hlen' by (destruct (decide (Z.of_nat (length claims) = cn_Number need)); done).
  unfold pickDeviceClaims in Hpick. revert Hpick. case_bool_decide as Hst0.
  { intros Hpick. inv_done. simpl in Hlen'. lia. }
  intros Hpick. apply bind_done in Hpick as (store' & s2 & Hsort & Hpick).
  apply sorted_store in Hsort as [Hp Hn2]. fold n in Hn2.
  assert (∀ d, d ∈ store' → on_node n d) as Hon by (intros d Hd'; rewrite Hp in Hd'; by apply Hst in Hd' as [? _]).
  apply topology_selection in Hpick as (picked & (Hl & Hd & Hin) & Htop & ->).
  - rewrite Hn2 in Htop. split.
    { eapply topology_met_perm; [|exact Htop]. rewrite sort_slice_perm. unfold buildClaims. by rewrite <- list_fmap_compose. }
    exists picked. split_and!; [apply sort_slice_perm|rewrite Hl; lia|done|].
    intros d Hd'. apply Hst. rewrite <- Hp. by apply Hin.
  - rewrite Hn2. by apply linkable_node.
  - unfold distinct_uuids. rewrite Hp. eapply distinct_uuids_sublist; [done|]. apply range_distinct, Hn.
  - by rewrite Hn2.
  - rewrite Hp. lia.
Qed.

(** ** Fitting *)

(** The resolved request is non-negative. *)
Definition need_nonneg (n : NodeInfo) (need : ContainerNeed) : Prop :=
  let '(cores, mem) := resolveContainerNeeds need (nc_MemoryFactor (ni_config n)) (HasSameCapacity n)
                         (GetMaxDeviceMemory n) in 0 ≤ cores ∧ 0 ≤ mem.

Lemma GetTotalMemory_wf d : device_wf d → GetTotalMemory d = total Memory d.
Proof. intros Hw. destruct (Hw Memory) as [_ Ht]. simpl in *. unfold GetTotalMemory. case_bool_decide; lia. Qed.

(** A device that passes the gates has room for the claim, in every dimension. *)
Lemma verdict_fits req cores mem d :
  device_wf d → 0 ≤ cores → 0 ≤ mem → device_verdict req cores mem d = None →
  ∀ x, 0 ≤ demand x (claim_of cores mem d) ≤ allocatable x d.
Proof.
  intros Hw Hc Hm. unfold device_verdict. destruct (d_healthy d); simpl; [|done]. destruct (d_mig d); [done|].
  case_bool_decide as Hnum; [done|]. case_bool_decide as Hmem; [done|]. destruct (_ || _) eqn:Hcore; [done|].
  intros _. apply orb_false_iff in Hcore as [Hcore _]. apply bool_decide_eq_false in Hcore.
  pose proof (GetTotalMemory_wf d Hw) as Ht. destruct (Hw Memory) as [_ Htm]. simpl in Htm, Ht. intros [].
  - pose proof (allocatable_range Number d). simpl in *. lia.
  - simpl. lia.
  - simpl. case_bool_decide; lia.
Qed.
End spec.
