(* ===== verification/Placement.v ===== *)
(** * The allocator never overcommits

    Claims placed one after another add to the occupancy of their devices and
    stay within what is free, for the containers that run together and, in the
    lifecycle-aware pass, for every phase of the pod. *)

From stdpp Require Import base list gmap strings.
From Stdlib Require Import ZArith Lia.
From S2P Require Import Prelude GoMap GoSort GoStrings Float64 GoTime Kube Claims Reason Links Topology Device.
From S2P Require Import Footprint NodeInfo Accounting Affinity Request Scoring SubsetSearch Numa Tiered TieredSpec.
From S2P Require Import Allocator AllocatorSpec.

Open Scope Z_scope.

Definition node_wf (n : NodeInfo) : Prop := ∀ id d, ni_deviceMap n !! id = Some d → device_wf d.

(** The devices of [n'] carry those of [n] plus exactly [f]. *)
Definition occupies (n n' : NodeInfo) (f : dim → string → Z) : Prop :=
  same_node n n' ∧ ni_nodePods n = ni_nodePods n' ∧
  ∀ id d, ni_deviceMap n !! id = Some d →
    ∃ d', ni_deviceMap n' !! id = Some d' ∧ ∀ x, used x d' = used x d + f x (d_uuid d).

(** Adding [f] pushes no counter beyond the capacity of its device. *)
Definition fits (n : NodeInfo) (f : dim → string → Z) : Prop :=
  ∀ id d x, ni_deviceMap n !! id = Some d →
    0 ≤ f x (d_uuid d) ∧ used x d + f x (d_uuid d) ≤ Z.max (used x d) (total x d).

Lemma occupies_refl n : occupies n n (λ _ _, 0).
Proof. split_and!; [done..|]. intros id d Hd. exists d. split; [done|]. intros x. lia. Qed.

Lemma occupies_lookup n n' f id d' :
  occupies n n' f → ni_deviceMap n' !! id = Some d' →
  ∃ d, ni_deviceMap n !! id = Some d ∧ same_card d d' ∧ ∀ x, used x d' = used x d + f x (d_uuid d).
Proof.
  intros (Hs & _ & Hd) Hd'. symmetry in Hs. destruct (same_node_lookup _ _ _ _ Hs Hd') as (d & Hdn & Hc).
  destruct (Hd _ _ Hdn) as (d2 & Hd2 & Hu). simplify_eq. exists d. split_and!; [done|by symmetry|done].
Qed.

Lemma occupies_trans n1 n2 n3 f g :
  occupies n1 n2 f → occupies n2 n3 g → occupies n1 n3 (λ x u, f x u + g x u).
Proof.
  intros (Hs1 & Hp1 & H1) (Hs2 & Hp2 & H2). split_and!; [by etrans|congruence|]. intros id d Hd.
  destruct (H1 _ _ Hd) as (d1 & Hd1 & Hu1). destruct (H2 _ _ Hd1) as (d2 & Hd2 & Hu2).
  destruct (same_node_lookup _ _ _ _ Hs1 Hd) as (d1' & Hd1' & Hc). simplify_eq.
  destruct (same_card_fields _ _ Hc) as (_ & Hu & _). exists d2. split; [done|]. intros x.
  rewrite Hu2, Hu1, <- Hu. lia.
Qed.

Lemma occupies_ext n n' f g : (∀ x u, f x u = g x u) → occupies n n' f → occupies n n' g.
Proof.
  intros Hf (Hs & Hp & Hd). split_and!; [done..|]. intros id d Hdn. destruct (Hd _ _ Hdn) as (d' & ? & Hu).
  exists d'. split; [done|]. intros x. by rewrite <- Hf.
Qed.

Lemma fits_ext n f g : (∀ x u, f x u = g x u) → fits n f → fits n g.
Proof. intros Hf H id d x Hd. rewrite <- Hf. by apply (H id). Qed.

Lemma fits_trans n n' f g : occupies n n' f → fits n f → fits n' g → fits n (λ x u, f x u + g x u).
Proof.
  intros Ho Hf Hg id d x Hd. destruct (Hf id d x Hd) as [H1 H2].
  destruct Ho as (Hs & _ & Ho). destruct (Ho _ _ Hd) as (d' & Hd' & Hu).
  destruct (same_node_lookup _ _ _ _ Hs Hd) as (d2 & Hd2 & Hc). simplify_eq.
  destruct (Hg id d' x Hd') as [H3 H4]. rewrite Hu in H4. rewrite <- (same_card_total x d d') in H4 by done.
  destruct (same_card_fields _ _ Hc) as (_ & Hdu & _). rewrite <- Hdu in *. lia.
Qed.

Lemma node_wf_occupies n n' f : node_wf n → occupies n n' f → fits n f → node_wf n'.
Proof.
  intros Hw Ho Hf id d' Hd'. destruct (occupies_lookup _ _ _ _ _ Ho Hd') as (d & Hd & Hc & Hu). intros x.
  destruct (Hw _ _ Hd x). destruct (Hf id d x Hd). rewrite Hu, <- (same_card_total x d d') by done. lia.
Qed.

(** Everything the requests are resolved with survives. *)
Lemma same_node_config n n' :
  same_node n n' → ni_config n = ni_config n' ∧ HasSameCapacity n = HasSameCapacity n' ∧
  GetMaxDeviceMemory n = GetMaxDeviceMemory n' ∧ ni_deviceList n = ni_deviceList n' ∧ GetName n = GetName n'.
Proof.
  intros [Hs _]. unfold with_state, set_used_stats in Hs. injection Hs. intros.
  unfold HasSameCapacity, GetMaxDeviceMemory, GetName. split_and!; congruence.
Qed.

Lemma node_ok_same n n' : same_node n n' → node_ok n → node_ok n'.
Proof.
  intros Hs [Hi Hl]. destruct (same_node_config _ _ Hs) as (_ & _ & _ & Hlist & _). split.
  - by eapply same_node_indexed.
  - intros id d' Hd'. rewrite <- Hlist. symmetry in Hs. destruct (same_node_lookup _ _ _ _ Hs Hd') as (d & Hd & Hc).
    destruct (same_card_fields _ _ Hc) as (_ & -> & _). by eapply Hl.
Qed.

Lemma need_nonneg_same n n' need : same_node n n' → need_nonneg n need → need_nonneg n' need.
Proof. intros Hs. destruct (same_node_config _ _ Hs) as (Hc & Hsame & Hm & _). unfold need_nonneg. by rewrite Hc, Hsame, Hm. Qed.

Section place.
Context `{Env} `{MapOrder}.

(** ** The claims of one container *)

(** On a device of the node, the container takes one claim or nothing. *)
Lemma placed_on n req need w claim id d :
  node_ok n → placed n req need w claim → ni_deviceMap n !! id = Some d →
  let '(cores, mem) := resolveContainerNeeds need (nc_MemoryFactor (ni_config n)) (HasSameCapacity n)
                         (GetMaxDeviceMemory n) in
  (∀ x, container_on x (d_uuid d) claim = 0) ∨
  device_verdict req cores mem d = None ∧ ∀ x, container_on x (d_uuid d) claim = demand x (claim_of cores mem d).
Proof.
  intros Hn Hp Hd. unfold placed in Hp. destruct (resolveContainerNeeds _ _ _ _) as [cores mem].
  destruct Hp as (_ & _ & picked & Hperm & _ & Hdist & Hin).
  assert (∀ x, container_on x (d_uuid d) claim
    = Zsum (demand x <$> (claim_of cores mem <$> filter (λ e, d_uuid e = d_uuid d) picked))) as Hon.
  { intros x. unfold container_on, claims_on. apply Zsum_perm. rewrite Hperm. clear -Hperm.
    unfold buildClaims. by rewrite filter_of_fmap. }
  destruct (decide (d ∈ picked)) as [Hd'|Hd'].
  - right. split; [by apply Hin|]. intros x. rewrite Hon.
    apply list_elem_of_split in Hd' as (p1 & p2 & ->). unfold distinct_uuids in Hdist.
    rewrite fmap_app, fmap_cons in Hdist. apply NoDup_app in Hdist as (_ & Hx & Hy). apply NoDup_cons in Hy as [Hy _].
    assert (∀ l : list Device, d_uuid d ∉ (d_uuid <$> l) → filter (λ e, d_uuid e = d_uuid d) l = []) as Hnil.
    { intros l Hl. apply filter_none, Forall_forall. intros e He Hu. apply Hl. rewrite <- Hu. by apply list_elem_of_fmap_2. }
    rewrite filter_app, filter_cons_True, !Hnil by (done || (intros Hc; apply (Hx _ Hc); by left)). cbn. lia.
  - left. intros x. rewrite Hon. rewrite filter_none; [done|]. apply Forall_forall. intros e He Hu. apply Hd'.
    destruct (Hin e He) as ([id' He'] & _). destruct (no_indexed n Hn) as [_ Hi].
    destruct (Hi _ _ Hd) as [_ H1], (Hi _ _ He') as [_ H2]. rewrite Hu in H2.
    assert (id = id') as <- by congruence. congruence.
Qed.

Lemma placed_fits n req need w claim :
  node_ok n → node_wf n → need_nonneg n need → placed n req need w claim →
  fits n (λ x u, container_on x u claim).
Proof.
  intros Hn Hw Hnn Hp id d x Hd. pose proof (placed_on n req need w claim id d Hn Hp Hd) as Hon.
  unfold need_nonneg in Hnn. destruct (resolveContainerNeeds _ _ _ _) as [cores mem]. destruct Hnn as [Hc Hm].
  destruct Hon as [->|[Hv ->]]; [lia|].
  pose proof (verdict_fits req cores mem d (Hw _ _ Hd) Hc Hm Hv x) as Hf.
  rewrite (allocatable_wf x d) in Hf by by eapply Hw. lia.
Qed.

(** Recording the claims of a container whose devices are known succeeds. *)
Lemma addClaims_ok n claims :
  node_indexed n → Forall (λ c, is_Some (ni_deviceIndexMap n !! dc_Uuid c)) claims →
  addClaims n claims = Ok (fold_left (λ n fp, or_skip n (addFootprintResources n fp)) (fp_of <$> claims) n).
Proof.
  intros Hn Hc. revert n Hn Hc. induction claims as [|c claims IH]; intros n Hn Hc; [done|].
  apply Forall_cons in Hc as [[id Hid] Hc]. simpl.
  destruct (addFootprint_spec n (fp_of c) Hn) as [Hs _].
  assert (∃ n1, AddUsedResources n c = Ok n1 ∧ addFootprintResources n (fp_of c) = Ok n1) as (n1 & E1 & E2).
  { rewrite AddUsedResources_fp. unfold addFootprintResources, add_occupancy. simpl. rewrite Hid.
    destruct Hn as [Hn _]. destruct (Hn _ _ Hid) as (d & -> & _). eauto. }
  rewrite E1, E2 in *. simpl in *. apply IH; [by eapply same_node_indexed|].
  by rewrite <- (same_node_index _ _ Hs).
Qed.

Lemma footprints_keep_pods fps n :
  ni_nodePods (fold_left (λ n fp, or_skip n (addFootprintResources n fp)) fps n) = ni_nodePods n.
Proof.
  revert n. induction fps as [|fp fps IH]; intros n; [done|]. simpl. rewrite IH.
  unfold addFootprintResources, add_occupancy. destruct (ni_deviceIndexMap n !! fp_Uuid fp); [|done].
  by destruct (ni_deviceMap n !! _).
Qed.

Lemma addClaims_occupies n req need w claim :
  node_ok n → node_wf n → need_nonneg n need → placed n req need w claim →
  ∃ n', addClaims n (cdc_DeviceClaims claim) = Ok n' ∧ occupies n n' (λ x u, container_on x u claim).
Proof.
  intros Hn Hw Hnn Hp. pose proof (placed_fits n req need w claim Hn Hw Hnn Hp) as Hfit.
  assert (counters_in64 n) as Hin.
  { intros id d x Hd. destruct (Hw _ _ Hd x). unfold in64, int64_min, int64_max in *. lia. }
  assert (Forall (λ c, is_Some (ni_deviceIndexMap n !! dc_Uuid c)) (cdc_DeviceClaims claim)) as Hknown.
  { unfold placed in Hp. destruct (resolveContainerNeeds _ _ _ _) as [cores mem].
    destruct Hp as (_ & _ & picked & Hperm & _ & _ & Hpicked). rewrite Hperm. apply Forall_fmap, Forall_forall.
    intros d Hd. destruct (Hpicked d Hd) as ([id Hid] & _). simpl.
    destruct (no_indexed n Hn) as [_ Hi]. destruct (Hi _ _ Hid) as [_ ->]. eauto. }
  eexists. split; [by apply addClaims_ok; [apply no_indexed|]|].
  destruct (addFootprints_spec (fp_of <$> cdc_DeviceClaims claim) n (no_indexed n Hn) Hin) as [Hs Hd].
  split_and!; [done|by rewrite footprints_keep_pods|]. intros id d Hdn. destruct (Hd _ _ Hdn) as (d' & Hd' & Hu).
  exists d'. split; [done|]. intros x. rewrite Hu, fps_on_claims. fold (container_on x (d_uuid d) claim).
  destruct (Hfit id d x Hdn). destruct (Hw _ _ Hdn x). apply wrap64_id. unfold in64, int64_min, int64_max in *. lia.
Qed.

(** ** Containers that run together *)

(** The requests are positive and resolve to non-negative amounts. *)
Definition needs_ok (n : NodeInfo) (needs : list ContainerNeed) : Prop :=
  Forall (λ need, 0 < cn_Number need ∧ need_nonneg n need) needs.

Lemma needs_ok_same n n' needs : same_node n n' → needs_ok n needs → needs_ok n' needs.
Proof.
  intros Hs Hok. eapply Forall_impl; [exact Hok|]. intros need [Hp Hn]. split; [done|]. by eapply need_nonneg_same.
Qed.

Definition group_on (claims : list ContainerDeviceClaim) (x : dim) (u : string) : Z := Zsum (container_on x u <$> claims).

Lemma accumulate_spec cfg req need w s claim s' :
  node_ok (as_node s) → node_wf (as_node s) → 0 < cn_Number need → need_nonneg (as_node s) need →
  allocateAndAccumulate cfg req need w s = (Done claim, s') →
  placed (as_node s) req need w claim ∧ occupies (as_node s) (as_node s') (λ x u, container_on x u claim).
Proof.
  intros Hn Hw Hpos Hnn Hdone. unfold allocateAndAccumulate in Hdone.
  apply bind_done in Hdone as (c & s1 & Hone & Hdone).
  apply allocateOne_placed in Hone as [Hp Hs1]; [|done..].
  apply bind_done in Hdone as (n1 & s2 & E & Hdone). injection E as <- <-. rewrite Hs1 in Hdone.
  destruct (addClaims_occupies (as_node s) req need w c Hn Hw Hnn Hp) as (n' & Ha & Ho).
  rewrite Ha in Hdone. inv_done. done.
Qed.

Lemma each_accumulate cfg req needs s claims s' :
  node_ok (as_node s) → node_wf (as_node s) → needs_ok (as_node s) needs →
  each (λ need, allocateAndAccumulate cfg req need None) needs s = (Done claims, s') →
  Forall2 (λ need claim, ∃ n1, same_node (as_node s) n1 ∧ node_wf n1 ∧ placed n1 req need None claim) needs claims ∧
  occupies (as_node s) (as_node s') (group_on claims) ∧ fits (as_node s) (group_on claims).
Proof.
  revert s claims. induction needs as [|need needs IH]; intros s claims Hn Hw Hok Hdone; cbn [each] in Hdone.
  { inv_done. split_and!; [done|apply occupies_refl|]. intros id d x Hd. unfold group_on. simpl. lia. }
  apply Forall_cons in Hok as [[Hpos Hnn] Hok].
  apply bind_done in Hdone as (c & s1 & Hc & Hdone). apply bind_done in Hdone as (cs & s2 & Hcs & Hdone). inv_done.
  destruct (accumulate_spec cfg req need None s c s1 Hn Hw Hpos Hnn Hc) as [Hp Ho].
  pose proof (placed_fits _ _ _ _ _ Hn Hw Hnn Hp) as Hf. pose proof Ho as (Hs & _ & _).
  destruct (IH s1 cs) as (Hall & Ho' & Hf'); [by eapply node_ok_same|by eapply node_wf_occupies|by eapply needs_ok_same|done|].
  split_and!.
  - constructor; [by exists (as_node s)|]. eapply Forall2_impl; [exact Hall|].
    intros nd cl (n1 & Hs1 & Hp1). exists n1. split; [by etrans|done].
  - eapply occupies_ext; [|by eapply occupies_trans]. intros x u. unfold group_on. by rewrite fmap_cons, Zsum_cons.
  - eapply fits_ext; [|by eapply fits_trans]. intros x u. unfold group_on. by rewrite fmap_cons, Zsum_cons.
Qed.

(** ** Sequential init containers *)

Lemma init_placed cfg req preferred need s claim s' :
  node_ok (as_node s) → 0 < cn_Number need → allocateInit cfg req preferred need s = (Done claim, s') →
  (∃ w, placed (as_node s) req need w claim) ∧ as_node s' = as_node s.
Proof.
  intros Hn Hpos Hdone. split; [|by eapply keeps_done; [apply keeps_init|]]. unfold allocateInit in Hdone.
  revert Hdone. case_bool_decide.
  - intros Hdone. apply allocateOne_placed in Hdone as [Hp _]; [eauto|done..].
  - pose proof (keeps_allocateOne cfg req need (Some preferred) s) as Hk.
    destruct (allocateOne cfg req need (Some preferred) s) as [[a|r|e] s1] eqn:E; intros Hdone; simpl in Hk.
    + injection Hdone as <- <-. apply allocateOne_placed in E as [Hp _]; [eauto|done..].
    + apply allocateOne_placed in Hdone as [Hp _]; [|by rewrite Hk|done]. rewrite Hk in Hp. eauto.
    + done.
Qed.

Lemma each_init cfg req preferred needs s claims s' :
  node_ok (as_node s) → Forall (λ need, 0 < cn_Number need) needs →
  each (allocateInit cfg req preferred) needs s = (Done claims, s') →
  Forall2 (λ need claim, ∃ w, placed (as_node s) req need w claim) needs claims ∧ as_node s' = as_node s.
Proof.
  revert s claims. induction needs as [|need needs IH]; intros s claims Hn Hok Hdone; cbn [each] in Hdone; [by inv_done|].
  apply Forall_cons in Hok as [Hpos Hok].
  apply bind_done in Hdone as (c & s1 & Hc & Hdone). apply bind_done in Hdone as (cs & s2 & Hcs & Hdone). inv_done.
  apply init_placed in Hc as [Hp Hs1]; [|done..].
  destruct (IH s1 cs) as [Hall Hs2]; [by rewrite Hs1|done|done|]. rewrite Hs1 in *. split; [by constructor|done].
Qed.

(** The peak of claims of which only one is live at a time. *)
Definition peak_on (claims : list ContainerDeviceClaim) (x : dim) (u : string) : Z := Zmax0 (container_on x u <$> claims).

Lemma fits_peak n claims : Forall (λ c, fits n (λ x u, container_on x u c)) claims → fits n (peak_on claims).
Proof.
  intros Hf id d x Hd. unfold peak_on. split; [apply Zmax0_nonneg|].
  enough (Zmax0 (container_on x (d_uuid d) <$> claims) ≤ Z.max 0 (total x d - used x d)) by lia.
  apply Zmax0_le; [lia|]. intros z (c & -> & Hc)%list_elem_of_fmap. rewrite Forall_forall in Hf.
  destruct (Hf c Hc id d x Hd). lia.
Qed.

Lemma fits_max n f g : fits n f → fits n g → fits n (λ x u, Z.max (f x u) (g x u)).
Proof. intros Hf Hg id d x Hd. destruct (Hf id d x Hd), (Hg id d x Hd). lia. Qed.

(** ** The kinds of the pod's containers *)

(** The request lists the vGPU containers of its pod. *)
Definition built (req : AllocationRequest) : Prop :=
  rq_Containers req = pod_needs (rq_Pod req) ∧
  rq_HasSequentialInit req = existsb is_init_need (rq_Containers req).

Lemma BuildAllocationRequest_built pod : built (BuildAllocationRequest pod) ∧ rq_Pod (BuildAllocationRequest pod) = pod.
Proof. done. Qed.

Lemma ResetStatistics_built req n : built req → built (ResetStatistics req n) ∧ rq_Pod (ResetStatistics req n) = rq_Pod req.
Proof. done. Qed.

(** Kubernetes: container names are distinct across both lists. *)
Definition distinct_names (pod : Pod) : Prop := NoDup (c_Name <$> p_InitContainers pod ++ p_Containers pod).

Lemma elem_of_pod_needs pod need :
  need ∈ pod_needs pod ↔ 0 < cn_Number need ∧
    ((∃ c, c ∈ p_InitContainers pod ∧ need = container_need c ContainerKindInit (IsRestartableInitContainer c)) ∨
     (∃ c, c ∈ p_Containers pod ∧ need = container_need c ContainerKindApp false)).
Proof.
  unfold pod_needs. rewrite list_elem_of_filter, elem_of_app, !list_elem_of_fmap. naive_solver.
Qed.

Lemma names_inj pod c c' :
  distinct_names pod → c ∈ p_InitContainers pod ++ p_Containers pod → c' ∈ p_InitContainers pod ++ p_Containers pod →
  c_Name c = c_Name c' → c = c'.
Proof.
  intros Hnd [i Hi]%list_elem_of_lookup [j Hj]%list_elem_of_lookup Hn.
  assert (i = j) as -> by (eapply (NoDup_lookup _ i j (c_Name c) Hnd); rewrite list_lookup_fmap;
    simplify_option_eq; congruence).
  congruence.
Qed.

Lemma elem_of_init_names pod b name :
  name ∈ ((if b : bool then sidecar_names pod else sequentialInit_names pod) : gset string) ↔
  ∃ c, c ∈ p_InitContainers pod ∧ IsRestartableInitContainer c = b ∧ c_Name c = name.
Proof.
  destruct b; unfold sidecar_names, sequentialInit_names; rewrite elem_of_list_to_set, list_elem_of_fmap;
    setoid_rewrite list_elem_of_filter; naive_solver.
Qed.

(** A claim named after a container of the pod falls into that container's class. *)
Lemma need_class pod need (claim : ContainerDeviceClaim) :
  distinct_names pod → need ∈ pod_needs pod → cdc_Name claim = cn_Name need →
  (is_init_need need = true ↔ is_sequential pod claim) ∧
  (is_sidecar_need need = true ↔ is_sidecar pod claim) ∧
  (is_app_need need = true ↔ is_regular pod claim).
Proof.
  intros Hnd [_ Hneed]%elem_of_pod_needs Hname. unfold is_sidecar, is_regular, is_sequential. rewrite Hname.
  pose proof (elem_of_init_names pod true (cn_Name need)) as Hside.
  pose proof (elem_of_init_names pod false (cn_Name need)) as Hseq. simpl in Hside, Hseq. rewrite Hside, Hseq.
  destruct Hneed as [(c & Hc & ->)|(c & Hc & ->)]; unfold is_init_need, is_sidecar_need, is_app_need; simpl.
  - assert (∀ b, (∃ c', c' ∈ p_InitContainers pod ∧ IsRestartableInitContainer c' = b ∧ c_Name c' = c_Name c)
      ↔ IsRestartableInitContainer c = b) as Hb.
    { intros b. split; [|by exists c]. intros (c' & Hc' & <- & Hn).
      by rewrite (names_inj pod c c') by (done || (apply elem_of_app; by left)). }
    rewrite !Hb. destruct (IsRestartableInitContainer c); naive_solver.
  - assert (∀ b, ¬ ∃ c', c' ∈ p_InitContainers pod ∧ IsRestartableInitContainer c' = b ∧ c_Name c' = c_Name c) as Hb.
    { intros b (c' & Hc' & _ & Hn). unfold distinct_names in Hnd. rewrite fmap_app in Hnd.
      apply NoDup_app in Hnd as (_ & Hd & _). apply (Hd (c_Name c')); [by apply list_elem_of_fmap_2|].
      rewrite Hn. by apply list_elem_of_fmap_2. }
    pose proof (Hb true). pose proof (Hb false). naive_solver.
Qed.

Lemma pod_needs_names pod : distinct_names pod → NoDup (cn_Name <$> pod_needs pod).
Proof.
  intros Hnd. unfold pod_needs. eapply sublist_NoDup; [exact Hnd|].
  etrans; [apply fmap_sublist, sublist_filter|]. by rewrite !fmap_app, <- !list_fmap_compose.
Qed.

(** Every need is of exactly one kind. *)
Lemma needs_split pod :
  pod_needs pod ≡ₚ filter (λ need, is_sidecar_need need = true) (pod_needs pod) ++
    filter (λ need, is_app_need need = true) (pod_needs pod) ++
    filter (λ need, is_init_need need = true) (pod_needs pod).
Proof.
  assert (Forall (λ need, cn_Kind need = ContainerKindInit ∨ cn_Kind need = ContainerKindApp ∧ cn_Restartable need = false)
    (pod_needs pod)) as Hk.
  { apply Forall_forall. intros need [_ [(c & _ & ->)|(c & _ & ->)]]%elem_of_pod_needs; simpl; auto. }
  induction Hk as [|need l Hneed _ IH]; [done|]. rewrite !filter_cons.
  unfold is_sidecar_need, is_app_need, is_init_need in *.
  destruct need as [nm kind rs nb co me]; simpl in *. destruct Hneed as [->|[-> ->]]; simpl.
  - destruct rs; simpl; rewrite IH at 1; [done|]. rewrite !app_assoc. apply Permutation_middle.
  - rewrite IH at 1. apply Permutation_middle.
Qed.

(** ** The reservation of the placed claims *)

Lemma reserve_perm x pod u l l' : l ≡ₚ l' → reserve x pod l u = reserve x pod l' u.
Proof.
  intros Hp. unfold reserve.
  rewrite (Zsum_perm _ _ (fmap_Permutation (container_on x u) _ _ (filter_Permutation (is_sidecar pod) _ _ Hp))).
  rewrite (Zsum_perm _ _ (fmap_Permutation (container_on x u) _ _ (filter_Permutation (is_regular pod) _ _ Hp))).
  by rewrite (Zmax0_perm _ _ (fmap_Permutation (container_on x u) _ _ (filter_Permutation (is_sequential pod) _ _ Hp))).
Qed.

Lemma reserve_classes x pod u (sidecars apps inits : list ContainerDeviceClaim) :
  Forall (is_sidecar pod) sidecars → Forall (is_regular pod) apps → Forall (is_sequential pod) inits →
  reserve x pod (sidecars ++ apps ++ inits) u
  = group_on sidecars x u + Z.max (group_on apps x u) (peak_on inits x u).
Proof.
  intros Hs Ha Hi. unfold reserve. rewrite !filter_app.
  rewrite (filter_all (is_sidecar pod) sidecars), (filter_all (is_regular pod) apps),
    (filter_all (is_sequential pod) inits) by done.
  rewrite (filter_none (is_sidecar pod) apps), (filter_none (is_sidecar pod) inits),
    (filter_none (is_regular pod) sidecars), (filter_none (is_regular pod) inits),
    (filter_none (is_sequential pod) sidecars), (filter_none (is_sequential pod) apps);
    try (eapply Forall_impl; [eassumption|]; unfold is_sidecar, is_regular; tauto).
  by rewrite !app_nil_r, !app_nil_l.
Qed.

(** The claim was placed for the need on a node that differs from [n] in counters only. *)
Definition placed_like (n : NodeInfo) (req : AllocationRequest) (need : ContainerNeed) (claim : ContainerDeviceClaim) : Prop :=
  ∃ n1 w, same_node n n1 ∧ node_wf n1 ∧ placed n1 req need w claim.

Lemma placed_like_name n req need claim : placed_like n req need claim → cdc_Name claim = cn_Name need.
Proof. intros (n1 & w & _ & _ & Hp). unfold placed in Hp. destruct (resolveContainerNeeds _ _ _ _). apply Hp. Qed.

Lemma placed_class n req pod P Q needs claims :
  distinct_names pod → (∀ need claim, need ∈ pod_needs pod → cdc_Name claim = cn_Name need → P need = true → Q claim) →
  Forall2 (placed_like n req) (filter (λ need, P need = true) needs) claims →
  (∀ need, need ∈ needs → need ∈ pod_needs pod) → Forall Q claims.
Proof.
  intros Hnd HPQ Hall Hsub. apply Forall_forall. intros claim Hc.
  destruct (Forall2_elem_of_r _ _ _ _ Hall Hc) as (need & Hneed & Hp).
  apply list_elem_of_filter in Hneed as [HP Hneed]. apply placed_like_name in Hp. eauto.
Qed.

Lemma each_lookup (m : gmap string ContainerDeviceClaim) needs s final s' :
  each (λ need, match m !! cn_Name need with
                | Some c => ret c
                | None => fail (ErrNilClaim (cn_Name need))
                end) needs s = (Done final, s') →
  Forall2 (λ need c, m !! cn_Name need = Some c) needs final ∧ s' = s.
Proof.
  revert final. induction needs as [|need needs IH]; intros final Hdone; cbn [each] in Hdone; [by inv_done|].
  apply bind_done in Hdone as (c & s1 & Hc & Hdone). apply bind_done in Hdone as (cs & s2 & Hcs & Hdone). inv_done.
  destruct (m !! cn_Name need) as [c'|] eqn:E; [|done]. inv_done.
  destruct (IH _ Hcs) as [Hall ->]. split; [by constructor|done].
Qed.

Lemma by_name_lookup l k c : by_name l !! k = Some c → c ∈ l ∧ cdc_Name c = k.
Proof.
  unfold by_name. induction l as [|x l IH] using rev_ind; [simpl; by rewrite lookup_empty|].
  rewrite fold_left_app. simpl. rewrite lookup_insert. case_decide as E; [intros [= <-]; set_solver|].
  intros Hc. destruct (IH Hc). set_solver.
Qed.

(** Putting the claims back into declaration order is a permutation of them. *)
Lemma assembled_perm n req pod (L final : list ContainerDeviceClaim) needs' :
  distinct_names pod → pod_needs pod ≡ₚ needs' → Forall2 (placed_like n req) needs' L →
  Forall2 (λ need c, by_name L !! cn_Name need = Some c) (pod_needs pod) final →
  final ≡ₚ L ∧ Forall2 (placed_like n req) (pod_needs pod) final.
Proof.
  intros Hnd Hperm HL Hfinal.
  assert (cdc_Name <$> final = cn_Name <$> pod_needs pod) as Hnames.
  { clear -Hfinal. induction Hfinal as [|need c needs final [_ Hc]%by_name_lookup _ IH]; [done|].
    rewrite !fmap_cons. by rewrite Hc, IH. }
  pose proof (pod_needs_names pod Hnd) as Hnn. split.
  - apply submseteq_length_Permutation.
    + apply NoDup_submseteq; [apply (NoDup_fmap_1 cdc_Name); by rewrite Hnames|].
      intros c Hc. destruct (Forall2_elem_of_r _ _ _ _ Hfinal Hc) as (need & _ & [? _]%by_name_lookup). done.
    + rewrite <- (Forall2_length _ _ _ HL), <- (Forall2_length _ _ _ Hfinal), Hperm. done.
  - eapply Forall2_impl_elem; [exact Hfinal|]. intros need c Hneed _ [Hc Hname]%by_name_lookup.
    destruct (Forall2_elem_of_r _ _ _ _ HL Hc) as (need' & Hneed' & Hp).
    rewrite <- Hperm in Hneed'. pose proof (placed_like_name _ _ _ _ Hp) as Hname'.
    assert (need' = need) as <-; [|done].
    apply list_elem_of_lookup in Hneed as [i Hi], Hneed' as [j Hj].
    assert (i = j) as -> by (eapply (NoDup_lookup _ i j (cn_Name need) Hnn); rewrite list_lookup_fmap;
      simplify_option_eq; congruence).
    congruence.
Qed.

(** ** Both passes *)

Lemma placed_nonneg n req need w claim :
  need_nonneg n need → placed n req need w claim → Forall (λ c, ∀ x, 0 ≤ demand x c) (cdc_DeviceClaims claim).
Proof.
  intros Hnn Hp. unfold need_nonneg in Hnn. unfold placed in Hp.
  destruct (resolveContainerNeeds _ _ _ _) as [cores mem]. destruct Hnn as [Hc Hm].
  destruct Hp as (_ & _ & picked & Hperm & _ & _ & Hin). rewrite Hperm. apply Forall_fmap, Forall_forall.
  intros d Hd x. destruct x; simpl; [lia|done|]. case_bool_decide; [|done].
  unfold GetTotalMemory. case_bool_decide; lia.
Qed.

(** What the passes promise: a claim per container, in order, and a
    reservation that fits every device. *)
Definition well_placed (n : NodeInfo) (req : AllocationRequest) (claims : list ContainerDeviceClaim) : Prop :=
  Forall2 (placed_like n req) (rq_Containers req) claims ∧
  fits n (λ x u, reserve x (rq_Pod req) claims u).

Section passes.
Context (req : AllocationRequest) (Hbuilt : built req) (Hnames : distinct_names (rq_Pod req)).

Lemma classes (needs : list ContainerNeed) n sidecars apps inits :
  (∀ need, need ∈ needs → need ∈ pod_needs (rq_Pod req)) →
  Forall2 (placed_like n req) (filter (λ need, is_sidecar_need need = true) needs) sidecars →
  Forall2 (placed_like n req) (filter (λ need, is_app_need need = true) needs) apps →
  Forall2 (placed_like n req) (filter (λ need, is_init_need need = true) needs) inits →
  ∀ x u, reserve x (rq_Pod req) (sidecars ++ apps ++ inits) u
         = group_on sidecars x u + Z.max (group_on apps x u) (peak_on inits x u).
Proof.
  intros Hsub Hs Ha Hi x u. apply reserve_classes.
  - eapply (placed_class n req (rq_Pod req) is_sidecar_need); [done| |exact Hs|done].
    intros need claim Hn Hc. by apply need_class.
  - eapply (placed_class n req (rq_Pod req) is_app_need); [done| |exact Ha|done].
    intros need claim Hn Hc. by apply need_class.
  - eapply (placed_class n req (rq_Pod req) is_init_need); [done| |exact Hi|done].
    intros need claim Hn Hc. by apply need_class.
Qed.

Lemma one_pass_placed cfg s claims s' :
  node_ok (as_node s) → node_wf (as_node s) → needs_ok (as_node s) (rq_Containers req) →
  rq_HasSequentialInit req = false →
  each (λ need, allocateAndAccumulate cfg req need None) (rq_Containers req) s = (Done claims, s') →
  well_placed (as_node s) req claims.
Proof.
  intros Hn Hw Hok Hseq Hdone. destruct (each_accumulate _ _ _ _ _ _ Hn Hw Hok Hdone) as (Hall & _ & Hf).
  assert (Forall2 (placed_like (as_node s) req) (rq_Containers req) claims) as Hpl.
  { eapply Forall2_impl; [exact Hall|]. intros need claim (n1 & Hs1 & Hp). by exists n1, None. }
  split; [done|]. eapply fits_ext; [|exact Hf]. intros x u. unfold group_on.
  rewrite (lifecycle_split x u (rq_Pod req)). unfold reserve.
  rewrite (filter_none (is_sequential (rq_Pod req)) claims).
  - assert (0 ≤ Zsum (container_on x u <$> filter (is_regular (rq_Pod req)) claims)) as Hpos; [|cbn; lia].
    apply Zsum_nonneg, containers_nonneg, Forall_filter, Forall_forall. intros claim Hc.
    destruct (Forall2_elem_of_r _ _ _ _ Hall Hc) as (need & Hneed & n1 & Hs1 & _ & Hp).
    unfold needs_ok in Hok. rewrite Forall_forall in Hok. destruct (Hok need Hneed) as [_ Hnn].
    eapply placed_nonneg; [|exact Hp]. by eapply need_nonneg_same.
  - apply Forall_forall. intros claim Hc Hsq.
    destruct (Forall2_elem_of_r _ _ _ _ Hpl Hc) as (need & Hneed & Hp). destruct Hbuilt as [Hb1 Hb2].
    apply placed_like_name in Hp. rewrite Hb1 in Hneed.
    destruct (need_class (rq_Pod req) need claim Hnames Hneed Hp) as [Hcl _]. apply Hcl in Hsq.
    rewrite Hseq in Hb2. symmetry in Hb2. rewrite Hb1 in Hb2.
    assert (existsb is_init_need (pod_needs (rq_Pod req)) = true); [|congruence].
    apply existsb_exists. exists need. split; [by apply list_elem_of_In|done].
Qed.

Lemma two_pass_placed cfg s claims s' :
  node_ok (as_node s) → node_wf (as_node s) → needs_ok (as_node s) (rq_Containers req) →
  two_pass cfg req s = (Done claims, s') → well_placed (as_node s) req claims.
Proof.
  intros Hn Hw Hok Hdone. unfold two_pass in Hdone. set (n := as_node s) in *. set (needs := rq_Containers req) in *.
  apply bind_done in Hdone as (sidecars & s1 & Hside & Hdone).
  destruct (each_accumulate cfg req _ s sidecars s1 Hn Hw (Forall_filter _ _ _ Hok) Hside) as (Hs1 & Ho1 & Hf1).
  apply bind_done in Hdone as (n1 & s2 & E & Hdone). injection E as <- <-. set (n1 := as_node s1) in *.
  pose proof Ho1 as (Hsame1 & _ & _).
  assert (node_ok n1) as Hn1 by by eapply node_ok_same. assert (node_wf n1) as Hw1 by by eapply node_wf_occupies.
  assert (needs_ok n1 needs) as Hok1 by by eapply needs_ok_same.
  apply bind_done in Hdone as (apps & s3 & Happ & Hdone).
  destruct (each_accumulate cfg req _ s1 apps s3 Hn1 Hw1 (Forall_filter _ _ _ Hok1) Happ) as (Hs3 & Ho3 & Hf3).
  apply bind_done in Hdone as (n3 & s4 & E & Hdone). injection E as <- <-.
  apply bind_done in Hdone as (u & s5 & E & Hdone). injection E as _ <-.
  pose proof Ho3 as (Hsame3 & Hpods3 & _). rewrite (restore_snapshot n1 (as_node s3) Hsame3 Hpods3) in Hdone.
  apply bind_done in Hdone as (inits & s6 & Hinit & Hdone).
  apply each_init in Hinit as [Hs6 _]; [|done|apply Forall_filter; eapply Forall_impl; [exact Hok1|]; naive_solver].
  simpl in Hs6. apply each_lookup in Hdone as [Hfinal _].
  assert (Forall2 (placed_like n req) (filter (λ need, is_sidecar_need need = true) needs) sidecars) as Hp1.
  { eapply Forall2_impl; [exact Hs1|]. intros need claim (n' & Hs' & Hp). by exists n', None. }
  assert (Forall2 (placed_like n req) (filter (λ need, is_app_need need = true) needs) apps) as Hp3.
  { eapply Forall2_impl; [exact Hs3|]. intros need claim (n' & Hs' & Hp). exists n', None. split; [by trans n1|done]. }
  assert (Forall2 (placed_like n req) (filter (λ need, is_init_need need = true) needs) inits) as Hp6.
  { eapply Forall2_impl; [exact Hs6|]. intros need claim (w & Hp). by exists n1, w. }
  assert (needs = pod_needs (rq_Pod req)) as Hneeds by apply Hbuilt.
  destruct (assembled_perm n req (rq_Pod req) (sidecars ++ apps ++ inits) claims
    (filter (λ need, is_sidecar_need need = true) needs ++ filter (λ need, is_app_need need = true) needs ++
     filter (λ need, is_init_need need = true) needs)) as [Hperm Hall].
  - done.
  - rewrite Hneeds. apply needs_split.
  - apply Forall2_app; [done|]. by apply Forall2_app.
  - by rewrite <- Hneeds.
  - split; [fold needs; by rewrite Hneeds|].
    apply (fits_ext n (λ x u, group_on sidecars x u + Z.max (group_on apps x u) (peak_on inits x u))).
    + intros x v. rewrite (reserve_perm x _ v _ _ Hperm).
      symmetry. apply (classes needs n); [by rewrite Hneeds|done..].
    + eapply fits_trans; [exact Ho1|done|]. apply fits_max; [done|]. apply fits_peak, Forall_forall.
      intros claim Hc. destruct (Forall2_elem_of_r _ _ _ _ Hs6 Hc) as (need & Hneed & w & Hp).
      eapply placed_fits; [done|done| |done]. unfold needs_ok in Hok1. rewrite Forall_forall in Hok1.
      apply list_elem_of_filter in Hneed as [_ Hneed]. by apply Hok1.
Qed.

Lemma containers_placed cfg s claims s' :
  node_ok (as_node s) → node_wf (as_node s) → needs_ok (as_node s) (rq_Containers req) →
  allocateContainers cfg req s = (Done claims, s') → well_placed (as_node s) req claims.
Proof.
  intros Hn Hw Hok. unfold allocateContainers. destruct (rq_HasSequentialInit req) eqn:E.
  - by apply two_pass_placed.
  - by apply one_pass_placed.
Qed.
End passes.
End place.
