(* ===== verification/NodeBuild.v ===== *)
(** * Building a node ([NewNodeInfo] of [pkg/device/types.go])

    From the registered devices, the topology and the pods of a node to a
    consistent [NodeInfo] whose counters are the pods' reservations. *)

From stdpp Require Import base list gmap strings.
From Stdlib Require Import ZArith Lia.
From S2P Require Import Prelude GoMap GoSort GoStrings Float64 GoTime Kube Claims Reason Links Topology Device.
From S2P Require Import Footprint NodeInfo Accounting DemoNode.

Open Scope Z_scope.

(** The registry lists every card once, with machine-integer capacities. *)
Record registry_ok (infos : list DeviceInfo) : Prop := {
  ro_ids : NoDup (di_Id <$> infos);
  ro_uuids : NoDup (di_Uuid <$> infos);
  ro_totals : Forall (λ info, ∀ x, 0 ≤ total x (NewDevice info) ≤ int64_max) infos
}.

(** The maps hold exactly the devices of [done]. *)
Record registered (done : list DeviceInfo) (g : DeviceGatherInfo) : Prop := {
  rg_map id d : dg_DeviceMap g !! id = Some d ↔ ∃ info, info ∈ done ∧ di_Id info = id ∧ NewDevice info = d;
  rg_index u id : dg_DeviceIndexMap g !! u = Some id ↔ ∃ info, info ∈ done ∧ di_Uuid info = u ∧ di_Id info = id;
  rg_list info : info ∈ done → 0 ≤ di_Id info ∧
    ∃ e, dg_DeviceList g !! Z.to_nat (di_Id info) = Some (Some e) ∧ g_UUID e = di_Uuid info
}.

Lemma insert_fresh {K V} `{Countable K} (m : gmap K V) (done : list DeviceInfo) (key : DeviceInfo → K)
    (val : DeviceInfo → V) info :
  (∀ k v, m !! k = Some v ↔ ∃ i, i ∈ done ∧ key i = k ∧ val i = v) → key info ∉ (key <$> done) →
  ∀ k v, <[key info := val info]> m !! k = Some v ↔ ∃ i, i ∈ done ++ [info] ∧ key i = k ∧ val i = v.
Proof.
  intros Hm Hf k v. rewrite lookup_insert. case_decide as E.
  - split; [intros [= <-]; exists info; set_solver|].
    intros (i & [Hi| ->%list_elem_of_singleton]%elem_of_app & Hk & Hv); [|congruence].
    exfalso. apply Hf. rewrite E, <- Hk. by apply list_elem_of_fmap_2.
  - rewrite Hm. split; [intros (i & ? & ? & ?); exists i; set_solver|].
    intros (i & [Hi| ->%list_elem_of_singleton]%elem_of_app & Hk & Hv); [eauto|done].
Qed.

Lemma register_spec infos done g g' :
  NoDup (di_Id <$> done ++ infos) → NoDup (di_Uuid <$> done ++ infos) →
  registered done g → register_devices infos g = Ok g' →
  registered (done ++ infos) g' ∧ dg_NodeConfigInfo g' = dg_NodeConfigInfo g.
Proof.
  revert done g. induction infos as [|info infos IH]; intros done g Hid Hu [Hm Hi Hl] Hok; cbn [register_devices] in Hok.
  { injection Hok as <-. rewrite app_nil_r. done. }
  unfold set_entry in Hok. revert Hok. case_bool_decide as Hr; [|done]. cbn [rbind]. intros Hok.
  assert (di_Id info ∉ (di_Id <$> done)) as Hid'.
  { rewrite fmap_app, fmap_cons in Hid. apply NoDup_app in Hid as (_ & Hd & _). intros Hin. apply (Hd _ Hin). by left. }
  assert (di_Uuid info ∉ (di_Uuid <$> done)) as Hu'.
  { rewrite fmap_app, fmap_cons in Hu. apply NoDup_app in Hu as (_ & Hd & _). intros Hin. apply (Hd _ Hin). by left. }
  replace (done ++ info :: infos) with ((done ++ [info]) ++ infos) in * by by rewrite <- app_assoc.
  apply (IH (done ++ [info])) in Hok; [exact Hok|done|done|]. split; simpl.
  - by apply (insert_fresh _ done di_Id NewDevice).
  - by apply (insert_fresh _ done di_Uuid di_Id).
  - intros i [Hin| ->%list_elem_of_singleton]%elem_of_app.
    + destruct (Hl i Hin) as (Hpos & e & He & Hue). split; [done|]. exists e. split; [|done].
      rewrite list_lookup_insert_ne; [done|]. intros Heq. apply Hid'.
      assert (di_Id info = di_Id i) as -> by lia. by apply list_elem_of_fmap_2.
    + split; [lia|]. eexists. split; [apply list_lookup_insert_eq; lia|done].
Qed.

(** Installing links keeps the devices of the list. *)
Lemma add_links_uuids edges l l' :
  add_links l edges = Ok l' →
  ∀ i e, l !! i = Some (Some e) → ∃ e', l' !! i = Some (Some e') ∧ g_UUID e' = g_UUID e.
Proof.
  revert l. induction edges as [|[[from to] t] edges IH]; intros l Hok i e He; cbn [add_links] in Hok.
  { injection Hok as <-. eauto. }
  destruct (DeviceList_AddLink l from to t) as [l1|] eqn:E; [|done].
  assert (∃ e1, l1 !! i = Some (Some e1) ∧ g_UUID e1 = g_UUID e) as (e1 & He1 & Hu1).
  { unfold DeviceList_AddLink in E. revert E. case_bool_decide; [|done].
    destruct (l !! Z.to_nat from) as [[f|]|] eqn:Ef; [|done..].
    destruct (l !! Z.to_nat to) as [[tt|]|]; [|done..]. intros [= <-].
    destruct (decide (Z.to_nat from = i)) as [<-|Hne].
    - rewrite list_lookup_insert_eq by by eapply lookup_lt_Some. simplify_eq. eauto.
    - rewrite list_lookup_insert_ne by done. eauto. }
  destruct (IH l1 Hok i e1 He1) as (e' & ? & ?). exists e'. split; [done|congruence].
Qed.

Section build.
Context `{Env} `{MapOrder} `{NodeDecoders}.

(** The device list a node is built from. *)
Definition device_infos (node : Node) (option : NodeInfoOption) : Datatypes.option NodeDeviceInfo :=
  match no_nodeDevice option with
  | Some infos => Some infos
  | None => let text := node_annotation node NodeDeviceRegisterAnnotation in
            if bool_decide (text = "") then None else decode_NodeDeviceInfo text
  end.

Lemma gather_registered node option g :
  NewNodeDeviceGatherInfo node option = Ok g →
  ∃ infos, device_infos node option = Some infos ∧ (registry_ok infos → registered infos g).
Proof.
  unfold NewNodeDeviceGatherInfo, device_infos. intros Hok.
  match type of Hok with rbind ?r _ = _ => destruct r as [infos|e] eqn:E1; [|discriminate Hok] end. cbn [rbind] in Hok.
  exists infos. split.
  { destruct (no_nodeDevice option); [congruence|]. cbv zeta in *. destruct (bool_decide _); [discriminate E1|].
    destruct (decode_NodeDeviceInfo _); [congruence|discriminate E1]. }
  match type of Hok with rbind ?r _ = _ => destruct r as [cfg|e]; [|discriminate Hok] end. cbn [rbind] in Hok.
  match type of Hok with rbind (register_devices infos ?g0) _ = _ => set (g0' := g0) in Hok end.
  destruct (register_devices infos g0') as [g1|e] eqn:E3; [|discriminate Hok]. cbn [rbind] in Hok.
  intros [Hid Hu _].
  assert (registered infos g1) as Hreg.
  { apply (register_spec infos [] g0'); [done|done| |done]. split; simpl.
    - intros id d. rewrite lookup_empty. set_solver.
    - intros u id. rewrite lookup_empty. set_solver.
    - by intros info ?%elem_of_nil. }
  destruct (no_gpuTopologyEnabled option); [|congruence].
  cbv zeta in Hok. destruct (bool_decide (node_annotation node NodeDeviceTopologyAnnotation = "")); [congruence|].
  destruct (add_links _ _) as [l|e] eqn:El; [|discriminate Hok]. cbn [rbind] in Hok. injection Hok as <-. destruct Hreg as [Hm Hi Hl].
  split; simpl; [done|done|]. intros info Hin. destruct (Hl info Hin) as (Hpos & e & He & Hue). split; [done|].
  destruct (add_links_uuids _ _ _ El _ _ He) as (e' & He' & Hue'). exists e'. split; [done|congruence].
Qed.

(** The pods counted on the node being built. *)
Definition built_pods (node : Node) (option : NodeInfoOption) : list Pod :=
  counted_pods (no_nodePods option) (n_Name node) (no_excludedUidSet option).

(** The pods' claims are well-formed and what they reserve of one GPU is a machine integer. *)
Definition pods_ok (pods : list Pod) : Prop :=
  Forall pod_claims_ok pods ∧ ∀ x u, pods_reserve x u pods ≤ int64_max.

Lemma reserve_nonneg x u pod pdc : claims_bounded pdc → 0 ≤ reserve x pod pdc u.
Proof.
  intros [Hpos _]. unfold reserve.
  pose proof (Zsum_nonneg _ (containers_nonneg x u _ (Forall_filter _ (is_sidecar pod) pdc Hpos))).
  pose proof (Zmax0_nonneg (container_on x u <$> filter (is_sequential pod) pdc)). lia.
Qed.

Lemma pods_reserve_nonneg x u pods : Forall pod_claims_ok pods → 0 ≤ pods_reserve x u pods.
Proof.
  intros Hok. unfold pods_reserve. apply Zsum_nonneg, Forall_fmap. eapply Forall_impl; [exact Hok|].
  intros p [Hb _]. by apply reserve_nonneg.
Qed.

(** What a freshly built node is. *)
Record fresh_node (infos : list DeviceInfo) (pods : list Pod) (n : NodeInfo) : Prop := {
  fn_devices info : info ∈ infos → ∃ d, ni_deviceMap n !! di_Id info = Some d ∧ same_card d (NewDevice info) ∧
    ∀ x, used x d = pods_reserve x (di_Uuid info) pods;
  fn_only id d : ni_deviceMap n !! id = Some d → ∃ info, info ∈ infos ∧ di_Id info = id;
  fn_index u id : ni_deviceIndexMap n !! u = Some id ↔ ∃ info, info ∈ infos ∧ di_Uuid info = u ∧ di_Id info = id;
  fn_list info : info ∈ infos → ∃ e, Some e ∈ ni_deviceList n ∧ g_UUID e = di_Uuid info;
  fn_stats : aggregates (map_to_list (ni_deviceMap n)).*2 (ni_stats n)
}.

Lemma newnode_fresh node option n infos :
  device_infos node option = Some infos → registry_ok infos →
  no_resetPods option = false → no_resetUsed option = false → pods_ok (built_pods node option) →
  NewNodeInfo node option = Ok n → fresh_node infos (built_pods node option) n.
Proof.
  intros Hinfos Hreg Hrp Hru [Hpok Hpb] Hok. unfold NewNodeInfo in Hok.
  destruct (NewNodeDeviceGatherInfo node option) as [g|e] eqn:Eg; [|discriminate Hok]. cbn [rbind] in Hok.
  apply gather_registered in Eg as (infos' & Hinfos' & Hg). assert (infos' = infos) as -> by congruence.
  specialize (Hg Hreg). destruct Hg as [Hm Hi Hl]. injection Hok as <-. set (n0 := {| ni_node := node |}).
  assert (node_indexed n0) as Hn0.
  { split; simpl.
    - intros u id (info & Hin & <- & <-)%Hi. exists (NewDevice info). split; [|done]. apply Hm. eauto.
    - intros id d (info & Hin & <- & <-)%Hm. split; [done|]. apply Hi. simpl. eauto. }
  assert (∀ id d x, ni_deviceMap n0 !! id = Some d → used x d = 0) as Hz
    by (intros id d x (info & _ & _ & <-)%Hm; by destruct x).
  assert (counters_in64 n0) as Hin by (intros id d x Hd; rewrite (Hz id d x Hd); done).
  assert (occupied_by n0 (AddPodsUsedResources n0 (no_nodePods option) option)
    (λ x u, pods_reserve x u (built_pods node option))) as [Hs Hocc].
  { unfold AddPodsUsedResources. rewrite Hrp, Hru. by apply add_pods_fold. }
  set (n1 := AddPodsUsedResources n0 _ _) in *. split.
  - intros info Hinfo. assert (ni_deviceMap n0 !! di_Id info = Some (NewDevice info)) as Hd by (apply Hm; eauto).
    destruct (Hocc _ _ Hd) as (d' & Hd' & Hu). destruct (same_node_lookup _ _ _ _ Hs Hd) as (d2 & Hd2 & Hc). simplify_eq.
    exists d'. split_and!; [done|by symmetry|]. intros x. rewrite Hu, (Hz _ _ x Hd). simpl. apply wrap64_id.
    pose proof (pods_reserve_nonneg x (di_Uuid info) _ Hpok). pose proof (Hpb x (di_Uuid info)).
    unfold in64, int64_min, int64_max in *. lia.
  - intros id d Hd. simpl in Hd. symmetry in Hs. destruct (same_node_lookup _ _ _ _ Hs Hd) as (d0 & Hd0 & _).
    apply Hm in Hd0 as (info & ? & ? & _). eauto.
  - intros u id. simpl. rewrite <- (same_node_index _ _ Hs). apply Hi.
  - intros info Hinfo. destruct (Hl info Hinfo) as (_ & e & He & Hue). exists e. split; [|done].
    simpl. destruct Hs as [Hs _]. unfold with_state in Hs. injection Hs. intros. replace (ni_deviceList n1) with (ni_deviceList n0) by done.
    by eapply list_elem_of_lookup_2.
  - exact (refresh_aggregates n1).
Qed.
End build.
