(* ===== verification/EndToEnd.v ===== *)
(** * From a request to the accounting

    The headline theorems: a successful [Allocate] reserves on no device more
    than its capacity, and reading the annotation it writes back into the
    node's accounting ([AddPodUsedResources]) finds exactly that reservation. *)

From stdpp Require Import base list gmap strings.
From Stdlib Require Import ZArith Lia Ascii.
From S2P Require Import Prelude GoMap GoSort GoStrings Float64 GoTime Kube Claims Reason Links Topology Device.
From S2P Require Import Footprint NodeInfo Accounting Affinity Request Scoring SubsetSearch DemoNode Numa Tiered.
From S2P Require Import TieredSpec Allocator AllocatorSpec Placement NodeBuild.

Open Scope Z_scope.

(** A node as [NewNodeInfo] leaves it: consistent indices, counters and
    capacities that are non-negative machine integers. *)
Record sound_node (n : NodeInfo) : Prop := {
  sn_ok : node_ok n;
  sn_wf : node_wf n;
  sn_max : 0 ≤ GetMaxDeviceMemory n
}.

Lemma fresh_sound `{Env} infos pods n : registry_ok infos → pods_ok pods → fresh_node infos pods n → sound_node n.
Proof.
  intros [Hids Hus Htot] [Hpok Hpb] [Hdev Honly Hidx Hlist Hst].
  assert (∀ id d, ni_deviceMap n !! id = Some d → ∃ info, info ∈ infos ∧ di_Id info = id ∧ same_card d (NewDevice info) ∧
    ∀ x, used x d = pods_reserve x (di_Uuid info) pods) as Hd.
  { intros id d Hd. destruct (Honly _ _ Hd) as (info & Hin & <-). destruct (Hdev info Hin) as (d' & Hd' & Hc & Hu).
    simplify_eq. exists info. done. }
  split.
  - split; [split|].
    + intros u id (info & Hin & <- & <-)%Hidx. destruct (Hdev info Hin) as (d & Hd' & Hc & _). exists d. split; [done|].
      by apply same_card_fields in Hc as (_ & -> & _).
    + intros id d Hd'. destruct (Hd _ _ Hd') as (info & Hin & <- & Hc & _).
      apply same_card_fields in Hc as (-> & -> & _). split; [done|]. apply Hidx. simpl. eauto.
    + intros id d Hd'. destruct (Hd _ _ Hd') as (info & Hin & <- & Hc & _).
      apply same_card_fields in Hc as (_ & -> & _). by apply Hlist.
  - intros id d Hd' x. destruct (Hd _ _ Hd') as (info & Hin & _ & Hc & Hu).
    rewrite Hu, (same_card_total x d (NewDevice info)) by done. rewrite Forall_forall in Htot.
    pose proof (pods_reserve_nonneg x (di_Uuid info) pods Hpok). pose proof (Hpb x (di_Uuid info)).
    specialize (Htot info Hin x). lia.
  - unfold GetMaxDeviceMemory. rewrite (ag_memory _ _ Hst). apply Zmax0_nonneg.
Qed.

(** C22 A node built from a registry that lists every card once is consistent:
    its maps hold exactly the registered cards, every counter is the sum of
    the reservations of the pods that count on it, the aggregates are those
    of the healthy cards outside MIG mode, for every map iteration order. *)
Theorem NewNodeInfo_sound `{Env} `{MapOrder} `{NodeDecoders} node option n infos :
  device_infos node option = Some infos → registry_ok infos →
  no_resetPods option = false → no_resetUsed option = false → pods_ok (built_pods node option) →
  NewNodeInfo node option = Ok n → fresh_node infos (built_pods node option) n ∧ sound_node n.
Proof.
  intros Hi Hr Hrp Hru Hp Hok. pose proof (newnode_fresh _ _ _ _ Hi Hr Hrp Hru Hp Hok) as Hf.
  split; [done|]. by eapply fresh_sound.
Qed.

Section limits.
Context `{Env}.

(** Container limits are non-negative, and the memory limit in the node's
    unit is a machine integer. *)
Definition limits_ok (n : NodeInfo) (pod : Pod) : Prop :=
  Forall (λ c, 0 ≤ GetResourceOfContainer c VGPUCoreResourceName ∧
               0 ≤ GetResourceOfContainer c VGPUMemoryResourceName ∧
               GetResourceOfContainer c VGPUMemoryResourceName * Z.max 1 (nc_MemoryFactor (ni_config n)) ≤ int64_max)
    (p_InitContainers pod ++ p_Containers pod).

Lemma resolve_nonneg need factor same capacity :
  0 ≤ cn_Cores need → 0 ≤ cn_Memory need → cn_Memory need * Z.max 1 factor ≤ int64_max → 0 ≤ capacity →
  0 ≤ (resolveContainerNeeds need factor same capacity).1 ∧ 0 ≤ (resolveContainerNeeds need factor same capacity).2.
Proof.
  intros Hc Hm Hf Hcap. unfold resolveContainerNeeds. simpl.
  assert (0 ≤ (if bool_decide (0 < cn_Memory need) && bool_decide (0 < factor) then cn_Memory need *w factor
               else cn_Memory need)) as Hmem.
  { repeat case_bool_decide; simpl; try lia. rewrite wrap64_id by (unfold in64, int64_min; nia). nia. }
  split; repeat case_match; unfold HundredCore; lia.
Qed.

Lemma limits_needs_ok n pod : 0 ≤ GetMaxDeviceMemory n → limits_ok n pod → needs_ok n (pod_needs pod).
Proof.
  intros Hcap Hl. apply Forall_forall. intros need [Hpos Hneed]%elem_of_pod_needs. split; [done|].
  unfold limits_ok in Hl. rewrite Forall_forall in Hl.
  assert (0 ≤ cn_Cores need ∧ 0 ≤ cn_Memory need ∧
          cn_Memory need * Z.max 1 (nc_MemoryFactor (ni_config n)) ≤ int64_max) as (Hc & Hm & Hf).
  { destruct Hneed as [(c & Hc & ->)|(c & Hc & ->)]; apply Hl, elem_of_app; [by left|by right]. }
  unfold need_nonneg. pose proof (resolve_nonneg need _ (HasSameCapacity n) _ Hc Hm Hf Hcap) as Hr.
  by destruct (resolveContainerNeeds _ _ _ _).
Qed.
End limits.

Section main.
Context `{Env} `{MapOrder}.

(** The claims the passes over the containers settle on. *)
Definition chosen (cfg : alloc_config) (req : AllocationRequest) (s : alloc_state) (claims : list ContainerDeviceClaim) : Prop :=
  ∃ s', allocateContainers cfg req (clear_outcome s).2 = (Done claims, s').

Lemma allocate_placed cfg req s newPod s' :
  built req → distinct_names (rq_Pod req) → sound_node (as_node s) → limits_ok (as_node s) (rq_Pod req) →
  Allocate cfg req s = (Done newPod, s') →
  ∃ claims, chosen cfg req s claims ∧ well_placed (as_node s) req claims ∧
    newPod = InsertAnnotation
      (InsertAnnotation (rq_Pod req) PodVGPUPreAllocAnnotation (PodDeviceClaim_MarshalText claims))
      PodPredicateNodeAnnotation (GetName (as_node s')).
Proof.
  intros Hb Hnames [Hok Hwf Hmax] Hlim Hdone. unfold Allocate in Hdone.
  apply bind_done in Hdone as (u & s1 & E & Hdone).
  assert ((clear_outcome s).2 = s1) as Hclear by (by rewrite E).
  assert (as_node s1 = as_node s) as Hs1 by by injection E as _ <-. clear E.
  apply bind_done in Hdone as (claims & s2 & Hc & Hdone). apply bind_done in Hdone as (n2 & s3 & E & Hdone).
  injection E as <- <-. injection Hdone as <- <-. exists claims.
  split; [exists s2; by rewrite Hclear|]. split; [|done]. rewrite <- Hs1 in *. apply (containers_placed req Hb Hnames cfg s1 claims s2 Hok Hwf); [|done].
  destruct Hb as [-> _]. by apply limits_needs_ok.
Qed.

(** The claims of one container: as many as asked for, on distinct devices. *)
Definition container_served (need : ContainerNeed) (claim : ContainerDeviceClaim) : Prop :=
  cdc_Name claim = cn_Name need ∧ Z.of_nat (length (cdc_DeviceClaims claim)) = cn_Number need ∧
  NoDup (dc_Uuid <$> cdc_DeviceClaims claim).

Lemma placed_served n req need claim : placed_like n req need claim → container_served need claim.
Proof.
  intros (n1 & w & _ & _ & Hp). unfold placed in Hp. destruct (resolveContainerNeeds _ _ _ _) as [cores mem].
  destruct Hp as (Hname & _ & picked & Hperm & Hlen & Hd & _). split_and!; [done| |].
  - rewrite Hperm. unfold buildClaims. by rewrite length_fmap.
  - rewrite Hperm. unfold buildClaims. rewrite <- list_fmap_compose. exact Hd.
Qed.

(** C2 The allocator never overcommits.  When [Allocate] accepts a pod, the
    annotation it writes lists, for every vGPU container in order, as many
    claims as the container asked for, on distinct GPUs; and on every GPU of
    the node the pod's lifecycle reservation (sidecars plus the larger of the
    app phase and the heaviest sequential init container) plus what was in
    use stays within the capacity in slots, cores and memory, or changes
    nothing. *)
Theorem Allocate_never_overcommits cfg req s newPod s' :
  built req → distinct_names (rq_Pod req) → sound_node (as_node s) → limits_ok (as_node s) (rq_Pod req) →
  Allocate cfg req s = (Done newPod, s') →
  ∃ claims, annotation newPod PodVGPUPreAllocAnnotation = PodDeviceClaim_MarshalText claims ∧
    Forall2 container_served (rq_Containers req) claims ∧
    ∀ id d x, ni_deviceMap (as_node s) !! id = Some d →
      used x d + reserve x (rq_Pod req) claims (d_uuid d) ≤ Z.max (used x d) (total x d).
Proof.
  intros Hb Hn Hs Hl Hdone. destruct (allocate_placed _ _ _ _ _ Hb Hn Hs Hl Hdone) as (claims & _ & [Hall Hfit] & ->).
  exists claims. split_and!.
  - rewrite annotation_insert_ne by by apply key_ne. apply annotation_insert.
  - eapply Forall2_impl; [exact Hall|]. intros need claim. apply placed_served.
  - intros id d x Hd. by apply (Hfit id).
Qed.

(** ** Which GPUs *)

Lemma same_node_links n n' :
  same_node n n' → ni_deviceIndexMap n = ni_deviceIndexMap n' ∧ ni_deviceList n = ni_deviceList n'.
Proof. intros [Hs _]. unfold with_state in Hs. by injection Hs. Qed.

Lemma topology_met_same n n' req us : same_node n n' → topology_met n' req us → topology_met n req us.
Proof.
  intros Hs Hm Hstrict. destruct (Hm Hstrict) as [Hlink Hnuma]. destruct (same_node_links _ _ Hs) as [Hi Hl]. split.
  - unfold ConnectedAtTier, HasLinkPeerAtTier, device_at in *. rewrite Hi, Hl. exact Hlink.
  - intros Hmode. destruct (Hnuma Hmode) as (k & Hk & Hu). exists k. split; [done|]. intros u (id & d & Hd & Hdu & Hdk)%Hu.
    symmetry in Hs. destruct (same_node_lookup _ _ _ _ Hs Hd) as (d' & Hd' & Hc). exists id, d'. split; [done|].
    destruct d, d'. unfold same_card, set_used in Hc. simpl in *. injection Hc. intros; subst. done.
Qed.

(** The device can serve the pod at all: healthy, not split by MIG, of an
    accepted type and uuid. *)
Definition eligible (req : AllocationRequest) (d : Device) : Prop :=
  d_healthy d = true ∧ d_mig d = false ∧
  (rq_CheckDeviceType req = true → CheckDeviceType (p_Annotations (rq_Pod req)) (d_deviceType d) = true) ∧
  (rq_CheckDeviceUuid req = true → CheckDeviceUuid (p_Annotations (rq_Pod req)) (d_uuid d) = true).

Lemma verdict_eligible req cores mem d : device_verdict req cores mem d = None → eligible req d.
Proof.
  unfold device_verdict, eligible. destruct (d_healthy d); [|done]. destruct (d_mig d); [done|]. simpl.
  case_bool_decide; [done|]. case_bool_decide; [done|]. destruct (_ || _); [done|].
  destruct (rq_CheckDeviceType req), (CheckDeviceType _ _); simpl; try done;
    destruct (rq_CheckDeviceUuid req), (CheckDeviceUuid _ _); simpl; done.
Qed.

Lemma eligible_same req d d' : same_card d d' → eligible req d → eligible req d'.
Proof. intros Hc. destruct d, d'. unfold same_card, set_used in Hc. simpl in Hc. injection Hc. by intros; subst. Qed.

Definition claim_eligible (n : NodeInfo) (req : AllocationRequest) (c : DeviceClaim) : Prop :=
  ∃ d, ni_deviceMap n !! dc_Id c = Some d ∧ dc_Uuid c = d_uuid d ∧ eligible req d.

Lemma placed_like_gpus n req need claim :
  node_ok n → placed_like n req need claim →
  Forall (claim_eligible n req) (cdc_DeviceClaims claim) ∧ topology_met n req (dc_Uuid <$> cdc_DeviceClaims claim).
Proof.
  intros Hok (n1 & w & Hs & Hw & Hp). unfold placed in Hp. destruct (resolveContainerNeeds _ _ _ _) as [cores mem].
  destruct Hp as (_ & Ht & picked & Hperm & _ & _ & Hin). split; [|by eapply topology_met_same].
  rewrite Hperm. apply Forall_fmap, Forall_forall. intros d1 Hd1. destruct (Hin d1 Hd1) as ([id Hid] & _ & Hv).
  symmetry in Hs. destruct (same_node_lookup _ _ _ _ Hs Hid) as (d & Hd & Hcard).
  destruct (same_card_fields _ _ Hcard) as (Hi & Hu & _). destruct (no_indexed _ Hok) as [_ Hix].
  destruct (Hix _ _ Hd) as [Hdi _]. exists d. simpl. rewrite Hi, Hdi. split_and!; [done|done|].
  eapply eligible_same; [done|]. by eapply verdict_eligible.
Qed.

(** C4 Every GPU an accepted pod gets is a healthy card of the node outside
    MIG mode whose type and uuid pass the pod's constraints; and when the pod
    asks for a strict topology, the GPUs of each of its containers reach each
    other over links no looser than the mode's floor (link and pcie modes) or
    sit on one NUMA node (numa mode), whatever was tried before. *)
Theorem Allocate_honours_constraints cfg req s newPod s' :
  built req → distinct_names (rq_Pod req) → sound_node (as_node s) → limits_ok (as_node s) (rq_Pod req) →
  Allocate cfg req s = (Done newPod, s') →
  ∃ claims, annotation newPod PodVGPUPreAllocAnnotation = PodDeviceClaim_MarshalText claims ∧
    Forall (λ claim, Forall (claim_eligible (as_node s) req) (cdc_DeviceClaims claim) ∧
                     topology_met (as_node s) req (dc_Uuid <$> cdc_DeviceClaims claim)) claims.
Proof.
  intros Hb Hn Hs Hl Hdone. destruct (allocate_placed _ _ _ _ _ Hb Hn Hs Hl Hdone) as (claims & _ & [Hall _] & ->).
  exists claims. split.
  - rewrite annotation_insert_ne by by apply key_ne. apply annotation_insert.
  - apply Forall_forall. intros claim Hc. destruct (Forall2_elem_of_r _ _ _ _ Hall Hc) as (need & _ & Hp).
    eapply placed_like_gpus; [apply Hs|done].
Qed.

(** ** Reading the annotation back *)

(** Names and ids can be written into the annotation. *)
Record encodable (n : NodeInfo) (pod : Pod) : Prop := {
  en_names : Forall (λ c, clean [" "; "["; "]"; ";"]%char (c_Name c) = true) (p_InitContainers pod ++ p_Containers pod);
  en_devices id d : ni_deviceMap n !! id = Some d → in64 (d_id d) ∧ clean [" "; "_"; ","; "]"; ";"]%char (d_uuid d) = true;
  en_small id d x : ni_deviceMap n !! id = Some d →
    Z.of_nat (length (p_InitContainers pod ++ p_Containers pod)) * total x d ≤ int64_max
}.

Lemma need_name pod need : need ∈ pod_needs pod → ∃ c, c ∈ p_InitContainers pod ++ p_Containers pod ∧ cn_Name need = c_Name c.
Proof.
  intros [_ [(c & Hc & ->)|(c & Hc & ->)]]%elem_of_pod_needs; exists c; rewrite elem_of_app; auto.
Qed.

(** The claims a container got fit the free part of their devices, on a node like [n]. *)
Lemma placed_like_claims n req need claim :
  node_ok n → need_nonneg n need → placed_like n req need claim →
  Forall (λ c, ∃ id d, ni_deviceMap n !! id = Some d ∧ dc_Id c = d_id d ∧ dc_Uuid c = d_uuid d ∧
               ∀ x, 0 ≤ demand x c ≤ total x d) (cdc_DeviceClaims claim).
Proof.
  intros Hok Hnn (n1 & w & Hs & Hw & Hp). pose proof (need_nonneg_same _ _ _ Hs Hnn) as Hnn1.
  unfold need_nonneg in Hnn1. unfold placed in Hp. destruct (resolveContainerNeeds _ _ _ _) as [cores mem].
  destruct Hnn1 as [Hc Hm]. destruct Hp as (_ & _ & picked & Hperm & _ & _ & Hin). rewrite Hperm.
  apply Forall_fmap, Forall_forall. intros d1 Hd1. destruct (Hin d1 Hd1) as ([id Hid] & _ & Hv).
  symmetry in Hs. destruct (same_node_lookup _ _ _ _ Hs Hid) as (d & Hd & Hcard).
  destruct (same_card_fields _ _ Hcard) as (Hi & Hu & _). exists id, d. split_and!; [done|done|done|]. intros x.
  pose proof (verdict_fits req cores mem d1 (Hw _ _ Hid) Hc Hm Hv x) as Hf.
  rewrite (allocatable_wf x d1) in Hf by by eapply Hw.
  rewrite <- (same_card_total x d1 d) by done. destruct (Hw _ _ Hid x). lia.
Qed.

(** The reader picks the pre-allocation while nothing is really allocated. *)
Lemma written_claims pod claims nodeName :
  annotation pod PodVGPURealAllocAnnotation = "" → Forall container_claim_wf claims →
  GetPodDeviceClaim (InsertAnnotation
    (InsertAnnotation pod PodVGPUPreAllocAnnotation (PodDeviceClaim_MarshalText claims))
    PodPredicateNodeAnnotation nodeName) = claims.
Proof.
  intros Hreal Hwf. unfold GetPodDeviceClaim.
  rewrite (annotation_insert_ne _ PodPredicateNodeAnnotation PodVGPURealAllocAnnotation) by by apply key_ne.
  rewrite (annotation_insert_ne _ PodPredicateNodeAnnotation PodVGPUPreAllocAnnotation) by by apply key_ne.
  rewrite annotation_insert, annotation_insert_ne, Hreal by by apply key_ne.
  rewrite (read_claims claims) by done. simpl. case_bool_decide as Hl; [|done]. by destruct claims; [|simpl in Hl; lia].
Qed.

Section accounted.
Context (n : NodeInfo) (req : AllocationRequest) (claims : list ContainerDeviceClaim).
Context (Hbuilt : built req) (Hnames : distinct_names (rq_Pod req)) (Hsound : sound_node n)
  (Hlim : limits_ok n (rq_Pod req)) (Henc : encodable n (rq_Pod req)) (Hplaced : well_placed n req claims).

Lemma claim_of_need claim : claim ∈ claims →
  ∃ need, need ∈ pod_needs (rq_Pod req) ∧ need_nonneg n need ∧ placed_like n req need claim.
Proof.
  intros Hc. destruct Hplaced as [Hall _]. destruct (Forall2_elem_of_r _ _ _ _ Hall Hc) as (need & Hneed & Hp).
  destruct Hbuilt as [Hb _]. rewrite Hb in Hneed. exists need. split_and!; [done| |done].
  pose proof (limits_needs_ok n (rq_Pod req) (sn_max n Hsound) Hlim) as Hok.
  unfold needs_ok in Hok. rewrite Forall_forall in Hok. by apply Hok.
Qed.

Lemma claims_encodable : Forall container_claim_wf claims.
Proof.
  apply Forall_forall. intros claim (need & Hneed & Hnn & Hp)%claim_of_need. split.
  - rewrite (placed_like_name _ _ _ _ Hp). destruct (need_name _ _ Hneed) as (c & Hc & ->).
    pose proof (en_names _ _ Henc) as He. rewrite Forall_forall in He. by apply He.
  - eapply Forall_impl; [by apply (placed_like_claims n req need); [apply Hsound|..]|].
    intros c (id & d & Hd & Hi & Hu & Hx). destruct (en_devices _ _ Henc _ _ Hd) as [Hid Hcl].
    unfold claim_wf. rewrite Hi, Hu. split_and!; [done| | |done];
      [specialize (Hx Cores)|specialize (Hx Memory)]; destruct (sn_wf n Hsound _ _ Hd Cores), (sn_wf n Hsound _ _ Hd Memory);
      simpl in *; unfold in64, int64_min, int64_max in *; lia.
Qed.

(** One container takes of one GPU at most its capacity. *)
Lemma container_bound claim x u :
  claim ∈ claims → container_on x u claim ≠ 0 →
  ∃ id d, ni_deviceMap n !! id = Some d ∧ d_uuid d = u ∧ 0 ≤ container_on x u claim ≤ total x d.
Proof.
  intros (need & Hneed & Hnn & Hp)%claim_of_need Hne.
  pose proof (placed_like_claims n req need claim (sn_ok n Hsound) Hnn Hp) as Hf.
  destruct (placed_served n req need claim Hp) as (_ & _ & Hnd). unfold container_on, claims_on in *.
  assert (∃ c, c ∈ cdc_DeviceClaims claim ∧ dc_Uuid c = u) as (c & Hc & Hu).
  { destruct (filter (λ c, dc_Uuid c = u) (cdc_DeviceClaims claim)) as [|c l] eqn:Ef; [done|].
    assert (c ∈ filter (λ c, dc_Uuid c = u) (cdc_DeviceClaims claim)) as Hc by (rewrite Ef; by left).
    apply list_elem_of_filter in Hc as [? ?]. eauto. }
  assert (filter (λ c, dc_Uuid c = u) (cdc_DeviceClaims claim) = [c]) as Heq.
  { apply list_elem_of_split in Hc as (l1 & l2 & El). rewrite El in Hnd |- *.
    rewrite fmap_app, fmap_cons in Hnd. apply NoDup_app in Hnd as (_ & Hd1 & Hd2). apply NoDup_cons in Hd2 as [Hd2 _].
    assert (∀ l : list DeviceClaim, dc_Uuid c ∉ (dc_Uuid <$> l) → filter (λ c, dc_Uuid c = u) l = []) as Hnil.
    { intros l Hl. apply filter_none, Forall_forall. intros e He Hue. apply Hl. rewrite Hu, <- Hue. by apply list_elem_of_fmap_2. }
    rewrite filter_app, filter_cons_True, !Hnil by (done || (intros Hx; apply (Hd1 _ Hx); by left)). done. }
  rewrite Forall_forall in Hf. destruct (Hf c Hc) as (id & d & Hd & _ & Hdu & Hx). exists id, d.
  split_and!; [done|congruence|..]; rewrite Heq; cbn; specialize (Hx x); lia.
Qed.

Lemma claims_are_bounded : claims_bounded claims.
Proof.
  split.
  - apply Forall_forall. intros claim (need & Hneed & Hnn & Hp)%claim_of_need.
    eapply Forall_impl; [by apply (placed_like_claims n req need); [apply Hsound|..]|].
    intros c (id & d & _ & _ & _ & Hx) x. apply Hx.
  - intros x u. destruct (decide (Forall (λ c, container_on x u c = 0) claims)) as [Hz|Hz].
    + assert (Zsum (container_on x u <$> claims) = 0) as ->; [|by unfold int64_max].
      clear -Hz. induction Hz as [|c l Hc _ IH]; [done|]. rewrite fmap_cons, Zsum_cons. lia.
    + apply not_Forall_Exists in Hz; [|apply _]. apply Exists_exists in Hz as (c0 & Hc0 & Hne).
      destruct (container_bound c0 x u Hc0 Hne) as (id & d & Hd & Hu & _).
      assert (∀ c, c ∈ claims → container_on x u c ≤ total x d) as Hle.
      { intros c Hc. destruct (decide (container_on x u c = 0)) as [->|Hne'].
        - destruct (sn_wf n Hsound _ _ Hd x). lia.
        - destruct (container_bound c x u Hc Hne') as (id' & d' & Hd' & Hu' & Hb).
          destruct (no_indexed _ (sn_ok n Hsound)) as [_ Hi].
          destruct (Hi _ _ Hd) as [_ H1], (Hi _ _ Hd') as [_ H2]. rewrite Hu in H1. rewrite Hu' in H2.
          assert (id = id') as <- by congruence. assert (d = d') as <- by congruence. lia. }
      pose proof (en_small _ _ Henc id d x Hd) as Hsm.
      assert (Z.of_nat (length claims) ≤ Z.of_nat (length (p_InitContainers (rq_Pod req) ++ p_Containers (rq_Pod req)))) as Hlen.
      { destruct Hplaced as [Hall _]. rewrite <- (Forall2_length _ _ _ Hall). destruct Hbuilt as [-> _].
        unfold pod_needs. etrans; [apply inj_le, sublist_length, sublist_filter|].
        by rewrite !length_app, !length_fmap. }
      assert (Zsum (container_on x u <$> claims) ≤ Z.of_nat (length claims) * total x d); [|destruct (sn_wf n Hsound _ _ Hd x); nia].
      clear -Hle. induction claims as [|c l IH]; [done|]. rewrite fmap_cons, Zsum_cons. cbn [length].
      pose proof (Hle c ltac:(by left)). specialize (IH ltac:(intros; apply Hle; by right)). lia.
Qed.

Lemma claims_init_vgpu : init_claims_vgpu (rq_Pod req) claims.
Proof.
  intros claim (need & Hneed & Hnn & Hp)%claim_of_need Hseq.
  destruct (need_class (rq_Pod req) need claim Hnames Hneed (placed_like_name _ _ _ _ Hp)) as [Hcl _].
  apply Hcl in Hseq. apply elem_of_pod_needs in Hneed as [Hpos Hneed].
  unfold podHasVGPUInitContainer. apply existsb_exists.
  destruct Hneed as [(c & Hc & ->)|(c & Hc & ->)]; [|done]. exists c. split; [by apply list_elem_of_In|].
  unfold is_init_need in Hseq. simpl in Hseq, Hpos. apply andb_true_iff. split; [|done].
  unfold IsVGPURequiredContainer. apply bool_decide_eq_true_2. lia.
Qed.
End accounted.

(** C3 What was allocated is what the next scheduling cycle counts.  The
    annotation [Allocate] writes reads back, through the annotation reader, as
    exactly the claims the passes over the containers chose, with their ids,
    uuids, cores and memory; and accounting the placed pod on the node adds to
    every GPU exactly the lifecycle reservation of these claims, with no
    wrap-around and without exceeding a capacity that was not already
    exceeded. *)
Theorem Allocate_accounted cfg req s newPod s' :
  built req → distinct_names (rq_Pod req) → sound_node (as_node s) → limits_ok (as_node s) (rq_Pod req) →
  encodable (as_node s) (rq_Pod req) → annotation (rq_Pod req) PodVGPURealAllocAnnotation = "" →
  Allocate cfg req s = (Done newPod, s') → ShouldCountPodDeviceAllocation newPod = true →
  ∃ claims, chosen cfg req s claims ∧ GetPodDeviceClaim newPod = claims ∧
  Forall2 container_served (rq_Containers req) claims ∧
  ∀ id d, ni_deviceMap (as_node s) !! id = Some d →
    ∃ d', ni_deviceMap (AddPodUsedResources (as_node s) newPod) !! id = Some d' ∧ same_card d d' ∧
      ∀ x, used x d' = used x d + reserve x newPod claims (d_uuid d) ∧
           used x d' ≤ Z.max (used x d) (total x d).
Proof.
  intros Hb Hn Hs Hl He Hreal Hdone Hcount.
  destruct (allocate_placed _ _ _ _ _ Hb Hn Hs Hl Hdone) as (claims & Hch & Hp & Heq).
  assert (GetPodDeviceClaim newPod = claims) as Hread.
  { rewrite Heq. apply written_claims; [done|]. by eapply claims_encodable. }
  pose proof (claims_are_bounded _ _ _ Hb Hs Hl He Hp) as Hbd.
  assert (init_claims_vgpu newPod claims) as Hi by (rewrite Heq; exact (claims_init_vgpu _ _ _ Hb Hn Hs Hl Hp)).
  assert (∀ x u, reserve x newPod claims u = reserve x (rq_Pod req) claims u) as Hres by (intros; by rewrite Heq).
  rewrite <- Hread in Hbd, Hi. destruct (AddPod_spec (as_node s) newPod) as [Hsame Hadd]; try done.
  { apply Hs. }
  { intros id d x Hd. destruct (sn_wf _ Hs _ _ Hd x). unfold in64, int64_min. lia. }
  rewrite Hread in *. destruct Hp as [Hall Hfit]. exists claims. split; [done|]. split; [done|]. split.
  { eapply Forall2_impl; [exact Hall|]. apply placed_served. }
  intros id d Hd. destruct (Hadd _ _ Hd) as (d' & Hd' & Hu). exists d'. split; [done|].
  destruct (same_node_lookup _ _ _ _ Hsame Hd) as (d2 & Hd2 & Hc). simplify_eq. split; [done|]. intros x.
  specialize (Hu x). rewrite Hres in Hu |- *. pose proof (Hfit id d x Hd) as Hle.
  destruct (sn_wf _ Hs _ _ Hd x). pose proof (reserve_nonneg x (d_uuid d) (rq_Pod req) claims Hbd).
  rewrite Hu, wrap64_id by (unfold in64, int64_min; lia). lia.
Qed.
End main.

(** ** The demo node *)
Module EndToEndDemo.
Import DemoNode.

Lemma cards_ok : registry_ok cards.
Proof.
  split; [refine (bool_decide_unpack _ _); vm_compute; done..|].
  repeat (apply Forall_cons; split); [intros []; vm_compute; split; discriminate..|apply Forall_nil; done].
Qed.

Lemma built_info : built = Ok info.
Proof. vm_compute. reflexivity. Qed.

Lemma no_pods_ok : pods_ok [].
Proof. split; [constructor|]. intros x u. vm_compute. discriminate. Qed.

Lemma NewNodeInfo_sound_witness :
  built = Ok info ∧ fresh_node cards [] info ∧ sound_node info.
Proof.
  split; [exact built_info|].
  apply (NewNodeInfo_sound (H1 := decoders (links_of edges <$> [0; 1; 2; 3])) (node "node-a") (options cards []) info cards).
  - reflexivity.
  - exact cards_ok.
  - reflexivity.
  - reflexivity.
  - exact no_pods_ok.
  - exact built_info.
Defined.

Lemma info_fresh : fresh_node cards [] info.
Proof.
  apply (newnode_fresh (H1 := decoders (links_of edges <$> [0; 1; 2; 3])) (node "node-a") (options cards []) info cards).
  - reflexivity.
  - exact cards_ok.
  - reflexivity.
  - reflexivity.
  - exact no_pods_ok.
  - exact built_info.
Qed.

Lemma info_sound : sound_node info.
Proof. eapply (fresh_sound cards []); [exact cards_ok|exact no_pods_ok|exact info_fresh]. Qed.

Definition gpu_limits (number cores memory : Z) : list (string * Z) :=
  [(VGPUNumberResourceName, number); (VGPUCoreResourceName, cores); (VGPUMemoryResourceName, memory)].

Definition sidecar : Container :=
  {| c_Name := "proxy"; c_Limits := list_to_map (gpu_limits 1 20 1000); c_Requests := ∅; c_Claims := [];
     c_IsRestartableInitContainer := true; c_Env := [] |}.

(** A sequential init container, a sidecar and an app container, asking for NVLink. *)
Definition pod : Pod :=
  Demo.pod "train" [(DeviceTopologyModeAnnotation, "Link-Strict")]
    [Demo.container "download" (gpu_limits 2 0 8000); sidecar] [Demo.container "train" (gpu_limits 2 50 10000)].

Definition req : AllocationRequest := BuildAllocationRequest pod.
Definition cfg : alloc_config := {| ac_recorder := true; ac_simulate := false |}.
Definition start : alloc_state :=
  {| as_node := info; as_outcome := {| to_Result := ""; to_Alignment := "" |}; as_events := [] |}.

Definition placed_pod : Pod :=
  match Allocate cfg req start with (Done p, _) => p | _ => pod end.

Lemma allocated : (Allocate cfg req start).1 = Done placed_pod.
Proof. vm_compute. reflexivity. Qed.

Lemma pod_names : distinct_names pod.
Proof. unfold distinct_names. refine (bool_decide_unpack _ _). vm_compute. done. Qed.

Lemma pod_limits : limits_ok info pod.
Proof. unfold limits_ok. refine (bool_decide_unpack _ _). vm_compute. done. Qed.

Lemma Allocate_never_overcommits_witness :
  annotation placed_pod PodVGPUPreAllocAnnotation
    = "download[0_GPU-0_0_8000,1_GPU-1_0_8000];proxy[0_GPU-0_20_1000];train[0_GPU-0_50_10000,1_GPU-1_50_10000]" ∧
  ∃ claims, annotation placed_pod PodVGPUPreAllocAnnotation = PodDeviceClaim_MarshalText claims ∧
    Forall2 container_served (rq_Containers req) claims ∧
    ∀ id d x, ni_deviceMap info !! id = Some d →
      used x d + reserve x pod claims (d_uuid d) ≤ Z.max (used x d) (total x d).
Proof.
  split; [vm_compute; reflexivity|].
  apply (Allocate_never_overcommits cfg req start placed_pod (Allocate cfg req start).2).
  - apply BuildAllocationRequest_built.
  - exact pod_names.
  - exact info_sound.
  - exact pod_limits.
  - rewrite <- allocated. apply surjective_pairing.
Defined.

Lemma Allocate_honours_constraints_witness :
  rq_TopologyStrict req = true ∧ BaseTopology (rq_Topology req) = LinkTopology ∧
  ∃ claims, annotation placed_pod PodVGPUPreAllocAnnotation = PodDeviceClaim_MarshalText claims ∧
    Forall (λ claim, Forall (claim_eligible info req) (cdc_DeviceClaims claim) ∧
                     topology_met info req (dc_Uuid <$> cdc_DeviceClaims claim)) claims.
Proof.
  split; [vm_compute; reflexivity|]. split; [vm_compute; reflexivity|].
  apply (Allocate_honours_constraints cfg req start placed_pod (Allocate cfg req start).2).
  - apply BuildAllocationRequest_built.
  - exact pod_names.
  - exact info_sound.
  - exact pod_limits.
  - rewrite <- allocated. apply surjective_pairing.
Defined.

Lemma pod_encodable : encodable info pod.
Proof.
  split.
  - refine (bool_decide_unpack _ _). vm_compute. done.
  - intros id d Hd.
    assert (map_Forall (λ _ d, in64 (d_id d) ∧ clean [" "; "_"; ","; "]"; ";"]%char (d_uuid d) = true)
              (ni_deviceMap info)) as Hall; [|by apply (Hall id)].
    unfold in64. refine (bool_decide_unpack _ _). vm_compute. done.
  - intros id d x Hd.
    assert (map_Forall (λ _ d, Forall (λ x, 5 * total x d ≤ int64_max) [Number; Cores; Memory]) (ni_deviceMap info)) as Hall.
    { refine (bool_decide_unpack _ _). vm_compute. done. }
    specialize (Hall id d Hd). cbv beta in Hall. rewrite Forall_forall in Hall.
    destruct (sn_wf _ info_sound _ _ Hd x) as [_ Ht].
    assert (x ∈ [Number; Cores; Memory]) as Hx by (rewrite !elem_of_cons; destruct x; auto).
    specialize (Hall x Hx). change (Z.of_nat (length (p_InitContainers pod ++ p_Containers pod))) with 3. lia.
Qed.

Lemma Allocate_accounted_witness :
  GetPodDeviceClaim placed_pod ≠ [] ∧
  ∃ claims, chosen cfg req start claims ∧ GetPodDeviceClaim placed_pod = claims ∧
  Forall2 container_served (rq_Containers req) claims ∧
  ∀ id d, ni_deviceMap info !! id = Some d →
    ∃ d', ni_deviceMap (AddPodUsedResources info placed_pod) !! id = Some d' ∧ same_card d d' ∧
      ∀ x, used x d' = used x d + reserve x placed_pod claims (d_uuid d) ∧
           used x d' ≤ Z.max (used x d) (total x d).
Proof.
  split; [vm_compute; discriminate|].
  apply (Allocate_accounted cfg req start placed_pod (Allocate cfg req start).2).
  - apply BuildAllocationRequest_built.
  - exact pod_names.
  - exact info_sound.
  - exact pod_limits.
  - exact pod_encodable.
  - vm_compute. reflexivity.
  - rewrite <- allocated. apply surjective_pairing.
  - vm_compute. reflexivity.
Defined.
End EndToEndDemo.
