(* ===== verification/Endpoint.v ===== *)
(** * Endpoint strings ([pkg/util/endpoint/endpoint.go])

    Parsing and printing of the addresses the remote-GPU components exchange.
    [EndpointLib] are the library functions used: [url.Parse], [URL.String],
    [net.ParseIP] and the JSON codec of the endpoint annotation. *)

From stdpp Require Import base list gmap strings.
From Stdlib Require Import ZArith Ascii.
From S2P Require Import Prelude GoStrings GoFmt.

Open Scope Z_scope.

(** ** [net/url] and [net] *)

(** The fields of [url.URL] that are read here; the user part is present or not. *)
Record URL := {
  u_Scheme : string;
  u_Opaque : string;
  u_User : bool;
  u_Host : string;
  u_Path : string;
  u_RawQuery : string;
  u_Fragment : string
}.

Record IP := { ip_IsUnspecified : bool; ip_IsLoopback : bool }.

(** What a remote GPU server node publishes about itself. *)
Record ServerEndpointInfo := {
  se_ServerEndpoint : string;
  se_AgentEndpoint : string;
  se_ServerCUDAVersion : string;
  se_BundleETag : string
}.

Class EndpointLib : Type := {
  url_Parse : string → result string URL;
  url_String : URL → string;
  ParseIP : string → option IP;
  unmarshal_endpoints : string → result string ServerEndpointInfo;
  marshal_endpoints : ServerEndpointInfo → string
}.

(** The parts around the last [c]. *)
Fixpoint last_cut (c : ascii) (s : string) : option (string * string) :=
  match s with
  | EmptyString => None
  | String x s' =>
      match last_cut c s' with
      | Some (a, b) => Some (String x a, b)
      | None => if char_eqb x c then Some (EmptyString, s') else None
      end
  end.

Definition strip_brackets (host : string) : string :=
  if HasPrefix host "[" && HasSuffix host "]" then str_take (String.length host - 2) (str_drop 1 host) else host.

(** [URL.Hostname] and [URL.Port]: a port is a possibly empty run of digits after the last colon. *)
Definition splitHostPort (hostPort : string) : string * string :=
  match last_cut ":" hostPort with
  | Some (host, port) => if str_forall is_digit port then (strip_brackets host, port) else (strip_brackets hostPort, "")
  | None => (strip_brackets hostPort, "")
  end.
Definition Hostname (u : URL) : string := (splitHostPort (u_Host u)).1.
Definition URL_Port (u : URL) : string := (splitHostPort (u_Host u)).2.

Definition JoinHostPort (host port : string) : string :=
  if free_of ":" host then host +:+ ":" +:+ port else "[" +:+ host +:+ "]:" +:+ port.

(** ** Endpoints *)

Definition Http : string := "http".
Definition Https : string := "https".
Definition Unix : string := "unix".
Definition Grpc : string := "grpc".

Record Endpoint := { ep_Scheme : string; ep_Host : string; ep_Port : string; ep_Path : string }.

Definition HostPort (e : Endpoint) : string :=
  if bool_decide (ep_Scheme e = Unix) then ""
  else if bool_decide (ep_Port e = "") then if free_of ":" (ep_Host e) then ep_Host e else "[" +:+ ep_Host e +:+ "]"
  else JoinHostPort (ep_Host e) (ep_Port e).

Definition with_port (e : Endpoint) (port : string) : Endpoint :=
  {| ep_Scheme := ep_Scheme e; ep_Host := ep_Host e; ep_Port := port; ep_Path := ep_Path e |}.

Definition DefaultPort (e : Endpoint) (port : Z) : Endpoint :=
  if bool_decide (port ≠ 0) && bool_decide (ep_Port e = "") && bool_decide (ep_Scheme e ≠ Unix) then with_port e (Itoa port) else e.

Definition Network (e : Endpoint) : string := if bool_decide (ep_Scheme e = Unix) then Unix else "tcp".

Definition DialTarget (e : Endpoint) : string :=
  if bool_decide (ep_Scheme e = Unix) then Unix +:+ "://" +:+ ep_Path e else HostPort e.

Section endpoint.
Context `{EndpointLib}.

Definition IsWildcard (e : Endpoint) : bool :=
  if bool_decide (ep_Scheme e = Unix) then false
  else if bool_decide (ep_Host e = "") then true
  else match ParseIP (ep_Host e) with Some ip => ip_IsUnspecified ip | None => false end.

Definition IsLoopback (e : Endpoint) : bool :=
  if bool_decide (ep_Scheme e = Unix) || IsWildcard e then true
  else if EqualFold (ep_Host e) "localhost" then true
  else match ParseIP (ep_Host e) with Some ip => ip_IsLoopback ip | None => false end.

(** The URL [Endpoint.String] prints. *)
Definition endpoint_url (e : Endpoint) : URL :=
  {| u_Scheme := ep_Scheme e; u_Opaque := ""; u_User := false;
     u_Host := if bool_decide (ep_Scheme e ≠ Unix) then HostPort e else ""; u_Path := ep_Path e; u_RawQuery := ""; u_Fragment := "" |}.
Definition Endpoint_String (e : Endpoint) : string := url_String (endpoint_url e).

Definition valid_port (port : string) : bool :=
  match Atoi port with Some p => negb (bool_decide (p < 0) || bool_decide (65535 < p)) | None => false end.

Definition ParseEndpoint (raw defaultScheme : string) (defaultPort : Z) : result string Endpoint :=
  let endpoint := TrimSpace raw in
  if bool_decide (endpoint = "") then Fail "empty endpoint"
  else
    let endpoint := if negb (Contains endpoint "://") then defaultScheme +:+ "://" +:+ endpoint else endpoint in
    let* u := url_Parse endpoint in
    if negb (bool_decide (u_Scheme u ∈ [Https; Http; Unix; Grpc])) then Fail ("unsupported scheme " +:+ Quote (u_Scheme u))
    else if bool_decide (u_Opaque u ≠ "") then Fail ("invalid endpoint " +:+ Quote raw +:+ ": expected " +:+ u_Scheme u +:+ "://")
    else if bool_decide (u_RawQuery u ≠ "") || bool_decide (u_Fragment u ≠ "") || u_User u
    then Fail ("invalid endpoint " +:+ Quote raw +:+ ": query, fragment and userinfo are not supported")
    else
      let e := {| ep_Scheme := u_Scheme u; ep_Host := Hostname u; ep_Port := URL_Port u; ep_Path := u_Path u |} in
      if bool_decide (ep_Scheme e = Unix) then
        if bool_decide (u_Host u ≠ "") || negb (HasPrefix (ep_Path e) "/")
        then Fail ("invalid unix endpoint " +:+ Quote raw +:+ ": expected unix:///absolute/path")
        else Ok e
      else if bool_decide (ep_Port e ≠ "") && negb (valid_port (ep_Port e))
      then Fail ("invalid port " +:+ Quote (ep_Port e) +:+ " in endpoint " +:+ Quote raw)
      else Ok (DefaultPort e defaultPort).

Fixpoint parse_items (items : list string) (defaultScheme : string) (defaultPort : Z) : result string (list Endpoint) :=
  match items with
  | [] => Ok []
  | item :: items =>
      if bool_decide (TrimSpace item = "") then parse_items items defaultScheme defaultPort
      else
        let* e := ParseEndpoint item defaultScheme defaultPort in
        let* rest := parse_items items defaultScheme defaultPort in
        Ok (e :: rest)
  end.
Definition ParseEndpoints (raw defaultScheme : string) (defaultPort : Z) : result string (list Endpoint) :=
  let* out := parse_items (split_char "," raw) defaultScheme defaultPort in
  if bool_decide (out = []) then Fail "empty endpoint list" else Ok out.
End endpoint.
