(* ===== verification/RemoteGpu.v ===== *)
(** * Endpoints of remote GPU servers ([pkg/device/remotegpu])

    What the plugins of a server node learn from its remote-agent, publish in
    the endpoint annotation, and what the scheduler reads of it.  [AgentLib]
    is the gRPC client of the agent and the lister of nodes. *)

From stdpp Require Import base list gmap strings.
From Stdlib Require Import ZArith Ascii.
From S2P Require Import Prelude GoStrings GoFmt Endpoint.

Open Scope Z_scope.

Definition DefaultServerPort : Z := 14833.
Definition DefaultAgentPort : Z := 14834.

Inductive endpoint_error := ErrServerUnreachable | ErrEndpoint (msg : string).

Definition endpoint_error_text (e : endpoint_error) : string :=
  match e with
  | ErrServerUnreachable => "remote GPU server is not reachable"
  | ErrEndpoint msg => msg
  end.

(** The answer of a remote-agent. *)
Record ServerInfoResponse := {
  si_Listening : bool;
  si_Endpoint : string;
  si_CudaDriverVersion : string;
  si_NodeName : string;
  si_AgentEndpoint : string;
  si_ClientBundleEtag : string
}.

(** The addresses of a node are pairs of a type and an address. *)
Class AgentLib : Type := {
  NewClient : string → option string;
  rpc_ServerInfo : string → result string ServerInfoResponse;
  node_addresses : string → result string (list (string * string))
}.
Definition NodeInternalIP : string := "InternalIP".

(** [%v] of a list of schemes. *)
Definition schemes_text (schemes : list string) : string := "[" +:+ join_char " " schemes +:+ "]".

Section remote.
Context `{EndpointLib}.

(** ** The annotation ([endpoints.go]) *)

Definition parseRoutable (name raw : string) (schemes : list string) : result string Endpoint :=
  let prefix := "invalid " +:+ name +:+ " endpoint " +:+ Quote raw +:+ ": " in
  match ParseEndpoint raw Http 0 with
  | Fail err => Fail (prefix +:+ err)
  | Ok ep =>
      if negb (bool_decide (ep_Scheme ep ∈ schemes)) then Fail (prefix +:+ "scheme must be one of " +:+ schemes_text schemes)
      else if IsLoopback ep then Fail (prefix +:+ "host is not reachable from other nodes")
      else if bool_decide (ep_Port ep = "") then Fail (prefix +:+ "port is required")
      else Ok ep
  end.

Definition normalize (e : ServerEndpointInfo) : result string ServerEndpointInfo :=
  let* server := parseRoutable "server" (se_ServerEndpoint e) [Http; Https] in
  let* agent := parseRoutable "agent" (se_AgentEndpoint e) [Grpc] in
  Ok {| se_ServerEndpoint := Endpoint_String server; se_AgentEndpoint := Endpoint_String agent;
        se_ServerCUDAVersion := se_ServerCUDAVersion e; se_BundleETag := se_BundleETag e |}.

Definition Encode (e : ServerEndpointInfo) : result string string := let* e := normalize e in Ok (marshal_endpoints e).

Definition DecodeServerEndpointInfo (value : string) : result endpoint_error ServerEndpointInfo :=
  match unmarshal_endpoints value with
  | Fail err => Fail (ErrEndpoint ("invalid remote endpoints " +:+ Quote value +:+ ": " +:+ err))
  | Ok e =>
      if bool_decide (se_ServerEndpoint e = "") && bool_decide (se_AgentEndpoint e = "") then Fail ErrServerUnreachable
      else
        match normalize e with
        | Ok e' => Ok e'
        | Fail err => Fail (ErrEndpoint err)
        end
  end.

(** ** Server and agent addresses ([agent.go]) *)

Definition ParseServerEndpoint (raw : string) : result string Endpoint :=
  match ParseEndpoint raw Http 0 with
  | Fail err => Fail ("invalid lupine-server endpoint " +:+ Quote raw +:+ ": " +:+ err)
  | Ok e =>
      if bool_decide (ep_Scheme e = Http) then Ok (DefaultPort e DefaultServerPort)
      else if bool_decide (ep_Scheme e = Https) then Ok (DefaultPort e 443)
      else Fail ("invalid lupine-server endpoint " +:+ Quote raw +:+ ": scheme must be http or https")
  end.

Definition with_scheme (e : Endpoint) (scheme : string) : Endpoint :=
  {| ep_Scheme := scheme; ep_Host := ep_Host e; ep_Port := ep_Port e; ep_Path := ep_Path e |}.

Definition ParseAgentEndpoint (raw : string) : result string Endpoint :=
  match ParseEndpoint raw Grpc DefaultAgentPort with
  | Fail err => Fail ("invalid remote-agent endpoint " +:+ Quote raw +:+ ": " +:+ err)
  | Ok e =>
      if bool_decide (ep_Scheme e ∈ [Grpc; Unix]) then Ok e
      else if bool_decide (ep_Scheme e ∈ [Http; Https]) then Ok (with_scheme e Grpc)
      else Fail ("invalid remote-agent endpoint " +:+ Quote raw +:+ ": scheme must be grpc or unix")
  end.

Definition agentDialTarget (agentEndpoint : string) : result string string :=
  let* endpoint := ParseAgentEndpoint agentEndpoint in
  if bool_decide (ep_Scheme endpoint ≠ Unix) && (bool_decide (ep_Host endpoint = "") || bool_decide (ep_Port endpoint = "0"))
  then Fail ("invalid remote-agent endpoint " +:+ Quote agentEndpoint +:+ ": a host and a non-zero port are required")
  else Ok (DialTarget endpoint).

(** A nil error prints as <nil>. *)
Definition PublishableEndpoints (server agent : string) : result string (string * string) :=
  if bool_decide (server = "") || bool_decide (agent = "")
  then Fail ("no routable endpoint reported yet (server " +:+ Quote server +:+ ", agent " +:+ Quote agent +:+ ")")
  else
    let bad_server := "reported lupine-server endpoint " +:+ Quote server +:+ " is not publishable: " in
    let bad_agent := "reported remote-agent endpoint " +:+ Quote agent +:+ " is not publishable: " in
    match ParseServerEndpoint server with
    | Fail err => Fail (bad_server +:+ err)
    | Ok s =>
        if IsLoopback s then Fail (bad_server +:+ "<nil>")
        else
          match ParseAgentEndpoint agent with
          | Fail err => Fail (bad_agent +:+ err)
          | Ok a =>
              if bool_decide (ep_Scheme a ≠ Grpc) || IsLoopback a then Fail (bad_agent +:+ "<nil>")
              else Ok (Endpoint_String s, Endpoint_String a)
          end
    end.

Context `{AgentLib}.

Definition DialAgent (agentEndpoint : string) : result string string :=
  let* target := agentDialTarget agentEndpoint in
  match NewClient target with Some err => Fail err | None => Ok target end.

Definition ServerInfo (agentEndpoint : string) : result string ServerInfoResponse :=
  let* conn := DialAgent agentEndpoint in
  match rpc_ServerInfo conn with
  | Fail err => Fail ("remote-agent " +:+ agentEndpoint +:+ ": " +:+ err)
  | Ok info =>
      if negb (si_Listening info)
      then Fail ("remote-agent " +:+ agentEndpoint +:+ " (node " +:+ si_NodeName info +:+ "): lupine-server is not listening")
      else Ok info
  end.

Definition nodeInternalIP (nodeName : string) : result string string :=
  match node_addresses nodeName with
  | Fail err => Fail ("get node " +:+ nodeName +:+ ": " +:+ err)
  | Ok addresses =>
      match List.find (λ a, bool_decide (a.1 = NodeInternalIP) && bool_decide (a.2 ≠ "")) addresses with
      | Some a => Ok a.2
      | None => Fail ("node " +:+ nodeName +:+ " has no InternalIP address; set the host in --remote-agent-endpoint explicitly")
      end
  end.

Definition with_host (e : Endpoint) (host : string) : Endpoint :=
  {| ep_Scheme := ep_Scheme e; ep_Host := host; ep_Port := ep_Port e; ep_Path := ep_Path e |}.

Definition ResolveAgentDial (nodeName raw : string) : result string string :=
  let* agentDial := ParseAgentEndpoint raw in
  if bool_decide (ep_Scheme agentDial ≠ Unix) && bool_decide (ep_Host agentDial = "") then
    match nodeInternalIP nodeName with
    | Fail err => Fail ("derive agent endpoint: " +:+ err)
    | Ok ip => Ok (Endpoint_String (with_host agentDial ip))
    end
  else Ok (Endpoint_String agentDial).

Definition ProbeServer (agentDial : string) : result string ServerEndpointInfo :=
  let* info := ServerInfo agentDial in
  let agent := if bool_decide (si_AgentEndpoint info = "") then agentDial else si_AgentEndpoint info in
  match PublishableEndpoints (si_Endpoint info) agent with
  | Fail err => Fail ("remote-agent " +:+ agentDial +:+ ": " +:+ err)
  | Ok (server, agent) =>
      Ok {| se_ServerEndpoint := server; se_AgentEndpoint := agent; se_ServerCUDAVersion := si_CudaDriverVersion info;
            se_BundleETag := si_ClientBundleEtag info |}
  end.
End remote.
