(* ===== verification/EndpointSpec.v ===== *)
(** * What a server node publishes is what the scheduler reads

    Printing an endpoint and parsing it again gives the endpoint back
    ([ParseEndpoint_print]), so the endpoints a plugin obtains from its
    remote-agent can always be encoded, and decode to themselves. *)

From stdpp Require Import base list gmap strings.
From Stdlib Require Import ZArith Lia Ascii.
From S2P Require Import Prelude GoStrings GoFmt Endpoint RemoteGpu.

Open Scope Z_scope.

(** ** Host and port *)

Lemma last_cut_app c a b : free_of c b = true → last_cut c (a +:+ String c b) = Some (a, b).
Proof.
  intros Hb. assert (last_cut c b = None) as Hn.
  { clear a. induction b as [|x b IH]; [done|]. apply free_of_cons in Hb as [Hx Hb]. simpl. by rewrite IH, char_eqb_ne. }
  induction a as [|x a IH]; simpl; [by rewrite Hn, char_eqb_refl|]. by rewrite IH.
Qed.

Lemma strip_plain host : free_of "[" host = true → strip_brackets host = host.
Proof. destruct host as [|x host]; [done|]. intros [Hx _]%free_of_cons. unfold strip_brackets. simpl. by rewrite char_eqb_ne. Qed.

Lemma HasSuffix_app a b : HasSuffix (a +:+ b) b = true.
Proof.
  assert (∀ s, HasSuffix s s = true) as Hrefl by (intros []; cbn [HasSuffix]; by rewrite bool_decide_eq_true_2).
  induction a as [|x a IH]; [apply Hrefl|]. change (String x a +:+ b) with (String x (a +:+ b)). cbn [HasSuffix]. rewrite IH. apply orb_true_r.
Qed.

Lemma strip_bracketed host : strip_brackets ("[" +:+ host +:+ "]") = host.
Proof.
  unfold strip_brackets. rewrite (HasSuffix_app ("[" +:+ host) "]" : HasSuffix ("[" +:+ host +:+ "]") "]" = true).
  replace (HasPrefix ("[" +:+ host +:+ "]") "[") with true by (by destruct host). simpl.
  rewrite str_length_app. simpl. replace (String.length host + 1 - 1)%nat with (String.length host) by lia. apply str_take_app.
Qed.

Lemma digits_free port : str_forall is_digit port = true → free_of ":" port = true.
Proof. apply str_forall_impl. intros c Hc. unfold char_eqb. destruct (Ascii.eqb_spec c ":") as [->|]; [by vm_compute in Hc|done]. Qed.

Lemma split_host_port host port : free_of "[" host = true → str_forall is_digit port = true →
  splitHostPort (JoinHostPort host port) = (host, port).
Proof.
  intros Hh Hp. unfold splitHostPort, JoinHostPort. pose proof (digits_free port Hp) as Hf. destruct (free_of ":" host).
  - change (":" +:+ port) with (String ":" port). rewrite (last_cut_app ":" host port Hf), Hp. by rewrite strip_plain.
  - replace ("[" +:+ host +:+ "]:" +:+ port) with (("[" +:+ host +:+ "]") +:+ String ":" port) by (by rewrite !str_app_assoc).
    rewrite last_cut_app, Hp by done. by rewrite strip_bracketed.
Qed.

(** A port the parser accepts. *)
Definition good_port (port : string) : Prop := port ≠ "" ∧ str_forall is_digit port = true ∧ valid_port port = true.

Lemma split_port_digits hostPort : str_forall is_digit (splitHostPort hostPort).2 = true.
Proof. unfold splitHostPort. destruct (last_cut ":" hostPort) as [[host port]|]; [|done]. by destruct (str_forall is_digit port) eqn:E. Qed.

(** ** Texts without spaces *)

Definition spaceless (s : string) : Prop := str_forall (λ c, negb (is_space c)) s = true.

Lemma TrimSpace_spaceless s : spaceless s → TrimSpace s = s.
Proof.
  unfold spaceless, TrimSpace. intros Hs.
  assert (trim_left is_space s = s) as ->.
  { destruct s as [|c s]; [done|]. simpl in *. apply andb_true_iff in Hs as [Hc _]. by destruct (is_space c). }
  induction s as [|c s IH]; [done|]. simpl in *. apply andb_true_iff in Hs as [Hc Hs]. rewrite IH by done.
  destruct s; [|done]. by destruct (is_space c).
Qed.

Lemma HasPrefix_app a b : HasPrefix (a +:+ b) a = true.
Proof. induction a as [|c a IH]; simpl; [by destruct b|]. by rewrite char_eqb_refl, IH. Qed.

Lemma Contains_app a sub b : Contains (a +:+ sub +:+ b) sub = true.
Proof.
  induction a as [|c a IH].
  - change ("" +:+ sub +:+ b) with (sub +:+ b). pose proof (HasPrefix_app sub b) as Hp. destruct (sub +:+ b); cbn [Contains]; by rewrite Hp.
  - change (String c a +:+ sub +:+ b) with (String c (a +:+ sub +:+ b)). cbn [Contains]. rewrite IH. apply orb_true_r.
Qed.

Section spec.
Context `{EndpointLib}.

(** An endpoint made of parts a parsed URL had. *)
Definition from_parse (e : Endpoint) : Prop := ∃ s u, url_Parse s = Ok u ∧ Hostname u = ep_Host e ∧ u_Path u = ep_Path e.

Lemma from_parse_same e e' : from_parse e → ep_Host e' = ep_Host e → ep_Path e' = ep_Path e → from_parse e'.
Proof. intros (s & u & ? & ? & ?) ? ?. exists s, u. split; [done|]. split; congruence. Qed.

Record printable (e : Endpoint) : Prop := {
  pt_scheme : ep_Scheme e ∈ [Http; Https; Grpc];
  pt_host : ep_Host e ≠ "";
  pt_port : good_port (ep_Port e);
  pt_parse : from_parse e
}.

(** The documented behaviour of [net/url]: brackets around a host are not part
    of its name; a URL with scheme and host prints as scheme://..., escaped;
    and parsing what was printed gives the URL back. *)
Record UrlLaws : Prop := {
  ul_host s u : url_Parse s = Ok u → free_of "[" (Hostname u) = true;
  ul_text e : printable e → ∃ rest, url_String (endpoint_url e) = ep_Scheme e +:+ "://" +:+ rest ∧ spaceless rest;
  ul_reparse e : printable e → url_Parse (url_String (endpoint_url e)) = Ok (endpoint_url e)
}.

Lemma scheme_not_unix e : ep_Scheme e ∈ [Http; Https; Grpc] → ep_Scheme e ≠ Unix.
Proof. intros Hs E. rewrite E in Hs. by rewrite !elem_of_cons, elem_of_nil in Hs; destruct Hs as [?|[?|[?|?]]]. Qed.

Lemma printed_host e : printable e → u_Host (endpoint_url e) = JoinHostPort (ep_Host e) (ep_Port e).
Proof.
  intros [Hs _ [Hp _] _]. apply scheme_not_unix in Hs. unfold endpoint_url, HostPort. simpl.
  rewrite bool_decide_true, bool_decide_false, bool_decide_false by done. done.
Qed.

Context (laws : UrlLaws).

Lemma printed_split e : printable e → splitHostPort (u_Host (endpoint_url e)) = (ep_Host e, ep_Port e).
Proof.
  intros He. rewrite printed_host by done. destruct He as [_ _ (_ & Hd & _) (s & u & Hu & <- & _)].
  apply split_host_port; [by eapply (ul_host laws)|done].
Qed.

Lemma ParseEndpoint_print e scheme port : printable e → ParseEndpoint (Endpoint_String e) scheme port = Ok e.
Proof.
  intros He. destruct (ul_text laws e He) as (rest & Et & Hsp). pose proof (ul_reparse laws e He) as Hre.
  pose proof (printed_split e He) as Hsplit. destruct He as [Hs Hh (Hp & Hd & Hv) _].
  assert (spaceless (Endpoint_String e)) as Hsl.
  { unfold Endpoint_String. rewrite Et. unfold spaceless. rewrite !str_forall_app. fold (spaceless rest). rewrite Hsp.
    rewrite !elem_of_cons, elem_of_nil in Hs. by destruct Hs as [->|[->|[->|[]]]]. }
  unfold ParseEndpoint. rewrite TrimSpace_spaceless by done.
  rewrite bool_decide_false by (unfold Endpoint_String; rewrite Et; by destruct (ep_Scheme e)).
  replace (Contains (Endpoint_String e) "://") with true by (symmetry; unfold Endpoint_String; rewrite Et; apply Contains_app).
  cbn [negb]. unfold Endpoint_String. rewrite Hre. cbn [rbind]. cbn [endpoint_url u_Scheme u_Opaque u_RawQuery u_Fragment u_User].
  rewrite bool_decide_true by (rewrite !elem_of_cons, elem_of_nil in *; tauto). cbn [negb].
  rewrite !(bool_decide_false ("" ≠ "")) by (intros E; by apply E). cbn [orb]. unfold Hostname, URL_Port. rewrite Hsplit. cbn [fst snd ep_Scheme ep_Port].
  rewrite bool_decide_false by (by apply scheme_not_unix). rewrite Hv, andb_false_r.
  unfold DefaultPort. cbn [ep_Port ep_Scheme]. rewrite (bool_decide_false (ep_Port e = "")), andb_false_r by done. by destruct e.
Qed.

Lemma ParseEndpoint_inv raw scheme port e : ParseEndpoint raw scheme port = Ok e →
  from_parse e ∧ ep_Scheme e ∈ [Https; Http; Unix; Grpc] ∧
  (ep_Scheme e ≠ Unix → good_port (ep_Port e) ∨ (ep_Port e = "" ∧ port = 0) ∨ (port ≠ 0 ∧ ep_Port e = Itoa port)).
Proof.
  unfold ParseEndpoint. case_bool_decide; [done|]. set (text := if negb _ then _ else _). destruct (url_Parse text) as [u|] eqn:Eu; [|done].
  cbn [rbind]. case_bool_decide as Hs; [|done]. cbn [negb]. case_bool_decide; [done|]. destruct (_ || _); [done|].
  set (e0 := {| ep_Scheme := _ |}). assert (from_parse e0) as Hfrom by (by exists text, u).
  case_bool_decide as Hu; cbn [ep_Scheme e0] in Hu.
  { destruct (_ || _); [done|]. intros [= <-]. split; [done|]. split; [done|]. by intros []. }
  destruct (bool_decide (ep_Port e0 ≠ "") && negb (valid_port (ep_Port e0))) eqn:Ep; [done|]. intros [= <-].
  unfold DefaultPort. cbn [ep_Scheme e0 ep_Port] in *. rewrite (bool_decide_true (u_Scheme u ≠ Unix)), andb_true_r by done.
  destruct (decide (URL_Port u = "")) as [Hp|Hp].
  - rewrite (bool_decide_true (URL_Port u = "")), andb_true_r by done. destruct (decide (port = 0)) as [Hz|Hz].
    + rewrite bool_decide_false by (intros []; done). split; [done|]. split; [done|]. intros _. by right; left.
    + rewrite bool_decide_true by done. split; [by apply (from_parse_same e0)|]. split; [done|]. intros _. by right; right.
  - rewrite (bool_decide_false (URL_Port u = "")), andb_false_r by done. rewrite bool_decide_true in Ep by done.
    split; [done|]. split; [done|]. intros _. left. repeat split; [done|apply split_port_digits|]. by apply negb_false_iff in Ep.
Qed.

(** ** Publishing *)

(** What [parseRoutable] asks for: a scheme of the list, a host that is not
    local, an explicit port. *)
Definition routable (schemes : list string) (e : Endpoint) : Prop :=
  ep_Scheme e ∈ schemes ∧ IsLoopback e = false ∧ good_port (ep_Port e).

(** Port 0 names no port. *)
Definition zero_port (e : Endpoint) : Prop := Atoi (ep_Port e) = Some 0.

(** Fit to be dialled from another node. *)
Definition dialable (schemes : list string) (e : Endpoint) : Prop := routable schemes e ∧ ¬ zero_port e.

(** No address, as it parses, is on port 0. *)
Definition no_zero_port (raw : string) : Prop := ∀ e, ParseEndpoint raw Http 0 = Ok e → ¬ zero_port e.

Lemma reachable_host e : IsLoopback e = false → ep_Scheme e ≠ Unix ∧ ep_Host e ≠ "".
Proof.
  unfold IsLoopback, IsWildcard. case_bool_decide; [done|]. case_bool_decide; [done|]. done.
Qed.

Lemma default_good port : port ∈ [DefaultServerPort; DefaultAgentPort; 443] → good_port (Itoa port).
Proof. rewrite !elem_of_cons, elem_of_nil. by intros [->|[->|[->|[]]]]. Qed.

Lemma DefaultPort_spec e port : ep_Scheme e ≠ Unix → port ≠ 0 →
  DefaultPort e port = if bool_decide (ep_Port e = "") then with_port e (Itoa port) else e.
Proof. intros Hs Hp. unfold DefaultPort. rewrite !(bool_decide_true (_ ≠ _)) by done. cbn [andb]. by rewrite andb_true_r. Qed.

Lemma ParseServerEndpoint_printable raw s : ParseServerEndpoint raw = Ok s → IsLoopback s = false →
  printable s ∧ routable [Http; Https] s.
Proof.
  unfold ParseServerEndpoint. destruct (ParseEndpoint raw Http 0) as [e|] eqn:Ee; [|done].
  apply ParseEndpoint_inv in Ee as (Hf & _ & Hport).
  assert (∀ port, port ∈ [DefaultServerPort; DefaultAgentPort; 443] → ep_Scheme e ∈ [Http; Https] → IsLoopback (DefaultPort e port) = false →
    printable (DefaultPort e port) ∧ routable [Http; Https] (DefaultPort e port)) as Hall.
  { intros port Hin Hs Hl. assert (ep_Scheme e ≠ Unix) as Hu.
    { apply scheme_not_unix. rewrite !elem_of_cons, elem_of_nil in *. tauto. }
    destruct (reachable_host _ Hl) as [_ Hh].
    assert (port ≠ 0) as Hz by (intros ->; rewrite !elem_of_cons, elem_of_nil in Hin; by destruct Hin as [?|[?|[?|?]]]).
    rewrite DefaultPort_spec in * by done.
    assert (good_port (ep_Port (if bool_decide (ep_Port e = "") then with_port e (Itoa port) else e))) as Hg.
    { case_bool_decide as Hp; [by apply default_good|]. destruct (Hport Hu) as [?|[[? _]|[[] _]]]; done. }
    assert (ep_Scheme (if bool_decide (ep_Port e = "") then with_port e (Itoa port) else e) = ep_Scheme e) as Es by (by case_bool_decide).
    split; [split|]; [..|split; [|done]].
    - rewrite Es. rewrite !elem_of_cons, elem_of_nil in *. tauto.
    - done.
    - done.
    - apply (from_parse_same e); [done|by case_bool_decide..].
    - by rewrite Es. }
  case_bool_decide as E1; [intros [= <-]; apply Hall; [left|rewrite E1; left]|].
  case_bool_decide as E2; [intros [= <-]; apply Hall; [right; right; left|rewrite E2; right; left]|done].
Qed.

Lemma ParseAgentEndpoint_printable raw a : ParseAgentEndpoint raw = Ok a → ep_Scheme a = Grpc → IsLoopback a = false →
  printable a ∧ routable [Grpc] a.
Proof.
  unfold ParseAgentEndpoint. destruct (ParseEndpoint raw Grpc DefaultAgentPort) as [e|] eqn:Ee; [|done].
  apply ParseEndpoint_inv in Ee as (Hf & _ & Hport). intros Ha Hs Hl.
  assert (ep_Host a = ep_Host e ∧ ep_Path a = ep_Path e ∧ ep_Port a = ep_Port e ∧ ep_Scheme e ≠ Unix) as (Eh & Ep & Eq & Hu).
  { revert Ha. case_bool_decide as E1; [intros [= <-]; split_and!; [done..|]; by rewrite Hs|].
    case_bool_decide as E2; [|done]. intros [= <-]. split_and!; [done..|]. intros E. rewrite E in E1. apply E1. right. left. }
  assert (good_port (ep_Port a)) as Hg.
  { rewrite Eq. destruct (Hport Hu) as [?|[[_ ?]|[_ ->]]]; [done|done|]. apply default_good. right. left. }
  destruct (reachable_host _ Hl) as [_ Hh]. split; [split; [..|by apply (from_parse_same e)]|split; [|done]]; [|done|done|]; rewrite Hs.
  - right; right; left.
  - left.
Qed.

Lemma parseRoutable_print name schemes e : printable e → routable schemes e → parseRoutable name (Endpoint_String e) schemes = Ok e.
Proof.
  intros He (Hs & Hl & Hp & _). unfold parseRoutable. rewrite ParseEndpoint_print by done. rewrite bool_decide_true by done. cbn [negb].
  by rewrite Hl, bool_decide_false.
Qed.

Lemma agentDialTarget_print a : printable a → ep_Scheme a = Grpc → ep_Port a ≠ "0" →
  agentDialTarget (Endpoint_String a) = Ok (JoinHostPort (ep_Host a) (ep_Port a)).
Proof.
  intros Ha Hs Hp. unfold agentDialTarget, ParseAgentEndpoint. rewrite ParseEndpoint_print by done.
  rewrite bool_decide_true by (rewrite Hs; left). cbn [rbind]. pose proof (printed_host a Ha) as Hh. destruct Ha as [_ Hne _ _].
  rewrite (bool_decide_false (ep_Host a = "")), (bool_decide_false (ep_Port a = "0")), andb_false_r by done.
  unfold DialTarget. rewrite bool_decide_false by (by rewrite Hs). f_equal. rewrite <- Hh. simpl. by rewrite bool_decide_true by (by rewrite Hs).
Qed.

Context `{AgentLib}.

(** C20 What a server node learns about itself reaches the scheduler
    unchanged.  Unless its remote-agent reports an address on port 0, the
    endpoints obtained from the agent can be published, the annotation decodes
    to exactly what was published, both addresses can be dialled from other
    nodes (a remote host, an explicit non-zero port, the right scheme), and
    the agent's address dials to its host and port. *)
Theorem probed_server_published agentDial info :
  ProbeServer agentDial = Ok info → unmarshal_endpoints (marshal_endpoints info) = Ok info →
  no_zero_port (se_ServerEndpoint info) → no_zero_port (se_AgentEndpoint info) →
  (∃ value, Encode info = Ok value ∧ DecodeServerEndpointInfo value = Ok info) ∧
  ∃ server agent,
    se_ServerEndpoint info = Endpoint_String server ∧ dialable [Http; Https] server ∧
    se_AgentEndpoint info = Endpoint_String agent ∧ dialable [Grpc] agent ∧
    agentDialTarget (se_AgentEndpoint info) = Ok (JoinHostPort (ep_Host agent) (ep_Port agent)).
Proof.
  unfold ProbeServer. destruct (ServerInfo agentDial) as [answer|]; [|done]. cbn [rbind]. set (agent := if bool_decide _ then _ else _).
  unfold PublishableEndpoints. destruct (_ || _); [done|].
  destruct (ParseServerEndpoint (si_Endpoint answer)) as [s|] eqn:Es; [|done]. destruct (IsLoopback s) eqn:Hls; [done|].
  destruct (ParseAgentEndpoint agent) as [a|] eqn:Ea; [|done].
  destruct (bool_decide (ep_Scheme a ≠ Grpc) || IsLoopback a) eqn:Hla; [done|]. apply orb_false_iff in Hla as [Hsa%bool_decide_eq_false Hla].
  apply dec_stable in Hsa. intros [= <-] Hjson Hzs Hza. simpl in Hzs, Hza.
  destruct (ParseServerEndpoint_printable _ _ Es Hls) as [Ps Rs], (ParseAgentEndpoint_printable _ _ Ea Hsa Hla) as [Pa Ra].
  assert (∀ v b, normalize {| se_ServerEndpoint := Endpoint_String s; se_AgentEndpoint := Endpoint_String a; se_ServerCUDAVersion := v; se_BundleETag := b |}
    = Ok {| se_ServerEndpoint := Endpoint_String s; se_AgentEndpoint := Endpoint_String a; se_ServerCUDAVersion := v; se_BundleETag := b |}) as Hn.
  { intros v b. unfold normalize. simpl. rewrite !parseRoutable_print by done. done. }
  split.
  - unfold Encode. rewrite Hn. eexists. split; [done|]. unfold DecodeServerEndpointInfo. rewrite Hjson, Hn. simpl.
    assert (Endpoint_String s ≠ "") by (destruct (ul_text laws s Ps) as (rest & Et & _); unfold Endpoint_String; rewrite Et; by destruct (ep_Scheme s)).
    by rewrite bool_decide_false.
  - assert (¬ zero_port s) as Zs by (by apply Hzs, ParseEndpoint_print).
    assert (¬ zero_port a) as Za by (by apply Hza, ParseEndpoint_print). exists s, a.
    split_and!; [done|by split|done|by split|]. apply agentDialTarget_print; [done..|]. intros Ez. apply Za. unfold zero_port. by rewrite Ez.
Qed.
End spec.

(** ** A server node *)

Module EndpointDemo.
Definition host_char (c : ascii) : bool := is_digit c || (97 <=? N_of_ascii c)%N && (N_of_ascii c <=? 122)%N || char_eqb c "-" || char_eqb c ".".

(** URLs without a path, with a host name of the simplest form. *)
Definition parse_url (s : string) : result string URL :=
  let '(scheme, rest, _) := cut_char ":" s in
  let u := {| u_Scheme := scheme; u_Opaque := ""; u_User := false; u_Host := str_drop 2 rest; u_Path := ""; u_RawQuery := ""; u_Fragment := "" |} in
  if HasPrefix rest "//" && str_forall host_char (Hostname u) then Ok u else Fail "unsupported URL".

Definition print_info (e : ServerEndpointInfo) : string :=
  join_char "|" [se_ServerEndpoint e; se_AgentEndpoint e; se_ServerCUDAVersion e; se_BundleETag e].
Definition read_info (s : string) : result string ServerEndpointInfo :=
  match split_char "|" s with
  | [a; b; c; d] => Ok {| se_ServerEndpoint := a; se_AgentEndpoint := b; se_ServerCUDAVersion := c; se_BundleETag := d |}
  | _ => Fail "unexpected end of input"
  end.

#[local] Instance net : EndpointLib :=
  {| url_Parse := parse_url; url_String u := u_Scheme u +:+ "://" +:+ u_Host u +:+ u_Path u;
     ParseIP h := if bool_decide (h = "127.0.0.1") then Some {| ip_IsUnspecified := false; ip_IsLoopback := true |} else None;
     unmarshal_endpoints := read_info; marshal_endpoints := print_info |}.

Lemma host_char_free c s : host_char c = false → str_forall host_char s = true → free_of c s = true.
Proof.
  intros Hc. apply str_forall_impl. intros x Hx. unfold char_eqb. destruct (Ascii.eqb_spec x c) as [->|]; [congruence|done].
Qed.

Lemma parse_url_inv s u : parse_url s = Ok u → str_forall host_char (Hostname u) = true ∧ u_Path u = "".
Proof.
  unfold parse_url. destruct (cut_char ":" s) as [[scheme rest] found]. destruct (HasPrefix rest "//" && _) eqn:E; [|done].
  apply andb_true_iff in E as [_ E]. by intros [= <-].
Qed.

Lemma no_space c : host_char c || is_digit c = true → negb (is_space c) = true.
Proof. by destruct c as [[] [] [] [] [] [] [] []]. Qed.

Lemma cut_scheme a b : free_of ":" a = true → cut_char ":" (a +:+ String ":" b) = (a, b, true).
Proof.
  intros Ha. unfold cut_char. rewrite index_char_app by done. rewrite str_take_app. f_equal. f_equal.
  replace (a +:+ String ":" b) with ((a +:+ ":") +:+ b) by (by rewrite str_app_assoc).
  replace (S (String.length a)) with (String.length (a +:+ ":")) by (rewrite str_length_app; simpl; lia). apply str_drop_app.
Qed.

Lemma printed e : printable e → str_forall host_char (ep_Host e) = true ∧ ep_Path e = "" ∧
  u_Host (endpoint_url e) = ep_Host e +:+ ":" +:+ ep_Port e.
Proof.
  intros He. pose proof (printed_host e He) as Hh. destruct He as [_ _ _ (s & u & Hu & Eh & Ep)].
  apply parse_url_inv in Hu as [Hc Hp]. rewrite Eh in Hc. split; [done|]. split; [congruence|]. rewrite Hh. unfold JoinHostPort.
  by rewrite (host_char_free ":" (ep_Host e)).
Qed.

Lemma printed_text e : printable e →
  url_String (endpoint_url e) = ep_Scheme e +:+ String ":" ("//" +:+ ep_Host e +:+ ":" +:+ ep_Port e).
Proof.
  intros (_ & Ep & Eh)%printed.
  change (url_String (endpoint_url e)) with (ep_Scheme e +:+ "://" +:+ u_Host (endpoint_url e) +:+ ep_Path e).
  by rewrite Eh, Ep, str_app_nil.
Qed.

Lemma net_laws : UrlLaws.
Proof.
  split.
  - intros s u [Hu _]%parse_url_inv. by apply host_char_free.
  - intros e He. exists (ep_Host e +:+ ":" +:+ ep_Port e). split; [by apply printed_text|].
    destruct (printed e He) as (Hc & _). destruct He as [_ _ (_ & Hd & _) _].
    unfold spaceless. rewrite !str_forall_app, (str_forall_impl host_char), (str_forall_impl is_digit _ (ep_Port e)); [done|..|done| |done];
      intros c Hc'; apply no_space; rewrite Hc'; [apply orb_true_r|done].
  - intros e He. rewrite printed_text by done. destruct (printed e He) as (Hc & Ep & Eh). destruct He as [Hs _ (_ & Hd & _) _].
    change (parse_url (ep_Scheme e +:+ String ":" ("//" +:+ ep_Host e +:+ ":" +:+ ep_Port e)) = Ok (endpoint_url e)).
    unfold parse_url. rewrite cut_scheme.
    2:{ rewrite !elem_of_cons, elem_of_nil in Hs. by destruct Hs as [->|[->|[->|[]]]]. }
    rewrite HasPrefix_app. change (str_drop 2 ("//" +:+ ep_Host e +:+ ":" +:+ ep_Port e)) with (ep_Host e +:+ ":" +:+ ep_Port e).
    unfold Hostname. cbn [u_Host]. pose proof (host_char_free "[" _ eq_refl Hc) as Hb. pose proof (split_host_port _ _ Hb Hd) as Hj.
    unfold JoinHostPort in Hj. rewrite (host_char_free ":" _ eq_refl Hc) in Hj. rewrite Hj. cbn [fst andb]. rewrite Hc, <- Eh.
    unfold endpoint_url at 2. by rewrite Ep.
Qed.

#[local] Instance agents : AgentLib :=
  {| NewClient _ := None; node_addresses _ := Ok [];
     rpc_ServerInfo _ := Ok {| si_Listening := true; si_Endpoint := "https://gpu-1.lab"; si_CudaDriverVersion := "12.4"; si_NodeName := "gpu-1";
                               si_AgentEndpoint := ""; si_ClientBundleEtag := "e1" |} |}.

Definition learned : ServerEndpointInfo :=
  {| se_ServerEndpoint := "https://gpu-1.lab:443"; se_AgentEndpoint := "grpc://gpu-1.lab:14834"; se_ServerCUDAVersion := "12.4"; se_BundleETag := "e1" |}.

Lemma probed_server_published_witness :
  ProbeServer "gpu-1.lab" = Ok learned ∧ ∃ value, Encode learned = Ok value ∧ DecodeServerEndpointInfo value = Ok learned.
Proof.
  split; [vm_compute; reflexivity|].
  refine (proj1 (probed_server_published net_laws "gpu-1.lab" learned _ _ _ _)); [vm_compute; reflexivity..| |];
    intros e He; vm_compute in He; injection He as <-; vm_compute; discriminate.
Defined.

(** Port 0 passes for publication, but nobody dials it. *)
Example port_zero : PublishableEndpoints "http://gpu-1:0" "grpc://gpu-1:0" = Ok ("http://gpu-1:0", "grpc://gpu-1:0") ∧
  ∃ err, agentDialTarget "grpc://gpu-1:0" = Fail err.
Proof. split; [vm_compute; reflexivity|]. eexists. vm_compute. reflexivity. Qed.
End EndpointDemo.
