(* ===== verification/NodeCheck.v ===== *)
(** * Node prerequisites and remote GPU servers
    ([pkg/scheduler/filter/filter_predicate.go], [pkg/device/remotegpu/endpoints.go])

    The node-level gates of the filter ([CheckNode], [GetMemoryPolicyFunc],
    [nodeFilter]) and the choice of consumers and servers for a pod whose GPUs
    are remote.  [KubeLib] are the library functions they call: label
    selectors, taint matching and the text of a lister's error. *)

From stdpp Require Import base list gmap strings.
From Stdlib Require Import ZArith Ascii.
From S2P Require Import Prelude GoMap GoSort GoStrings Float64 GoFmt GoTime Kube Claims Reason Device NodeInfo Request.
From S2P Require Import Endpoint RemoteGpu.

Open Scope Z_scope.

Class KubeLib : Type := {
  not_found_text : string → string;
  ParseToRequirements : string → result string (gmap string string → bool);
  FindMatchingUntoleratedTaint : list Taint → list Toleration → (Taint → bool) → bool
}.

Section checks.
Context `{Env} `{MapOrder} `{NodeDecoders} `{KubeLib} `{EndpointLib}.

Definition GetServerEndpointInfo (node : Node) : result endpoint_error ServerEndpointInfo :=
  let value := node_annotation node NodeRemoteEndpointsAnnotation in
  if bool_decide (value = "")
  then Fail (ErrEndpoint ("node " +:+ n_Name node +:+ " has no " +:+ NodeRemoteEndpointsAnnotation +:+ " annotation"))
  else DecodeServerEndpointInfo value.

Definition CheckNodeFunc : Type :=
  Node → NodeDeviceInfo → NodeConfigInfo → option ServerEndpointInfo → option FilterReason.

Definition VirtualMemoryPolicy : string := "virtual".
Definition PhysicalMemoryPolicy : string := "physical".

Definition GetMemoryPolicyFunc (pod : Pod) : CheckNodeFunc :=
  let policy := ToLower (TrimSpace (annotation pod MemorySchedulerPolicyAnnotation)) in
  if bool_decide (policy = VirtualMemoryPolicy) || HasPrefix policy "virt" then
    λ _ _ config _,
      if f64_le (nc_MemoryScaling config) f64_1
      then Some (WithDetail (New NodeMemoryTypeMismatch)
                  ("requires virtual memory but node memoryScaling=" +:+ format_v (nc_MemoryScaling config)))
      else None
  else if bool_decide (policy = PhysicalMemoryPolicy) || HasPrefix policy "phy" then
    λ _ _ config _,
      if f64_lt f64_1 (nc_MemoryScaling config)
      then Some (WithDetail (New NodeMemoryTypeMismatch)
                  ("requires physical memory but node memoryScaling=" +:+ format_v (nc_MemoryScaling config)))
      else None
  else λ _ _ _ _, None.

(** The first reason the functions give. *)
Fixpoint first_reason (fs : list CheckNodeFunc) node dev config endpoint : option FilterReason :=
  match fs with
  | [] => None
  | fn :: fs' =>
      match fn node dev config endpoint with
      | Some r => Some r
      | None => first_reason fs' node dev config endpoint
      end
  end.

(** [CheckNode] with what it decoded on success, which [nodeFilter] captures
    in its last check function. *)
Definition check_node (node : Node) (checkNodeFuncs : list CheckNodeFunc)
  : result FilterReason (NodeDeviceInfo * NodeConfigInfo * option ServerEndpointInfo) :=
  if negb (IsVGPUEnabledNode node) then Fail (New NodeNotVGPUEnabled)
  else
    let devRegister := node_annotation node NodeDeviceRegisterAnnotation in
    if bool_decide (devRegister = "") then Fail (New NodeNoVGPURegister)
    else
      match decode_NodeDeviceInfo devRegister with
      | None => Fail (WithDetail (New NodeBadVGPURegister) (device_error_text devRegister))
      | Some nodeDeviceInfo =>
          let devConfigInfo := node_annotation node NodeConfigInfoAnnotation in
          if bool_decide (devConfigInfo = "") then Fail (New NodeNoVGPUConfig)
          else
            match decode_NodeConfigInfo devConfigInfo with
            | None => Fail (WithDetail (New NodeBadVGPUConfig) (config_error_text devConfigInfo))
            | Some nodeConfigInfo =>
                if bool_decide (nc_DeviceSplit nodeConfigInfo ≤ 0)
                then Fail (WithDetail (New NodeNotVGPUEnabled) ("deviceSplit=" +:+ Itoa (nc_DeviceSplit nodeConfigInfo)))
                else if bool_decide (nc_MemoryFactor nodeConfigInfo ≤ 0)
                then Fail (WithDetail (New NodeBadMemoryFactor) ("memoryFactor=" +:+ Itoa (nc_MemoryFactor nodeConfigInfo)))
                else
                  let* endpointInfo :=
                    if IsRemoteServerNode node then
                      match GetServerEndpointInfo node with
                      | Ok e => Ok (Some e)
                      | Fail err =>
                          let code := match err with
                                      | ErrServerUnreachable => NodeRemoteServerUnreachable
                                      | ErrEndpoint _ => NodeBadRemoteEndpoint
                                      end in
                          Fail (WithDetail (New code) (endpoint_error_text err))
                      end
                    else Ok None in
                  match first_reason checkNodeFuncs node nodeDeviceInfo nodeConfigInfo endpointInfo with
                  | Some r => Fail r
                  | None => Ok (nodeDeviceInfo, nodeConfigInfo, endpointInfo)
                  end
            end
      end.

Definition CheckNode (node : Node) (checkNodeFuncs : list CheckNodeFunc) : option FilterReason :=
  match check_node node checkNodeFuncs with Ok _ => None | Fail r => Some r end.

(** ** The cycle state *)

Inductive StateData :=
| DeviceData (d : NodeDeviceInfo) | ConfigData (c : NodeConfigInfo) | EndpointData (e : option ServerEndpointInfo).

Definition CycleState : Type := gmap string StateData.

Definition nodeDeviceKey (nodeName : string) : string := nodeName +:+ "-device".
Definition nodeConfigKey (nodeName : string) : string := nodeName +:+ "-config".
Definition nodeEndpointKey (nodeName : string) : string := nodeName +:+ "-endpoint".

(** The loop state of [nodeFilter]. *)
Record node_filter_state := {
  nf_filteredNodes : list Node;
  nf_failed : gmap string FilterReason;
  nf_state : CycleState
}.

Definition nodeFilter_step (req : AllocationRequest) (s : node_filter_state) (node : Node) : node_filter_state :=
  let fail r := {| nf_filteredNodes := nf_filteredNodes s; nf_failed := <[n_Name node := r]> (nf_failed s);
                   nf_state := nf_state s |} in
  if bool_decide (is_Some (n_DeletionTimestamp node)) then fail (New NodeDeleting)
  else if bool_decide (rq_AccessMode req = AccessModeLocal) && IsRemoteServerNode node then fail (New NodeIsRemoteServer)
  else
    match check_node node [GetMemoryPolicyFunc (rq_Pod req)] with
    | Fail r => fail r
    | Ok (nodeDevice, nodeConfig, endpoints) =>
        {| nf_filteredNodes := nf_filteredNodes s ++ [node]; nf_failed := nf_failed s;
           nf_state := <[nodeEndpointKey (n_Name node) := EndpointData endpoints]>
                         (<[nodeConfigKey (n_Name node) := ConfigData nodeConfig]>
                            (<[nodeDeviceKey (n_Name node) := DeviceData nodeDevice]> (nf_state s))) |}
    end.

Definition nodeFilter (req : AllocationRequest) (nodes : list Node) (state : CycleState) : node_filter_state :=
  fold_left (nodeFilter_step req) nodes {| nf_filteredNodes := []; nf_failed := ∅; nf_state := state |}.

(** ** Remote pods *)

Definition remoteConsumerNodes (nodes : list Node) (failed : gmap string FilterReason)
  : list Node * gmap string FilterReason :=
  fold_left (λ '(consumers, failed) node,
      if bool_decide (is_Some (n_DeletionTimestamp node)) then (consumers, <[n_Name node := New NodeDeleting]> failed)
      else if negb (IsRemoteConsumerNode node) then (consumers, <[n_Name node := New NodeNotRemoteConsumer]> failed)
      else (consumers ++ [node], failed)) nodes ([], failed).

Definition clusterTaintDomain : string := "node.kubernetes.io".
Definition cloudProviderTaintDomain : string := "node.cloudprovider.kubernetes.io".

Definition clusterHardTaint (taint : Taint) : bool :=
  if bool_decide (tt_Effect taint ≠ "NoSchedule") && bool_decide (tt_Effect taint ≠ "NoExecute") then false
  else
    let '(key, _, _) := cut_char "/"%char (tt_Key taint) in
    bool_decide (key = clusterTaintDomain) || bool_decide (key = cloudProviderTaintDomain).

Definition serverInService (pod : Pod) (node : Node) : bool :=
  negb (FindMatchingUntoleratedTaint (n_Taints node) (p_Tolerations pod) clusterHardTaint).

(** [labels.SelectorFromSet] of the server label, with the pod's own requirements added. *)
Definition remoteSelector (pod : Pod) : result string (gmap string string → bool) :=
  let base labels := bool_decide (labels !! NodeRemoteServerLabel = Some "true") in
  let selVal := annotation pod NodeRemoteSelectorsAnnotation in
  if bool_decide (selVal ≠ "") then
    let* requirements := ParseToRequirements selVal in
    Ok (λ labels, base labels && requirements labels)
  else Ok base.

(** [cache] is the node cache of the lister, by name. *)
Definition remoteServerNodes (cache : gmap string Node) (req : AllocationRequest) (nodes : list Node)
  : result string (list Node) :=
  let* selector := remoteSelector (rq_Pod req) in
  let serves node := IsRemoteServerNode node && serverInService (rq_Pod req) node in
  let cached := filter (λ node, selector (n_Labels node) && serves node) (range_str cache).*2 in
  let nodeKeys : gset string := list_to_set (n_Name <$> cached) in
  let others := filter (λ node, negb (bool_decide (n_Name node ∈ nodeKeys)) && selector (n_Labels node) && serves node) nodes in
  Ok (sort_slice (by_str n_Name) (cached ++ others)).

Definition aggregateBucketNodeLimit : Z := 5.

(** The consumers the pod fits on, and the reasons of those it does not. *)
Definition remoteFilterResult (consumers servers : list Node) (totalServers : Z)
    (serverReasons nodeReasons : gmap string FilterReason) : list Node * gmap string FilterReason :=
  if bool_decide (consumers = []) || bool_decide (servers ≠ []) then (consumers, nodeReasons)
  else
    let unfit :=
      if bool_decide (0 < totalServers)
      then WithDetail (New RemoteServerUnfit) (FormatAggregate totalServers (Some <$> serverReasons) aggregateBucketNodeLimit)
      else WithDetail (New NoRemoteServer)
             ("no node is labeled " +:+ NodeRemoteServerLabel +:+ "=true and has the " +:+ NodeRemoteEndpointsAnnotation +:+
              " annotation") in
    ([], fold_left (λ reasons node, <[n_Name node := unfit]> reasons) consumers nodeReasons).
End checks.
