(* ===== verification/Dra.v ===== *)
(** * Claims built for vGPU requests ([pkg/webhook/common/util.go])

    Recognising vGPU requests in a claim, and building the device requests and
    the claim that stand for a container's extended resources.  [ResourceApi]
    reads objects of the API server; the two constants of [DraLib] are the
    Kubernetes libraries'. *)

From stdpp Require Import base list gmap strings.
From Stdlib Require Import ZArith Lia Ascii.
From S2P Require Import Prelude GoMap GoSort GoStrings GoFmt GoTime Kube Claims DnsName Footprint Device NodeInfo Request.
From S2P Require Import Links Topology Reason NodeCheck Admission.

Open Scope Z_scope.

(** A selector's CEL expression, when it has one. *)
Definition DeviceSelector : Type := option string.

Record DeviceSubRequest := {
  sr_Name : string;
  sr_DeviceClassName : string;
  sr_Selectors : list DeviceSelector;
  sr_AllocationMode : string;
  sr_Count : Z;
  sr_Capacity : gmap string Z
}.

Record ExactDeviceRequest := {
  er_DeviceClassName : string;
  er_Selectors : list DeviceSelector;
  er_AllocationMode : string;
  er_Count : Z;
  er_Capacity : gmap string Z;
  er_AdminAccess : option bool
}.

Record DeviceRequest := {
  dr_Name : string;
  dr_Exactly : option ExactDeviceRequest;
  dr_FirstAvailable : list DeviceSubRequest
}.

Record DeviceConstraint := {
  dc_Requests : list string;
  dc_MatchAttribute : option string;
  dc_DistinctAttribute : option string
}.

Record ConsumerReference := { cf_APIGroup : string; cf_Resource : string; cf_Name : string; cf_UID : string }.

(** One device of an allocation: the request (or subrequest) it is for and its driver. *)
Record AllocationResult := { ar_Request : string; ar_Driver : string }.

Record OpaqueConfig := { oc_Driver : string; oc_Parameters : string }.

Record ResourceClaim := {
  rc_Name : string;
  rc_Namespace : string;
  rc_Labels : gmap string string;
  rc_Annotations : gmap string string;
  rc_Constraints : list DeviceConstraint;
  rc_DeviceRequests : list DeviceRequest;
  rc_ReservedFor : list ConsumerReference;
  rc_UID : string;
  rc_Allocation : option (list AllocationResult);
  rc_Config : list (option OpaqueConfig)
}.

(** What is read of the API server; a device class is its selectors. *)
Class ResourceApi : Type := {
  get_resource_claim : string → string → result claim_error ResourceClaim;
  get_claim_template : string → string → result claim_error (list DeviceRequest);
  get_device_class : string → option (list DeviceSelector);
  get_reserved_pod : string → string → result claim_error Pod
}.

Class DraLib : Type := { StandardDeviceAttributeNUMANode : string; DeviceConstraintsMaxSize : Z }.

Definition DeviceAllocationModeExactCount : string := "ExactCount".
Definition DeviceAllocationModeAll : string := "All".
Definition CoresResourceName : string := "cores".
Definition MemoryResourceName : string := "memory".
Definition AccessModeAttribute : string := "accessMode".
Definition NVLinkDomainDeviceAttribute : string := "nvlinkDomain".
Definition PCIeDomainDeviceAttribute : string := "pcieDomain".
Definition AttrNodeName : string := "nodeName".
Definition AttrMemoryRatio : string := "memoryRatio".
Definition MiB : Z := 1048576.
Definition DRAOwnerKeyLabel : string := "vgpu-manager.io/owner-key".
Definition DRACreateTimeLabel : string := "vgpu-manager.io/create-timestamp".
Definition anyTierSubRequest : string := "any".

(** ** Is it a vGPU request? *)

(** The loop over the selectors, with its two flags; [true] is the early return. *)
Fixpoint match_selectors (matchDriver matchDevice : bool) (selectors : list DeviceSelector) : bool * bool * bool :=
  match selectors with
  | [] => (false, matchDriver, matchDevice)
  | None :: rest => match_selectors matchDriver matchDevice rest
  | Some expr :: rest =>
      let matchDriver := matchDriver || Contains expr DRADriverName in
      let matchDevice := matchDevice || Contains expr VGpuDeviceType in
      if matchDriver && matchDevice then (true, matchDriver, matchDevice) else match_selectors matchDriver matchDevice rest
  end.

Section dra.
Context `{Env} `{ResourceApi} `{DraLib}.

(** The body [SubRequestLooksLikeVGPU] and [ExactLooksLikeVGPU] share. *)
Definition looks_like_vgpu (matchedDriver : bool) (vgpuClassName className : string) (selectors : list DeviceSelector) : bool :=
  if bool_decide (className = vgpuClassName) then true
  else
    let '(found, matchDriver, matchDevice) := match_selectors matchedDriver false (default [] (get_device_class className)) in
    if found then true
    else let '(found, matchDriver, matchDevice) := match_selectors matchDriver matchDevice selectors in
         found || (matchDriver && matchDevice).

Definition SubRequestLooksLikeVGPU (req : DeviceSubRequest) (matchedDriver : bool) (vgpuClassName : string) : bool :=
  looks_like_vgpu matchedDriver vgpuClassName (sr_DeviceClassName req) (sr_Selectors req).
Definition ExactLooksLikeVGPU (req : option ExactDeviceRequest) (matchedDriver : bool) (vgpuClassName : string) : bool :=
  match req with
  | None => false
  | Some req => looks_like_vgpu matchedDriver vgpuClassName (er_DeviceClassName req) (er_Selectors req)
  end.
Definition DeviceRequestLooksLikeVGPU (req : DeviceRequest) (matchedDriver : bool) (vgpuClassName : string) : bool :=
  match dr_Exactly req with
  | Some _ => ExactLooksLikeVGPU (dr_Exactly req) matchedDriver vgpuClassName
  | None => existsb (λ sub, SubRequestLooksLikeVGPU sub matchedDriver vgpuClassName) (dr_FirstAvailable req)
  end.

(** ** Building requests *)

Definition upperASCII (s : string) : string := str_map upper_char s.

Definition driver_attributes : string := "device.attributes[" +:+ Quote DRADriverName +:+ "]".

Definition attributeSubstringSelector (attribute value : string) (exclude : bool) : option DeviceSelector :=
  let entries := (λ e, Quote (upperASCII e)) <$> filter (λ e, e ≠ "") (TrimSpace <$> split_char "," value) in
  if bool_decide (entries = []) then None
  else
    let named := "(" +:+ Quote attribute +:+ " in " +:+ driver_attributes +:+ " && [" +:+ join_char "," entries +:+ "].exists(e, " +:+
                 driver_attributes +:+ "." +:+ attribute +:+ ".upperAscii().contains(e)))" in
    Some (Some (if exclude then "!" +:+ named else named)).

Definition vgpuAccessModeExpression (accessMode : string) : string :=
  let isVGPU := Quote "type" +:+ " in " +:+ driver_attributes +:+ " && " +:+ driver_attributes +:+ ".type == " +:+ Quote VGpuDeviceType in
  let hasMode := Quote AccessModeAttribute +:+ " in " +:+ driver_attributes in
  let modeIs mode := driver_attributes +:+ "." +:+ AccessModeAttribute +:+ " == " +:+ Quote mode in
  if bool_decide (accessMode = AccessModeRemote) then isVGPU +:+ " && " +:+ hasMode +:+ " && " +:+ modeIs AccessModeRemote
  else isVGPU +:+ " && (!(" +:+ hasMode +:+ ") || " +:+ modeIs AccessModeLocal +:+ ")".

Definition memory_ratio : string := driver_attributes +:+ "." +:+ AttrMemoryRatio.
Definition has_memory_ratio : string := Quote AttrMemoryRatio +:+ " in " +:+ driver_attributes.

Definition memory_policy_selector (policy : string) : list DeviceSelector :=
  let policy := ToLower (TrimSpace policy) in
  if bool_decide (policy = VirtualMemoryPolicy) || HasPrefix policy "virt" then
    [Some (has_memory_ratio +:+ " && " +:+ memory_ratio +:+ " > 100")]
  else if bool_decide (policy = PhysicalMemoryPolicy) || HasPrefix policy "phy" then
    [Some ("!(" +:+ has_memory_ratio +:+ ") || " +:+ memory_ratio +:+ " <= 100")]
  else [].

(** A capacity that is present and positive, scaled. *)
Definition capacity_of (name : string) (scale : Z) (quantity : option Z) : list (string * Z) :=
  match quantity with
  | Some q => if bool_decide (0 < q) then [(name, q *w scale)] else []
  | None => []
  end.

Definition BuildDeviceRequest (pod : Pod) (deviceClassName : string) (info : ResourceInfo) : DeviceRequest :=
  let resources := ri_Resources info in
  let filters := [(PodIncludeGPUUUIDAnnotation, "uuid", false); (PodExcludeGPUUUIDAnnotation, "uuid", true);
                  (PodIncludeGpuTypeAnnotation, "productName", false); (PodExcludeGpuTypeAnnotation, "productName", true)] in
  {| dr_Name := ri_RequestName info;
     dr_Exactly := Some
       {| er_DeviceClassName := deviceClassName; er_AllocationMode := DeviceAllocationModeExactCount;
          er_Count := default 0 (resources !! VGPUNumberResourceName);
          er_Capacity := list_to_map (capacity_of CoresResourceName 1 (resources !! VGPUCoreResourceName) ++
                                      capacity_of MemoryResourceName MiB (resources !! VGPUMemoryResourceName));
          er_Selectors := [Some (vgpuAccessModeExpression (PodVGPUAccessMode pod).1)] ++
            omap (λ '(key, attribute, exclude), attributeSubstringSelector attribute (annotation pod key) exclude) filters ++
            memory_policy_selector (annotation pod MemorySchedulerPolicyAnnotation);
          er_AdminAccess := None |};
     dr_FirstAvailable := [] |}.

(** ** Topology tiers *)

Record topologyTier := { tt_subRequest : string; tt_attribute : string }.

Definition topologyTiers (mode : TopologyMode) : list topologyTier :=
  let nvlink := {| tt_subRequest := "nvlink"; tt_attribute := DRADriverName +:+ "/" +:+ NVLinkDomainDeviceAttribute |} in
  let pcie := {| tt_subRequest := "pcie"; tt_attribute := DRADriverName +:+ "/" +:+ PCIeDomainDeviceAttribute |} in
  let numa := {| tt_subRequest := "numa"; tt_attribute := StandardDeviceAttributeNUMANode |} in
  if bool_decide (mode = LinkTopology) then [nvlink; pcie; numa]
  else if bool_decide (mode = PCIeTopology) then [pcie; numa]
  else if bool_decide (mode = NUMATopology) then [numa]
  else [].

Definition requestConvertSubRequest (request : ExactDeviceRequest) (subName : string) : DeviceSubRequest :=
  {| sr_Name := subName; sr_DeviceClassName := er_DeviceClassName request; sr_Selectors := er_Selectors request;
     sr_AllocationMode := er_AllocationMode request; sr_Count := er_Count request; sr_Capacity := er_Capacity request |}.

Definition match_constraint (request attribute : string) : DeviceConstraint :=
  {| dc_Requests := [request]; dc_MatchAttribute := Some attribute; dc_DistinctAttribute := None |}.
Definition distinct_constraint (request attribute : string) : DeviceConstraint :=
  {| dc_Requests := [request]; dc_MatchAttribute := None; dc_DistinctAttribute := Some attribute |}.

(** The request with its exact form [exact] reshaped, and the constraints; [tiers] is not empty. *)
Definition applyTopologyTiers (request : DeviceRequest) (exact : ExactDeviceRequest) (tiers : list topologyTier) (strict : bool)
  : DeviceRequest * list DeviceConstraint :=
  if strict then (request, (match_constraint (dr_Name request) ∘ tt_attribute) <$> take 1 tiers)
  else
    ({| dr_Name := dr_Name request; dr_Exactly := None;
        dr_FirstAvailable := (requestConvertSubRequest exact ∘ tt_subRequest <$> tiers) ++ [requestConvertSubRequest exact anyTierSubRequest] |},
     (λ tier, match_constraint (dr_Name request +:+ "/" +:+ tt_subRequest tier) (tt_attribute tier)) <$> tiers).

Definition isMultiDeviceRequest (exact : ExactDeviceRequest) : bool :=
  if bool_decide (er_AllocationMode exact = "") || bool_decide (er_AllocationMode exact = DeviceAllocationModeExactCount)
  then bool_decide (1 < er_Count exact)
  else bool_decide (er_AllocationMode exact = DeviceAllocationModeAll).

(** ** The claim *)

(** One turn of the loop over the requests. *)
Definition shape_request (mode : TopologyMode) (strict : bool) (accessMode : string) (request : DeviceRequest)
  : DeviceRequest * list DeviceConstraint :=
  match dr_Exactly request with
  | None => (request, [])
  | Some exact =>
      let tiers := if default false (er_AdminAccess exact) then [] else topologyTiers (BaseTopology mode) in
      if negb (isMultiDeviceRequest exact) then
        (request, if strict then (match_constraint (dr_Name request) ∘ tt_attribute) <$> take 1 tiers else [])
      else
        let distinct := distinct_constraint (dr_Name request) (DRADriverName +:+ "/uuid") in
        if bool_decide (length tiers = 0%nat) then (request, [distinct])
        else
          let node := if bool_decide (accessMode = AccessModeRemote)
                      then [match_constraint (dr_Name request) (DRADriverName +:+ "/" +:+ AttrNodeName)] else [] in
          let '(request, constraints) := applyTopologyTiers request exact tiers strict in
          (request, distinct :: node ++ constraints)
  end.

Definition VGPUComputePolicyAnnotation : string := globalDomainName +:+ "/vgpu-compute-policy".

Definition BuildResourceClaim (pod : Pod) (requests : list DeviceRequest) (resourceClaimName ownerKey timestamp : string) : ResourceClaim :=
  let '(mode, strict) := ParsePodTopologyMode pod in
  let shaped := shape_request mode strict (PodVGPUAccessMode pod).1 <$> requests in
  {| rc_Name := resourceClaimName; rc_Namespace := p_Namespace pod;
     rc_Labels := <[DRAOwnerKeyLabel := ownerKey]> {[ DRACreateTimeLabel := timestamp ]};
     rc_Annotations := match HasAnnotation pod VGPUComputePolicyAnnotation with
                       | Some val => {[ VGPUComputePolicyAnnotation := val ]}
                       | None => ∅
                       end;
     rc_Constraints := mjoin shaped.*2; rc_DeviceRequests := shaped.*1; rc_ReservedFor := [];
     rc_UID := ""; rc_Allocation := None; rc_Config := [] |}.

Definition CheckDeviceConstraintLimit (claim : ResourceClaim) : bool :=
  bool_decide (Z.of_nat (length (rc_Constraints claim)) ≤ DeviceConstraintsMaxSize).

(** ** Checking what was recorded *)

Inductive info_error := ErrTooManyCores (path : string) | ErrTooManyDevices (path : string) | ErrContainerNotFound (name : string).

Definition validateContainerResources (info : ResourceInfo) (path : string) : list info_error :=
  (if bool_decide (HundredCore < default 0 (ri_Resources info !! VGPUCoreResourceName)) then [ErrTooManyCores path] else []) ++
  (if bool_decide (MaxDeviceCount < default 0 (ri_Resources info !! VGPUNumberResourceName)) then [ErrTooManyDevices path] else []).

(** The first init container of that name, or else the first container. *)
Definition CheckResourceInfo (pod : Pod) (info : ResourceInfo) : result (list info_error) Container :=
  let named := λ c, bool_decide (c_Name c = ri_Name info) in
  let check path c := match validateContainerResources info path with [] => Ok c | errs => Fail errs end in
  match List.find named (p_InitContainers pod) with
  | Some c => check "initContainers" c
  | None => match List.find named (p_Containers pod) with
            | Some c => check "containers" c
            | None => Fail [ErrContainerNotFound (ri_Name info)]
            end
  end.
End dra.
