(* ===== verification/ClaimShare.v ===== *)
(** * Sharing vGPU requests between containers ([pkg/webhook/pod/validate])

    The validating webhook decides, before a pod exists, whether two of its
    containers could hold the same vGPU request at the same time.  Reads of
    the API server go through [ResourceApi]; the webhook caches what it reads
    of each claim for the length of a call, so a claim reads the same
    throughout. *)

From stdpp Require Import base list gmap strings.
From Stdlib Require Import ZArith Lia.
From S2P Require Import Prelude GoMap GoSort GoStrings GoFmt GoTime Kube Claims DnsName Footprint Device NodeInfo Request.
From S2P Require Import Admission Dra.

Inductive MainRequestClass := MainRequestNonVGPU | MainRequestDefVGPU | MainRequestMixedMaybe.
#[export] Instance MainRequestClass_eq : EqDecision MainRequestClass.
Proof. solve_decision. Defined.

(** A container as [util.GetAllPodContainers] lists it. *)
Record ContainerRef := { cr_Name : string; cr_Claims : list ContainerClaim; cr_Kind : ContainerKind; cr_Restartable : bool }.

Record requestUsage := {
  ru_InitContainers : gset string;
  ru_AppContainers : gset string;
  ru_Sidecars : gset string
}.
Definition no_usage : requestUsage := {| ru_InitContainers := ∅; ru_AppContainers := ∅; ru_Sidecars := ∅ |}.

Inductive share_error :=
| ErrClaimValidation (container claim text : string)
| ErrManyClaims (container : string) (claims : list string)
| ErrManyApps (key : string) (apps : list string)
| ErrManySidecars (key : string) (sidecars : list string)
| ErrSidecarShared (key : string) (sidecars : list string)
| ErrInitOverlap (init : string) (apps : list string)
| ErrCrossPod (other : string) (requests : list string) (claim : string)
| ErrRead (text : string).

(** The elements in increasing order ([sets.List]). *)
Definition set_list (s : gset string) : list string := sort_strings (elements s).

Lemma sort_strings_elem l x : x ∈ sort_strings l ↔ x ∈ l.
Proof. unfold sort_strings. by rewrite sort_slice_perm. Qed.

Lemma set_list_elem s x : x ∈ set_list s ↔ x ∈ s.
Proof. unfold set_list. rewrite sort_strings_elem. apply elem_of_elements. Qed.

Lemma set_list_nodup s : NoDup (set_list s).
Proof. unfold set_list, sort_strings. rewrite sort_slice_perm. apply NoDup_elements. Qed.

Section share.
Context `{Env} `{MapOrder} `{ResourceApi} `{ResourceInfosCodec} (o : Options).

Definition GetAllPodContainers (pod : Pod) : list ContainerRef :=
  ((λ c, {| cr_Name := c_Name c; cr_Claims := c_Claims c; cr_Kind := ContainerKindInit;
            cr_Restartable := IsRestartableInitContainer c |}) <$> p_InitContainers pod) ++
  ((λ c, {| cr_Name := c_Name c; cr_Claims := c_Claims c; cr_Kind := ContainerKindApp; cr_Restartable := false |}) <$> p_Containers pod).

(** ** Which requests of a claim are vGPUs *)

Definition class_of (req : DeviceRequest) : option MainRequestClass :=
  match dr_Exactly req with
  | Some _ => Some (if DeviceRequestLooksLikeVGPU req false (op_VGPUDeviceClassName o) then MainRequestDefVGPU else MainRequestNonVGPU)
  | None =>
      let subs := dr_FirstAvailable req in
      let vgpuCount := length (filter (λ sub, SubRequestLooksLikeVGPU sub false (op_VGPUDeviceClassName o) = true) subs) in
      if bool_decide (subs = []) then None
      else Some (if bool_decide (vgpuCount = length subs) then MainRequestDefVGPU
                 else if bool_decide (0 < vgpuCount)%nat then MainRequestMixedMaybe else MainRequestNonVGPU)
  end.

Definition buildPodRequestIndex (requests : list DeviceRequest) : gmap string MainRequestClass :=
  fold_left (λ index req, match class_of req with Some class => <[dr_Name req := class]> index | None => index end) requests ∅.

(** The names of the definite vGPU requests, in increasing order. *)
Definition definite (index : gmap string MainRequestClass) : list string :=
  set_list (dom (filter (λ '(_, class), class = MainRequestDefVGPU) index)).

Definition buildVGPURequestKey (podClaimName mainRequest : string) : string := podClaimName +:+ "/" +:+ mainRequest.

(** ** Claims converted by the mutating webhook *)

Definition resourceInfoMap : Type := gmap string (gmap string (gset string)).

Definition GetReqSet (m : resourceInfoMap) (contName claimName : string) : option (gset string) :=
  m !! contName ≫= λ claims, claims !! claimName.

Definition resourceInfo_Insert (m : resourceInfoMap) (contName claimName request : string) : resourceInfoMap :=
  let claims := default ∅ (m !! contName) in
  <[contName := <[claimName := {[ request ]} ∪ default ∅ (claims !! claimName)]> claims]> m.

Definition getConvertedContainerClaimsMap (pod : Pod) : resourceInfoMap :=
  let val := annotation pod DRAOriResAnnotation in
  if bool_decide (val = "") then ∅
  else
    match ResourceInfos_Decode val with
    | Fail _ => ∅
    | Ok infos => fold_left (λ m info, resourceInfo_Insert m (ri_Name info) (ri_ClaimName info) (ri_RequestName info)) infos ∅
    end.

(** ** Resolving a container's reference *)

Definition FindPodResourceClaim (pod : Pod) (name : string) : option PodResourceClaim :=
  List.find (λ c, bool_decide (prc_Name c = name)) (ps_ResourceClaims (p_Rest pod)).

Definition getDeviceRequestsForPodClaim (namespace : string) (claim : PodResourceClaim) : result claim_error (list DeviceRequest) :=
  if bool_decide (default "" (prc_ResourceClaimName claim) ≠ "") then
    match get_resource_claim namespace (default "" (prc_ResourceClaimName claim)) with
    | Ok rc => Ok (rc_DeviceRequests rc)
    | Fail e => Fail e
    end
  else if bool_decide (default "" (prc_ResourceClaimTemplateName claim) ≠ "") then
    get_claim_template namespace (default "" (prc_ResourceClaimTemplateName claim))
  else Fail (ClaimError ("pod resourceClaim " +:+ Quote (prc_Name claim) +:+
                         " must specify one of resourceClaimName or resourceClaimTemplateName")).

Definition resolveDefiniteVGPURequestsFromContainerClaim (pod : Pod) (ref : ContainerClaim) : result string (list string) :=
  match FindPodResourceClaim pod (cc_Name ref) with
  | None => Fail ("pod resourceClaim " +:+ Quote (cc_Name ref) +:+ " not found")
  | Some claim =>
      match getDeviceRequestsForPodClaim (p_Namespace pod) claim with
      | Fail ClaimNotFound => Ok []
      | Fail (ClaimError e) => Fail e
      | Ok requests =>
          let index := buildPodRequestIndex requests in
          if bool_decide (cc_Request ref ≠ "") then
            match index !! cc_Request ref with
            | None => Fail ("request " +:+ Quote (cc_Request ref) +:+ " not found in pod resourceClaim " +:+ Quote (cc_Name ref))
            | Some MainRequestDefVGPU => Ok [buildVGPURequestKey (cc_Name ref) (cc_Request ref)]
            | Some _ => Ok []
            end
          else Ok (sort_strings (buildVGPURequestKey (cc_Name ref) <$> definite index))
      end
  end.

(** The keys one reference of a container resolves to. *)
Definition reference_keys (pod : Pod) (converted : resourceInfoMap) (container : string) (ref : ContainerClaim) : result share_error (list string) :=
  match GetReqSet converted container (cc_Name ref) with
  | Some requests =>
      Ok (sort_strings (if bool_decide (cc_Request ref ≠ "") then [buildVGPURequestKey (cc_Name ref) (cc_Request ref)]
                        else buildVGPURequestKey (cc_Name ref) <$> set_list requests))
  | None =>
      match resolveDefiniteVGPURequestsFromContainerClaim pod ref with
      | Ok keys => Ok keys
      | Fail e => Fail (ErrClaimValidation container (cc_Name ref) e)
      end
  end.

(** ** The conflict matrix *)

(** The vGPU claims a container refers to, and the request keys, of all its references. *)
Fixpoint container_keys (pod : Pod) (converted : resourceInfoMap) (container : string) (refs : list ContainerClaim)
  : result share_error (gset string * gset string) :=
  match refs with
  | [] => Ok (∅, ∅)
  | ref :: refs =>
      let* keys := reference_keys pod converted container ref in
      let* rest := container_keys pod converted container refs in
      Ok ((if bool_decide (keys = []) then ∅ else {[ cc_Name ref ]}) ∪ rest.1, list_to_set keys ∪ rest.2)
  end.

(** The three lifecycle classes. *)
Definition record_use (c : ContainerRef) (u : requestUsage) : requestUsage :=
  if cr_Restartable c then
    {| ru_InitContainers := ru_InitContainers u; ru_AppContainers := ru_AppContainers u; ru_Sidecars := {[ cr_Name c ]} ∪ ru_Sidecars u |}
  else if bool_decide (cr_Kind c = ContainerKindInit) then
    {| ru_InitContainers := {[ cr_Name c ]} ∪ ru_InitContainers u; ru_AppContainers := ru_AppContainers u; ru_Sidecars := ru_Sidecars u |}
  else
    {| ru_InitContainers := ru_InitContainers u; ru_AppContainers := {[ cr_Name c ]} ∪ ru_AppContainers u; ru_Sidecars := ru_Sidecars u |}.

Definition usage_error (key : string) (u : requestUsage) : option share_error :=
  if bool_decide (1 < size (ru_AppContainers u))%nat then Some (ErrManyApps key (set_list (ru_AppContainers u)))
  else if bool_decide (1 < size (ru_Sidecars u))%nat then Some (ErrManySidecars key (set_list (ru_Sidecars u)))
  else if bool_decide (size (ru_Sidecars u) = 1%nat) &&
          (bool_decide (0 < size (ru_InitContainers u))%nat || bool_decide (0 < size (ru_AppContainers u))%nat)
  then Some (ErrSidecarShared key (set_list (ru_Sidecars u)))
  else None.

Fixpoint use_keys (c : ContainerRef) (keys : list string) (usages : gmap string requestUsage)
  : result share_error (gmap string requestUsage) :=
  match keys with
  | [] => Ok usages
  | key :: keys =>
      let usage := record_use c (default no_usage (usages !! key)) in
      match usage_error key usage with
      | Some e => Fail e
      | None => use_keys c keys (<[key := usage]> usages)
      end
  end.

Fixpoint use_containers (pod : Pod) (converted : resourceInfoMap) (cs : list ContainerRef) (usages : gmap string requestUsage)
  : result share_error (gmap string requestUsage) :=
  match cs with
  | [] => Ok usages
  | c :: cs =>
      let* found := container_keys pod converted (cr_Name c) (cr_Claims c) in
      if bool_decide (1 < size found.1)%nat then Fail (ErrManyClaims (cr_Name c) (set_list found.1))
      else
        let* usages := use_keys c (set_list found.2) usages in
        use_containers pod converted cs usages
  end.

(** The app containers each init container meets on some request. *)
Definition initAppOverlap (usages : gmap string requestUsage) : gmap string (gset string) :=
  fold_left (λ m usage, fold_left (λ m init, <[init := ru_AppContainers usage ∪ default ∅ (m !! init)]> m)
                          (if bool_decide (ru_AppContainers usage = ∅) then [] else set_list (ru_InitContainers usage)) m)
    (range_str usages).*2 ∅.

Definition checkResourceClaimRequests (pod : Pod) : option share_error :=
  if negb (HasDRARequests pod) then None
  else
    match use_containers pod (getConvertedContainerClaimsMap pod) (GetAllPodContainers pod) ∅ with
    | Fail e => Some e
    | Ok usages =>
        match List.find (λ '(_, apps), bool_decide (1 < size apps)%nat) (range_str (initAppOverlap usages)) with
        | Some (init, apps) => Some (ErrInitOverlap init (set_list apps))
        | None => None
        end
    end.

(** ** Sharing with other pods *)

Definition findPodClaimNameForActualClaim (pod : Pod) (actual : string) : string :=
  let hit pc := bool_decide (prc_ResourceClaimName pc = Some actual) ||
                (bool_decide (is_Some (prc_ResourceClaimTemplateName pc)) &&
                 match List.find (λ st, bool_decide (st.1 = prc_Name pc)) (ps_ResourceClaimStatuses (p_Rest pod)) with
                 | Some (_, Some name) => bool_decide (name = actual)
                 | _ => false
                 end) in
  match List.find hit (ps_ResourceClaims (p_Rest pod)) with Some pc => prc_Name pc | None => "" end.

Definition collectPodClaimVGPURefs (pod : Pod) (podClaimName : string) (index : gmap string MainRequestClass) : gset string :=
  list_to_set (GetAllPodContainers pod ≫= λ c, filter (λ ref, cc_Name ref = podClaimName) (cr_Claims c) ≫= λ ref,
    if bool_decide (cc_Request ref ≠ "")
    then if bool_decide (index !! cc_Request ref = Some MainRequestDefVGPU) then [cc_Request ref] else []
    else definite index).

(** The first conflict with a pod the claim is reserved for. *)
Fixpoint check_reserved (pod : Pod) (actual : string) (claim : ResourceClaim) (index : gmap string MainRequestClass)
    (mine : gset string) (refs : list ConsumerReference) : option share_error :=
  match refs with
  | [] => None
  | ref :: refs =>
      let continue := check_reserved pod actual claim index mine refs in
      if bool_decide (cf_APIGroup ref ≠ "") || bool_decide (cf_Resource ref ≠ "pods") then continue
      else
        match get_reserved_pod (rc_Namespace claim) (cf_Name ref) with
        | Fail ClaimNotFound => continue
        | Fail (ClaimError e) => Some (ErrRead e)
        | Ok other =>
            if bool_decide (cf_UID ref ≠ "") && bool_decide (p_UID other ≠ cf_UID ref) then continue
            else if bool_decide (p_Name other = p_Name pod) && bool_decide (p_Namespace other = p_Namespace pod) then continue
            else
              let otherClaim := findPodClaimNameForActualClaim other actual in
              if bool_decide (otherClaim = "") then continue
              else
                let overlap := mine ∩ collectPodClaimVGPURefs other otherClaim index in
                if bool_decide (overlap = ∅) then continue else Some (ErrCrossPod (p_Name other) (set_list overlap) actual)
        end
  end.

Fixpoint check_claims (pod : Pod) (claims : list PodResourceClaim) : option share_error :=
  match claims with
  | [] => None
  | pc :: claims =>
      let continue := check_claims pod claims in
      let actual := default "" (prc_ResourceClaimName pc) in
      if bool_decide (actual = "") then continue
      else
        match get_resource_claim (p_Namespace pod) actual with
        | Fail ClaimNotFound => continue
        | Fail (ClaimError e) => Some (ErrRead e)
        | Ok claim =>
            let index := buildPodRequestIndex (rc_DeviceRequests claim) in
            let mine := collectPodClaimVGPURefs pod (prc_Name pc) index in
            if bool_decide (length (rc_ReservedFor claim) = 0%nat) || bool_decide (definite index = []) || bool_decide (mine = ∅) then continue
            else match check_reserved pod actual claim index mine (rc_ReservedFor claim) with Some e => Some e | None => continue end
        end
  end.

Definition checkCrossPodsVGPURequestConflict (pod : Pod) : option share_error :=
  if negb (HasDRARequests pod) then None else check_claims pod (ps_ResourceClaims (p_Rest pod)).
End share.
