(* ===== verification/ClaimShareSpec.v ===== *)
(** * No two containers hold a vGPU request at once

    [checkResourceClaimRequests] accepts a pod exactly when the sharing rules
    hold ([sharing_rules]); under the rules, containers of different names
    that use the same request have disjoint lifetimes. *)

From stdpp Require Import base list gmap strings.
From Stdlib Require Import ZArith Lia.
From S2P Require Import Prelude GoMap GoSort GoStrings GoFmt GoTime Kube Claims DnsName Footprint Device NodeInfo Request.
From S2P Require Import Links Topology Reason Numa Tiered Scoring Allocator AllocatorSpec Placement.
From S2P Require Import Admission AdmissionSpec Dra ClaimShare.

Section rules.
Context `{Env} `{MapOrder} `{ResourceApi} `{ResourceInfosCodec} (o : Options).

(** A container with the request keys it resolved to. *)
Local Notation assigned := (list (ContainerRef * gset string)).

Definition is_sidecar_ref (c : ContainerRef) : Prop := cr_Restartable c = true.
Definition is_init_ref (c : ContainerRef) : Prop := cr_Restartable c = false ∧ cr_Kind c = ContainerKindInit.
Definition is_app_ref (c : ContainerRef) : Prop := cr_Restartable c = false ∧ cr_Kind c ≠ ContainerKindInit.
#[local] Instance is_sidecar_ref_dec c : Decision (is_sidecar_ref c) := _.
#[local] Instance is_init_ref_dec c : Decision (is_init_ref c) := _.
#[local] Instance is_app_ref_dec c : Decision (is_app_ref c) := _.

(** The names of the users of [key] in a class. *)
Definition users (P : ContainerRef → Prop) `{∀ c, Decision (P c)} (key : string) (l : assigned) : gset string :=
  list_to_set ((λ e, cr_Name e.1) <$> filter (λ e, P e.1 ∧ key ∈ e.2) l).

Definition usage_of (l : assigned) (key : string) : requestUsage :=
  {| ru_InitContainers := users is_init_ref key l; ru_AppContainers := users is_app_ref key l;
     ru_Sidecars := users is_sidecar_ref key l |}.

(** What the code enforces: one app, or one sidecar and nobody else; an init
    container meets one app at most (rules 4, 5 and 7 of the comment in the
    source, and its note on sidecars). *)
Record sharing_rules (l : assigned) : Prop := {
  sh_apps key : (size (users is_app_ref key l) ≤ 1)%nat;
  sh_sidecars key : (size (users is_sidecar_ref key l) ≤ 1)%nat;
  sh_alone key : users is_sidecar_ref key l ≠ ∅ → users is_init_ref key l = ∅ ∧ users is_app_ref key l = ∅;
  sh_meets init a1 a2 k1 k2 : init ∈ users is_init_ref k1 l → init ∈ users is_init_ref k2 l →
    a1 ∈ users is_app_ref k1 l → a2 ∈ users is_app_ref k2 l → a1 = a2
}.

(** The keys of a container, resolved without error and from one claim at most. *)
Definition resolved (pod : Pod) (c : ContainerRef) (keys : gset string) : Prop :=
  ∃ claims, container_keys o pod (getConvertedContainerClaimsMap pod) (cr_Name c) (cr_Claims c) = Ok (claims, keys) ∧ (size claims ≤ 1)%nat.

(** ** Recording uses *)

Lemma elem_users P `{∀ c, Decision (P c)} key l name :
  name ∈ users P key l ↔ ∃ c keys, (c, keys) ∈ l ∧ P c ∧ key ∈ keys ∧ cr_Name c = name.
Proof.
  unfold users. rewrite elem_of_list_to_set, list_elem_of_fmap. split.
  - intros ([c keys] & -> & [[HP Hk] Hin]%list_elem_of_filter). exists c, keys. done.
  - intros (c & keys & Hin & HP & Hk & <-). exists (c, keys). split; [done|]. by apply list_elem_of_filter.
Qed.

Lemma users_snoc P `{∀ c, Decision (P c)} key l c keys :
  users P key (l ++ [(c, keys)]) = (if decide (P c ∧ key ∈ keys) then {[ cr_Name c ]} else ∅) ∪ users P key l.
Proof.
  unfold users. rewrite filter_app, fmap_app, list_to_set_app_L, (union_comm_L (list_to_set _)). f_equal.
  rewrite filter_cons. simpl. destruct (decide (P c ∧ key ∈ keys)); simpl; set_solver.
Qed.

Lemma usage_snoc l c keys key :
  usage_of (l ++ [(c, keys)]) key = if decide (key ∈ keys) then record_use c (usage_of l key) else usage_of l key.
Proof.
  unfold usage_of. rewrite !users_snoc. destruct (decide (key ∈ keys)) as [Hk|Hk];
    [|rewrite !decide_False by tauto; f_equal; set_solver].
  assert (is_sidecar_ref c ∨ is_init_ref c ∨ is_app_ref c) as Hc
    by (unfold is_sidecar_ref, is_init_ref, is_app_ref; destruct (cr_Restartable c); [by left|]; destruct (decide (cr_Kind c = ContainerKindInit)); auto).
  unfold record_use. destruct Hc as [Hs|[[Hr Hi]|[Hr Ha]]].
  - rewrite (decide_True (P := is_sidecar_ref c ∧ _)) by done. rewrite !decide_False by (intros [[??] _]; unfold is_sidecar_ref in Hs; congruence).
    rewrite Hs. simpl. f_equal; set_solver.
  - rewrite (decide_True (P := is_init_ref c ∧ _)) by done. rewrite (decide_False (P := is_app_ref c ∧ _)) by (intros [[??] _]; done).
    rewrite (decide_False (P := is_sidecar_ref c ∧ _)) by (unfold is_sidecar_ref; intros [? _]; congruence).
    rewrite Hr, bool_decide_eq_true_2 by done. simpl. f_equal; set_solver.
  - rewrite (decide_True (P := is_app_ref c ∧ _)) by done. rewrite (decide_False (P := is_init_ref c ∧ _)) by (intros [[??] _]; done).
    rewrite (decide_False (P := is_sidecar_ref c ∧ _)) by (unfold is_sidecar_ref; intros [? _]; congruence).
    rewrite Hr, bool_decide_eq_false_2 by done. simpl. f_equal; set_solver.
Qed.

(** The usages recorded so far are those of the containers seen. *)
Definition records (usages : gmap string requestUsage) (l : assigned) : Prop :=
  ∀ key, default no_usage (usages !! key) = usage_of l key.

Definition fine (l : assigned) : Prop := ∀ key, usage_error key (usage_of l key) = None.

Lemma use_keys_spec c keys usages :
  NoDup keys →
  match use_keys c keys usages with
  | Ok usages' => (∀ key, key ∈ keys → usage_error key (record_use c (default no_usage (usages !! key))) = None) ∧
      ∀ key, default no_usage (usages' !! key) =
        if decide (key ∈ keys) then record_use c (default no_usage (usages !! key)) else default no_usage (usages !! key)
  | Fail _ => ∃ key, key ∈ keys ∧ usage_error key (record_use c (default no_usage (usages !! key))) ≠ None
  end.
Proof.
  revert usages. induction keys as [|key keys IH]; intros usages Hnd; [split; [by intros ? ?%elem_of_nil|done]|].
  apply NoDup_cons in Hnd as [Hnin Hnd]. cbn [use_keys]. cbv zeta.
  destruct (usage_error key _) as [e|] eqn:Ee; [exists key; split; [by left|congruence]|].
  specialize (IH (<[key := record_use c (default no_usage (usages !! key))]> usages) Hnd).
  assert (∀ k, k ∈ keys → <[key := record_use c (default no_usage (usages !! key))]> usages !! k = usages !! k) as Hother
    by (intros k Hk; apply lookup_insert_ne; set_solver).
  destruct (use_keys c keys _) as [usages'|e]; [destruct IH as [IH1 IH2]; split|].
  - intros k [->|Hk]%elem_of_cons; [done|]. rewrite <- (Hother k Hk). by apply IH1.
  - intros k. rewrite IH2. destruct (decide (k ∈ keys)) as [Hk|Hk]; [rewrite decide_True by set_solver; by rewrite Hother|].
    destruct (decide (k = key)) as [->|Hne]; [rewrite decide_True by set_solver; by rewrite lookup_insert_eq|].
    rewrite decide_False by set_solver. by rewrite lookup_insert_ne by congruence.
  - destruct IH as (k & Hk & Hke). exists k. split; [by right|]. by rewrite <- (Hother k Hk).
Qed.

Lemma usage_error_none key u :
  usage_error key u = None ↔
  (size (ru_AppContainers u) ≤ 1)%nat ∧ (size (ru_Sidecars u) ≤ 1)%nat ∧
  (ru_Sidecars u ≠ ∅ → ru_InitContainers u = ∅ ∧ ru_AppContainers u = ∅).
Proof.
  assert (∀ X : gset string, X = ∅ ↔ size X = 0%nat) as Hz.
  { intros X. split; [by intros ->|]. apply size_empty_inv_L || (intros HX; by apply size_empty_iff in HX; apply leibniz_equiv). }
  unfold usage_error. rewrite !Hz. repeat case_bool_decide; simpl; (split; [intros [=]|intros (? & ? & Hs)]); try lia; try done;
    try (split_and!; lia).
  all: destruct Hs; lia.
Qed.

Lemma fine_rules l key : usage_error key (usage_of l key) = None ↔
  (size (users is_app_ref key l) ≤ 1)%nat ∧ (size (users is_sidecar_ref key l) ≤ 1)%nat ∧
  (users is_sidecar_ref key l ≠ ∅ → users is_init_ref key l = ∅ ∧ users is_app_ref key l = ∅).
Proof. apply usage_error_none. Qed.

Lemma users_mono P `{∀ c, Decision (P c)} key l l' : users P key l ⊆ users P key (l ++ l').
Proof. intros name (c & keys & Hin & Hr)%elem_users. apply elem_users. exists c, keys. split; [apply elem_of_app; by left|done]. Qed.

Lemma fine_prefix l l' : fine (l ++ l') → fine l.
Proof.
  intros Hf key. apply fine_rules. destruct (proj1 (fine_rules _ key) (Hf key)) as (Ha & Hs & Hx).
  pose proof (users_mono is_app_ref key l l') as Ma. pose proof (users_mono is_sidecar_ref key l l') as Ms.
  pose proof (users_mono is_init_ref key l l') as Mi. split_and!.
  - etrans; [by apply subseteq_size|done].
  - etrans; [by apply subseteq_size|done].
  - intros Hne. destruct Hx as [Hi Hp]; [set_solver|]. set_solver.
Qed.

Lemma use_containers_spec pod cs usages l :
  records usages l → fine l →
  match use_containers o pod (getConvertedContainerClaimsMap pod) cs usages with
  | Ok usages' => ∃ ks, Forall2 (resolved pod) cs ks ∧ records usages' (l ++ zip cs ks) ∧ fine (l ++ zip cs ks)
  | Fail _ => ∀ ks, Forall2 (resolved pod) cs ks → ¬ fine (l ++ zip cs ks)
  end.
Proof.
  revert usages l. induction cs as [|c cs IH]; intros usages l Hrec Hfine; cbn [use_containers].
  { exists []. rewrite app_nil_r. done. }
  destruct (container_keys o pod _ _ _) as [[claims keys]|e] eqn:Ek; cbn [rbind].
  2:{ intros [|k ks] HF; inversion HF as [|? ? ? ? (cl & Hres & _)]; subst. congruence. }
  cbn [fst snd]. case_bool_decide as Hsz.
  { intros [|k ks] HF; inversion HF as [|? ? ? ? (cl & Hres & Hle)]; subst. rewrite Ek in Hres. injection Hres as <- <-. lia. }
  assert (resolved pod c keys) as Hr by (exists claims; split; [done|lia]).
  assert (∀ k ks, Forall2 (resolved pod) (c :: cs) (k :: ks) → k = keys ∧ Forall2 (resolved pod) cs ks) as Hinv.
  { intros k ks HF. inversion HF as [|? ? ? ? (cl & Hres & _) HF']; subst. split; [congruence|done]. }
  pose proof (set_list_elem keys) as Hin.
  pose proof (use_keys_spec c (set_list keys) usages ltac:(apply set_list_nodup)) as Huse.
  destruct (use_keys c (set_list keys) usages) as [usages1|e]; cbn [rbind].
  - destruct Huse as [Hnone Hrec1].
    assert (records usages1 (l ++ [(c, keys)])) as Hrec'.
    { intros key. rewrite Hrec1, usage_snoc, (Hrec key). destruct (decide (key ∈ keys)); [rewrite decide_True by by apply Hin|
        rewrite decide_False by by rewrite Hin]; done. }
    assert (fine (l ++ [(c, keys)])) as Hfine'.
    { intros key. rewrite usage_snoc. destruct (decide (key ∈ keys)); [|done]. rewrite <- (Hrec key). apply Hnone. by apply Hin. }
    specialize (IH usages1 (l ++ [(c, keys)]) Hrec' Hfine'). destruct (use_containers _ _ _ _ _) as [usages'|e].
    + destruct IH as (ks & HF & HR). exists (keys :: ks). rewrite <- app_assoc in HR. split; [by constructor|done].
    + intros [|k ks] HF; [inversion HF|]. destruct (Hinv _ _ HF) as [-> HF']. specialize (IH ks HF'). by rewrite <- app_assoc in IH.
  - destruct Huse as (key & Hk & Hbad). intros [|k ks] HF; [inversion HF|]. destruct (Hinv _ _ HF) as [-> _]. intros Hf.
    assert (fine (l ++ [(c, keys)])) as Hf' by (apply (fine_prefix _ (zip cs ks)); by rewrite <- app_assoc).
    apply Hbad. rewrite (Hrec key). specialize (Hf' key). rewrite usage_snoc, decide_True in Hf' by by apply Hin. done.
Qed.

(** ** The overlap of init and app containers *)

Lemma size_le_1 (X : gset string) : (size X ≤ 1)%nat ↔ ∀ x y, x ∈ X → y ∈ X → x = y.
Proof.
  split.
  - intros Hs x y Hx Hy. destruct (decide (x = y)) as [|Hne]; [done|].
    assert (size ({[ x; y ]} : gset string) ≤ size X)%nat as Hle by (apply subseteq_size; set_solver).
    rewrite size_union, !size_singleton in Hle by set_solver. lia.
  - intros Heq. destruct (decide (X = ∅)) as [->|Hne]; [rewrite size_empty; lia|].
    apply set_choose_L in Hne as [x Hx]. assert (X = {[ x ]}) as -> by set_solver. by rewrite size_singleton.
Qed.

Lemma overlap_inner (inits : list string) (apps : gset string) (m : gmap string (gset string)) (init a : string) :
  a ∈ default ∅ (fold_left (λ m i, <[i := apps ∪ default ∅ (m !! i)]> m) inits m !! init) ↔
  a ∈ default ∅ (m !! init) ∨ (init ∈ inits ∧ a ∈ apps).
Proof.
  revert m. induction inits as [|i inits IH]; intros m; simpl; [set_solver|]. rewrite IH.
  destruct (decide (i = init)) as [->|Hne]; [rewrite lookup_insert_eq; simpl; set_solver|].
  rewrite lookup_insert_ne by done. set_solver.
Qed.

Lemma overlap_elem usages init a :
  a ∈ default ∅ (initAppOverlap usages !! init) ↔
  ∃ key u, usages !! key = Some u ∧ init ∈ ru_InitContainers u ∧ a ∈ ru_AppContainers u.
Proof.
  assert (∀ (us : list requestUsage) (m : gmap string (gset string)), a ∈ default ∅ (fold_left (λ m usage, fold_left (λ m i, <[i := ru_AppContainers usage ∪ default ∅ (m !! i)]> m)
      (if bool_decide (ru_AppContainers usage = ∅) then [] else set_list (ru_InitContainers usage)) m) us m !! init) ↔
    a ∈ default ∅ (m !! init) ∨ ∃ u, u ∈ us ∧ init ∈ ru_InitContainers u ∧ a ∈ ru_AppContainers u) as Hfold.
  { induction us as [|u us IH]; intros m; simpl; [set_solver|]. rewrite IH, overlap_inner. case_bool_decide as He.
    - rewrite He. set_solver.
    - rewrite set_list_elem. set_solver. }
  unfold initAppOverlap. rewrite Hfold, lookup_empty. simpl. split.
  - intros [?%elem_of_empty|(u & Hin & Hr)]; [done|]. apply list_elem_of_fmap in Hin as ([key u'] & -> & Hin).
    rewrite range_str_perm in Hin. apply elem_of_map_to_list in Hin. by exists key, u'.
  - intros (key & u & Hu & Hr). right. exists u. split; [|done]. apply list_elem_of_fmap. exists (key, u). split; [done|].
    rewrite range_str_perm. by apply elem_of_map_to_list.
Qed.

Lemma recorded_elem usages l init a :
  records usages l →
  (∃ key u, usages !! key = Some u ∧ init ∈ ru_InitContainers u ∧ a ∈ ru_AppContainers u) ↔
  ∃ key, init ∈ users is_init_ref key l ∧ a ∈ users is_app_ref key l.
Proof.
  intros Hrec. split.
  - intros (key & u & Hu & Hi & Ha). exists key. specialize (Hrec key). rewrite Hu in Hrec. simpl in Hrec. by subst u.
  - intros (key & Hi & Ha). specialize (Hrec key). exists key. destruct (usages !! key) as [u|]; simpl in Hrec.
    + subst u. eauto.
    + exfalso. change (init ∈ ru_InitContainers (usage_of l key)) in Hi. rewrite <- Hrec in Hi. set_solver.
Qed.

Definition one_app (l : assigned) : Prop := ∀ init a1 a2 k1 k2,
  init ∈ users is_init_ref k1 l → init ∈ users is_init_ref k2 l →
  a1 ∈ users is_app_ref k1 l → a2 ∈ users is_app_ref k2 l → a1 = a2.

Lemma overlap_rule usages l :
  records usages l →
  List.find (λ '(_, apps), bool_decide (1 < size apps)%nat) (range_str (initAppOverlap usages)) = None ↔ one_app l.
Proof.
  intros Hrec.
  assert (∀ init a, a ∈ default ∅ (initAppOverlap usages !! init) ↔
    ∃ key, init ∈ users is_init_ref key l ∧ a ∈ users is_app_ref key l) as Hx
    by (intros init a; rewrite overlap_elem; by apply recorded_elem).
  split.
  - intros Hf init a1 a2 k1 k2 Hi1 Hi2 Ha1 Ha2. pose proof (find_none _ _ Hf) as Hnone.
    assert (a1 ∈ default ∅ (initAppOverlap usages !! init)) as E1 by (apply Hx; eauto).
    assert (a2 ∈ default ∅ (initAppOverlap usages !! init)) as E2 by (apply Hx; eauto).
    destruct (initAppOverlap usages !! init) as [apps|] eqn:El; [|simpl in E1; set_solver]. simpl in E1, E2.
    assert (size apps ≤ 1)%nat as Hsz; [|by eapply (proj1 (size_le_1 apps))].
    assert (In (init, apps) (range_str (initAppOverlap usages))) as Hin by by apply list_elem_of_In, elem_of_range_str.
    apply Hnone in Hin. simpl in Hin. apply bool_decide_eq_false in Hin. lia.
  - intros Hone. destruct (find _ _) as [[init apps]|] eqn:Ef; [|done]. exfalso.
    apply find_some in Ef as [Hin Hsz]. apply bool_decide_eq_true in Hsz. apply list_elem_of_In, elem_of_range_str in Hin.
    assert (size apps ≤ 1)%nat; [|lia]. apply size_le_1. intros a1 a2 Ha1 Ha2. specialize (Hx init). rewrite Hin in Hx. simpl in Hx.
    apply Hx in Ha1 as (k1 & ? & ?), Ha2 as (k2 & ? & ?). by apply (Hone init a1 a2 k1 k2).
Qed.

Lemma rules_split l : sharing_rules l ↔ fine l ∧ one_app l.
Proof.
  split.
  - intros [Ha Hs Hx Hm]. split; [|exact Hm]. intros key. apply fine_rules. auto.
  - intros [Hf Hm]. split; [..|exact Hm]; intros key; by destruct (proj1 (fine_rules _ key) (Hf key)) as (? & ? & ?).
Qed.

Lemma check_exact pod :
  checkResourceClaimRequests o pod = None ↔
  HasDRARequests pod = false ∨
  ∃ ks, Forall2 (resolved pod) (GetAllPodContainers pod) ks ∧ sharing_rules (zip (GetAllPodContainers pod) ks).
Proof.
  unfold checkResourceClaimRequests. destruct (HasDRARequests pod); simpl; [|tauto].
  pose proof (use_containers_spec pod (GetAllPodContainers pod) ∅ []) as Huse.
  destruct (use_containers _ _ _ _ _) as [usages|e].
  - destruct Huse as (ks & HF & Hrec & Hfine); [by intros key; rewrite lookup_empty|by intros key|]. simpl in *.
    pose proof (overlap_rule _ _ Hrec) as Hrule. destruct (find _ _) as [[init apps]|].
    + split; [done|]. intros [[=]|(ks' & HF' & [_ Hone]%rules_split)].
      assert (ks' = ks) as ->.
      { eapply Forall2_unique; [exact HF'|exact HF|]. intros c k1 k2 (? & E1 & _) (? & E2 & _). congruence. }
      by apply Hrule in Hone.
    + split; [intros _|done]. right. exists ks. split; [done|]. apply rules_split. split; [done|]. by apply Hrule.
  - split; [done|]. intros [[=]|(ks & HF & [Hf _]%rules_split)]. exfalso.
    by apply (Huse ltac:(by intros key; rewrite lookup_empty) ltac:(by intros key) ks HF).
Qed.

(** Rule 3 of the comment in the source: no two init containers on one
    request.  The code lets them share, since they run one after the other. *)
Definition inits_apart (l : assigned) : Prop := ∀ key, (size (users is_init_ref key l) ≤ 1)%nat.

(** All rules of the comment, between containers. *)
Definition stage_rules (l : assigned) : Prop := inits_apart l ∧ sharing_rules l.

(** C18 For pods whose init containers do not share a request, the webhook's
    check of vGPU claims is exact: it accepts a pod that uses claims precisely
    when every reference of every container resolves, no container uses two
    vGPU claims, and for every vGPU request there is at most one init and one
    app container, or a single sidecar and nobody else, while an init
    container shares requests with one app container at most.  Neither the
    order of the containers nor map iteration matters. *)
Theorem checkResourceClaimRequests_exact pod :
  (∀ ks, Forall2 (resolved pod) (GetAllPodContainers pod) ks → inits_apart (zip (GetAllPodContainers pod) ks)) →
  checkResourceClaimRequests o pod = None ↔
  HasDRARequests pod = false ∨
  ∃ ks, Forall2 (resolved pod) (GetAllPodContainers pod) ks ∧ stage_rules (zip (GetAllPodContainers pod) ks).
Proof.
  intros Hap. rewrite check_exact. split; (intros [?|(ks & HF & Hr)]; [by left|right; exists ks]).
  - split; [done|]. split; [by apply Hap|done].
  - by destruct Hr.
Qed.

(** ** Lifetimes *)

(** The containers alive in phase [t]: init container [i] runs in phase [i]
    alone, a sidecar from its own phase on, the app containers from the phase
    after all [inits] on. *)
Definition alive (inits i : nat) (c : ContainerRef) (t : nat) : Prop :=
  if cr_Restartable c then (i ≤ t)%nat
  else if bool_decide (cr_Kind c = ContainerKindInit) then t = i
  else (inits ≤ t)%nat.

Lemma container_at pod i c :
  GetAllPodContainers pod !! i = Some c →
  ((cr_Restartable c = true ∨ cr_Kind c = ContainerKindInit) ∧ (i < length (p_InitContainers pod))%nat) ∨ is_app_ref c.
Proof.
  unfold GetAllPodContainers. intros [Hi|[_ Ha]]%lookup_app_Some; rewrite list_lookup_fmap in *.
  - left. apply fmap_Some in Hi as (c0 & Hc0 & ->). split; [by right|]. by eapply lookup_lt_Some.
  - right. apply fmap_Some in Ha as (c0 & _ & ->). done.
Qed.

Lemma container_names pod : cr_Name <$> GetAllPodContainers pod = c_Name <$> all_containers pod.
Proof. unfold GetAllPodContainers, all_containers. by rewrite !fmap_app, <- !list_fmap_compose. Qed.

Lemma ref_class c : is_sidecar_ref c ∨ is_init_ref c ∨ is_app_ref c.
Proof.
  unfold is_sidecar_ref, is_init_ref, is_app_ref. destruct (cr_Restartable c); [by left|].
  destruct (decide (cr_Kind c = ContainerKindInit)); auto.
Qed.

(** Two users of a request that differ in name: never a sidecar, never two apps. *)
Lemma shared_classes l key ci ki cj kj :
  fine l → (ci, ki) ∈ l → (cj, kj) ∈ l → key ∈ ki → key ∈ kj → cr_Name ci ≠ cr_Name cj →
  (is_init_ref ci ∧ (is_init_ref cj ∨ is_app_ref cj)) ∨ (is_app_ref ci ∧ is_init_ref cj).
Proof.
  intros Hfine Hi Hj Hki Hkj Hne. destruct (proj1 (fine_rules l key) (Hfine key)) as (Happ & Hside & Halone).
  assert (∀ P `{∀ c, Decision (P c)}, P ci → cr_Name ci ∈ users P key l) as Ui by (intros; apply elem_users; eauto 10).
  assert (∀ P `{∀ c, Decision (P c)}, P cj → cr_Name cj ∈ users P key l) as Uj by (intros; apply elem_users; eauto 10).
  assert (∀ c, c ∈ users is_sidecar_ref key l → users is_init_ref key l = ∅ ∧ users is_app_ref key l = ∅) as Hal
    by (intros c Hc; apply Halone; intros E; rewrite E in Hc; by apply elem_of_empty in Hc).
  destruct (ref_class ci) as [Si|Ci].
  { destruct (Hal _ (Ui _ _ Si)) as [Z1 Z2]. destruct (ref_class cj) as [Sj|[Ij|Aj]].
    - by destruct Hne; apply (proj1 (size_le_1 _) Hside); [apply Ui|apply Uj].
    - pose proof (Uj _ _ Ij) as E. rewrite Z1 in E. by apply elem_of_empty in E.
    - pose proof (Uj _ _ Aj) as E. rewrite Z2 in E. by apply elem_of_empty in E. }
  destruct (ref_class cj) as [Sj|[Ij|Aj]].
  - destruct (Hal _ (Uj _ _ Sj)) as [Z1 Z2]. destruct Ci as [Ii|Ai].
    + pose proof (Ui _ _ Ii) as E. rewrite Z1 in E. by apply elem_of_empty in E.
    + pose proof (Ui _ _ Ai) as E. rewrite Z2 in E. by apply elem_of_empty in E.
  - tauto.
  - destruct Ci as [Ii|Ai]; [tauto|]. by destruct Hne; apply (proj1 (size_le_1 _) Happ); [apply Ui|apply Uj].
Qed.

Lemma alive_init inits i c t : is_init_ref c → alive inits i c t → t = i.
Proof. intros [Hr Hk]. unfold alive. by rewrite Hr, bool_decide_eq_true_2. Qed.

Lemma alive_app inits i c t : is_app_ref c → alive inits i c t → (inits ≤ t)%nat.
Proof. intros [Hr Hk]. unfold alive. by rewrite Hr, bool_decide_eq_false_2. Qed.

Lemma init_position pod i c :
  is_init_ref c → GetAllPodContainers pod !! i = Some c → (i < length (p_InitContainers pod))%nat.
Proof. intros [_ Hk] Hc. by destruct (container_at _ _ _ Hc) as [[_ ?]|[_ ?]]. Qed.

(** Such users are never alive together. *)
Lemma never_together pod i j ci cj t :
  GetAllPodContainers pod !! i = Some ci → GetAllPodContainers pod !! j = Some cj → i ≠ j →
  (is_init_ref ci ∧ (is_init_ref cj ∨ is_app_ref cj)) ∨ (is_app_ref ci ∧ is_init_ref cj) →
  ¬ (alive (length (p_InitContainers pod)) i ci t ∧ alive (length (p_InitContainers pod)) j cj t).
Proof.
  intros Hci Hcj Hne Hcl [Ai Aj]. destruct Hcl as [[Ii [Ij|Pj]]|[Pi Ij]].
  - apply alive_init in Ai, Aj; [|done..]. congruence.
  - apply alive_init in Ai; [|done]. apply alive_app in Aj; [|done]. pose proof (init_position _ _ _ Ii Hci). lia.
  - apply alive_app in Ai; [|done]. apply alive_init in Aj; [|done]. pose proof (init_position _ _ _ Ij Hcj). lia.
Qed.

Lemma names_differ pod i j ci cj :
  distinct_names pod → GetAllPodContainers pod !! i = Some ci → GetAllPodContainers pod !! j = Some cj → i ≠ j → cr_Name ci ≠ cr_Name cj.
Proof.
  intros Hnames Hci Hcj Hne E. apply Hne. unfold distinct_names in Hnames. apply (NoDup_lookup _ _ _ (cr_Name ci) Hnames);
    change (p_InitContainers pod ++ p_Containers pod) with (all_containers pod); rewrite <- container_names, list_lookup_fmap.
  - by rewrite Hci.
  - by rewrite Hcj, E.
Qed.

(** C13 No two containers hold the same vGPU request at the same time: in a pod
    the webhook's claim check lets through, two containers that resolve to a
    common request are never alive in the same phase, with init containers
    running one after another, sidecars from their own phase to the end, and
    the app containers together after all of them. *)
Theorem vgpu_requests_exclusive pod i j ci cj ki kj key t :
  checkResourceClaimRequests o pod = None → HasDRARequests pod = true → distinct_names pod → i ≠ j →
  GetAllPodContainers pod !! i = Some ci → GetAllPodContainers pod !! j = Some cj →
  resolved pod ci ki → resolved pod cj kj → key ∈ ki → key ∈ kj →
  ¬ (alive (length (p_InitContainers pod)) i ci t ∧ alive (length (p_InitContainers pod)) j cj t).
Proof.
  intros Hchk Hdra Hnames Hne Hci Hcj Hri Hrj Hi Hj. apply never_together; [done..|].
  apply check_exact in Hchk as [Hno|(ks & HF & [Hfine _]%rules_split)]; [congruence|].
  assert (∀ k c keys, GetAllPodContainers pod !! k = Some c → resolved pod c keys → (c, keys) ∈ zip (GetAllPodContainers pod) ks) as Hz.
  { intros k c keys Hc (? & Hr & _). destruct (Forall2_lookup_l _ _ _ _ _ HF Hc) as (keys' & Hk' & (? & Hr' & _)).
    apply list_elem_of_lookup. exists k. apply lookup_zip_with_Some. exists c, keys'. split_and!; [congruence|done|done]. }
  apply (shared_classes _ key _ _ _ _ Hfine (Hz _ _ _ Hci Hri) (Hz _ _ _ Hcj Hrj) Hi Hj). by eapply names_differ.
Qed.
End rules.

(** ** A concrete pod: an init container hands its GPU over to the app *)
Module ShareDemo.
Import AdmissionDemo.

Definition vgpu_request (name : string) : DeviceRequest :=
  {| dr_Name := name; dr_FirstAvailable := [];
     dr_Exactly := Some {| er_DeviceClassName := "vgpu-manager"; er_Selectors := []; er_AllocationMode := DeviceAllocationModeExactCount;
                           er_Count := 1; er_Capacity := ∅; er_AdminAccess := None |} |}.

Definition claim : ResourceClaim :=
  {| rc_Name := "gpus"; rc_Namespace := "default"; rc_Labels := ∅; rc_Annotations := ∅; rc_Constraints := [];
     rc_DeviceRequests := [vgpu_request "a"; vgpu_request "b"]; rc_ReservedFor := [];
     rc_UID := "uid-gpus"; rc_Allocation := None; rc_Config := [] |}.

Definition api : ResourceApi :=
  {| get_resource_claim _ name := if bool_decide (name = "gpus") then Ok claim else Fail ClaimNotFound;
     get_claim_template _ _ := Fail ClaimNotFound; get_device_class _ := None; get_reserved_pod _ _ := Fail ClaimNotFound |}.
#[export] Existing Instance api.
#[export] Existing Instance canonical_order.

Definition opts : Options :=
  {| op_SchedulerName := ""; op_DefaultNodePolicy := ""; op_DefaultDevicePolicy := ""; op_DefaultTopologyMode := "";
     op_DefaultRuntimeClass := ""; op_VGPUDeviceClassName := "vgpu-manager"; op_DRAAdmissionEnabled := true;
     op_DefaultConvertToDRA := false; op_CombinedResourceClaim := false |}.

Definition holder (name request : string) : Container :=
  with_resources (Demo.container name []) ∅ ∅ [{| cc_Name := "gpus"; cc_Request := request |}].

Definition pod_of (inits containers : list Container) : Pod :=
  with_rest (Demo.pod "job" [] inits containers)
    (rest_with Demo.rest "" ∅ None [{| prc_Name := "gpus"; prc_ResourceClaimName := Some "gpus"; prc_ResourceClaimTemplateName := None |}]).

Definition handover : Pod := pod_of [holder "warmup" "a"] [holder "train" "a"; holder "serve" "b"].
Definition clash : Pod := pod_of [] [holder "train" "a"; holder "serve" ""].

Example clash_refused : checkResourceClaimRequests opts clash = Some (ErrManyApps "gpus/a" ["serve"; "train"]).
Proof. vm_compute. reflexivity. Qed.

(** Sequential init containers may use the same request, although the rules
    listed above the function exclude it. *)
Example inits_share : checkResourceClaimRequests opts (pod_of [holder "fetch" "a"; holder "warmup" "a"] [holder "serve" "b"]) = None.
Proof. vm_compute. reflexivity. Qed.

Definition nth_ref (i : nat) : ContainerRef :=
  nth i (GetAllPodContainers handover) {| cr_Name := ""; cr_Claims := []; cr_Kind := ""; cr_Restartable := false |}.

Lemma resolved_a i : (i < 2)%nat → resolved opts handover (nth_ref i) {[ "gpus/a" ]}.
Proof.
  intros Hi. exists {[ "gpus" ]}. split; [|by vm_compute]. destruct i as [|[|i]]; [vm_compute; reflexivity..|lia].
Qed.

Lemma handover_apart ks :
  Forall2 (resolved opts handover) (GetAllPodContainers handover) ks → inits_apart (zip (GetAllPodContainers handover) ks).
Proof.
  intros _ key. rewrite <- (size_singleton (C := gset string) "warmup"). apply subseteq_size. intros name Hin.
  apply elem_users in Hin as (c & keys & Hc & [_ Hk] & _ & <-). apply elem_of_zip_l in Hc. apply elem_of_singleton.
  assert (Forall (λ c, cr_Kind c = ContainerKindInit → cr_Name c = "warmup") (GetAllPodContainers handover)) as Hall
    by (refine (bool_decide_unpack _ _); vm_compute; exact I).
  rewrite Forall_forall in Hall. by apply Hall.
Qed.

Lemma checkResourceClaimRequests_exact_witness :
  HasDRARequests handover = false ∨
  ∃ ks, Forall2 (resolved opts handover) (GetAllPodContainers handover) ks ∧ stage_rules (zip (GetAllPodContainers handover) ks).
Proof. apply (proj1 (checkResourceClaimRequests_exact opts handover handover_apart)). vm_compute. reflexivity. Defined.

Lemma vgpu_requests_exclusive_witness :
  checkResourceClaimRequests opts handover = None ∧
  alive 1 0 (nth_ref 0) 0 ∧ ¬ (alive 1 0 (nth_ref 0) 0 ∧ alive 1 1 (nth_ref 1) 0).
Proof.
  split; [vm_compute; reflexivity|]. split; [vm_compute; reflexivity|].
  apply (vgpu_requests_exclusive opts handover 0 1 (nth_ref 0) (nth_ref 1) {[ "gpus/a" ]} {[ "gpus/a" ]} "gpus/a" 0).
  - vm_compute. reflexivity.
  - reflexivity.
  - unfold distinct_names. refine (bool_decide_unpack _ _). vm_compute. exact I.
  - discriminate.
  - reflexivity.
  - reflexivity.
  - apply resolved_a. lia.
  - apply resolved_a. lia.
  - set_solver.
  - set_solver.
Defined.
End ShareDemo.
