(* ===== verification/ClaimGuard.v ===== *)
(** * Allocated claims and the claim webhook
      ([pkg/claimresolve/allocated_vgpu.go], [pkg/webhook/resourceclaim/validate])

    Which vGPU requests of a claim are allocated, which containers of the pods
    a claim is reserved for use them, and the check that refuses an update of
    the claim's status under which two containers would share one.  The
    decoders of opaque configurations are [ConfigLib].  The webhook reads each
    claim once per call, starting from the claim under review. *)

From stdpp Require Import base list gmap strings.
From Stdlib Require Import ZArith Lia.
From S2P Require Import Prelude GoMap GoSort GoStrings GoFmt GoTime Kube Claims DnsName Footprint Device NodeInfo Request.
From S2P Require Import Admission Dra ClaimShare.

(** ** What is allocated *)

Record AllocatedResultMeta := { am_MainRequest : string; am_IsVGPU : bool }.

Definition BuildAllocatedResultIndex (claim : ResourceClaim) (isVGPUDeviceRequest : DeviceRequest → bool)
    (isVGPUSubRequest : DeviceSubRequest → bool) : gmap string AllocatedResultMeta :=
  fold_left (λ index req,
    match dr_Exactly req with
    | Some _ => <[dr_Name req := {| am_MainRequest := dr_Name req; am_IsVGPU := isVGPUDeviceRequest req |}]> index
    | None =>
        fold_left (λ index sub,
          <[dr_Name req +:+ "/" +:+ sr_Name sub := {| am_MainRequest := dr_Name req; am_IsVGPU := isVGPUSubRequest sub |}]> index)
          (dr_FirstAvailable req) index
    end) (rc_DeviceRequests claim) ∅.

(** The main request of an allocated device, when it is a vGPU of the driver. *)
Definition allocated_request (driverName : string) (index : gmap string AllocatedResultMeta) (r : AllocationResult) : option string :=
  if bool_decide (driverName ≠ "") && bool_decide (ar_Driver r ≠ driverName) then None
  else match index !! ar_Request r with
       | Some meta => if am_IsVGPU meta then Some (am_MainRequest meta) else None
       | None => None
       end.

Definition GetAllocatedVGPURequests (claim : ResourceClaim) (driverName : string) (isVGPUDeviceRequest : DeviceRequest → bool)
    (isVGPUSubRequest : DeviceSubRequest → bool) : gset string :=
  match rc_Allocation claim with
  | None => ∅
  | Some results =>
      list_to_set (omap (allocated_request driverName (BuildAllocatedResultIndex claim isVGPUDeviceRequest isVGPUSubRequest)) results)
  end.

Definition ResolveActualAllocatedRequestsForClaimRef (ref : ContainerClaim) (allocated : gset string) : list string :=
  if bool_decide (cc_Request ref ≠ "") then if bool_decide (cc_Request ref ∈ allocated) then [cc_Request ref] else []
  else set_list allocated.

Definition GetPodResourceClaimStatus (pod : Pod) (podClaimName : string) : option (string * option string) :=
  List.find (λ st, bool_decide (st.1 = podClaimName)) (ps_ResourceClaimStatuses (p_Rest pod)).

(** The claim behind a pod's claim; [None] while it does not exist yet. *)
Definition ResolveActualClaimNameForPodClaim (pod : Pod) (podClaimName : string) : result string (option string) :=
  match FindPodResourceClaim pod podClaimName with
  | None => Fail ("pod resourceClaim " +:+ Quote podClaimName +:+ " not found")
  | Some claim =>
      if bool_decide (default "" (prc_ResourceClaimName claim) ≠ "") then Ok (prc_ResourceClaimName claim)
      else if bool_decide (default "" (prc_ResourceClaimTemplateName claim) ≠ "") then
        match GetPodResourceClaimStatus pod podClaimName with
        | Some (_, Some name) => Ok (if bool_decide (name ≠ "") then Some name else None)
        | _ => Ok None
        end
      else Fail ("pod " +:+ p_Namespace pod +:+ "/" +:+ p_Name pod +:+ " resourceClaim " +:+ Quote podClaimName +:+
                 " must specify one of resourceClaimName or resourceClaimTemplateName")
  end.

Section guard.
Context `{ResourceApi} (o : Options).

(** The pods in the reservation that exist under the reserved uid. *)
Fixpoint reserved_pods (namespace : string) (refs : list ConsumerReference) : result string (list Pod) :=
  match refs with
  | [] => Ok []
  | ref :: refs =>
      if bool_decide (cf_APIGroup ref ≠ "") || bool_decide (cf_Resource ref ≠ "pods") then reserved_pods namespace refs
      else
        match get_reserved_pod namespace (cf_Name ref) with
        | Fail ClaimNotFound => reserved_pods namespace refs
        | Fail (ClaimError e) => Fail e
        | Ok pod =>
            if bool_decide (cf_UID ref ≠ "") && bool_decide (p_UID pod ≠ cf_UID ref) then reserved_pods namespace refs
            else let* rest := reserved_pods namespace refs in Ok (pod :: rest)
        end
  end.
Definition GetReservedPods (claim : ResourceClaim) : result string (list Pod) :=
  reserved_pods (rc_Namespace claim) (rc_ReservedFor claim).

(** ** The claim webhook *)

Definition buildClaimScopedRequestKey (claimUID mainRequest : string) : string := claimUID +:+ "/" +:+ mainRequest.
Definition podID (pod : Pod) : string := p_Namespace pod +:+ "/" +:+ p_Name pod.
Definition containerID (pod : Pod) (containerName : string) : string := p_Namespace pod +:+ "/" +:+ p_Name pod +:+ "/" +:+ containerName.

Definition getAllocatedVGPURequests (claim : ResourceClaim) : gset string :=
  GetAllocatedVGPURequests claim DRADriverName (λ req, DeviceRequestLooksLikeVGPU req true (op_VGPUDeviceClassName o))
    (λ sub, SubRequestLooksLikeVGPU sub true (op_VGPUDeviceClassName o)).

(** [getClaimCached]: the claim under review is in the cache from the start. *)
Definition getClaimCached (currentClaim : ResourceClaim) (namespace name : string) : result claim_error ResourceClaim :=
  if bool_decide (namespace = rc_Namespace currentClaim) && bool_decide (name = rc_Name currentClaim) then Ok currentClaim
  else get_resource_claim namespace name.

Record actualRequestUsage := { au_Pods : gset string; au_Containers : requestUsage }.
Definition no_actual_usage : actualRequestUsage := {| au_Pods := ∅; au_Containers := no_usage |}.

Inductive guard_error :=
| ErrResolve (pod claim text : string)
| ErrGetClaim (namespace name text : string)
| ErrManyAllocated (pod container : string) (claims : list string)
| ErrShared (e : share_error)
| ErrManyPods (request : string) (pods : list string)
| ErrReservedPods (text : string).

(** One reference: the claim it hits, if vGPUs of it are allocated, and the requests. *)
Definition reference_hits (currentClaim : ResourceClaim) (pod : Pod) (ref : ContainerClaim)
  : result guard_error (option (ResourceClaim * list string)) :=
  match ResolveActualClaimNameForPodClaim pod (cc_Name ref) with
  | Fail e => Fail (ErrResolve (podID pod) (cc_Name ref) e)
  | Ok None => Ok None
  | Ok (Some actual) =>
      match getClaimCached currentClaim (p_Namespace pod) actual with
      | Fail ClaimNotFound => Ok None
      | Fail (ClaimError e) => Fail (ErrGetClaim (p_Namespace pod) actual e)
      | Ok claim =>
          let allocated := getAllocatedVGPURequests claim in
          if bool_decide (allocated = ∅) then Ok None
          else Ok (Some (claim, ResolveActualAllocatedRequestsForClaimRef ref allocated))
      end
  end.

(** The vGPU claims a container hits, by uid, and its requests of the claim under review. *)
Fixpoint container_hits (currentClaim : ResourceClaim) (pod : Pod) (refs : list ContainerClaim)
  : result guard_error (gset string * gset string) :=
  match refs with
  | [] => Ok (∅, ∅)
  | ref :: refs =>
      let* hit := reference_hits currentClaim pod ref in
      let* rest := container_hits currentClaim pod refs in
      match hit with
      | None => Ok rest
      | Some (claim, requests) =>
          Ok ((if bool_decide (requests ≠ []) then {[ rc_UID claim ]} else ∅) ∪ rest.1,
              (if bool_decide (rc_UID claim = rc_UID currentClaim) then list_to_set requests else ∅) ∪ rest.2)
      end
  end.

(** The container under its cluster-wide name. *)
Definition identified (pod : Pod) (c : ContainerRef) : ContainerRef :=
  {| cr_Name := containerID pod (cr_Name c); cr_Claims := cr_Claims c; cr_Kind := cr_Kind c; cr_Restartable := cr_Restartable c |}.

Definition record_actual (pod : Pod) (c : ContainerRef) (u : actualRequestUsage) : actualRequestUsage :=
  {| au_Pods := {[ podID pod ]} ∪ au_Pods u; au_Containers := record_use (identified pod c) (au_Containers u) |}.

Definition actual_usage_error (request : string) (u : actualRequestUsage) : option guard_error :=
  match usage_error request (au_Containers u) with
  | Some e => Some (ErrShared e)
  | None => if bool_decide (1 < size (au_Pods u))%nat then Some (ErrManyPods request (set_list (au_Pods u))) else None
  end.

Fixpoint use_requests (currentClaim : ResourceClaim) (pod : Pod) (c : ContainerRef) (requests : list string)
    (usages : gmap string actualRequestUsage) : result guard_error (gmap string actualRequestUsage) :=
  match requests with
  | [] => Ok usages
  | mainReq :: requests =>
      let key := buildClaimScopedRequestKey (rc_UID currentClaim) mainReq in
      let usage := record_actual pod c (default no_actual_usage (usages !! key)) in
      match actual_usage_error mainReq usage with
      | Some e => Fail e
      | None => use_requests currentClaim pod c requests (<[key := usage]> usages)
      end
  end.

Fixpoint validate_containers (currentClaim : ResourceClaim) (pod : Pod) (cs : list ContainerRef) (usages : gmap string actualRequestUsage)
  : result guard_error (gmap string actualRequestUsage) :=
  match cs with
  | [] => Ok usages
  | c :: cs =>
      let* hits := container_hits currentClaim pod (cr_Claims c) in
      if bool_decide (1 < size hits.1)%nat then Fail (ErrManyAllocated (podID pod) (cr_Name c) (set_list hits.1))
      else
        let* usages := use_requests currentClaim pod c (set_list hits.2) usages in
        validate_containers currentClaim pod cs usages
  end.

Definition validateOneReservedPodAgainstAllocatedClaim (pod : Pod) (currentClaim : ResourceClaim) (usages : gmap string actualRequestUsage)
  : result guard_error (gmap string actualRequestUsage) :=
  validate_containers currentClaim pod (GetAllPodContainers pod) usages.

Fixpoint validate_pods (claim : ResourceClaim) (pods : list Pod) (usages : gmap string actualRequestUsage) : option guard_error :=
  match pods with
  | [] => None
  | pod :: pods =>
      match validateOneReservedPodAgainstAllocatedClaim pod claim usages with
      | Fail e => Some e
      | Ok usages => validate_pods claim pods usages
      end
  end.

Definition validateAllocatedVGPUSharing (claim : ResourceClaim) : option guard_error :=
  if bool_decide (rc_Allocation claim = None) then None
  else if bool_decide (getAllocatedVGPURequests claim = ∅) then None
  else
    match GetReservedPods claim with
    | Fail e => Some (ErrReservedPods e)
    | Ok pods => validate_pods claim pods ∅
    end.
End guard.

(** ** Parameters of the driver *)

(** A decoded configuration, with what its type offers. *)
Class ConfigLib : Type := {
  device_config : Type;
  strict_decode : string → result string device_config;
  recognized : device_config → bool;
  config_Normalize : device_config → result string device_config;
  config_Validate : device_config → option string
}.

Inductive config_error := ErrDecodeConfig (index : nat) (text : string) | ErrConfigType (index : nat) | ErrNormalize (index : nat) (text : string)
| ErrInvalidConfig (index : nat) (text : string).

Definition config_error_of `{ConfigLib} (index : nat) (config : option OpaqueConfig) : option config_error :=
  match config with
  | None => None
  | Some config =>
      if bool_decide (oc_Driver config ≠ DRADriverName) then None
      else
        match strict_decode (oc_Parameters config) with
        | Fail e => Some (ErrDecodeConfig index e)
        | Ok decoded =>
            if negb (recognized decoded) then Some (ErrConfigType index)
            else
              match config_Normalize decoded with
              | Fail e => Some (ErrNormalize index e)
              | Ok normal => ErrInvalidConfig index <$> config_Validate normal
              end
        end
  end.

Inductive admit_error := ErrConflict (e : guard_error) | ErrConfigs (errs : list config_error).

Inductive ClaimOperation := ClaimCreate | ClaimUpdate | ClaimOther.
#[export] Instance ClaimOperation_eq : EqDecision ClaimOperation.
Proof. solve_decision. Defined.

(** [admitResourceClaimParameters] for a claim, under [Handle]: the refusal, and the warning event. *)
Definition admitResourceClaim `{ResourceApi} `{ConfigLib} (o : Options) (op : ClaimOperation) (status dryRun : bool) (claim : ResourceClaim)
  : option admit_error * list guard_error :=
  match op with
  | ClaimOther => (None, [])
  | _ =>
      match (if bool_decide (op = ClaimUpdate) && status then validateAllocatedVGPUSharing o claim else None) with
      | Some e => (Some (ErrConflict e), if dryRun then [] else [e])
      | None =>
          match omap id (imap config_error_of (rc_Config claim)) with
          | [] => (None, [])
          | errs => (Some (ErrConfigs errs), [])
          end
      end
  end.
