(* ===== verification/ClaimGuardSpec.v ===== *)
(** * No two containers of a reserved claim hold the same vGPU

    What the claim webhook's final check guarantees of every status it lets
    through, with the classes and lifetimes of [ClaimShareSpec]. *)

From stdpp Require Import base list gmap strings.
From Stdlib Require Import ZArith Lia.
From S2P Require Import Prelude GoMap GoSort GoStrings GoFmt GoTime Kube Claims DnsName Footprint Device NodeInfo Request.
From S2P Require Import Admission AdmissionSpec Dra ClaimShare ClaimShareSpec Placement ClaimGuard.

(** Containers seen so far, with their pods and requests. *)
Local Notation seen := (list (Pod * ContainerRef * gset string)).

Definition identities (l : seen) : list (ContainerRef * gset string) := (λ e, (identified e.1.1 e.1.2, e.2)) <$> l.
Definition holders (request : string) (l : seen) : gset string :=
  list_to_set ((λ e, podID e.1.1) <$> filter (λ e, request ∈ e.2) l).

Definition usage_in (l : seen) (request : string) : actualRequestUsage :=
  {| au_Pods := holders request l; au_Containers := usage_of (identities l) request |}.

(** No rule is broken. *)
Definition exclusive (l : seen) : Prop := fine (identities l) ∧ ∀ request, (size (holders request l) ≤ 1)%nat.

Lemma elem_holders request l id : id ∈ holders request l ↔ ∃ pod c keys, (pod, c, keys) ∈ l ∧ request ∈ keys ∧ podID pod = id.
Proof.
  unfold holders. rewrite elem_of_list_to_set, list_elem_of_fmap. split.
  - intros ([[pod c] keys] & -> & [Hr Hin]%list_elem_of_filter). by exists pod, c, keys.
  - intros (pod & c & keys & Hin & Hr & <-). exists (pod, c, keys). split; [done|]. by apply list_elem_of_filter.
Qed.

Lemma usage_in_snoc l pod c keys request :
  usage_in (l ++ [(pod, c, keys)]) request =
  if decide (request ∈ keys) then record_actual pod c (usage_in l request) else usage_in l request.
Proof.
  unfold usage_in, identities, record_actual. rewrite fmap_app, list_fmap_singleton. simpl. rewrite usage_snoc. unfold holders.
  rewrite filter_app, fmap_app, list_to_set_app_L, filter_cons. simpl. destruct (decide (request ∈ keys)); simpl; f_equal; set_solver.
Qed.

Lemma usage_in_fine l request :
  actual_usage_error request (usage_in l request) = None ↔
  usage_error request (usage_of (identities l) request) = None ∧ (size (holders request l) ≤ 1)%nat.
Proof.
  unfold actual_usage_error. simpl. destruct (usage_error request _) as [e|]; [split; [done|by intros [? _]]|].
  case_bool_decide; (split; [done || (intros _; split; [done|lia])|]); [intros [_ ?]; lia|done].
Qed.

Section guard.
Context `{ResourceApi} (o : Options) (claim : ResourceClaim).

Definition usages_of (usages : gmap string actualRequestUsage) (l : seen) : Prop :=
  ∀ request, default no_actual_usage (usages !! buildClaimScopedRequestKey (rc_UID claim) request) = usage_in l request.

(** The requests of the claim under review a container uses, of one vGPU claim at most. *)
Definition uses (pod : Pod) (c : ContainerRef) (requests : gset string) : Prop :=
  ∃ claims, container_hits o claim pod (cr_Claims c) = Ok (claims, requests) ∧ (size claims ≤ 1)%nat.

Lemma scoped_key_inj r r' : buildClaimScopedRequestKey (rc_UID claim) r = buildClaimScopedRequestKey (rc_UID claim) r' → r = r'.
Proof. unfold buildClaimScopedRequestKey. intros E%str_app_inj_l. by injection E. Qed.

Lemma use_requests_spec pod c requests usages usages' :
  NoDup requests → use_requests claim pod c requests usages = Ok usages' →
  (∀ r, r ∈ requests → actual_usage_error r (record_actual pod c
     (default no_actual_usage (usages !! buildClaimScopedRequestKey (rc_UID claim) r))) = None) ∧
  ∀ r, default no_actual_usage (usages' !! buildClaimScopedRequestKey (rc_UID claim) r) =
    let u := default no_actual_usage (usages !! buildClaimScopedRequestKey (rc_UID claim) r) in
    if decide (r ∈ requests) then record_actual pod c u else u.
Proof.
  revert usages. induction requests as [|r requests IH]; intros usages Hnd; cbn [use_requests].
  { intros [= ->]. split; [by intros ? ?%elem_of_nil|]. intros r. by rewrite decide_False by apply not_elem_of_nil. }
  apply NoDup_cons in Hnd as [Hr Hnd]. cbv zeta. destruct (actual_usage_error r _) eqn:Ee; [done|]. intros Hok.
  destruct (IH _ Hnd Hok) as [Hnone Hrec]. split.
  - intros r' [->|Hr']%elem_of_cons; [done|]. specialize (Hnone r' Hr').
    rewrite lookup_insert_ne in Hnone by (intros E%scoped_key_inj; congruence). exact Hnone.
  - intros r'. rewrite Hrec. cbv zeta. destruct (decide (r' = r)) as [->|Hne].
    + rewrite decide_False by done. rewrite decide_True by (by left). by rewrite lookup_insert_eq.
    + rewrite lookup_insert_ne by (intros E%scoped_key_inj; congruence).
      destruct (decide (r' ∈ requests)); [rewrite decide_True by (by right); done|].
      rewrite decide_False; [done|]. by intros [?|?]%elem_of_cons.
Qed.

Lemma validate_containers_spec pod cs usages usages' l :
  usages_of usages l → exclusive l → validate_containers o claim pod cs usages = Ok usages' →
  ∃ ks, Forall2 (uses pod) cs ks ∧ usages_of usages' (l ++ zip_with (λ c k, (pod, c, k)) cs ks) ∧
    exclusive (l ++ zip_with (λ c k, (pod, c, k)) cs ks).
Proof.
  revert usages l. induction cs as [|c cs IH]; intros usages l Hrec Hex; cbn [validate_containers].
  { intros [= ->]. exists []. simpl. rewrite app_nil_r. done. }
  destruct (container_hits _ _ _ _) as [[claims requests]|e] eqn:Eh; [|done]. cbn [rbind fst snd]. case_bool_decide as Hsz; [done|].
  destruct (use_requests _ _ _ _ _) as [usages1|e] eqn:Eu; [|done]. cbn [rbind]. intros Hok.
  apply use_requests_spec in Eu as [Hnone Hrec1]; [|apply set_list_nodup].
  assert (usages_of usages1 (l ++ [(pod, c, requests)])) as Hrec'.
  { intros r. rewrite Hrec1, usage_in_snoc, (Hrec r). cbv zeta. destruct (decide (r ∈ requests)) as [Hr|Hr].
    - by rewrite decide_True by by apply set_list_elem.
    - by rewrite decide_False by by rewrite set_list_elem. }
  assert (∀ r, actual_usage_error r (usage_in (l ++ [(pod, c, requests)]) r) = None) as Hfine.
  { intros r. rewrite usage_in_snoc. destruct (decide (r ∈ requests)) as [Hr|Hr].
    - rewrite <- (Hrec r). apply Hnone. by apply set_list_elem.
    - apply usage_in_fine. by split; [apply Hex|apply Hex]. }
  assert (exclusive (l ++ [(pod, c, requests)])) as Hex' by (split; intros r; by apply usage_in_fine, Hfine).
  destruct (IH _ _ Hrec' Hex' Hok) as (ks & HF & Hr). exists (requests :: ks). simpl. rewrite <- app_assoc in Hr.
  split; [|exact Hr]. constructor; [|done]. exists claims. split; [done|lia].
Qed.

(** All containers of all pods, with the requests they use. *)
Lemma validate_pods_spec pods usages l :
  usages_of usages l → exclusive l → validate_pods o claim pods usages = None →
  ∃ l', exclusive l' ∧ ∀ pod c, pod ∈ pods → c ∈ GetAllPodContainers pod → ∃ keys, uses pod c keys ∧ (pod, c, keys) ∈ l'.
Proof.
  enough (usages_of usages l → exclusive l → validate_pods o claim pods usages = None →
    ∃ l', exclusive (l ++ l') ∧ ∀ pod c, pod ∈ pods → c ∈ GetAllPodContainers pod → ∃ keys, uses pod c keys ∧ (pod, c, keys) ∈ l') as Hx.
  { intros Hrec Hex Hok. destruct (Hx Hrec Hex Hok) as (l' & Hl & Hall). exists (l ++ l'). split; [done|]. intros pod c Hp Hc.
    destruct (Hall _ _ Hp Hc) as (keys & ? & ?). exists keys. split; [done|]. apply elem_of_app. by right. }
  revert usages l. induction pods as [|pod pods IH]; intros usages l Hrec Hex; cbn [validate_pods].
  { intros _. exists []. rewrite app_nil_r. split; [done|]. by intros ? ? ?%elem_of_nil. }
  unfold validateOneReservedPodAgainstAllocatedClaim. destruct (validate_containers _ _ _ _ _) as [usages1|e] eqn:Ev; [|done]. intros Hok.
  destruct (validate_containers_spec _ _ _ _ _ Hrec Hex Ev) as (ks & HF & Hrec1 & Hex1).
  destruct (IH _ _ Hrec1 Hex1 Hok) as (l' & Hl & Hall). eexists. rewrite <- app_assoc in Hl. split; [exact Hl|].
  intros p c [->|Hp]%elem_of_cons Hc.
  - apply list_elem_of_lookup in Hc as [i Hi]. destruct (Forall2_lookup_l _ _ _ _ _ HF Hi) as (keys & Hk & Hu). exists keys.
    split; [done|]. apply elem_of_app. left. apply list_elem_of_lookup. exists i. by rewrite lookup_zip_with, Hi, Hk.
  - destruct (Hall _ _ Hp Hc) as (keys & ? & ?). exists keys. split; [done|]. apply elem_of_app. by right.
Qed.

(** C15 A claim's status is let through only when its allocated vGPU requests
    are held exclusively: of all containers of all pods the claim is reserved
    for, those that use the same request belong to one pod, and two of them
    are never alive at the same time. *)
Theorem allocated_requests_exclusive pods p q ci cj ki kj request :
  validateAllocatedVGPUSharing o claim = None → getAllocatedVGPURequests o claim ≠ ∅ → GetReservedPods claim = Ok pods →
  p ∈ pods → q ∈ pods → ci ∈ GetAllPodContainers p → cj ∈ GetAllPodContainers q →
  uses p ci ki → uses q cj kj → request ∈ ki → request ∈ kj →
  podID p = podID q ∧
  ∀ i j t, p = q → distinct_names p → GetAllPodContainers p !! i = Some ci → GetAllPodContainers p !! j = Some cj → i ≠ j →
    ¬ (alive (length (p_InitContainers p)) i ci t ∧ alive (length (p_InitContainers p)) j cj t).
Proof.
  intros Hv Hne Hpods Hp Hq Hci Hcj Hui Huj Hri Hrj. unfold validateAllocatedVGPUSharing in Hv. rewrite Hpods in Hv.
  rewrite bool_decide_eq_false_2 in Hv.
  2:{ intros E. apply Hne. unfold getAllocatedVGPURequests, GetAllocatedVGPURequests. by rewrite E. }
  rewrite bool_decide_eq_false_2 in Hv by done.
  destruct (validate_pods_spec pods ∅ []) as (l & [Hfine Hone] & Hall); [by intros r; rewrite lookup_empty|..|done|].
  { split; [by intros key|]. intros r. change (holders r []) with (∅ : gset string). rewrite size_empty. lia. }
  destruct (Hall _ _ Hp Hci) as (k1 & (? & E1 & _) & Hin1), (Hall _ _ Hq Hcj) as (k2 & (? & E2 & _) & Hin2).
  destruct Hui as (? & E1' & _), Huj as (? & E2' & _). assert (k1 = ki) as -> by congruence. assert (k2 = kj) as -> by congruence.
  split.
  - apply (proj1 (size_le_1 _) (Hone request)); apply elem_holders; eauto 10.
  - intros i j t <- Hnames Hi Hj Hij. apply never_together; [done..|].
    assert (∀ c k, (p, c, k) ∈ l → (identified p c, k) ∈ identities l) as Hid.
    { intros c k Hc. exact (list_elem_of_fmap_2 (λ e, (identified e.1.1 e.1.2, e.2)) _ _ Hc). }
    apply (shared_classes _ request (identified p ci) ki (identified p cj) kj Hfine (Hid _ _ Hin1) (Hid _ _ Hin2) Hri Hrj).
    simpl. unfold containerID. intros E. apply str_app_inj_l in E. injection E as E. apply str_app_inj_l in E. injection E as E.
    by apply (names_differ p i j ci cj).
Qed.
End guard.

(** ** The init container and the app of one pod share a request; a second pod waits *)
Module GuardDemo.
Import AdmissionDemo ShareDemo.

Definition reserved_for (names : list string) : ResourceClaim :=
  {| rc_Name := "gpus"; rc_Namespace := "default"; rc_Labels := ∅; rc_Annotations := ∅; rc_Constraints := [];
     rc_DeviceRequests := [vgpu_request "a"; vgpu_request "b"];
     rc_ReservedFor := (λ n, {| cf_APIGroup := ""; cf_Resource := "pods"; cf_Name := n; cf_UID := "" |}) <$> names;
     rc_UID := "uid-gpus"; rc_Config := [];
     rc_Allocation := Some [{| ar_Request := "a"; ar_Driver := DRADriverName |}; {| ar_Request := "b"; ar_Driver := DRADriverName |}] |}.

Definition late : Pod := with_rest (Demo.pod "late" [] [holder "warm" "b"] []) (p_Rest handover).

Definition server : ResourceApi :=
  {| get_resource_claim _ _ := Fail ClaimNotFound; get_claim_template _ _ := Fail ClaimNotFound; get_device_class _ := None;
     get_reserved_pod _ name := if bool_decide (name = "job") then Ok handover else if bool_decide (name = "late") then Ok late
                                else Fail ClaimNotFound |}.
#[local] Existing Instance server.

Example second_pod_refused :
  validateAllocatedVGPUSharing opts (reserved_for ["job"; "late"; "gone"]) = Some (ErrManyPods "b" ["default/job"; "default/late"]).
Proof. vm_compute. reflexivity. Qed.

Lemma uses_a i : (i < 2)%nat → uses opts (reserved_for ["job"]) handover (nth_ref i) {[ "a" ]}.
Proof. intros Hi. exists {[ "uid-gpus" ]}. split; [|by vm_compute]. destruct i as [|[|i]]; [vm_compute; reflexivity..|lia]. Qed.

Lemma allocated_requests_exclusive_witness :
  validateAllocatedVGPUSharing opts (reserved_for ["job"]) = None ∧ alive 1 0 (nth_ref 0) 0 ∧
  ¬ (alive 1 0 (nth_ref 0) 0 ∧ alive 1 1 (nth_ref 1) 0).
Proof.
  split; [vm_compute; reflexivity|]. split; [vm_compute; reflexivity|].
  apply (allocated_requests_exclusive opts (reserved_for ["job"]) [handover] handover handover (nth_ref 0) (nth_ref 1)
    {[ "a" ]} {[ "a" ]} "a") with (i := 0%nat) (j := 1%nat).
  - vm_compute. reflexivity.
  - vm_compute. discriminate.
  - vm_compute. reflexivity.
  - left.
  - left.
  - apply list_elem_of_lookup. by exists 0%nat.
  - apply list_elem_of_lookup. by exists 1%nat.
  - apply uses_a. lia.
  - apply uses_a. lia.
  - set_solver.
  - set_solver.
  - reflexivity.
  - unfold distinct_names. refine (bool_decide_unpack _ _). vm_compute. exact I.
  - reflexivity.
  - reflexivity.
  - discriminate.
Defined.
End GuardDemo.
