(* ===== verification/Partitions.v ===== *)
(** * Partitions of a claim ([pkg/claimresolve/partitions.go])

    The containers that use a shared claim and its allocated vGPU requests
    form a graph; the node plugins give every connected part one set of
    devices and one registration key.  [walkPartition] is the depth-first
    search with an explicit stack; its fuel is the number of edge ends. *)

From stdpp Require Import base list gmap strings.
From Stdlib Require Import ZArith Lia Ascii.
From S2P Require Import Prelude GoMap GoSort GoStrings GoFmt Sha256 GoTime Kube Claims DnsName Footprint Device NodeInfo Request.
From S2P Require Import Admission Dra ClaimShare ClaimGuard.

Record PartitionDetail := { pd_Key : string; pd_Containers : list string; pd_Requests : list string }.
Record PartitionCandidate := { pc_Pod : Pod; pc_ContainerName : string; pc_Kind : string }.
Record PartitionInfo := {
  pi_RequestToPartition : gmap string string;
  pi_Partitions : gmap string PartitionDetail;
  pi_CandidatesByKey : gmap string (list PartitionCandidate);
  pi_Fallback : bool
}.

Definition appendUniqueCandidate (l : list PartitionCandidate) (cand : PartitionCandidate) : list PartitionCandidate :=
  if existsb (λ c, bool_decide (p_UID (pc_Pod c) = p_UID (pc_Pod cand)) && bool_decide (pc_ContainerName c = pc_ContainerName cand)) l
  then l else l ++ [cand].

Definition buildContainerKey (pod : Pod) (kind containerName : string) : string :=
  p_UID pod +:+ "/" +:+ kind +:+ "/" +:+ containerName.
Definition buildRequestNode (request : string) : string := "r:" +:+ request.

(** ** The graph *)

Notation graph := (gmap string (gset string)).
Definition neighbours (g : graph) (node : string) : gset string := default ∅ (g !! node).

Definition linkGraph (g : graph) (left right : string) : graph :=
  let g := <[left := neighbours g left]> g in
  let g := <[right := neighbours g right]> g in
  let g := <[left := {[ right ]} ∪ neighbours g left]> g in
  <[right := {[ left ]} ∪ neighbours g right]> g.

(** ** The search *)

(** The stack has its top first: what is appended last is taken first. *)
Fixpoint walk (fuel : nat) (g : graph) (stack : list string) (visited containers requests : gset string)
  : option (gset string * gset string * gset string) :=
  match stack, fuel with
  | [], _ => Some (containers, requests, visited)
  | _, O => None
  | node :: stack, S fuel =>
      if bool_decide (node ∈ visited) then walk fuel g stack visited containers requests
      else
        let visited := {[ node ]} ∪ visited in
        let next := filter (λ n, n ∉ visited) (set_list (neighbours g node)) in
        if HasPrefix node "r:"
        then walk fuel g (reverse next ++ stack) visited containers ({[ str_drop 2 node ]} ∪ requests)
        else walk fuel g (reverse next ++ stack) visited ({[ node ]} ∪ containers) requests
  end.

Definition walk_fuel (g : graph) : nat := S (sum_list_with (λ e, size e.2) (map_to_list g)).

Definition walkPartition (g : graph) (start : string) (visited : gset string) : option (list string * list string * gset string) :=
  (λ r, (set_list r.1.1, set_list r.1.2, r.2)) <$> walk (walk_fuel g) g [start] visited ∅ ∅.

(** ** Keys *)

Definition shortHash (value : string) : string := str_take 12 (sha256_hex value).

(** A container key has two slashes at least, so it always splits. *)
Definition buildPartitionKey (containers requests : list string) : string :=
  match containers with
  | [container] =>
      let '(uid, rest, found) := cut_char "/"%char container in
      if found then "pod-" +:+ shortHash uid +:+ "-" +:+ rest else "pod-" +:+ shortHash container
  | _ => "cg-" +:+ shortHash (join_char ","%char containers +:+ "|" +:+ join_char ","%char requests)
  end.

(** ** Resolution *)

Record build_state := {
  bs_graph : graph;
  bs_edges : nat;
  bs_candidates : gmap string (list PartitionCandidate);
  bs_containerCands : gmap string PartitionCandidate
}.

Section resolve.
Context `{MapOrder} `{ResourceApi} (claim : ResourceClaim) (allocated : gset string).

Definition add_request (key : string) (cand : PartitionCandidate) (st : build_state) (request : string) : build_state :=
  {| bs_graph := linkGraph (bs_graph st) key (buildRequestNode request); bs_edges := S (bs_edges st);
     bs_candidates := <[request := appendUniqueCandidate (default [] (bs_candidates st !! request)) cand]> (bs_candidates st);
     bs_containerCands := <[key := cand]> (bs_containerCands st) |}.

(** The requests of this claim a reference stands for. *)
Definition referenced (pod : Pod) (ref : ContainerClaim) : result string (list string) :=
  let* actual := ResolveActualClaimNameForPodClaim pod (cc_Name ref) in
  Ok (if bool_decide (actual = Some (rc_Name claim)) then ResolveActualAllocatedRequestsForClaimRef ref allocated else []).

Fixpoint add_refs (pod : Pod) (c : ContainerRef) (refs : list ContainerClaim) (st : build_state) : result string build_state :=
  match refs with
  | [] => Ok st
  | ref :: refs =>
      let* requests := referenced pod ref in
      let key := buildContainerKey pod (cr_Kind c) (cr_Name c) in
      let cand := {| pc_Pod := pod; pc_ContainerName := cr_Name c; pc_Kind := cr_Kind c |} in
      add_refs pod c refs (fold_left (add_request key cand) requests st)
  end.

Fixpoint add_containers (pod : Pod) (cs : list ContainerRef) (st : build_state) : result string build_state :=
  match cs with
  | [] => Ok st
  | c :: cs => let* st := add_refs pod c (cr_Claims c) st in add_containers pod cs st
  end.

Fixpoint add_pods (pods : list Pod) (st : build_state) : result string build_state :=
  match pods with
  | [] => Ok st
  | pod :: pods => let* st := add_containers pod (GetAllPodContainers pod) st in add_pods pods st
  end.

(** One partition found from [node]; a part without requests is skipped. *)
Definition partition_step (st : build_state) (acc : option (PartitionInfo * gset string)) (node : string)
  : option (PartitionInfo * gset string) :=
  match acc with
  | None => None
  | Some (info, visited) =>
      if bool_decide (node ∈ visited) then acc
      else
        match walkPartition (bs_graph st) node visited with
        | None => None
        | Some (containers, requests, visited) =>
            if bool_decide (requests = []) then Some (info, visited)
            else
              let key := buildPartitionKey containers requests in
              Some ({| pi_RequestToPartition := fold_left (λ m r, <[r := key]> m) requests (pi_RequestToPartition info);
                       pi_Partitions := <[key := {| pd_Key := key; pd_Containers := containers; pd_Requests := requests |}]> (pi_Partitions info);
                       pi_CandidatesByKey :=
                         fold_left (λ m ck, match bs_containerCands st !! ck with
                                            | Some cand => <[key := appendUniqueCandidate (default [] (m !! key)) cand]> m
                                            | None => m
                                            end) containers (pi_CandidatesByKey info);
                       pi_Fallback := pi_Fallback info |}, visited)
        end
  end.

Definition with_fallback (info : PartitionInfo) : PartitionInfo :=
  {| pi_RequestToPartition := pi_RequestToPartition info; pi_Partitions := pi_Partitions info;
     pi_CandidatesByKey := pi_CandidatesByKey info; pi_Fallback := true |}.

Definition no_partitions (candidates : gmap string (list PartitionCandidate)) : PartitionInfo :=
  {| pi_RequestToPartition := ∅; pi_Partitions := ∅; pi_CandidatesByKey := candidates; pi_Fallback := false |}.

(** The walk over a finished graph; [None] would be a search out of fuel. *)
Definition find_partitions (st : build_state) : option PartitionInfo :=
  match fold_left (partition_step st) (range_str (bs_graph st)).*1 (Some (no_partitions (bs_candidates st), ∅)) with
  | None => None
  | Some (info, _) => Some (if bool_decide (pi_RequestToPartition info = ∅) then with_fallback info else info)
  end.

Definition ResolveClaimVGPUPartitionsFromAllocatedRequests : result string (option PartitionInfo) :=
  if bool_decide (allocated = ∅) then Ok (Some (no_partitions ∅))
  else
    let* pods := GetReservedPods claim in
    if bool_decide (length pods = 0%nat) then Ok (Some (with_fallback (no_partitions ∅)))
    else
      let* st := add_pods pods {| bs_graph := ∅; bs_edges := 0; bs_candidates := ∅; bs_containerCands := ∅ |} in
      if bool_decide (bs_edges st = 0%nat) then Ok (Some (with_fallback (no_partitions (bs_candidates st))))
      else Ok (find_partitions st).
End resolve.

Definition ResolveClaimVGPUPartitions `{MapOrder} `{ResourceApi} (claim : ResourceClaim) (driverName : string)
    (isVGPUDeviceRequest : DeviceRequest → bool) (isVGPUSubRequest : DeviceSubRequest → bool) : result string (option PartitionInfo) :=
  ResolveClaimVGPUPartitionsFromAllocatedRequests claim
    (GetAllocatedVGPURequests claim driverName isVGPUDeviceRequest isVGPUSubRequest).
