(* ===== verification/PartitionsSpec.v ===== *)
(** * Partitions are the connected parts of a claim's use

    The search terminates within its fuel, finds exactly the connected part of
    its start, and so two requests get one key exactly when a chain of
    containers leads from one to the other, whatever the map order. *)

From stdpp Require Import base list gmap strings relations.
From Stdlib Require Import ZArith Lia Ascii.
From S2P Require Import Prelude GoMap GoSort GoStrings GoFmt Sha256 GoTime Kube Claims DnsName Footprint Device NodeInfo Request.
From S2P Require Import Admission AdmissionSpec Dra ClaimShare ClaimShareSpec ClaimGuard ClaimGuardSpec Partitions.

(** ** The search *)

Section search.
Context (g : graph).

Definition adjacent (x y : string) : Prop := y ∈ neighbours g x.

(** The edge ends at nodes still to be visited. *)
Definition pending (visited : gset string) : nat :=
  sum_list_with (λ e, if decide (e.1 ∈ visited) then 0 else size e.2)%nat (map_to_list g).

Lemma sum_list_with_ext {A} (f h : A → nat) l : (∀ x, x ∈ l → f x = h x) → sum_list_with f l = sum_list_with h l.
Proof. induction l as [|x l IH]; intros Hx; [done|]. simpl. rewrite (Hx x) by (by left). f_equal. apply IH. intros y Hy. apply Hx. by right. Qed.

Lemma sum_list_with_perm {A} (f : A → nat) l l' : l ≡ₚ l' → sum_list_with f l = sum_list_with f l'.
Proof. induction 1; simpl; lia. Qed.

Lemma pending_visit node visited :
  node ∉ visited → (pending ({[ node ]} ∪ visited) + size (neighbours g node) = pending visited)%nat.
Proof.
  intros Hn. unfold pending, neighbours. destruct (g !! node) as [s|] eqn:Eg; cbn [default from_option id].
  - assert (map_to_list g ≡ₚ (node, s) :: map_to_list (delete node g)) as Hp
      by (rewrite <- (insert_delete_id g node s Eg) at 1; apply map_to_list_insert, lookup_delete_eq).
    rewrite !(sum_list_with_perm _ _ _ Hp). simpl. rewrite decide_True by set_solver. rewrite decide_False by done.
    erewrite (sum_list_with_ext _ (λ e, if decide (e.1 ∈ visited) then 0 else size e.2)%nat); [lia|].
    intros [k t] Hin. simpl. apply elem_of_map_to_list, lookup_delete_Some in Hin as [Hne _].
    destruct (decide (k ∈ visited)); [by rewrite decide_True by set_solver|by rewrite decide_False by set_solver].
  - rewrite (size_empty (C := gset string)), Nat.add_0_r. apply sum_list_with_ext. intros [k t] Hin. simpl. apply elem_of_map_to_list in Hin.
    assert (k ≠ node) by congruence.
    destruct (decide (k ∈ visited)); [by rewrite decide_True by set_solver|by rewrite decide_False by set_solver].
Qed.

Lemma length_set_list (s : gset string) : length (set_list s) = size s.
Proof. unfold set_list, sort_strings. by rewrite sort_slice_length. Qed.

(** The fuel is enough. *)
Lemma walk_total fuel stack visited containers requests :
  (length stack + pending visited ≤ fuel)%nat → ∃ r, walk fuel g stack visited containers requests = Some r.
Proof.
  revert stack visited containers requests. induction fuel as [|fuel IH]; intros [|node stack] visited containers requests Hf; simpl in Hf;
    [by eexists|lia|by eexists|]. cbn [walk]. case_bool_decide as Hn; [apply IH; lia|]. cbv zeta.
  pose proof (pending_visit node visited Hn) as Hp. set (next := filter _ _).
  assert (length next ≤ size (neighbours g node))%nat as Hnext by (rewrite <- length_set_list; apply length_filter).
  destruct (HasPrefix node "r:"); apply IH; rewrite length_app, length_reverse; lia.
Qed.

Lemma prefix_r x : HasPrefix x "r:" = true → x = buildRequestNode (str_drop 2 x).
Proof.
  destruct x as [|a [|b x]]; simpl; [done|by rewrite andb_false_r|].
  intros [->%Ascii.eqb_eq [->%Ascii.eqb_eq _]%andb_true_iff]%andb_true_iff. done.
Qed.

Lemma node_prefix r : HasPrefix (buildRequestNode r) "r:" = true.
Proof. by destruct r. Qed.

Lemma node_inj r r' : buildRequestNode r = buildRequestNode r' → r = r'.
Proof. by intros [= ->]. Qed.

Lemma node_drop r : str_drop 2 (buildRequestNode r) = r.
Proof. done. Qed.

(** A node that was taken, as the two sets record it. *)
Definition collected (containers requests : gset string) (x : string) : Prop :=
  if HasPrefix x "r:" then str_drop 2 x ∈ requests else x ∈ containers.

Lemma collect_request node containers requests x : HasPrefix node "r:" = true →
  collected containers ({[ str_drop 2 node ]} ∪ requests) x ↔ x = node ∨ collected containers requests x.
Proof.
  intros Hn. unfold collected. destruct (HasPrefix x "r:") eqn:Ex.
  - rewrite elem_of_union, elem_of_singleton. split; [|intros [->|?]; tauto]. intros [E|?]; [|by right]. left.
    by rewrite (prefix_r _ Hn), (prefix_r _ Ex), E.
  - split; [by right|]. intros [->|?]; [congruence|done].
Qed.

Lemma collect_container node containers requests x : HasPrefix node "r:" = false →
  collected ({[ node ]} ∪ containers) requests x ↔ x = node ∨ collected containers requests x.
Proof.
  intros Hn. unfold collected. destruct (HasPrefix x "r:") eqn:Ex.
  - split; [by right|]. intros [->|?]; [congruence|done].
  - rewrite elem_of_union, elem_of_singleton. done.
Qed.

(** The search from [start], with [before] visited earlier. *)
Record searching (before : gset string) (start : string) (stack : list string) (visited containers requests : gset string) : Prop := {
  sg_visited x : x ∈ visited ↔ x ∈ before ∨ collected containers requests x;
  sg_new x : collected containers requests x → x ∉ before ∧ rtc adjacent start x;
  sg_stack x : x ∈ stack → rtc adjacent start x;
  sg_next x y : collected containers requests x → adjacent x y → y ∈ visited ∨ y ∈ stack;
  sg_start : start ∈ visited ∨ start ∈ stack;
  sg_plain : Forall (λ x, HasPrefix x "r:" = false) (elements containers)
}.

Lemma searching_take before start node stack (visited containers requests containers' requests' : gset string)
    (next := filter (λ n, n ∉ {[ node ]} ∪ visited) (set_list (neighbours g node))) :
  searching before start (node :: stack) visited containers requests → node ∉ visited →
  (∀ x, collected containers' requests' x ↔ x = node ∨ collected containers requests x) →
  (∀ x, x ∈ containers' → x ∈ containers ∨ HasPrefix x "r:" = false) →
  searching before start (reverse next ++ stack) ({[ node ]} ∪ visited) containers' requests'.
Proof.
  intros [Hvis Hnew Hstack Hnext Hstart Hplain] Hn Hcol Hcon.
  assert (∀ y, y ∈ next ↔ y ∉ {[ node ]} ∪ visited ∧ adjacent node y) as Hin.
  { intros y. unfold next. by rewrite list_elem_of_filter, set_list_elem. }
  split.
  - intros x. rewrite Hcol. set_solver.
  - intros x [->|Hx]%Hcol; [|by apply Hnew]. split; [set_solver|]. apply Hstack. by left.
  - intros x [Hx|Hx]%elem_of_app; [|apply Hstack; by right]. apply elem_of_reverse, Hin in Hx as [_ Hx].
    eapply rtc_r; [apply Hstack; by left|done].
  - intros x y Hx Hy. rewrite elem_of_app, elem_of_reverse, Hin. apply Hcol in Hx as [->|Hx].
    + destruct (decide (y ∈ {[ node ]} ∪ visited)); tauto.
    + destruct (Hnext _ _ Hx Hy) as [?|[->|?]%elem_of_cons]; [left; set_solver|left; set_solver|tauto].
  - rewrite elem_of_app. destruct Hstart as [?|[->|?]%elem_of_cons]; [left; set_solver|left; set_solver|tauto].
  - apply Forall_forall. intros x Hx%elem_of_elements. apply Hcon in Hx as [Hx|?]; [|done]. rewrite Forall_forall in Hplain.
    apply Hplain. by apply elem_of_elements.
Qed.

Lemma walk_searching fuel before start stack visited containers requests containers' requests' visited' :
  searching before start stack visited containers requests →
  walk fuel g stack visited containers requests = Some (containers', requests', visited') →
  searching before start [] visited' containers' requests'.
Proof.
  revert stack visited containers requests.
  induction fuel as [|fuel IH]; intros [|node stack] visited containers requests Hs; cbn [walk]; try by intros [= <- <- <-].
  case_bool_decide as Hn.
  { apply IH. destruct Hs as [? ? Hst Hnx Hsr ?]. split; [done|done|intros x Hx; apply Hst; by right|..|done].
    - intros x y Hx Hy. destruct (Hnx _ _ Hx Hy) as [?|[->|?]%elem_of_cons]; tauto.
    - destruct Hsr as [?|[->|?]%elem_of_cons]; tauto. }
  cbv zeta. destruct (HasPrefix node "r:") eqn:Ep; apply IH.
  - apply (searching_take before start node stack visited containers requests); [done|done|by intros; apply collect_request|by left].
  - apply (searching_take before start node stack visited containers requests); [done|done|by intros; apply collect_container|].
    intros x [->%elem_of_singleton|?]%elem_of_union; [by right|by left].
Qed.

(** Closed under neighbours, in both directions. *)
Definition closed (visited : gset string) : Prop := ∀ x y, adjacent x y → x ∈ visited ↔ y ∈ visited.

Lemma walkPartition_spec start visited :
  closed visited → start ∉ visited →
  ∃ containers requests visited', walkPartition g start visited = Some (containers, requests, visited') ∧
    (∀ r, r ∈ requests ↔ rtc adjacent start (buildRequestNode r)) ∧
    (∀ x, x ∈ containers ↔ HasPrefix x "r:" = false ∧ rtc adjacent start x) ∧
    (∀ x, x ∈ visited' ↔ x ∈ visited ∨ rtc adjacent start x) ∧
    containers = set_list (list_to_set containers) ∧ requests = set_list (list_to_set requests).
Proof.
  intros Hcl Hst. destruct (walk_total (walk_fuel g) [start] visited ∅ ∅) as [[[cs rs] v'] Ew].
  { unfold walk_fuel. simpl. apply le_n_S. unfold pending. induction (map_to_list g) as [|[k s] l IH]; simpl; [done|].
    case_decide; lia. }
  assert (searching visited start [start] visited ∅ ∅) as Hs0.
  { assert (∀ x, ¬ collected ∅ ∅ x) as He by (intros x; unfold collected; destruct (HasPrefix x "r:"); set_solver).
    split; [naive_solver|naive_solver|by intros x ->%list_elem_of_singleton|naive_solver|right; by left|by rewrite elements_empty]. }
  destruct (walk_searching _ _ _ _ _ _ _ _ _ _ Hs0 Ew) as [Hvis Hnew _ Hnext Hstart Hplain].
  assert (∀ x, collected cs rs x ↔ rtc adjacent start x) as Hcol.
  { intros x. split; [intros Hx; by apply Hnew|]. revert x. apply (rtc_ind_r (λ y, collected cs rs y) start).
    - destruct Hstart as [Hin%Hvis|?%elem_of_nil]; [|done]. tauto.
    - intros x y _ Hxy IH. destruct (Hnext _ _ IH Hxy) as [Hin%Hvis|?%elem_of_nil]; [|done]. destruct Hin as [Hin|?]; [|done].
      apply (Hcl _ _ Hxy) in Hin. by destruct (Hnew _ IH). }
  exists (set_list cs), (set_list rs), v'. unfold walkPartition. rewrite Ew. split; [done|]. split_and!.
  - intros r. rewrite set_list_elem, <- Hcol. unfold collected. by rewrite node_prefix.
  - intros x. rewrite set_list_elem, <- Hcol. unfold collected. rewrite Forall_forall in Hplain. split.
    + intros Hx. rewrite (Hplain x) by (by apply elem_of_elements). done.
    + intros [-> Hx]. done.
  - intros x. by rewrite Hvis, Hcol.
  - f_equal. apply set_eq. intros x. by rewrite elem_of_list_to_set, set_list_elem.
  - f_equal. apply set_eq. intros x. by rewrite elem_of_list_to_set, set_list_elem.
Qed.
End search.

(** ** The walk over all nodes *)

Lemma set_list_ext (l l' : list string) :
  l = set_list (list_to_set l) → l' = set_list (list_to_set l') → (∀ x, x ∈ l ↔ x ∈ l') → l = l'.
Proof. intros -> -> Hx. f_equal. apply set_eq. intros x. specialize (Hx x). by rewrite !set_list_elem in Hx. Qed.

Lemma fold_same_key_lookup (key : string) (l : list string) (m : gmap string string) r :
  fold_left (λ m r, <[r := key]> m) l m !! r = if decide (r ∈ l) then Some key else m !! r.
Proof.
  revert m. induction l as [|x l IH]; intros m; simpl; [done|]. rewrite IH.
  destruct (decide (r ∈ l)); [by rewrite decide_True by (by right)|].
  destruct (decide (r = x)) as [->|Hne].
  - rewrite lookup_insert_eq, decide_True by (by left). done.
  - rewrite lookup_insert_ne, decide_False by (done || by intros [?|?]%elem_of_cons). done.
Qed.

(** The key of the part around a node. *)
Definition part_key (g : graph) (x : string) : string :=
  match walkPartition g x ∅ with Some (containers, requests, _) => buildPartitionKey containers requests | None => "" end.

Record proper (g : graph) : Prop := {
  pr_sym x y : adjacent g x y → adjacent g y x;
  pr_dom x : x ∈ dom g ↔ ∃ y, adjacent g x y
}.

Section parts.
Context (st : build_state) (g := bs_graph st) (Hg : proper g).

Lemma reach_sym x y : rtc (adjacent g) x y → rtc (adjacent g) y x.
Proof. intros Hxy. induction Hxy as [|x y z Hxy _ IH]; [done|]. eapply rtc_r; [done|]. by apply Hg. Qed.

Lemma closed_empty : closed g ∅.
Proof. intros x y _. set_solver. Qed.

Lemma part_key_eq start visited containers requests visited' r : closed g visited → start ∉ visited →
  walkPartition g start visited = Some (containers, requests, visited') → r ∈ requests →
  part_key g (buildRequestNode r) = buildPartitionKey containers requests.
Proof.
  intros Hcl Hst Hw Hr. destruct (walkPartition_spec g start visited Hcl Hst) as (cs & rs & v & Hw' & Hrs & Hcs & _ & Hsc & Hsr).
  rewrite Hw in Hw'. injection Hw' as <- <- <-. apply Hrs in Hr.
  destruct (walkPartition_spec g (buildRequestNode r) ∅ closed_empty) as (cs2 & rs2 & v2 & Hw2 & Hrs2 & Hcs2 & _ & Hsc2 & Hsr2); [set_solver|].
  assert (∀ x, rtc (adjacent g) (buildRequestNode r) x ↔ rtc (adjacent g) start x) as Hsame.
  { intros x. split; intros ?; [by trans (buildRequestNode r)|]. trans start; [by apply reach_sym|done]. }
  unfold part_key. rewrite Hw2. f_equal; apply set_list_ext; try done.
  - intros x. by rewrite Hcs2, Hcs, Hsame.
  - intros x. by rewrite Hrs2, Hrs, Hsame.
Qed.

(** What the walk has recorded. *)
Record recorded (info : PartitionInfo) (visited : gset string) : Prop := {
  rd_closed : closed g visited;
  rd_dom : visited ⊆ dom g;
  rd_keys r : pi_RequestToPartition info !! r =
    if decide (buildRequestNode r ∈ visited) then Some (part_key g (buildRequestNode r)) else None
}.

Lemma reach_dom x y : x ∈ dom g → rtc (adjacent g) x y → y ∈ dom g.
Proof. intros Hx Hy. induction Hy as [|x y z Hxy _ IH]; [done|]. apply IH, (pr_dom _ Hg). exists x. by apply Hg. Qed.

Lemma closed_visit start visited visited' : closed g visited →
  (∀ x, x ∈ visited' ↔ x ∈ visited ∨ rtc (adjacent g) start x) → closed g visited'.
Proof.
  intros Hcl Hv x y Hxy. rewrite !Hv, (Hcl x y Hxy). split; (intros [?|?]; [by left|right; eapply rtc_r; [done|]]); [done|by apply Hg].
Qed.

Lemma partition_step_recorded info visited node : recorded info visited → node ∈ dom g →
  ∃ info' visited', partition_step st (Some (info, visited)) node = Some (info', visited') ∧
    recorded info' visited' ∧ visited ⊆ visited' ∧ node ∈ visited'.
Proof.
  intros [Hcl Hdom Hkeys] Hn. cbn [partition_step]. case_bool_decide as Hin; [by exists info, visited|].
  destruct (walkPartition_spec g node visited Hcl Hin) as (cs & rs & v & Hw & Hrs & _ & Hv & _ & _). fold g. rewrite Hw.
  assert (closed g v) as Hcl' by (by eapply closed_visit).
  assert (v ⊆ dom g) as Hdom'. { intros x [?|?]%Hv; [by apply Hdom|by eapply reach_dom]. }
  assert (visited ⊆ v ∧ node ∈ v) as [Hsub Hnode] by (split; [intros x ?; apply Hv; by left|apply Hv; by right]).
  case_bool_decide as Hempty; eexists _, _; (split; [done|split; [split; [done|done|]|done]]); intros r; simpl.
  - rewrite Hkeys. assert (¬ rtc (adjacent g) node (buildRequestNode r)) by (rewrite <- Hrs, Hempty; apply not_elem_of_nil).
    destruct (decide (buildRequestNode r ∈ visited)); [by rewrite decide_True by (by apply Hsub)|].
    by rewrite decide_False by (rewrite Hv; tauto).
  - rewrite fold_same_key_lookup, Hkeys. destruct (decide (r ∈ rs)) as [Hr|Hr].
    + rewrite decide_True by (apply Hv; right; by apply Hrs). by rewrite (part_key_eq _ _ _ _ _ _ Hcl Hin Hw Hr).
    + rewrite Hrs in Hr. destruct (decide (buildRequestNode r ∈ visited)); [by rewrite decide_True by (by apply Hsub)|].
      by rewrite decide_False by (rewrite Hv; tauto).
Qed.

Lemma partition_fold nodes info visited : recorded info visited → Forall (.∈ dom g) nodes →
  ∃ info' visited', fold_left (partition_step st) nodes (Some (info, visited)) = Some (info', visited') ∧
    recorded info' visited' ∧ visited ⊆ visited' ∧ Forall (.∈ visited') nodes.
Proof.
  intros Hrec Hn. revert info visited Hrec. induction Hn as [|node nodes Hn _ IH]; intros info visited Hrec.
  { exists info, visited. split_and!; done. }
  destruct (partition_step_recorded info visited node Hrec Hn) as (info1 & v1 & E & Hrec1 & Hs1 & Hn1).
  destruct (IH info1 v1 Hrec1) as (info2 & v2 & E2 & Hrec2 & Hs2 & Hn2).
  exists info2, v2. cbn [fold_left]. rewrite E. split; [done|]. split; [done|]. split; [by etrans|]. constructor; [by apply Hs2|done].
Qed.

Lemma find_partitions_keys `{MapOrder} : ∃ info, find_partitions st = Some info ∧
  ∀ r, pi_RequestToPartition info !! r =
    if decide (buildRequestNode r ∈ dom g) then Some (part_key g (buildRequestNode r)) else None.
Proof.
  destruct (partition_fold (range_str g).*1 (no_partitions (bs_candidates st)) ∅) as (info & v & E & [_ Hdom Hkeys] & _ & Hall).
  { split; [apply closed_empty|set_solver|]. intros r. rewrite decide_False by set_solver. apply lookup_empty. }
  { apply Forall_forall. intros x ([k s] & -> & Hx%elem_of_range_str)%list_elem_of_fmap. by eapply elem_of_dom_2. }
  unfold find_partitions. fold g. rewrite E. eexists. split; [done|].
  assert (v = dom g) as <-.
  { apply set_eq. intros x. split; [apply Hdom|]. intros [s Hs]%elem_of_dom. rewrite Forall_forall in Hall. apply Hall.
    apply list_elem_of_fmap. exists (x, s). split; [done|]. by apply elem_of_range_str. }
  intros r. rewrite <- Hkeys. by case_bool_decide.
Qed.
End parts.

(** ** The graph *)

Lemma adjacent_link g left right x y : left ≠ right →
  adjacent (linkGraph g left right) x y ↔ adjacent g x y ∨ (x = left ∧ y = right) ∨ (x = right ∧ y = left).
Proof.
  intros Hne. unfold adjacent, linkGraph, neighbours.
  destruct (decide (x = right)) as [->|Hr]; [|destruct (decide (x = left)) as [->|Hl]]; simplify_map_eq; set_solver.
Qed.

Lemma dom_link g left right x : x ∈ dom (linkGraph g left right) ↔ x = left ∨ x = right ∨ x ∈ dom g.
Proof. unfold linkGraph. rewrite !dom_insert. set_solver. Qed.

Lemma proper_link g left right : left ≠ right → proper g → proper (linkGraph g left right).
Proof.
  intros Hne [Hsym Hdom]. split.
  - intros x y. rewrite !adjacent_link by done. naive_solver.
  - intros x. rewrite dom_link, Hdom. setoid_rewrite adjacent_link; [|done]. naive_solver.
Qed.

Lemma key_plain pod kind name : HasPrefix (p_UID pod) "r:" = false → HasPrefix (buildContainerKey pod kind name) "r:" = false.
Proof.
  unfold buildContainerKey. destruct (p_UID pod) as [|a [|b u]]; [done|..]; simpl.
  - by rewrite andb_false_r.
  - destruct u; simpl; done.
Qed.

Section uses.
Context `{MapOrder} `{ResourceApi} (claim : ResourceClaim) (allocated : gset string).

(** A container of one of the pods that asks for a request of the claim, by
    its key. *)
Definition attached (pods : list Pod) (key request : string) : Prop :=
  ∃ pod c ref requests, pod ∈ pods ∧ c ∈ GetAllPodContainers pod ∧ ref ∈ cr_Claims c ∧
    referenced claim allocated pod ref = Ok requests ∧ request ∈ requests ∧
    key = buildContainerKey pod (cr_Kind c) (cr_Name c).

(** Two requests one container asks for, and chains of them. *)
Definition shares (pods : list Pod) (r1 r2 : string) : Prop := ∃ key, attached pods key r1 ∧ attached pods key r2.
Definition chained (pods : list Pod) : relation string := rtc (shares pods).

(** The graph of a state is proper, and its edges are [uses]. *)
Record draws (st : build_state) (uses : string → string → Prop) : Prop := {
  dw_proper : proper (bs_graph st);
  dw_edges x y : adjacent (bs_graph st) x y ↔
    ∃ key r, uses key r ∧ ((x = key ∧ y = buildRequestNode r) ∨ (x = buildRequestNode r ∧ y = key));
  dw_count : bs_edges st = 0%nat → ∀ key r, ¬ uses key r
}.

Lemma draws_ext st uses uses' : (∀ k r, uses k r ↔ uses' k r) → draws st uses → draws st uses'.
Proof. intros E [? Hed Hc]. split; [done|intros x y; rewrite Hed; by setoid_rewrite E|]. intros Hz k r Hu. apply E in Hu. by eapply Hc. Qed.

Lemma draws_requests key cand requests st uses : HasPrefix key "r:" = false → draws st uses →
  draws (fold_left (add_request key cand) requests st) (λ k r, uses k r ∨ (k = key ∧ r ∈ requests)).
Proof.
  intros Hk. revert st uses. induction requests as [|q requests IH]; intros st uses Hd; cbn [fold_left].
  { eapply draws_ext; [|done]. intros k r. rewrite elem_of_nil. tauto. }
  eapply draws_ext; [|apply (IH _ (λ k r, uses k r ∨ (k = key ∧ r = q)))].
  { intros k r. simpl. rewrite elem_of_cons. tauto. }
  assert (key ≠ buildRequestNode q) as Hne by (intros ->; by rewrite node_prefix in Hk).
  destruct Hd as [Hp Hed _]. split; [by apply proper_link| |by cbn].
  intros x y. cbn [bs_graph add_request]. rewrite adjacent_link, Hed by done. clear. split.
  - intros [(k & r & ? & ?)|E]; [by exists k, r; auto|]. exists key, q. split; [by right|]. tauto.
  - intros (k & r & [?|[-> ->]] & E); [by left; exists k, r|]. right. tauto.
Qed.

(** Every claim reference of the pod resolves to a claim name or to none. *)
Definition resolves (pod : Pod) : Prop :=
  ∀ c ref, c ∈ GetAllPodContainers pod → ref ∈ cr_Claims c → ∃ name, ResolveActualClaimNameForPodClaim pod (cc_Name ref) = Ok name.

Lemma referenced_ok pod ref name :
  ResolveActualClaimNameForPodClaim pod (cc_Name ref) = Ok name → ∃ requests, referenced claim allocated pod ref = Ok requests.
Proof. intros E. unfold referenced. rewrite E. by eexists. Qed.

Lemma draws_refs pod c refs st uses (key := buildContainerKey pod (cr_Kind c) (cr_Name c)) :
  HasPrefix (p_UID pod) "r:" = false → (∀ ref, ref ∈ refs → ∃ name, ResolveActualClaimNameForPodClaim pod (cc_Name ref) = Ok name) →
  draws st uses → ∃ st', add_refs claim allocated pod c refs st = Ok st' ∧
    draws st' (λ k r, uses k r ∨ (k = key ∧ ∃ ref requests, ref ∈ refs ∧ referenced claim allocated pod ref = Ok requests ∧ r ∈ requests)).
Proof.
  intros Hu. revert st uses. induction refs as [|ref refs IH]; intros st uses Href Hd; cbn [add_refs].
  { exists st. split; [done|]. eapply draws_ext; [|done]. intros k r. split; [by left|]. intros [?|(_ & ? & ? & ?%elem_of_nil & _)]; done. }
  destruct (Href ref) as [name Hname]; [by left|]. destruct (referenced_ok _ _ _ Hname) as [rs Ers]. rewrite Ers. cbn [rbind].
  destruct (IH (fold_left (add_request key {| pc_Pod := pod; pc_ContainerName := cr_Name c; pc_Kind := cr_Kind c |}) rs st)
    (λ k r, uses k r ∨ (k = key ∧ r ∈ rs))) as (st' & E & Hd').
  { intros ref' Hin. apply Href. by right. }
  { apply draws_requests; [by apply key_plain|done]. }
  exists st'. split; [done|]. eapply draws_ext; [|done]. intros k r. simpl. split.
  - intros [[?|[-> ?]]|[-> (ref' & rs' & ? & ? & ?)]]; [by left| |]; right; (split; [done|]).
    + exists ref, rs. by repeat split; [left|..].
    + exists ref', rs'. by repeat split; [right|..].
  - intros [?|[-> (ref' & rs' & [->|?]%elem_of_cons & E' & ?)]]; [by left; left| |right; split; [done|by exists ref', rs']].
    rewrite Ers in E'. injection E' as <-. left. by right.
Qed.

Lemma draws_containers pod cs st uses :
  HasPrefix (p_UID pod) "r:" = false →
  (∀ c ref, c ∈ cs → ref ∈ cr_Claims c → ∃ name, ResolveActualClaimNameForPodClaim pod (cc_Name ref) = Ok name) →
  draws st uses → ∃ st', add_containers claim allocated pod cs st = Ok st' ∧
    draws st' (λ k r, uses k r ∨ ∃ c ref requests, c ∈ cs ∧ ref ∈ cr_Claims c ∧ referenced claim allocated pod ref = Ok requests ∧
      r ∈ requests ∧ k = buildContainerKey pod (cr_Kind c) (cr_Name c)).
Proof.
  intros Hu. revert st uses. induction cs as [|c cs IH]; intros st uses Href Hd; cbn [add_containers].
  { exists st. split; [done|]. eapply draws_ext; [|done]. intros k r. split; [by left|]. intros [?|(? & ? & ? & ?%elem_of_nil & _)]; done. }
  destruct (draws_refs pod c (cr_Claims c) st uses Hu) as (st1 & -> & Hd1); [intros ref Hin; apply (Href c); [by left|done]|done|].
  cbn [rbind]. destruct (IH _ _ (λ c' ref Hc, Href c' ref (list_elem_of_further c' c cs Hc)) Hd1) as (st2 & E & Hd2).
  exists st2. split; [done|]. eapply draws_ext; [|done]. intros k r. simpl. setoid_rewrite elem_of_cons. naive_solver.
Qed.

Lemma draws_pods pods st uses :
  Forall (λ pod, HasPrefix (p_UID pod) "r:" = false) pods → Forall resolves pods → draws st uses →
  ∃ st', add_pods claim allocated pods st = Ok st' ∧ draws st' (λ k r, uses k r ∨ attached pods k r).
Proof.
  intros Hu. revert st uses. induction Hu as [|pod pods Hu _ IH]; intros st uses Hr Hd; cbn [add_pods].
  { exists st. split; [done|]. eapply draws_ext; [|done]. intros k r. split; [by left|].
    intros [?|(? & ? & ? & ? & ?%elem_of_nil & _)]; done. }
  apply Forall_cons in Hr as [Hr1 Hr]. destruct (draws_containers pod (GetAllPodContainers pod) st uses Hu Hr1 Hd) as (st1 & -> & Hd1).
  cbn [rbind]. destruct (IH _ _ Hr Hd1) as (st2 & E & Hd2).
  exists st2. split; [done|]. eapply draws_ext; [|done]. intros k r. unfold attached. simpl. setoid_rewrite elem_of_cons. naive_solver.
Qed.

Section reach.
Context (pods : list Pod) (Hpods : Forall (λ pod, HasPrefix (p_UID pod) "r:" = false) pods).
Context (st : build_state) (Hst : draws st (attached pods)).

Lemma attached_plain key r : attached pods key r → HasPrefix key "r:" = false.
Proof.
  intros (pod & c & ref & rs & Hpod & _ & _ & _ & _ & ->). apply key_plain. rewrite Forall_forall in Hpods. by apply Hpods.
Qed.

Lemma step_up r key : attached pods key r → adjacent (bs_graph st) (buildRequestNode r) key.
Proof. intros Hr. apply (dw_edges _ _ Hst). exists key, r. tauto. Qed.

Lemma step_down r key : attached pods key r → adjacent (bs_graph st) key (buildRequestNode r).
Proof. intros Hr. apply (dw_edges _ _ Hst). exists key, r. tauto. Qed.

Lemma reach_from_request r x : rtc (adjacent (bs_graph st)) (buildRequestNode r) x →
  (∃ r', x = buildRequestNode r' ∧ chained pods r r') ∨ (∃ r', chained pods r r' ∧ attached pods x r').
Proof.
  revert x. apply rtc_ind_r; [left; by exists r|].
  intros x y _ Hxy IH. apply (dw_edges _ _ Hst) in Hxy as (key & q & Hq & [[-> ->]|[-> ->]]).
  - left. exists q. split; [done|]. destruct IH as [(r' & -> & _)|(r' & Hc & Hr')].
    + apply attached_plain in Hq. by rewrite node_prefix in Hq.
    + eapply rtc_r; [done|]. by exists key.
  - right. destruct IH as [(r' & E & Hc)|(r' & _ & Hr')].
    + exists q. apply node_inj in E as ->. done.
    + apply attached_plain in Hr'. by rewrite node_prefix in Hr'.
Qed.

Lemma reach_chained r r' : chained pods r r' → rtc (adjacent (bs_graph st)) (buildRequestNode r) (buildRequestNode r').
Proof.
  intros Hc. induction Hc as [|r1 r2 r3 (key & H1 & H2) _ IH]; [done|].
  eapply rtc_l; [by apply step_up|]. eapply rtc_l; [by apply step_down|]. done.
Qed.

Lemma reach_request_iff r r' : rtc (adjacent (bs_graph st)) (buildRequestNode r) (buildRequestNode r') ↔ chained pods r r'.
Proof.
  split; [|apply reach_chained]. intros [(q & E & Hc)|(q & _ & Hq)]%reach_from_request.
  - by apply node_inj in E as ->.
  - apply attached_plain in Hq. by rewrite node_prefix in Hq.
Qed.

Lemma reach_container_iff r key :
  HasPrefix key "r:" = false ∧ rtc (adjacent (bs_graph st)) (buildRequestNode r) key ↔ ∃ r', chained pods r r' ∧ attached pods key r'.
Proof.
  split.
  - intros [Hp [(q & -> & _)|?]%reach_from_request]; [|done]. by rewrite node_prefix in Hp.
  - intros (r' & Hc & Hr'). split; [by eapply attached_plain|]. eapply rtc_r; [by apply reach_chained|by apply step_up].
Qed.

Lemma request_node_dom r : buildRequestNode r ∈ dom (bs_graph st) ↔ ∃ key, attached pods key r.
Proof.
  rewrite (pr_dom _ (dw_proper _ _ Hst)). split.
  - intros (y & (key & q & Hq & [[E _]|[E _]])%(dw_edges _ _ Hst)).
    + apply attached_plain in Hq. rewrite <- E, node_prefix in Hq. done.
    + apply node_inj in E as ->. by exists key.
  - intros [key Hk]. exists key. by apply step_up.
Qed.

(** The part around an attached request, as two sets. *)
Lemma part_key_spec r : ∃ containers requests : gset string,
  part_key (bs_graph st) (buildRequestNode r) = buildPartitionKey (set_list containers) (set_list requests) ∧
  (∀ r', r' ∈ requests ↔ chained pods r r') ∧
  (∀ key, key ∈ containers ↔ ∃ r', chained pods r r' ∧ attached pods key r').
Proof.
  destruct (walkPartition_spec (bs_graph st) (buildRequestNode r) ∅) as (cs & rs & v & Hw & Hrs & Hcs & _ & Hsc & Hsr);
    [intros x y _; set_solver|set_solver|].
  exists (list_to_set cs), (list_to_set rs). unfold part_key. rewrite Hw, <- Hsc, <- Hsr. split; [done|]. split.
  - intros r'. by rewrite elem_of_list_to_set, Hrs, reach_request_iff.
  - intros key. by rewrite elem_of_list_to_set, Hcs, reach_container_iff.
Qed.
End reach.

Lemma draws_empty : draws {| bs_graph := ∅; bs_edges := 0; bs_candidates := ∅; bs_containerCands := ∅ |} (λ _ _, False).
Proof.
  split; [split|..]; simpl; unfold adjacent, neighbours.
  - intros x y. rewrite lookup_empty. set_solver.
  - intros x. rewrite dom_empty, lookup_empty. set_solver.
  - intros x y. rewrite lookup_empty. set_solver.
  - tauto.
Qed.

(** C16 The partitions of a claim are the connected parts of its use.  When
    the reserved pods can be read and their claim references resolve, the
    resolution returns (its search never runs out), a request has a partition
    key exactly when a container of a reserved pod asks for it, and that key
    is made of exactly the requests a chain of shared containers leads to and
    the containers that ask for one of them.  So requests of one chain get one
    key, and nothing depends on the order a map is walked in. *)
Theorem partitions_are_connected_parts pods :
  allocated ≠ ∅ → GetReservedPods claim = Ok pods → Forall resolves pods →
  Forall (λ pod, HasPrefix (p_UID pod) "r:" = false) pods →
  ∃ info, ResolveClaimVGPUPartitionsFromAllocatedRequests claim allocated = Ok (Some info) ∧
    ∀ r,
      ((∀ key, ¬ attached pods key r) ∧ pi_RequestToPartition info !! r = None) ∨
      ((∃ key, attached pods key r) ∧ ∃ containers requests : gset string,
        pi_RequestToPartition info !! r = Some (buildPartitionKey (set_list containers) (set_list requests)) ∧
        (∀ r', r' ∈ requests ↔ chained pods r r') ∧
        (∀ key, key ∈ containers ↔ ∃ r', chained pods r r' ∧ attached pods key r')).
Proof.
  intros Hal Hpods Hres Huid. unfold ResolveClaimVGPUPartitionsFromAllocatedRequests.
  rewrite bool_decide_false, Hpods by done. cbn [rbind]. case_bool_decide as Hlen.
  { destruct pods; [|done]. eexists. split; [done|]. intros r. left. split; [|apply lookup_empty].
    intros key (? & ? & ? & ? & ?%elem_of_nil & _). done. }
  destruct (draws_pods pods _ _ Huid Hres draws_empty) as (st & -> & Hd). cbn [rbind].
  assert (draws st (attached pods)) as Hst by (eapply draws_ext; [|done]; naive_solver).
  case_bool_decide as He.
  { eexists. split; [done|]. intros r. left. split; [intros key; by apply (dw_count _ _ Hst)|apply lookup_empty]. }
  destruct (find_partitions_keys st (dw_proper _ _ Hst)) as (info & -> & Hinfo). exists info. split; [done|]. intros r. rewrite Hinfo.
  case_decide as Hin; rewrite (request_node_dom pods Huid st Hst) in Hin; [right; split; [done|]|left].
  - destruct (part_key_spec pods Huid st Hst r) as (cs & rs & -> & Hrs & Hcs). by exists cs, rs.
  - split; [|done]. intros key Hk. apply Hin. by exists key.
Qed.
End uses.

(** ** A claim two pods hold *)

Definition resolves_b (pod : Pod) : bool :=
  forallb (λ c, forallb (λ ref, match ResolveActualClaimNameForPodClaim pod (cc_Name ref) with Ok _ => true | Fail _ => false end)
    (cr_Claims c)) (GetAllPodContainers pod).

Lemma resolves_b_sound pod : resolves_b pod = true → resolves pod.
Proof.
  unfold resolves_b. rewrite forallb_forall. intros Hb c ref Hc Hr. apply list_elem_of_In in Hc, Hr. specialize (Hb c Hc).
  rewrite forallb_forall in Hb. specialize (Hb ref Hr). destruct (ResolveActualClaimNameForPodClaim pod (cc_Name ref)); [by eexists|done].
Qed.

Module PartitionDemo.
Import AdmissionDemo ShareDemo GuardDemo.
#[local] Existing Instance server.
#[local] Existing Instance canonical_order.

Definition claimed : ResourceClaim := reserved_for ["job"; "late"; "gone"].

Lemma late_attached : attached claimed {[ "a"; "b" ]} [handover; late] (buildContainerKey late ContainerKindInit "warm") "b".
Proof.
  exists late. eexists _, _, ["b"]. split; [by right; left|]. split; [apply list_elem_of_lookup; by exists 0%nat|].
  split; [apply list_elem_of_lookup; by exists 0%nat|]. split; [vm_compute; reflexivity|]. split; [by left|reflexivity].
Qed.

Lemma partitions_are_connected_parts_witness :
  ∃ info, ResolveClaimVGPUPartitionsFromAllocatedRequests claimed {[ "a"; "b" ]} = Ok (Some info) ∧
    is_Some (pi_RequestToPartition info !! "b").
Proof.
  destruct (partitions_are_connected_parts claimed {[ "a"; "b" ]} [handover; late]) as (info & E & Hr).
  - set_solver.
  - vm_compute. reflexivity.
  - repeat constructor; apply resolves_b_sound; vm_compute; reflexivity.
  - repeat constructor.
  - exists info. split; [done|]. destruct (Hr "b") as [[Hno _]|[_ (? & ? & -> & _)]]; [|by eexists].
    destruct (Hno _ late_attached).
Defined.
End PartitionDemo.
