(* ===== verification/Validate.v ===== *)
(** * The validating webhook for pods ([pkg/webhook/pod/validate])

    The checks a pod passes before it is stored, and the claims created for
    requests the mutating webhook converted.  [ClaimWriter] are the writes to
    the API server, [ValidateLib] the label parser, the resolvers of the
    webhook's own pod and the switch of the DNS check.  Writes are recorded
    as the list of calls; [serve] is what they leave on the server. *)

From stdpp Require Import base list gmap strings.
From Stdlib Require Import ZArith Lia Ascii.
From S2P Require Import Prelude GoMap GoSort GoStrings GoFmt GoTime Kube Claims DnsName Footprint Device NodeInfo Request.
From S2P Require Import Admission Dra ClaimShare.

Open Scope Z_scope.

(** Each returns its error, if any. *)
Class ClaimWriter : Type := {
  create_claim : ResourceClaim → option string;
  delete_claims_of : string → string → string → option string;
  delete_claim : string → string → option claim_error
}.

Class ValidateLib : Type := {
  labels_Parse : string → option string;
  clusterDNSServers : list string;
  check_cluster_dns : bool
}.

Definition DNSDefault : string := "Default".
Definition DNSClusterFirst : string := "ClusterFirst".
Definition DNSNone : string := "None".

Inductive validate_error :=
| ErrAccessMode (value : string)
| ErrDNSPolicy (policy : string)
| ErrDNSConfig
| ErrNameservers (servers : list string)
| ErrSelector (value text : string)
| ErrShare (e : share_error)
| ErrTooLong
| ErrDecode (text : string)
| ErrInfo (errs : list info_error)
| ErrClaimName (name : string)
| ErrConstraints (n : Z)
| ErrApi (text : string).

(** The calls made, with whether they succeeded. *)
Inductive claim_call :=
| CallCreate (claim : ResourceClaim) (ok : bool)
| CallDeleteAllOf (namespace owner timestamp : string) (ok : bool)
| CallDelete (namespace name : string) (ok : bool).

Section validate.
Context `{Env} `{MapOrder} `{ResourceApi} `{DraLib} `{ResourceInfosCodec} `{W : ClaimWriter} `{ValidateLib} (o : Options).

(** ** Name resolution of remote pods *)

Definition checkClusterDNS (pod : Pod) : option validate_error :=
  let r := p_Rest pod in
  if negb check_cluster_dns then None
  else if bool_decide (ps_DNSPolicy r = DNSDefault) then Some (ErrDNSPolicy DNSDefault)
  else if bool_decide (ps_DNSPolicy r = DNSClusterFirst) then
    if ps_HostNetwork r then Some (ErrDNSPolicy DNSClusterFirst) else None
  else if bool_decide (ps_DNSPolicy r = DNSNone) then
    let nameservers := default [] (ps_DNSConfig r) in
    if bool_decide (nameservers = []) then Some ErrDNSConfig
    else if bool_decide (clusterDNSServers = []) then None
    else if existsb (λ s, bool_decide (s ∈ clusterDNSServers)) nameservers then None
    else Some (ErrNameservers nameservers)
  else None.

(** ** Creating the claims of a converted pod *)

Definition ownerPod (pod : Pod) : string := p_Namespace pod +:+ "-" +:+ p_Name pod.
Definition createTimestamp : string := Itoa (time_now / Millisecond).

Definition is_ok {E} (err : option E) : bool := match err with None => true | Some _ => false end.

(** The requests of the infos, each checked against the pod's containers; the
    first info's claim must be one of the pod's. *)
Fixpoint combined_requests (pod : Pod) (first : bool) (infos : ResourceInfos) : result validate_error (list DeviceRequest) :=
  match infos with
  | [] => Ok []
  | info :: infos =>
      match CheckResourceInfo pod info with
      | Fail errs => Fail (ErrInfo errs)
      | Ok _ =>
          if first && negb (references pod (ri_ClaimName info)) then Fail (ErrClaimName (ri_ClaimName info))
          else let* rest := combined_requests pod false infos in Ok (BuildDeviceRequest pod (op_VGPUDeviceClassName o) info :: rest)
      end
  end.

Definition createCombinedResourceClaim (pod : Pod) (name : string) (infos : ResourceInfos) (dryRun : bool)
  : result validate_error unit * list claim_call :=
  match combined_requests pod true infos with
  | Fail e => (Fail e, [])
  | Ok requests =>
      let claim := BuildResourceClaim pod requests name (ownerPod pod) createTimestamp in
      if negb (CheckDeviceConstraintLimit claim) then (Fail (ErrConstraints (Z.of_nat (length (rc_Constraints claim)))), [])
      else if dryRun then (Ok tt, [])
      else
        let err := create_claim claim in
        (match err with Some e => Fail (ErrApi e) | None => Ok tt end, [CallCreate claim (is_ok err)])
  end.

(** The claim of one info. *)
Definition info_claim (pod : Pod) (info : ResourceInfo) : ResourceClaim :=
  BuildResourceClaim pod [BuildDeviceRequest pod (op_VGPUDeviceClassName o) info] (ri_ClaimName info) (ownerPod pod) createTimestamp.

(** The loop: the error, the number of keys collected, and the calls. *)
Fixpoint create_each (pod : Pod) (infos : ResourceInfos) (dryRun : bool) : result validate_error unit * nat * list claim_call :=
  match infos with
  | [] => (Ok tt, 0%nat, [])
  | info :: infos =>
      match CheckResourceInfo pod info with
      | Fail errs => (Fail (ErrInfo errs), 0%nat, [])
      | Ok _ =>
          if negb (references pod (ri_ClaimName info)) then (Fail (ErrClaimName (ri_ClaimName info)), 0%nat, [])
          else
            let claim := info_claim pod info in
            match (if dryRun then None else create_claim claim) with
            | Some e => (Fail (ErrApi e), 0%nat, [CallCreate claim false])
            | None =>
                let '(r, keys, calls) := create_each pod infos dryRun in
                (r, S keys, (if dryRun then [] else [CallCreate claim true]) ++ calls)
            end
      end
  end.

(** The deferred clean-up runs when a claim had been created. *)
Definition createMultiResourceClaims (pod : Pod) (infos : ResourceInfos) (dryRun : bool)
  : result validate_error unit * list claim_call :=
  let '(r, keys, calls) := create_each pod infos dryRun in
  match r with
  | Fail e =>
      if bool_decide (0 < keys)%nat && negb dryRun then
        let err := delete_claims_of (p_Namespace pod) (ownerPod pod) createTimestamp in
        (Fail e, calls ++ [CallDeleteAllOf (p_Namespace pod) (ownerPod pod) createTimestamp (is_ok err)])
      else (Fail e, calls)
  | Ok tt => (Ok tt, calls)
  end.

Definition createResourceClaims (pod : Pod) (dryRun : bool) : result validate_error unit * list claim_call :=
  let val := annotation pod DRAOriResAnnotation in
  if bool_decide (val = "") then (Ok tt, [])
  else if bool_decide (PodAnnotationMaxLength < Z.of_nat (String.length val)) then (Fail ErrTooLong, [])
  else
    match ResourceInfos_Decode val with
    | Fail e => (Fail (ErrDecode e), [])
    | Ok [] => (Ok tt, [])
    | Ok (info :: infos) =>
        if CombinedResourceClaim (info :: infos) then createCombinedResourceClaim pod (ri_ClaimName info) (info :: infos) dryRun
        else createMultiResourceClaims pod (info :: infos) dryRun
    end.

(** ** The handlers *)

Definition lift_share (e : option share_error) : option validate_error := ErrShare <$> e.

(** The checks without effects, in order; the first error wins. *)
Definition check_pod (pod : Pod) : option validate_error :=
  let '(accessMode, valid) := PodVGPUAccessMode pod in
  if negb valid then Some (ErrAccessMode (annotation pod VGPUAccessModeAnnotation))
  else
    let selectors := annotation pod NodeRemoteSelectorsAnnotation in
    match (if bool_decide (accessMode = AccessModeRemote) then
             match checkClusterDNS pod with
             | Some e => Some e
             | None => if bool_decide (selectors = "") then None else ErrSelector selectors <$> labels_Parse selectors
             end
           else None) with
    | Some e => Some e
    | None =>
        if op_DRAAdmissionEnabled o then
          match checkResourceClaimRequests o pod with
          | Some e => Some (ErrShare e)
          | None => lift_share (checkCrossPodsVGPURequestConflict o pod)
          end
        else None
    end.

Definition ValidateCreate (pod : Pod) (dryRun : bool) : result validate_error unit * list claim_call :=
  match check_pod pod with
  | Some e => (Fail e, [])
  | None => if op_DefaultConvertToDRA o then createResourceClaims pod dryRun else (Ok tt, [])
  end.

(** Failures are logged; only claims the pod refers to are deleted. *)
Definition delete_one (pod : Pod) (info : ResourceInfo) : list claim_call :=
  if references pod (ri_ClaimName info)
  then [CallDelete (p_Namespace pod) (ri_ClaimName info) (is_ok (delete_claim (p_Namespace pod) (ri_ClaimName info)))] else [].

Definition deleteResourceClaims (pod : Pod) : list claim_call :=
  let val := annotation pod DRAOriResAnnotation in
  if bool_decide (val = "") then []
  else
    match ResourceInfos_Decode val with
    | Fail _ => []
    | Ok [] => []
    | Ok (info :: infos) => if CombinedResourceClaim (info :: infos) then delete_one pod info else (info :: infos) ≫= delete_one pod
    end.

Definition ValidateDelete (pod : Pod) (dryRun : bool) : list claim_call :=
  if op_DefaultConvertToDRA o && negb dryRun then deleteResourceClaims pod else [].

Inductive ValidateOperation := ValidateOpCreate | ValidateOpDelete | ValidateOpOther.

Definition validateHandle_Handle (op : ValidateOperation) (pod : Pod) (dryRun : bool) : result validate_error unit * list claim_call :=
  match op with
  | ValidateOpCreate => ValidateCreate pod dryRun
  | ValidateOpDelete => (Ok tt, ValidateDelete pod dryRun)
  | ValidateOpOther => (Ok tt, [])
  end.
End validate.

(** ** The claims on the server *)

Definition carries (namespace owner timestamp : string) (claim : ResourceClaim) : Prop :=
  rc_Namespace claim = namespace ∧ rc_Labels claim !! DRAOwnerKeyLabel = Some owner ∧
  rc_Labels claim !! DRACreateTimeLabel = Some timestamp.
#[export] Instance carries_dec namespace owner timestamp claim : Decision (carries namespace owner timestamp claim).
Proof. unfold carries. apply _. Defined.

Definition serve (claims : list ResourceClaim) (call : claim_call) : list ResourceClaim :=
  match call with
  | CallCreate claim true => claims ++ [claim]
  | CallDeleteAllOf ns owner timestamp true => filter (λ c, ¬ carries ns owner timestamp c) claims
  | CallDelete ns name true => filter (λ c, ¬ (rc_Namespace c = ns ∧ rc_Name c = name)) claims
  | _ => claims
  end.
