(* ===== verification/ValidateSpec.v ===== *)
(** * What the validating webhook leaves on the server

    Creating the claims of a pod is all or nothing; a dry run writes nothing;
    and what mutation took from the containers, validation turns into claims
    that ask for the same ([served_request]). *)

From stdpp Require Import base list gmap strings.
From Stdlib Require Import ZArith Lia Ascii.
From S2P Require Import Prelude GoMap GoSort GoStrings GoFmt GoTime Kube Claims DnsName Footprint Device NodeInfo Request.
From S2P Require Import Admission AdmissionSpec Dra ClaimShare ClaimShareSpec Validate.

Open Scope Z_scope.

Section spec.
Context `{Env} `{MapOrder} `{ResourceApi} `{DraLib} `{ResourceInfosCodec} `{W : ClaimWriter} `{ValidateLib} (o : Options).

Lemma info_claim_carries pod info : carries (p_Namespace pod) (ownerPod pod) createTimestamp (info_claim o pod info).
Proof.
  unfold info_claim, BuildResourceClaim. destruct (ParsePodTopologyMode pod) as [mode strict]. split_and!; [done|..]; simpl.
  - by rewrite lookup_insert_eq.
  - rewrite lookup_insert_ne by discriminate. by rewrite lookup_singleton_eq.
Qed.

(** The claims the loop leaves: those of a prefix of the infos, all of them
    when it succeeds, and as many as there are keys. *)
Lemma create_each_spec pod infos dryRun claims r keys calls :
  create_each o pod infos dryRun = (r, keys, calls) →
  foldl serve claims calls = claims ++ (if dryRun then [] else info_claim o pod <$> take keys infos) ∧
  (r = Ok tt → keys = length infos) ∧
  (dryRun = true → calls = []).
Proof.
  revert claims r keys calls. induction infos as [|info infos IH]; intros claims r keys calls; cbn [create_each].
  { intros [= <- <- <-]. simpl. destruct dryRun; rewrite app_nil_r; done. }
  destruct (CheckResourceInfo pod info) as [c|errs] eqn:Ec.
  2:{ intros [= <- <- <-]. simpl. destruct dryRun; rewrite app_nil_r; done. }
  destruct (references pod (ri_ClaimName info)) eqn:Er; cbn [negb].
  2:{ intros [= <- <- <-]. simpl. destruct dryRun; rewrite app_nil_r; done. }
  cbv zeta. destruct (if dryRun then None else create_claim _) as [e|] eqn:Ew.
  { destruct dryRun; [done|]. intros [= <- <- <-]. simpl. by rewrite app_nil_r. }
  destruct (create_each o pod infos dryRun) as [[r' keys'] calls'] eqn:E. intros [= <- <- <-].
  destruct (IH (claims ++ (if dryRun then [] else [info_claim o pod info])) _ _ _ eq_refl) as (Hs & Hok & Hdry). split_and!.
  - rewrite foldl_app. destruct dryRun; simpl in *; [by rewrite app_nil_r in Hs|]. by rewrite Hs, <- app_assoc.
  - intros Hr. by rewrite (Hok Hr).
  - intros Hd. by rewrite Hd, Hdry.
Qed.

(** Labels of this very call: no claim of an earlier one carries them. *)
Definition unlabelled (pod : Pod) (claims : list ResourceClaim) : Prop :=
  Forall (λ c, ¬ carries (p_Namespace pod) (ownerPod pod) createTimestamp c) claims.

(** The clean-up call goes through. *)
Definition cleans_up (pod : Pod) : Prop := delete_claims_of (p_Namespace pod) (ownerPod pod) createTimestamp = None.

(** What a refusal leaves: the claims as they were, and, only when the clean-up
    call fails as well, the first of the claims to create, all of them under
    the labels of this call. *)
Definition undone (pod : Pod) (planned claims claims' : list ResourceClaim) : Prop :=
  ∃ left, claims' = claims ++ left ∧ left `prefix_of` planned ∧
    Forall (carries (p_Namespace pod) (ownerPod pod) createTimestamp) left ∧ (cleans_up pod → left = []).

Lemma undone_same pod planned claims : undone pod planned claims claims.
Proof. exists []. rewrite app_nil_r. split_and!; [done|apply prefix_nil|constructor|done]. Qed.

Lemma create_multi_spec pod infos dryRun claims r calls :
  createMultiResourceClaims o pod infos dryRun = (r, calls) →
  match r with
  | Fail _ => unlabelled pod claims → undone pod (info_claim o pod <$> infos) claims (foldl serve claims calls)
  | Ok _ => foldl serve claims calls = claims ++ (if dryRun then [] else info_claim o pod <$> infos)
  end.
Proof.
  intros E. unfold createMultiResourceClaims in E. destruct (create_each o pod infos dryRun) as [[r' keys] calls'] eqn:Ec.
  destruct (create_each_spec _ _ _ claims _ _ _ Ec) as (Hs & Hok & Hdry). destruct r' as [[]|e].
  { injection E as <- <-. rewrite Hs, take_ge; [done|]. by rewrite Hok. }
  cbv zeta in E. destruct (bool_decide (0 < keys)%nat && negb dryRun) eqn:Eb; injection E as <- <-; intros Hfresh.
  - apply andb_true_iff in Eb as [_ ->%negb_true_iff]. rewrite foldl_app, Hs. simpl.
    assert (Forall (carries (p_Namespace pod) (ownerPod pod) createTimestamp) (info_claim o pod <$> take keys infos)) as Hcar
      by (apply Forall_fmap, Forall_true; intros info; apply info_claim_carries).
    destruct (is_ok (delete_claims_of _ _ _)) eqn:Eok.
    + rewrite filter_app, (filter_all (λ c, ¬ carries _ _ _ c) claims) by exact Hfresh. rewrite filter_none, app_nil_r; [apply undone_same|].
      eapply Forall_impl; [exact Hcar|]. tauto.
    + exists (info_claim o pod <$> take keys infos). split_and!; [done| |done|].
      * rewrite fmap_take. apply prefix_take.
      * intros Hdel. unfold cleans_up in Hdel. by rewrite Hdel in Eok.
  - rewrite Hs. apply andb_false_iff in Eb as [Eb|Eb]; [|apply negb_false_iff in Eb as ->; rewrite app_nil_r; apply undone_same].
    apply bool_decide_eq_false in Eb. assert (keys = 0%nat) as -> by lia. destruct dryRun; rewrite app_nil_r; apply undone_same.
Qed.

(** ** The whole call *)

(** What the pod's annotation records; [[]] when there is nothing to read. *)
Definition recorded (pod : Pod) : ResourceInfos :=
  if bool_decide (annotation pod DRAOriResAnnotation = "") then []
  else match ResourceInfos_Decode (annotation pod DRAOriResAnnotation) with Ok infos => infos | Fail _ => [] end.

(** The claims that stand for the recorded infos. *)
Definition claims_for (pod : Pod) : list ResourceClaim :=
  match recorded pod with
  | [] => []
  | info :: infos =>
      if CombinedResourceClaim (info :: infos) then
        [BuildResourceClaim pod (BuildDeviceRequest pod (op_VGPUDeviceClassName o) <$> info :: infos) (ri_ClaimName info)
           (ownerPod pod) createTimestamp]
      else info_claim o pod <$> info :: infos
  end.

Lemma combined_requests_spec pod first infos requests :
  combined_requests o pod first infos = Ok requests → requests = BuildDeviceRequest pod (op_VGPUDeviceClassName o) <$> infos.
Proof.
  revert first requests. induction infos as [|info infos IH]; intros first requests; cbn [combined_requests]; [by intros [= <-]|].
  destruct (CheckResourceInfo pod info); [|done]. destruct (first && _); [done|].
  destruct (combined_requests o pod false infos) as [rest|] eqn:E; [|done]. cbn [rbind]. intros [= <-]. rewrite fmap_cons. f_equal. by eapply IH.
Qed.

Lemma create_claims_spec pod dryRun claims r calls :
  createResourceClaims o pod dryRun = (r, calls) →
  match r with
  | Fail _ => unlabelled pod claims → undone pod (claims_for pod) claims (foldl serve claims calls)
  | Ok _ => foldl serve claims calls = claims ++ if dryRun then [] else claims_for pod
  end.
Proof.
  unfold createResourceClaims, claims_for, recorded. cbv zeta. case_bool_decide.
  { intros [= <- <-]. simpl. destruct dryRun; by rewrite app_nil_r. }
  case_bool_decide; [intros [= <- <-] _; apply undone_same|]. destruct (ResourceInfos_Decode _) as [[|info infos]|e].
  - intros [= <- <-]. simpl. destruct dryRun; by rewrite app_nil_r.
  - destruct (CombinedResourceClaim (info :: infos)); [|apply create_multi_spec].
    unfold createCombinedResourceClaim. destruct (combined_requests _ _ _ _) as [requests|e] eqn:Ec; [|intros [= <- <-] _; apply undone_same].
    apply combined_requests_spec in Ec as ->. cbv zeta. destruct (negb _); [intros [= <- <-] _; apply undone_same|].
    destruct dryRun; [intros [= <- <-]; by rewrite app_nil_r|]. destruct (create_claim _); [|by intros [= <- <-]].
    intros [= <- <-] _. apply undone_same.
  - intros [= <- <-] _. apply undone_same.
Qed.

(** The claims of an accepted pod. *)
Lemma accepted_claims pod dryRun claims calls :
  ValidateCreate o pod dryRun = (Ok tt, calls) →
  foldl serve claims calls = claims ++ if op_DefaultConvertToDRA o && negb dryRun then claims_for pod else [].
Proof.
  unfold ValidateCreate. destruct (check_pod o pod); [done|]. destruct (op_DefaultConvertToDRA o).
  - intros E. apply (create_claims_spec _ _ claims) in E. by destruct dryRun.
  - intros [= <-]. by rewrite app_nil_r.
Qed.

(** C14 Creating the claims of an admitted pod is all or nothing up to a
    failing clean-up.  An accepted pod leaves exactly the claims that stand
    for what was recorded (a dry run, or a webhook without conversion, none).
    A refused one, provided no other claim carries the labels of this call,
    leaves the server's claims as they were when the clean-up call goes
    through, whichever check or write failed; when the clean-up fails too,
    nothing but the first of the recorded claims is added, all of them under
    the labels of this call. *)
Theorem ValidateCreate_atomic pod dryRun claims r calls :
  ValidateCreate o pod dryRun = (r, calls) →
  match r with
  | Fail _ => unlabelled pod claims → undone pod (claims_for pod) claims (foldl serve claims calls)
  | Ok _ => foldl serve claims calls = claims ++ if op_DefaultConvertToDRA o && negb dryRun then claims_for pod else []
  end.
Proof.
  intros E. destruct r as [[]|e]; [by apply accepted_claims|]. unfold ValidateCreate in E.
  destruct (check_pod o pod); [injection E as <- <-; intros _; apply undone_same|]. destruct (op_DefaultConvertToDRA o); [|done].
  exact (create_claims_spec _ _ _ _ _ E).
Qed.

(** ** From extended resources to claims *)

(** The count and the capacities of every form a request may take. *)
Definition alternatives (r : DeviceRequest) : list (Z * gmap string Z) :=
  match dr_Exactly r with
  | Some e => [(er_Count e, er_Capacity e)]
  | None => (λ s, (sr_Count s, sr_Capacity s)) <$> dr_FirstAvailable r
  end.

(** A request asks, in every form, for what the container asked for. *)
Definition served_request (c : Container) (r : DeviceRequest) : Prop :=
  alternatives r ≠ [] ∧
  Forall (λ '(count, capacity),
    count = GetResourceOfContainer c VGPUNumberResourceName ∧
    capacity !! CoresResourceName = (let k := GetResourceOfContainer c VGPUCoreResourceName in
                                     if bool_decide (0 < k) then Some (k *w 1) else None) ∧
    capacity !! MemoryResourceName = (let m := GetResourceOfContainer c VGPUMemoryResourceName in
                                      if bool_decide (0 < m) then Some (m *w MiB) else None)) (alternatives r).

Lemma build_request_served pod class info c c' :
  converted c c' info → served_request c (BuildDeviceRequest pod class info) ∧
  dr_Name (BuildDeviceRequest pod class info) = ri_RequestName info.
Proof.
  intros Hc. split; [|done]. split; [done|]. constructor; [|done].
  pose proof (cv_amounts _ _ _ Hc VGPUNumberResourceName ltac:(set_solver)) as En.
  pose proof (cv_amounts _ _ _ Hc VGPUCoreResourceName ltac:(set_solver)) as Ek.
  pose proof (cv_amounts _ _ _ Hc VGPUMemoryResourceName ltac:(set_solver)) as Em.
  rewrite En, Ek, Em. unfold capacity_of. split; [done|].
  split; repeat case_bool_decide; simpl; simplify_map_eq; done.
Qed.

(** Shaping a request for a topology changes neither its name nor what it asks for. *)
Lemma shape_request_keeps mode strict access r :
  dr_Name (shape_request mode strict access r).1 = dr_Name r ∧
  ∀ c, served_request c r → served_request c (shape_request mode strict access r).1.
Proof.
  unfold shape_request. destruct (dr_Exactly r) as [e|] eqn:Ee; [|done]. cbv zeta.
  destruct (negb _); [done|]. case_bool_decide; [done|]. unfold applyTopologyTiers. destruct strict; [done|]. simpl.
  split; [done|]. intros c [_ Hall]. unfold served_request, alternatives in *. rewrite Ee in Hall. simpl.
  apply Forall_cons in Hall as [Hall _]. split.
  - rewrite fmap_app. intros [_ ?]%app_nil. done.
  - apply Forall_fmap, Forall_app. split; [apply Forall_fmap, Forall_true; by intros ?|by constructor].
Qed.

Lemma built_claim_request pod requests name owner timestamp r :
  r ∈ requests → ∃ r', r' ∈ rc_DeviceRequests (BuildResourceClaim pod requests name owner timestamp) ∧
    dr_Name r' = dr_Name r ∧ ∀ c, served_request c r → served_request c r'.
Proof.
  intros Hin. unfold BuildResourceClaim. destruct (ParsePodTopologyMode pod) as [mode strict]. cbn [rc_DeviceRequests].
  exists (shape_request mode strict (PodVGPUAccessMode pod).1 r).1. split; [|apply shape_request_keeps].
  apply list_elem_of_fmap_2, (list_elem_of_fmap_2 (shape_request mode strict (PodVGPUAccessMode pod).1)), Hin.
Qed.

Lemma built_claim_name pod requests name owner timestamp : rc_Name (BuildResourceClaim pod requests name owner timestamp) = name.
Proof. unfold BuildResourceClaim. by destruct (ParsePodTopologyMode pod). Qed.

Lemma claim_of_info pod info c c' :
  info ∈ recorded pod → converted c c' info →
  ∃ claim r, claim ∈ claims_for pod ∧ rc_Name claim = ri_ClaimName info ∧ r ∈ rc_DeviceRequests claim ∧
    dr_Name r = ri_RequestName info ∧ served_request c r.
Proof.
  intros Hin Hc. unfold claims_for. destruct (recorded pod) as [|i1 infos]; [by apply elem_of_nil in Hin|].
  destruct (build_request_served pod (op_VGPUDeviceClassName o) info c c' Hc) as [Hserved Hname].
  destruct (CombinedResourceClaim (i1 :: infos)) eqn:Ecomb.
  - destruct (combined_same _ _ Ecomb Hin) as (first & [= <-] & Hfirst).
    edestruct (built_claim_request pod (BuildDeviceRequest pod (op_VGPUDeviceClassName o) <$> i1 :: infos)) as (r & Hr & Hn & Hs);
      [by apply list_elem_of_fmap_2|]. eexists _, r. split_and!; [by left|by rewrite built_claim_name|exact Hr|congruence|by apply Hs].
  - edestruct (built_claim_request pod [BuildDeviceRequest pod (op_VGPUDeviceClassName o) info]) as (r & Hr & Hn & Hs); [by left|].
    exists (info_claim o pod info), r. split_and!; [by apply list_elem_of_fmap_2|apply built_claim_name|exact Hr|congruence|by apply Hs].
Qed.

(** ** The constraint limit *)

Lemma shape_request_constraints mode strict access r : (length (shape_request mode strict access r).2 ≤ 5)%nat.
Proof.
  unfold shape_request. destruct (dr_Exactly r) as [e|]; [|simpl; lia]. cbv zeta.
  set (tiers := if default false (er_AdminAccess e) then [] else topologyTiers (BaseTopology mode)).
  assert (length tiers ≤ 3)%nat as Ht.
  { unfold tiers, topologyTiers. destruct (default _ _); [simpl; lia|]. repeat case_bool_decide; simpl; lia. }
  destruct (negb _); [destruct strict; simpl; rewrite ?length_fmap, ?length_take; lia|].
  case_bool_decide; [simpl; lia|]. unfold applyTopologyTiers.
  destruct strict, (bool_decide (access = AccessModeRemote)); simpl; rewrite !length_fmap, ?length_take; lia.
Qed.

(** Only a combined claim can run out of constraints: one request takes five at most. *)
Lemma info_claim_within_limit pod info : 5 ≤ DeviceConstraintsMaxSize → CheckDeviceConstraintLimit (info_claim o pod info) = true.
Proof.
  intros Hmax. apply bool_decide_eq_true. unfold info_claim, BuildResourceClaim. destruct (ParsePodTopologyMode pod) as [mode strict].
  cbn [rc_Constraints]. rewrite list_fmap_singleton, list_fmap_singleton. simpl. rewrite app_nil_r.
  pose proof (shape_request_constraints mode strict (PodVGPUAccessMode pod).1 (BuildDeviceRequest pod (op_VGPUDeviceClassName o) info)). lia.
Qed.

Context `{PodHelpers}.

(** Mutation with conversion, as seen from a container of the submitted pod. *)
Lemma mutated_info random raw pod c :
  MutateCreate o random raw = Ok pod → op_DefaultConvertToDRA o = true →
  c ∈ all_containers raw → IsVGPURequiredContainer (setDefaultResource c) = true →
  ∃ info c', info ∈ recorded pod ∧ c' ∈ all_containers pod ∧ converted (setDefaultResource c) c' info ∧
    references pod (ri_ClaimName info) = true.
Proof.
  unfold MutateCreate. intros Hm Hconv Hin Hreq. destruct (mutate_defaults o raw) as [p|e] eqn:E; [|done]. cbn [rbind] in Hm.
  apply defaults_containers in E. assert (setDefaultResource c ∈ all_containers p) as Hc by (rewrite E; by apply list_elem_of_fmap_2).
  assert (asks 0 p = true) as Hask.
  { apply existsb_exists. exists (setDefaultResource c). split; [by apply list_elem_of_In|].
    apply bool_decide_eq_true in Hreq. apply bool_decide_eq_true. lia. }
  rewrite Hconv, Hask in Hm. cbn [andb] in Hm. destruct (convert_infos _ _ _ _ Hm) as (infos & Hread & Hrec).
  assert (all_containers (CleanupDRAMetadata p) = all_containers p) as Ec.
  { unfold all_containers, CleanupDRAMetadata. destruct (frame_deletes removedDRAAnnotations p) as [-> -> _ _ _ _]. done. }
  rewrite Ec in Hrec. assert (setDefaultResource c ∈ filter (λ c, IsVGPURequiredContainer c = true) (all_containers p)) as Hf
    by by apply list_elem_of_filter.
  apply list_elem_of_lookup in Hf as [i Hi]. destruct (Forall2_lookup_l _ _ _ _ _ Hrec Hi) as (info & Hinfo & Hrf & c' & Hc' & Hcv).
  apply list_elem_of_lookup_2 in Hinfo.
  exists info, c'. split_and!; [|done..]. destruct Hread as [Hne Hdec]; [by intros ->; apply elem_of_nil in Hinfo|].
  unfold recorded. rewrite bool_decide_eq_false_2 by done. by rewrite Hdec.
Qed.

(** C12 From submission to the server: when the mutating webhook converts a pod
    and the validating webhook accepts it as stored, each container that asked
    for vGPUs refers to a claim which is then on the server, and that claim
    holds a request of the referenced name which asks, in every alternative,
    for the container's number of devices, cores and memory. *)
Theorem converted_pod_served random raw pod stored claims calls :
  MutateCreate o random raw = Ok pod → op_DefaultConvertToDRA o = true →
  p_Annotations stored = p_Annotations pod →
  ValidateCreate o stored false = (Ok tt, calls) →
  Forall (λ c, IsVGPURequiredContainer (setDefaultResource c) = true →
    ∃ c' ref claim r, c' ∈ all_containers pod ∧ c_Name c' = c_Name c ∧ ref ∈ c_Claims c' ∧
      references pod (cc_Name ref) = true ∧ claim ∈ foldl serve claims calls ∧ rc_Name claim = cc_Name ref ∧
      r ∈ rc_DeviceRequests claim ∧ dr_Name r = cc_Request ref ∧ served_request (setDefaultResource c) r) (all_containers raw).
Proof.
  intros Hm Hconv Hann Hv. apply Forall_forall. intros c Hin Hreq.
  destruct (mutated_info _ _ _ _ Hm Hconv Hin Hreq) as (info & c' & Hinfo & Hc' & Hcv & Href).
  assert (recorded stored = recorded pod) as Er by (unfold recorded, annotation, HasAnnotation; by rewrite Hann).
  rewrite <- Er in Hinfo. destruct (claim_of_info _ _ _ _ Hinfo Hcv) as (claim & r & Hclaim & Hname & Hr & Hrn & Hs).
  rewrite (accepted_claims _ _ claims _ Hv), Hconv. destruct (cv_name _ _ _ Hcv) as [Hn _].
  exists c', {| cc_Name := ri_ClaimName info; cc_Request := ri_RequestName info |}, claim, r. split_and!; [done|exact Hn| |done| |done..].
  - rewrite (cv_claims _ _ _ Hcv). set_solver.
  - set_solver.
Qed.
End spec.

(** ** A concrete server *)
Module ValidateDemo.
Import AdmissionDemo ShareDemo.

Definition dra : DraLib := {| StandardDeviceAttributeNUMANode := "numaNode"; DeviceConstraintsMaxSize := 32 |}.
#[export] Existing Instance dra.
Definition lib : ValidateLib := {| labels_Parse _ := None; clusterDNSServers := []; check_cluster_dns := false |}.
#[export] Existing Instance lib.

(** A server that refuses claims of the name [full]. *)
Definition writer (full : string) : ClaimWriter :=
  {| create_claim c := if bool_decide (rc_Name c = full) then Some "quota exceeded" else None;
     delete_claims_of _ _ _ := None; delete_claim _ _ := None |}.

Definition mutated : Pod := match MutateCreate (options true) "abcde" submitted with Ok p => p | Fail _ => submitted end.
Definition refused := ValidateCreate (W := writer "job-side-064f14b1") (options true) mutated false.
Definition accepted := ValidateCreate (W := writer "") (options true) mutated false.

Example refused_second : refused.1 = Fail (ErrApi "quota exceeded") ∧ length refused.2 = 3%nat.
Proof. vm_compute. done. Qed.

(** The claim of the first container is created and taken back. *)
Lemma ValidateCreate_atomic_witness : foldl serve [claim] refused.2 = [claim].
Proof.
  destruct (ValidateCreate_atomic (W := writer "job-side-064f14b1") (options true) mutated false [claim] (Fail (ErrApi "quota exceeded")) refused.2)
    as (left & -> & _ & _ & Hclean).
  - vm_compute. reflexivity.
  - unfold unlabelled. refine (bool_decide_unpack _ _). vm_compute. exact I.
  - by rewrite Hclean.
Defined.

Lemma converted_pod_served_witness :
  IsVGPURequiredContainer (setDefaultResource (Demo.container "side" [(VGPUMemoryResourceName, 1000)])) = true ∧
  length (foldl serve [claim] accepted.2) = 3%nat ∧
  ∃ c' ref cl r, c' ∈ all_containers mutated ∧ c_Name c' = "side" ∧ ref ∈ c_Claims c' ∧
    references mutated (cc_Name ref) = true ∧ cl ∈ foldl serve [claim] accepted.2 ∧ rc_Name cl = cc_Name ref ∧
    r ∈ rc_DeviceRequests cl ∧ dr_Name r = cc_Request ref ∧
    served_request (setDefaultResource (Demo.container "side" [(VGPUMemoryResourceName, 1000)])) r.
Proof.
  split; [vm_compute; reflexivity|]. split; [vm_compute; reflexivity|].
  pose proof (converted_pod_served (W := writer "") (options true) "abcde" submitted mutated mutated [claim] accepted.2) as Hs.
  rewrite Forall_forall in Hs. specialize (λ H1 H2 H3 H4, Hs H1 H2 H3 H4 (Demo.container "side" [(VGPUMemoryResourceName, 1000)])).
  apply Hs.
  - vm_compute. reflexivity.
  - reflexivity.
  - reflexivity.
  - vm_compute. reflexivity.
  - right. left.
  - vm_compute. reflexivity.
Defined.
End ValidateDemo.
