(* ===== verification/Gate.v ===== *)
(** * The capacity gate ([nodeCapacityGate] in [pkg/scheduler/filter/filter_predicate.go])

    Before the allocator runs, the scheduler filter drops nodes whose capacity
    cannot host the request.  The theorem is the gate's contract: it rejects
    only nodes the allocator would reject as well. *)

From stdpp Require Import base list gmap strings.
From Stdlib Require Import ZArith Lia.
From S2P Require Import Prelude GoMap GoSort GoStrings Float64 GoTime Kube Claims Reason Links Topology Device.
From S2P Require Import Footprint NodeInfo Accounting Affinity Request Scoring SubsetSearch DemoNode Numa Tiered.
From S2P Require Import TieredSpec Allocator AllocatorSpec Placement NodeBuild EndToEnd.

Open Scope Z_scope.

Section gate.
Context `{Env} `{MapOrder}.

(** The device passes the pod's uuid and type constraints. *)
Definition matches_constraints (req : AllocationRequest) (dev : Device) : bool :=
  negb (rq_CheckDeviceUuid req && negb (CheckDeviceUuid (p_Annotations (rq_Pod req)) (d_uuid dev))) &&
  negb (rq_CheckDeviceType req && negb (CheckDeviceType (p_Annotations (rq_Pod req)) (d_deviceType dev))).

Definition short_of (code : Code) (prefix : string) (want : Z) (middle : string) (have : Z) (suffix : string)
  : option FilterReason :=
  Some (WithDetail (New code) (prefix +:+ Itoa want +:+ middle +:+ Itoa have +:+ suffix)).

Definition nodeCapacityGate (req : AllocationRequest) (n : NodeInfo) : option FilterReason :=
  let max := rq_Max req in
  let total := rq_Total req in
  if bool_decide (GetSchedulableDeviceCount n < cn_Number max) then
    short_of InsufficientGPUCards "max " (cn_Number max) " devices, node has " (GetSchedulableDeviceCount n) " schedulable"
  else if bool_decide (GetMaxDeviceCores n < cn_Cores max) then
    short_of InsufficientVGPUCore "max " (cn_Cores max) " cores, largest device has " (GetMaxDeviceCores n) ""
  else if bool_decide (GetMaxDeviceMemory n < cn_Memory max) then
    short_of InsufficientVGPUMemory "max " (cn_Memory max) " memory, largest device has " (GetMaxDeviceMemory n) ""
  else if bool_decide (GetAvailableNumber n < cn_Number total) then
    short_of InsufficientGPUResources "need " (cn_Number total) " number, available " (GetAvailableNumber n) ""
  else if bool_decide (GetAvailableCores n < cn_Cores total) then
    short_of InsufficientVGPUCore "need " (cn_Cores total) " cores, available " (GetAvailableCores n) ""
  else if bool_decide (GetAvailableMemory n < cn_Memory total) then
    short_of InsufficientVGPUMemory "need " (cn_Memory total) " memory, available " (GetAvailableMemory n) ""
  else if rq_CheckDeviceUuid req || rq_CheckDeviceType req then
    let matched := Z.of_nat (length (filter (λ dev, matches_constraints req dev = true) (range (ni_deviceMap n)).*2)) in
    if bool_decide (matched < cn_Number max) then
      short_of (if rq_CheckDeviceUuid req then DeviceUUIDMismatch else DeviceTypeMismatch)
        "only " matched " of " (cn_Number max) " required devices match the requested GPU uuid/type"
    else None
  else None.
End gate.

(** ** Counting claims by GPU *)

Lemma Zsum_indicator (us : list string) (v : string) (z : Z) :
  NoDup us → v ∈ us → Zsum ((λ u, if decide (v = u) then z else 0) <$> us) = z.
Proof.
  induction us as [|u us IH]; intros Hnd Hv; [by apply elem_of_nil in Hv|].
  apply NoDup_cons in Hnd as [Hu Hnd]. rewrite fmap_cons, Zsum_cons. case_decide as E.
  - subst. assert (Zsum ((λ u0, if decide (u = u0) then z else 0) <$> us) = 0) as ->; [|lia].
    clear -Hu. induction us as [|w us IH]; [done|]. rewrite fmap_cons, Zsum_cons.
    rewrite decide_False by (intros ->; apply Hu; by left). rewrite IH; [done|]. intros ?. apply Hu. by right.
  - apply elem_of_cons in Hv as [->|Hv]; [done|]. rewrite IH by done. lia.
Qed.

(** What is claimed in all, summed GPU by GPU. *)
Lemma claims_by_gpu x us claims :
  NoDup us → Forall (λ c, dc_Uuid c ∈ us) claims →
  Zsum ((λ u, claims_on x u claims) <$> us) = Zsum (demand x <$> claims).
Proof.
  intros Hnd. induction 1 as [|c claims Hc _ IH].
  - simpl. clear. induction us as [|u us IH]; [done|]. rewrite fmap_cons, Zsum_cons, IH. done.
  - rewrite fmap_cons, Zsum_cons, <- IH, <- (Zsum_indicator us (dc_Uuid c) (demand x c) Hnd Hc), <- Zsum_fmap_add.
    f_equal. apply list_fmap_ext. intros _ u _. rewrite claims_on_cons. case_decide; lia.
Qed.

Section necessary.
Context `{Env} `{MapOrder}.
Context (n : NodeInfo) (req : AllocationRequest) (claims : list ContainerDeviceClaim).
Context (Hbuilt : built req) (Hnames : distinct_names (rq_Pod req)) (Hsound : sound_node n)
  (Hlim : limits_ok n (rq_Pod req)) (Hplaced : well_placed n req claims).

Let devices := (map_to_list (ni_deviceMap n)).*2.
Let sched := sched_of devices.
Let us := d_uuid <$> sched.

Context (Hagg : aggregates devices (ni_stats n)) (Hcap : ∀ x, Zsum (capacity x <$> sched) ≤ int64_max)
  (Hcount : Z.of_nat (length sched) ≤ int64_max).

Lemma elem_of_devices d : d ∈ devices ↔ ∃ id, ni_deviceMap n !! id = Some d.
Proof.
  unfold devices. rewrite list_elem_of_fmap. split.
  - intros ([id d'] & -> & Hd%elem_of_map_to_list). by exists id.
  - intros [id Hd]. exists (id, d). split; [done|]. by apply elem_of_map_to_list.
Qed.

Lemma elem_of_sched d : d ∈ sched ↔ (∃ id, ni_deviceMap n !! id = Some d) ∧ d_healthy d = true ∧ d_mig d = false.
Proof.
  unfold sched, sched_of. rewrite list_elem_of_filter, elem_of_devices. unfold schedulable.
  destruct (d_mig d), (d_healthy d); naive_solver.
Qed.

Lemma device_uuids_nodup : NoDup (d_uuid <$> devices).
Proof.
  apply NoDup_fmap_2_strong.
  - intros d d' [id Hd]%elem_of_devices [id' Hd']%elem_of_devices Hu.
    destruct (no_indexed _ (sn_ok n Hsound)) as [_ Hi]. destruct (Hi _ _ Hd) as [_ H1], (Hi _ _ Hd') as [_ H2].
    rewrite Hu, H2 in H1. congruence.
  - unfold devices. apply NoDup_fmap_2_strong; [|apply NoDup_map_to_list].
    intros [i d] [j d'] Hi%elem_of_map_to_list Hj%elem_of_map_to_list Heq. simpl in Heq. subst d'.
    destruct (no_indexed _ (sn_ok n Hsound)) as [_ Hx]. destruct (Hx _ _ Hi) as [<- _], (Hx _ _ Hj) as [<- _]. done.
Qed.

Lemma sched_uuids_nodup : NoDup us.
Proof. eapply sublist_NoDup; [apply device_uuids_nodup|]. apply fmap_sublist, sublist_filter. Qed.

Lemma claimed_on_sched claim : claim ∈ claims → Forall (λ c, dc_Uuid c ∈ us) (cdc_DeviceClaims claim).
Proof.
  intros (need & _ & _ & Hp)%(claim_of_need n req claims Hbuilt Hsound Hlim Hplaced).
  destruct (placed_like_gpus n req need claim (sn_ok n Hsound) Hp) as [Hel _].
  eapply Forall_impl; [exact Hel|]. intros c (d & Hd & -> & He & Hm & _).
  apply list_elem_of_fmap_2, elem_of_sched. eauto.
Qed.

(** ** Demand against claims *)

Let total_on x (claim : ContainerDeviceClaim) : Z := Zsum (demand x <$> cdc_DeviceClaims claim).

Lemma container_total x claim : claim ∈ claims → Zsum ((λ u, container_on x u claim) <$> us) = total_on x claim.
Proof. intros Hc. apply claims_by_gpu; [apply sched_uuids_nodup|by apply claimed_on_sched]. Qed.

(** What the statistics count per device is at most what each claim takes. *)
Lemma placed_like_each need claim x c :
  placed_like n req need claim → c ∈ cdc_DeviceClaims claim →
  (match x with Number => 1 | _ => node_per_device n x need end) ≤ demand x c.
Proof.
  intros (n1 & w & Hs & Hw & Hp) Hc. destruct (same_node_config _ _ Hs) as (Hcf & Hsame & Hm & _).
  unfold placed in Hp. unfold node_per_device, per_device. rewrite <- Hcf, <- Hsame, <- Hm in Hp.
  destruct (resolveContainerNeeds _ _ _ _) as [cores mem]. destruct Hp as (_ & _ & picked & Hperm & _ & _ & Hin).
  rewrite Hperm in Hc. apply list_elem_of_fmap in Hc as (d & -> & Hd). destruct (Hin d Hd) as ([id Hid] & _ & _).
  pose proof (GetTotalMemory_wf d (Hw _ _ Hid)) as Hm0. destruct (Hw _ _ Hid Memory).
  destruct x; simpl; [done|done|]. case_bool_decide; lia.
Qed.

Lemma per_device_nonneg need x : 0 < cn_Number need → need_nonneg n need → 0 ≤ node_per_device n x need.
Proof.
  intros Hn Hnn. unfold need_nonneg in Hnn. unfold node_per_device, per_device.
  destruct (resolveContainerNeeds _ _ _ _) as [cores mem]. destruct x; lia.
Qed.

(** The demand the statistics count for a container is covered by its claims. *)
Lemma placed_like_ask need claim x :
  0 < cn_Number need → need_nonneg n need → placed_like n req need claim → 0 ≤ node_ask n x need ≤ total_on x claim.
Proof.
  intros Hpos Hnn Hp. destruct (placed_served n req need claim Hp) as (_ & Hlen & _).
  pose proof (per_device_nonneg need x Hpos Hnn) as Hpd.
  set (unit := match x with Number => 1 | _ => node_per_device n x need end).
  assert (Zsum ((λ _, unit) <$> cdc_DeviceClaims claim) ≤ total_on x claim) as Hle.
  { apply Zsum_fmap_le. intros c Hc. by apply (placed_like_each need claim x c). }
  assert (∀ l : list DeviceClaim, Zsum ((λ _, unit) <$> l) = unit * Z.of_nat (length l)) as Heq.
  { clear. induction l as [|d l IH]; [simpl; lia|]. rewrite fmap_cons, Zsum_cons, IH. simpl length. lia. }
  rewrite Heq, Hlen in Hle. unfold unit, node_ask, ask, node_per_device in *. destruct x; lia || nia.
Qed.

Lemma asked : Forall2 (λ need claim, need ∈ rq_Containers req ∧ (0 < cn_Number need ∧ need_nonneg n need) ∧
  placed_like n req need claim) (rq_Containers req) claims.
Proof.
  destruct Hplaced as [Hall _]. eapply Forall2_impl_elem; [exact Hall|]. intros need claim Hneed _ Hp. split; [done|split; [|done]].
  pose proof (limits_needs_ok n (rq_Pod req) (sn_max n Hsound) Hlim) as Hok. destruct Hbuilt as [Hb _].
  unfold needs_ok in Hok. rewrite Forall_forall in Hok. rewrite Hb in Hneed. by apply Hok.
Qed.

(** Class by class, demand and claims correspond. *)
Lemma asked_class (P : ContainerNeed → Prop) (Q : ContainerDeviceClaim → Prop)
    `{!∀ a, Decision (P a), !∀ b, Decision (Q b)} x :
  (∀ need claim, need ∈ pod_needs (rq_Pod req) → cdc_Name claim = cn_Name need → P need ↔ Q claim) →
  Forall2 (λ need claim, node_ask n x need ≤ Zsum ((λ u, container_on x u claim) <$> us))
    (filter P (rq_Containers req)) (filter Q claims).
Proof.
  intros HPQ. apply Forall2_filter. eapply Forall2_impl_elem; [apply asked|].
  intros need claim _ Hc (Hneed & [Hpos Hnn] & Hp). destruct Hbuilt as [Hb _]. rewrite Hb in Hneed. split.
  - rewrite container_total by done. by apply placed_like_ask.
  - apply HPQ; [done|]. by eapply placed_like_name.
Qed.

Lemma need_classes need claim :
  need ∈ pod_needs (rq_Pod req) → cdc_Name claim = cn_Name need →
  (is_sidecar_class need ↔ is_sidecar (rq_Pod req) claim) ∧ (is_app_class need ↔ is_regular (rq_Pod req) claim) ∧
  (is_init_class need ↔ is_sequential (rq_Pod req) claim).
Proof.
  intros Hneed Hname. destruct (need_class _ _ _ Hnames Hneed Hname) as (<- & <- & <-).
  apply elem_of_pod_needs in Hneed as [_ Hneed].
  unfold is_sidecar_class, is_app_class, is_init_class, is_init_need, is_sidecar_need, is_app_need.
  destruct Hneed as [(c & _ & ->)|(c & _ & ->)]; simpl; [destruct (IsRestartableInitContainer c)|]; naive_solver.
Qed.

Lemma claims_nonneg x u claim : claim ∈ claims → 0 ≤ container_on x u claim.
Proof.
  intros (need & Hneed & Hnn & Hp)%(claim_of_need n req claims Hbuilt Hsound Hlim Hplaced). apply claims_on_nonneg.
  eapply Forall_impl; [by apply (placed_like_claims n req need); [apply Hsound|..]|].
  intros c (id & d & _ & _ & _ & Hx) y. apply Hx.
Qed.

Let demand_of x := lifecycle_demand (nc_MemoryFactor (ni_config n)) (HasSameCapacity n) (GetMaxDeviceMemory n) x
  (rq_Containers req).

Lemma demand_le_reserve x : demand_of x ≤ Zsum (reserve x (rq_Pod req) claims <$> us).
Proof.
  assert (∀ need claim, need ∈ pod_needs (rq_Pod req) → cdc_Name claim = cn_Name need → _) as Hcl by apply need_classes.
  pose proof (Zsum_Forall2_le _ _ _ _ (asked_class is_sidecar_class (is_sidecar (rq_Pod req)) x
    (λ a b h1 h2, proj1 (Hcl a b h1 h2)))) as Hs.
  pose proof (Zsum_Forall2_le _ _ _ _ (asked_class is_app_class (is_regular (rq_Pod req)) x
    (λ a b h1 h2, proj1 (proj2 (Hcl a b h1 h2))))) as Ha.
  pose proof (Zmax0_Forall2_le _ _ _ _ (asked_class is_init_class (is_sequential (rq_Pod req)) x
    (λ a b h1 h2, proj2 (proj2 (Hcl a b h1 h2))))) as Hi.
  rewrite <- (Zsum_swap (λ u claim, container_on x u claim)) in Hs.
  rewrite <- (Zsum_swap (λ u claim, container_on x u claim)) in Ha.
  pose proof (Zmax0_Zsum_le (λ u claim, container_on x u claim) us (filter (is_sequential (rq_Pod req)) claims)) as Hm.
  specialize (Hm (λ u c _ hc, claims_nonneg x u c (proj2 (proj1 (list_elem_of_filter _ _ _) hc)))).
  set (app u := Zsum (container_on x u <$> filter (is_regular (rq_Pod req)) claims)) in *.
  set (init u := Zmax0 (container_on x u <$> filter (is_sequential (rq_Pod req)) claims)) in *.
  pose proof (Zsum_fmap_add (λ u, Zsum (container_on x u <$> filter (is_sidecar (rq_Pod req)) claims))
    (λ u, Z.max (app u) (init u)) us) as Hsum.
  pose proof (Zsum_fmap_le app (λ u, Z.max (app u) (init u)) us ltac:(intros; simpl; lia)) as H1.
  pose proof (Zsum_fmap_le init (λ u, Z.max (app u) (init u)) us ltac:(intros; simpl; lia)) as H2.
  change (reserve x (rq_Pod req) claims) with
    (λ u, Zsum (container_on x u <$> filter (is_sidecar (rq_Pod req)) claims) + Z.max (app u) (init u)).
  rewrite Hsum. change (Zsum (node_ask n x <$> filter is_app_class (rq_Containers req)) ≤ Zsum (app <$> us)) in Ha.
  change (Zmax0 ((λ c, Zsum ((λ u, container_on x u c) <$> us)) <$> filter (is_sequential (rq_Pod req)) claims)
          ≤ Zsum (init <$> us)) in Hm.
  change (demand_of x) with (Zsum (node_ask n x <$> filter is_sidecar_class (rq_Containers req)) +
    Z.max (Zsum (node_ask n x <$> filter is_app_class (rq_Containers req)))
          (Zmax0 (node_ask n x <$> filter is_init_class (rq_Containers req)))).
  change (λ u, Zsum ((λ c, container_on x u c) <$> ?l)) with (λ u, Zsum (container_on x u <$> l)) in Hs. lia.
Qed.

Lemma capacity_wf x d : device_wf d → capacity x d = total x d.
Proof.
  intros Hw. destruct (Hw x) as [_ Ht]. destruct x; simpl in *; unfold GetTotalNumber, GetTotalCores, GetTotalMemory;
    case_bool_decide; lia.
Qed.

Lemma sched_wf d : d ∈ sched → device_wf d.
Proof. intros [[id Hd] _]%elem_of_sched. by eapply (sn_wf n Hsound). Qed.

Lemma reserve_le_free x : Zsum (reserve x (rq_Pod req) claims <$> us) ≤ Zsum (allocatable x <$> sched).
Proof.
  unfold us. rewrite <- list_fmap_compose. apply Zsum_fmap_le. intros d Hd. rewrite allocatable_wf by by apply sched_wf.
  apply elem_of_sched in Hd as [[id Hd] _]. destruct Hplaced as [_ Hfit]. destruct (Hfit id d x Hd). simpl. lia.
Qed.

Lemma free_le_capacity x : Zsum (allocatable x <$> sched) ≤ Zsum (capacity x <$> sched).
Proof.
  apply Zsum_fmap_le. intros d Hd%sched_wf. rewrite (allocatable_wf x d Hd), (capacity_wf x d Hd). destruct (Hd x). lia.
Qed.

Lemma available_free x : available x n = Zsum (allocatable x <$> sched).
Proof.
  pose proof (free_le_capacity x) as Hle. specialize (Hcap x).
  assert (0 ≤ Zsum (allocatable x <$> sched)) as Hnn.
  { apply Zsum_nonneg, Forall_fmap, Forall_forall. intros d _. apply allocatable_range. }
  assert (Zsum (capacity x <$> sched) = Zsum (taken x <$> sched) + Zsum (allocatable x <$> sched)) as Heq.
  { rewrite <- Zsum_fmap_add. f_equal. apply list_fmap_ext. intros i d Hd%list_elem_of_lookup_2%sched_wf. unfold taken.
    rewrite wrap64_id; [lia|]. rewrite (allocatable_wf x d Hd), (capacity_wf x d Hd). destruct (Hd x).
    unfold in64, int64_min, int64_max in *. lia. }
  assert (0 ≤ Zsum (taken x <$> sched)) as Htk.
  { apply Zsum_nonneg, Forall_fmap, Forall_forall. intros d Hd%sched_wf. simpl. unfold taken. rewrite wrap64_id;
      rewrite (allocatable_wf x d Hd), (capacity_wf x d Hd); destruct (Hd x); unfold in64, int64_min, int64_max in *; lia. }
  assert (available x n = clamp0 (stat_total x (ni_stats n) -w stat_used x (ni_stats n))) as -> by by destruct x.
  rewrite (ag_total _ _ Hagg x), (ag_used _ _ Hagg x). unfold clamp0. fold sched.
  rewrite !wrap64_id by (rewrite ?wrap64_id; unfold in64, int64_min, int64_max in *; lia). case_bool_decide; lia.
Qed.

Lemma demand_fits x : demand_of x ≤ Zsum (allocatable x <$> sched) ≤ int64_max.
Proof.
  pose proof (demand_le_reserve x). pose proof (reserve_le_free x). pose proof (free_le_capacity x). specialize (Hcap x). lia.
Qed.

Lemma need_covered need :
  need ∈ rq_Containers req →
  ∃ claim, claim ∈ claims ∧ (0 < cn_Number need ∧ need_nonneg n need) ∧ placed_like n req need claim.
Proof.
  intros Hneed. pose proof asked as Ha. apply list_elem_of_lookup in Hneed as [i Hi].
  destruct (Forall2_lookup_l _ _ _ _ _ Ha Hi) as (claim & Hc & _ & Hnn & Hp). exists claim.
  split_and!; [by eapply list_elem_of_lookup_2|apply Hnn|apply Hnn|done].
Qed.

Lemma ask_nonneg need x : need ∈ rq_Containers req → 0 ≤ node_ask n x need.
Proof. intros (claim & Hc & [Hpos Hnn] & Hp)%need_covered. by apply (placed_like_ask need claim x). Qed.

Lemma asks_are_fit : asks_fit (nc_MemoryFactor (ni_config n)) (HasSameCapacity n) (GetMaxDeviceMemory n) (rq_Containers req).
Proof.
  assert (∀ (P : ContainerNeed → Prop) `{!∀ n, Decision (P n)} x, 0 ≤ Zsum (node_ask n x <$> filter P (rq_Containers req))) as Hnn.
  { intros P HP x. apply Zsum_nonneg, Forall_fmap, Forall_filter, Forall_forall. intros need Hn. by apply ask_nonneg. }
  assert (∀ x, 0 ≤ Zmax0 (node_ask n x <$> filter is_init_class (rq_Containers req))) as Hz by (intros; apply Zmax0_nonneg).
  assert (∀ x, Zsum (node_ask n x <$> filter is_sidecar_class (rq_Containers req)) +
    Z.max (Zsum (node_ask n x <$> filter is_app_class (rq_Containers req)))
          (Zmax0 (node_ask n x <$> filter is_init_class (rq_Containers req))) ≤ int64_max) as Hmax
    by (intros x; etrans; apply demand_fits).
  assert (∀ (P : ContainerNeed → Prop) `{!∀ n, Decision (P n)} x need, need ∈ rq_Containers req → P need →
    node_ask n x need ≤ Zsum (node_ask n x <$> filter P (rq_Containers req))) as Hin.
  { intros P HP x need Hneed Hn. apply Zsum_elem_le; [|by apply list_elem_of_filter].
    intros y [_ Hy]%list_elem_of_filter. by apply ask_nonneg. }
  split.
  - intros need x Hneed. change (ask _ _ _ x need) with (node_ask n x need). split; [by apply ask_nonneg|].
    specialize (Hmax x). specialize (Hz x). pose proof (Hnn is_sidecar_class _ x). pose proof (Hnn is_app_class _ x).
    destruct (is_init_need need) eqn:Ei; [|destruct (cn_Restartable need) eqn:Er].
    + pose proof (Zmax0_ge (node_ask n x <$> filter is_init_class (rq_Containers req)) (node_ask n x need)) as Hg.
      specialize (Hg ltac:(apply list_elem_of_fmap_2, list_elem_of_filter; done)). lia.
    + pose proof (Hin is_sidecar_class _ x need Hneed (conj Ei Er)). lia.
    + pose proof (Hin is_app_class _ x need Hneed (conj Ei Er)). lia.
  - intros x. specialize (Hmax x). specialize (Hz x). pose proof (Hnn is_app_class _ x). unfold node_ask in *. lia.
  - intros x. specialize (Hmax x). specialize (Hz x). pose proof (Hnn is_sidecar_class _ x). unfold node_ask in *. lia.
Qed.

(** The largest container fits the largest device, and its devices exist. *)
Lemma max_number_le (us' : list string) :
  (∀ claim c, claim ∈ claims → c ∈ cdc_DeviceClaims claim → dc_Uuid c ∈ us') →
  cn_Number (rq_Max (ResetStatistics req n)) ≤ Z.of_nat (length us').
Proof.
  intros Hin. destruct (reset_demand req n asks_are_fit Number) as [Hm _].
  change (cn_Number (rq_Max (ResetStatistics req n))) with (need_dim Number (rq_Max (ResetStatistics req n))). rewrite Hm.
  apply Zmax0_le; [lia|]. intros z (need & -> & Hneed)%list_elem_of_fmap.
  destruct (need_covered need Hneed) as (claim & Hc & _ & Hp).
  destruct (placed_served n req need claim Hp) as (_ & Hlen & Hnd).
  assert (node_per_device n Number need = cn_Number need) as ->
    by (unfold node_per_device, per_device; by destruct (resolveContainerNeeds _ _ _ _)).
  rewrite <- Hlen. apply inj_le. rewrite <- (length_fmap dc_Uuid). apply submseteq_length, NoDup_submseteq; [done|].
  intros u (c & -> & Hcc)%list_elem_of_fmap. by eapply Hin.
Qed.

Lemma max_dim_le x : x ≠ Number → need_dim x (rq_Max (ResetStatistics req n)) ≤ Zmax0 (capacity x <$> sched).
Proof.
  intros Hx. destruct (reset_demand req n asks_are_fit x) as [-> _].
  apply Zmax0_le; [apply Zmax0_nonneg|]. intros z (need & -> & Hneed)%list_elem_of_fmap.
  destruct (need_covered need Hneed) as (claim & Hc & [Hpos Hnn] & Hp).
  destruct (placed_served n req need claim Hp) as (_ & Hlen & _).
  destruct (cdc_DeviceClaims claim) as [|c cs] eqn:Ecs; [simpl in Hlen; lia|].
  assert (c ∈ cdc_DeviceClaims claim) as Hcin by (rewrite Ecs; by left).
  pose proof (placed_like_each need claim x c Hp Hcin) as Hd.
  pose proof (placed_like_claims n req need claim (sn_ok n Hsound) Hnn Hp) as Hall.
  rewrite Forall_forall in Hall. destruct (Hall c Hcin) as (id & d & Hdl & _ & Hu & Hb).
  pose proof (claimed_on_sched claim Hc) as Hus. rewrite Forall_forall in Hus. specialize (Hus c Hcin).
  apply list_elem_of_fmap in Hus as (d' & Hu' & Hd'). assert (d = d') as <-.
  { apply elem_of_sched in Hd' as [[id' Hd'] _]. destruct (no_indexed _ (sn_ok n Hsound)) as [_ Hi].
    destruct (Hi _ _ Hdl) as [_ H1], (Hi _ _ Hd') as [_ H2]. rewrite <- Hu, Hu', H2 in H1. congruence. }
  etrans; [|apply Zmax0_ge, list_elem_of_fmap_2, Hd']. rewrite (capacity_wf x d) by by apply sched_wf.
  specialize (Hb x). destruct x; simpl in *; [done|lia|lia].
Qed.

Lemma matched_devices claim c :
  claim ∈ claims → c ∈ cdc_DeviceClaims claim →
  dc_Uuid c ∈ d_uuid <$> filter (λ dev, matches_constraints req dev = true) (range (ni_deviceMap n)).*2.
Proof.
  intros Hc Hcin. destruct (claim_of_need n req claims Hbuilt Hsound Hlim Hplaced claim Hc) as (need & _ & _ & Hp).
  destruct (placed_like_gpus n req need claim (sn_ok n Hsound) Hp) as [Hel _]. rewrite Forall_forall in Hel.
  destruct (Hel c Hcin) as (d & Hd & -> & _ & _ & Ht & Hu). apply list_elem_of_fmap_2, list_elem_of_filter. split.
  - unfold matches_constraints. destruct (rq_CheckDeviceUuid req), (rq_CheckDeviceType req); simpl; auto;
      rewrite ?Ht, ?Hu by done; done.
  - rewrite range_perm. apply elem_of_devices. eauto.
Qed.

Lemma gate_passes : nodeCapacityGate (ResetStatistics req n) n = None.
Proof.
  assert (GetSchedulableDeviceCount n = Z.of_nat (length us)) as Hn.
  { unfold GetSchedulableDeviceCount, us. rewrite (ag_count _ _ Hagg), length_fmap. apply wrap64_id. fold sched.
    unfold in64, int64_min, int64_max in *. lia. }
  assert (∀ x, need_dim x (rq_Total (ResetStatistics req n)) ≤ available x n) as Ht.
  { intros x. destruct (reset_demand req n asks_are_fit x) as [_ Htot]. pose proof (demand_fits x).
    rewrite Htot by (unfold demand_of in *; lia). rewrite available_free. unfold demand_of in *. lia. }
  pose proof (max_number_le us (λ claim c h1 h2, proj1 (Forall_forall _ _) (claimed_on_sched claim h1) c h2)) as Hnum.
  pose proof (max_dim_le Cores ltac:(done)) as Hc. pose proof (max_dim_le Memory ltac:(done)) as Hm.
  pose proof (max_number_le _ matched_devices) as Hmatch. rewrite length_fmap in Hmatch.
  pose proof (ag_cores _ _ Hagg) as Hac. pose proof (ag_memory _ _ Hagg) as Ham. fold sched in Hac, Ham.
  pose proof (Ht Number) as H1. pose proof (Ht Cores) as H2. pose proof (Ht Memory) as H3.
  change (capacity Cores) with GetTotalCores in Hc. change (capacity Memory) with GetTotalMemory in Hm.
  cbn [need_dim available] in Hc, Hm, H1, H2, H3.
  unfold nodeCapacityGate. unfold GetMaxDeviceCores, GetMaxDeviceMemory. cbv zeta.
  change (matches_constraints (ResetStatistics req n)) with (matches_constraints req).
  repeat (rewrite bool_decide_eq_false_2 by lia).
  by destruct (rq_CheckDeviceUuid _ || rq_CheckDeviceType _).
Qed.
End necessary.

(** C19 The gate is a necessary condition: a node it turns away, the allocator
    would turn away too.  Whatever the pod's containers ask for and however
    [Allocate] places them, when it succeeds the statistics recomputed for the
    node pass every comparison of the gate, in all three dimensions and for
    the uuid and type constraints. *)
Theorem nodeCapacityGate_necessary `{Env} `{MapOrder} cfg req s newPod s' :
  let n := as_node s in
  let sched := sched_of (map_to_list (ni_deviceMap n)).*2 in
  built req → distinct_names (rq_Pod req) → sound_node n → limits_ok n (rq_Pod req) →
  aggregates (map_to_list (ni_deviceMap n)).*2 (ni_stats n) →
  (∀ x, Zsum (capacity x <$> sched) ≤ int64_max) → Z.of_nat (length sched) ≤ int64_max →
  Allocate cfg req s = (Done newPod, s') →
  nodeCapacityGate (ResetStatistics req n) n = None.
Proof.
  intros n sched Hb Hn Hs Hl Hagg Hcap Hcount Hdone.
  destruct (allocate_placed _ _ _ _ _ Hb Hn Hs Hl Hdone) as (claims & _ & Hp & _). by apply (gate_passes n req claims).
Qed.

Module GateDemo.
Import DemoNode EndToEndDemo.

Lemma nodeCapacityGate_necessary_witness :
  nodeCapacityGate (ResetStatistics req info) info = None ∧
  option_map fr_Primary (nodeCapacityGate
    (ResetStatistics (BuildAllocationRequest (Demo.pod "big" [] [] [Demo.container "c" (gpu_limits 5 10 100)])) info) info)
  = Some InsufficientGPUCards.
Proof.
  split; [|vm_compute; reflexivity].
  apply (nodeCapacityGate_necessary cfg req start placed_pod (Allocate cfg req start).2).
  - apply BuildAllocationRequest_built.
  - exact pod_names.
  - exact info_sound.
  - exact pod_limits.
  - apply (fn_stats _ _ _ info_fresh).
  - intros []; vm_compute; discriminate.
  - vm_compute. discriminate.
  - rewrite <- allocated. apply surjective_pairing.
Defined.
End GateDemo.
