(* ===== verification/Client.v ===== *)
(** * Pods through the API server ([pkg/client])

    The metadata patches that move a pod through its allocation phases
    ([kube_patch.go]) and the indexed pod cache ([pod_lister.go]).  The API
    server is [ApiServer]: the outcome of a merge patch, retries included.  On
    success it answers with its current object, of which only the patched keys
    are known. *)

From stdpp Require Import base list gmap strings.
From Stdlib Require Import ZArith Lia.
From S2P Require Import Prelude GoMap GoStrings GoTime Kube Claims Device Footprint NodeInfo Accounting GoSort.

Open Scope Z_scope.

(** [nil] deletes the key. *)
Record PatchMetadata := {
  pm_Annotations : gmap string (option string);
  pm_Labels : gmap string (option string)
}.

Class ApiServer : Type := {
  patch_pod : Pod → PatchMetadata → result string Pod;
  patch_annotations pod patch pod' k v :
    patch_pod pod patch = Ok pod' → pm_Annotations patch !! k = Some v → p_Annotations pod' !! k = v;
  patch_labels pod patch pod' k v :
    patch_pod pod patch = Ok pod' → pm_Labels patch !! k = Some v → p_Labels pod' !! k = v
}.

Inductive patch_error :=
| ErrPatch (msg : string) | ErrTooLong | ErrPreClaims (e : codec_error) | ErrRealClaims (e : codec_error).

Section patches.
Context `{Env} `{ApiServer}.

Definition PatchPodMetadata (pod : Pod) (patch : PatchMetadata) : result patch_error Pod :=
  match patch_pod pod patch with
  | Ok pod' => Ok pod'
  | Fail e => Fail (ErrPatch e)
  end.

(** [fmt.Sprintf("%d", uint64(t))] *)
Definition print_u64 (t : Z) : string := Itoa (t mod 2 ^ 64).

(** The clean-up test of a pod without vGPU. *)
Definition carries_allocation_metadata (pod : Pod) : bool :=
  bool_decide (is_Some (HasLabel pod PodMetricsNodeLabel)) || bool_decide (is_Some (HasLabel pod PodAssignedPhaseLabel)) ||
  bool_decide (is_Some (HasAnnotation pod PodPredicateTimeAnnotation)).

Definition PatchPodAllocationSucceed (pod : Pod) : result patch_error Pod :=
  match PodDeviceClaim_UnmarshalText (annotation pod PodVGPUPreAllocAnnotation) with
  | Fail e => Fail (ErrPreClaims e)
  | Ok preDevices =>
      let realAlloc := annotation pod PodVGPURealAllocAnnotation in
      match PodDeviceClaim_UnmarshalText realAlloc with
      | Fail e => Fail (ErrRealClaims e)
      | Ok realDevices =>
          let all := bool_decide (length preDevices ≤ length realDevices)%nat in
          let assignedPhase := if all then AssignPhaseSucceed else AssignPhaseAllocating in
          let predicateTime := if all then print_u64 int64_max else annotation pod PodPredicateTimeAnnotation in
          let labels := {[ PodAssignedPhaseLabel := Some assignedPhase ]} in
          let nodeName := PodPlanSchedulingNode pod in
          PatchPodMetadata pod
            {| pm_Labels := if bool_decide (p_NodeName pod ≠ "") && bool_decide (nodeName ≠ "")
                            then <[PodMetricsNodeLabel := Some nodeName]> labels else labels;
               pm_Annotations := <[PodVGPURealAllocAnnotation := Some realAlloc]>
                                   {[ PodPredicateTimeAnnotation := Some predicateTime ]} |}
      end
  end.

Definition PatchPodAllocationAllocating (pod : Pod) : result patch_error Pod :=
  let vgpu := IsVGPUResourcePod pod in
  let node := annotation pod PodPredicateNodeAnnotation in
  if vgpu || carries_allocation_metadata pod then
    PatchPodMetadata pod
      {| pm_Labels := <[PodMetricsNodeLabel := if vgpu && bool_decide (node ≠ "") then Some node else None]>
                        {[ PodAssignedPhaseLabel := if vgpu then Some AssignPhaseAllocating else None ]};
         pm_Annotations := {[ PodPredicateTimeAnnotation := if vgpu then Some (Itoa time_now) else None ]} |}
  else Ok pod.

Definition PatchPodAllocationFailed (pod : Pod) : result patch_error Pod :=
  let vgpu := IsVGPUResourcePod pod in
  if vgpu || carries_allocation_metadata pod then
    PatchPodMetadata pod
      {| pm_Labels := <[PodMetricsNodeLabel := None]>
                        {[ PodAssignedPhaseLabel := if vgpu then Some AssignPhaseFailed else None ]};
         pm_Annotations := {[ PodPredicateTimeAnnotation := if vgpu then Some (print_u64 int64_max) else None ]} |}
  else Ok pod.

Definition PatchPodPreAllocatedMetadata (pod : Pod) : result patch_error Pod :=
  let nodeName := annotation pod PodPredicateNodeAnnotation in
  let preAlloc := annotation pod PodVGPUPreAllocAnnotation in
  if bool_decide (PodAnnotationMaxLength < Z.of_nat (String.length preAlloc)) then Fail ErrTooLong
  else
    PatchPodMetadata pod
      {| pm_Labels := <[PodMetricsNodeLabel := Some nodeName]> {[ PodAssignedPhaseLabel := Some AssignPhaseFiltering ]};
         pm_Annotations :=
           <[PodPredicateNodeAnnotation := Some nodeName]> (<[PodVGPUPreAllocAnnotation := Some preAlloc]>
             (<[PodVGPURealAllocAnnotation := Some ""]>
                {[ PodPredicateTimeAnnotation := Some (print_u64 time_now) ]})) |}.
End patches.

(** ** The pod cache *)
Section lister.
Context `{Env}.

(** The pods an index holds under a value ([cache.ByIndex]), in cache order. *)
Definition ListByIndexValue (pods : list Pod) (index : Pod → list string) (value : string) : list Pod :=
  filter (λ p, value ∈ index p) pods.

Definition IndexPodRequestVGPU (pod : Pod) : list string := if IsVGPUResourcePod pod then ["true"] else ["false"].
Definition IndexPodGangName (pod : Pod) : list string := match PodGangKey pod with Some key => [key] | None => [] end.
Definition IndexControlOwnerUID (pod : Pod) : list string :=
  match p_GetControllerOf pod with Some owner => [or_UID owner] | None => [] end.
Definition IndexPodMetadataUid (pod : Pod) : list string := [p_UID pod].

Definition add_node_pod (m : gmap string (list Pod)) (pod : Pod) : gmap string (list Pod) :=
  let nodeName := PodPlanSchedulingNode pod in
  <[nodeName := default [] (m !! nodeName) ++ [pod]]> m.

Definition NodeMapByIndexValue (pods : list Pod) (index : Pod → list string) (value : string)
  : gmap string (list Pod) :=
  fold_left add_node_pod (ListByIndexValue pods index value) ∅.

(** [byIndexes]: the first requirement reads the index, every requirement
    filters; an unknown index is an error once there is something to filter. *)
Definition filterObjects (indexers : gmap string (Pod → list string)) (indexName indexedValue : string) (objs : list Pod)
  : result string (list Pod) :=
  if bool_decide (objs = []) then Ok []
  else
    match indexers !! indexName with
    | None => Fail ("index with name " +:+ indexName +:+ " does not exist")
    | Some fn => Ok (filter (λ p, indexedValue ∈ fn p) objs)
    end.

Fixpoint filter_requirements (indexers : gmap string (Pod → list string)) (requires : list (string * string))
    (objs : list Pod) : result string (list Pod) :=
  match requires with
  | [] => Ok objs
  | (indexName, value) :: rest =>
      let* objs := filterObjects indexers indexName value objs in
      if bool_decide (objs = []) then Ok [] else filter_requirements indexers rest objs
  end.

Definition byIndexes (indexers : gmap string (Pod → list string)) (pods : list Pod) (requires : list (string * string))
  : result string (list Pod) :=
  match requires with
  | [] => Ok []
  | (indexName, value) :: _ =>
      match indexers !! indexName with
      | None => Fail ("Index with name " +:+ indexName +:+ " does not exist")
      | Some fn => filter_requirements indexers requires (ListByIndexValue pods fn value)
      end
  end.

(** [ListByIndexFiledSet]; [requirements] are the entries of the set. *)
Definition ListByIndexFiledSet (indexers : gmap string (Pod → list string)) (pods : list Pod)
    (requirements : list (string * string)) : result string (list Pod) :=
  match sort_slice (by_str fst) requirements with
  | [] => Ok pods
  | sorted => byIndexes indexers pods sorted
  end.
End lister.

Section phases.
Context `{ApiServer}.

Lemma patched_annotation pod patch pod' k v :
  PatchPodMetadata pod patch = Ok pod' → pm_Annotations patch !! k = Some v → p_Annotations pod' !! k = v.
Proof. unfold PatchPodMetadata. destruct (patch_pod pod patch) eqn:E; [|done]. intros [= <-]. by eapply patch_annotations. Qed.

Lemma patched_label pod patch pod' k v :
  PatchPodMetadata pod patch = Ok pod' → pm_Labels patch !! k = Some v → p_Labels pod' !! k = v.
Proof. unfold PatchPodMetadata. destruct (patch_pod pod patch) eqn:E; [|done]. intros [= <-]. by eapply patch_labels. Qed.

(** What the API server holds after a pre-allocation was written. *)
Lemma preallocated `{Env} pod pod' :
  PatchPodPreAllocatedMetadata pod = Ok pod' →
  HasLabel pod' PodAssignedPhaseLabel = Some AssignPhaseFiltering ∧
  annotation pod' PodPredicateNodeAnnotation = annotation pod PodPredicateNodeAnnotation ∧
  annotation pod' PodVGPUPreAllocAnnotation = annotation pod PodVGPUPreAllocAnnotation ∧
  annotation pod' PodVGPURealAllocAnnotation = "" ∧
  annotation pod' PodPredicateTimeAnnotation = print_u64 time_now.
Proof.
  unfold PatchPodPreAllocatedMetadata. case_bool_decide; [done|]. intros Hok.
  match type of Hok with PatchPodMetadata _ ?patch = _ =>
    assert (∀ k v, pm_Annotations patch !! k = Some (Some v) → annotation pod' k = v) as Ha end.
  { intros k v Hk. unfold annotation, HasAnnotation. rewrite (patched_annotation _ _ _ _ _ Hok Hk). done. }
  cbn [pm_Annotations] in Ha. split_and!.
  - unfold HasLabel. eapply patched_label; [exact Hok|]. cbn [pm_Labels].
    rewrite lookup_insert_ne by by apply key_ne. apply lookup_singleton_eq.
  - apply Ha, lookup_insert_eq.
  - apply Ha. rewrite lookup_insert_ne by by apply key_ne. apply lookup_insert_eq.
  - apply Ha. rewrite !lookup_insert_ne by by apply key_ne. apply lookup_insert_eq.
  - apply Ha. rewrite !lookup_insert_ne by by apply key_ne. apply lookup_singleton_eq.
Qed.

Lemma preallocated_counts (e : Env) pod pod' t :
  0 < time_now ≤ int64_max → 0 ≤ grace_period pod' →
  PatchPodPreAllocatedMetadata pod = Ok pod' →
  (∀ c, p_PodScheduledCondition pod' = Some c → pc_LastTransitionUnix c < time_now / Second) →
  t ≤ time_now + grace_period pod' → @ShouldCountPodDeviceAllocation (at_time e t) pod' = true.
Proof.
  intros Hnow Hg Hok Hc Ht. destruct (preallocated _ _ Hok) as (Hphase & _ & _ & _ & Htime).
  unfold ShouldCountPodDeviceAllocation. case_bool_decide; [done|].
  change (@PodAssignedPhaseLabel (at_time e t)) with (@PodAssignedPhaseLabel e).
  change (@PodPredicateTimeAnnotation (at_time e t)) with (@PodPredicateTimeAnnotation e).
  change (@grace_period (at_time e t) pod') with (@grace_period e pod').
  rewrite Hphase, Htime. rewrite bool_decide_eq_false_2 by done.
  destruct (p_PodScheduledCondition pod') as [c|]; [|done]. specialize (Hc c eq_refl).
  destruct (_ || _); [done|]. unfold print_u64. rewrite Z.mod_small by (unfold int64_max in Hnow; lia).
  rewrite ParseInt_Itoa by (unfold in64, int64_min; lia).
  rewrite bool_decide_eq_false_2.
  - rewrite bool_decide_eq_false_2 by lia. rewrite Z.quot_div_nonneg by (unfold Second; lia).
    rewrite bool_decide_eq_false_2 by lia. apply bool_decide_eq_true. unfold time_sub. simpl.
    unfold int64_min, int64_max in *. lia.
  - intros E. assert (ParseInt (Itoa time_now) = Some time_now) as E' by (apply ParseInt_Itoa; unfold in64, int64_min; lia).
    rewrite E in E'. discriminate E'.
Qed.

Lemma failed_releases (e : Env) pod pod' t :
  IsVGPUResourcePod pod = true → PatchPodAllocationFailed pod = Ok pod' → p_NodeName pod' = "" →
  @ShouldCountPodDeviceAllocation (at_time e t) pod' = false.
Proof.
  intros Hv Hok Hn. unfold PatchPodAllocationFailed in Hok. rewrite Hv in Hok. simpl in Hok.
  assert (HasLabel pod' PodAssignedPhaseLabel = Some AssignPhaseFailed) as Hl.
  { unfold HasLabel. eapply patched_label; [exact Hok|]. cbn [pm_Labels].
    rewrite lookup_insert_ne by by apply key_ne. apply lookup_singleton_eq. }
  unfold ShouldCountPodDeviceAllocation. rewrite bool_decide_eq_false_2 by (intros Hne; by apply Hne).
  change (@PodAssignedPhaseLabel (at_time e t)) with (@PodAssignedPhaseLabel e). by rewrite Hl, bool_decide_eq_true_2.
Qed.

(** A pre-allocation counts for the node's accounting from the moment it is
    written until its grace period has passed, whatever rejection of an
    earlier cycle the pod still carries; and once the allocation is marked
    failed an unbound pod stops counting, at every later time.  This is for
    every answer of the API server that honours the patched keys. *)
Theorem allocation_phase_window (e : Env) pod pod' :
  (PatchPodPreAllocatedMetadata pod = Ok pod' → 0 < time_now ≤ int64_max → 0 ≤ grace_period pod' →
   (∀ c, p_PodScheduledCondition pod' = Some c → pc_LastTransitionUnix c < time_now / Second) →
   ∀ t, t ≤ time_now + grace_period pod' → @ShouldCountPodDeviceAllocation (at_time e t) pod' = true) ∧
  (IsVGPUResourcePod pod = true → PatchPodAllocationFailed pod = Ok pod' → p_NodeName pod' = "" →
   ∀ t, @ShouldCountPodDeviceAllocation (at_time e t) pod' = false).
Proof. split; intros; [by eapply preallocated_counts|by eapply failed_releases]. Qed.
End phases.

Section node_map.
Context `{Env}.

Lemma node_map_fold pods m n :
  default [] (fold_left add_node_pod pods m !! n)
  = default [] (m !! n) ++ filter (λ p, PodPlanSchedulingNode p = n) pods.
Proof.
  revert m. induction pods as [|p pods IH]; intros m; simpl; [by rewrite app_nil_r|].
  rewrite IH, filter_cons. unfold add_node_pod. case_decide as E.
  - subst. rewrite lookup_insert_eq. simpl. by rewrite <- app_assoc.
  - by rewrite lookup_insert_ne.
Qed.

(** The pods listed under a node are those planned for it, in cache order. *)
Lemma node_map_lookup pods index value n :
  default [] (NodeMapByIndexValue pods index value !! n)
  = filter (λ p, PodPlanSchedulingNode p = n) (ListByIndexValue pods index value).
Proof. unfold NodeMapByIndexValue. by rewrite node_map_fold, lookup_empty. Qed.
End node_map.

(** An API server that applies the patch to the object it is sent. *)
Module ClientDemo.
Definition merge (old : gmap string string) (patch : gmap string (option string)) : gmap string string :=
  map_imap (λ _ v, v) (patch ∪ (Some <$> old)).

Lemma merge_lookup old patch k v : patch !! k = Some v → merge old patch !! k = v.
Proof. intros Hk. unfold merge. rewrite map_lookup_imap, (lookup_union_Some_l _ _ _ _ Hk). done. Qed.

Definition server : ApiServer.
Proof.
  refine {| patch_pod pod patch :=
    Ok (with_metadata pod (merge (p_Labels pod) (pm_Labels patch)) (merge (p_Annotations pod) (pm_Annotations patch))) |}.
  - intros pod patch pod' k v [= <-] Hk. by apply merge_lookup.
  - intros pod patch pod' k v [= <-] Hk. by apply merge_lookup.
Defined.
#[export] Existing Instance server.

Definition clock : Env := {| globalDomainName := "nvidia.com"; time_now := 7 * Second; stuckGracePeriod := Minute |}.
Definition waiting : Pod :=
  @Demo.pod "waiting" [(@PodPredicateNodeAnnotation clock, "node-a")] []
    [Demo.container "main" [(@VGPUNumberResourceName clock, 1)]].

Definition written (r : result patch_error Pod) : Pod := match r with Ok p => p | Fail _ => waiting end.

Lemma allocation_phase_window_witness :
  @ShouldCountPodDeviceAllocation (at_time clock (67 * Second))
    (written (@PatchPodPreAllocatedMetadata clock server waiting)) = true ∧
  @ShouldCountPodDeviceAllocation (at_time clock (8 * Second))
    (written (@PatchPodAllocationFailed clock server waiting)) = false.
Proof.
  split.
  - apply (proj1 (allocation_phase_window clock waiting (written (@PatchPodPreAllocatedMetadata clock server waiting))));
      [vm_compute; reflexivity|vm_compute; split; congruence|vm_compute; congruence|discriminate|vm_compute; congruence].
  - apply (proj2 (allocation_phase_window clock waiting (written (@PatchPodAllocationFailed clock server waiting))));
      vm_compute; reflexivity.
Defined.
End ClientDemo.
