(* ===== verification/Batch.v ===== *)
(** * Parallel batches ([pkg/config/watcher/batch.go])

    [BalanceBatches] cuts a range of indices into batches that goroutines work
    on; [Goroutines] is the order in which they finish, which the language
    leaves open. *)

From stdpp Require Import base list gmap.
From Stdlib Require Import ZArith Lia.
From S2P Require Import Prelude.

Open Scope Z_scope.

Record BatchConfig := { bc_StartIndex : Z; bc_EndIndex : Z; bc_Count : Z }.

(** The batches [i], [i+1], ... ([n] of them) from [currentIndex] on. *)
Fixpoint balance_loop (baseSize remainder : Z) (n : nat) (i currentIndex : Z) : list BatchConfig :=
  match n with
  | O => []
  | S n' =>
      let batchSize := if bool_decide (i < remainder) then baseSize + 1 else baseSize in
      {| bc_StartIndex := currentIndex; bc_EndIndex := currentIndex + batchSize - 1; bc_Count := batchSize |}
      :: balance_loop baseSize remainder n' (i + 1) (currentIndex + batchSize)
  end.

(** [None] is a panic: division by a batch count of zero, or a negative one given to [make]. *)
Definition BalanceBatches (totalCards maxPerBatch : Z) : option (list BatchConfig) :=
  if bool_decide (totalCards ≤ 0) || bool_decide (maxPerBatch ≤ 0) then Some []
  else
    let numBatches := Z.quot (totalCards +w maxPerBatch -w 1) maxPerBatch in
    if bool_decide (numBatches ≤ 0) then None
    else
      let baseSize := Z.quot totalCards numBatches in
      let remainder := Z.rem totalCards numBatches in
      Some (balance_loop baseSize remainder (Z.to_nat numBatches) 0 0).

(** [for index := StartIndex; index <= EndIndex; index++] *)
Definition indices (b : BatchConfig) : list Z := seqZ (bc_StartIndex b) (bc_EndIndex b - bc_StartIndex b + 1).

(** The order in which the goroutines of [BatchParallel.Execute] finish. *)
Class Goroutines : Type := {
  completion {A : Type} : list A → list A;
  completion_perm {A} (l : list A) : completion l ≡ₚ l
}.

Definition in_order : Goroutines := {| completion _ l := l; completion_perm _ _ := reflexivity _ |}.
Definition out_of_order : Goroutines :=
  {| completion _ l := rev l; completion_perm _ _ := symmetry (Permutation_rev _) |}.

Lemma balance_loop_covers base rem n i cur :
  0 ≤ base → 0 ≤ i → rem ≤ i + Z.of_nat n → 0 < base →
  concat (indices <$> balance_loop base rem n i cur)
  = seqZ cur (base * Z.of_nat n + Z.max 0 (rem - i)).
Proof.
  revert i cur. induction n as [|n IH]; intros i cur Hb Hi Hr Hp; cbn [balance_loop fmap list_fmap concat].
  - replace (base * Z.of_nat 0 + Z.max 0 (rem - i)) with 0 by lia. reflexivity.
  - rewrite IH by (try case_bool_decide; lia). case_bool_decide.
    + unfold indices at 1. cbn [bc_StartIndex bc_EndIndex]. replace (cur + (base + 1) - 1 - cur + 1) with (base + 1) by lia.
      rewrite <- seqZ_app by lia. f_equal. lia.
    + unfold indices at 1. cbn [bc_StartIndex bc_EndIndex]. replace (cur + base - 1 - cur + 1) with base by lia.
      rewrite <- seqZ_app by lia. f_equal. lia.
Qed.

Lemma balance_loop_sizes base rem n i cur :
  Forall (λ b, (bc_Count b = base ∨ (bc_Count b = base + 1 ∧ i < rem)) ∧ bc_EndIndex b = bc_StartIndex b + bc_Count b - 1)
    (balance_loop base rem n i cur).
Proof.
  revert i cur. induction n as [|n IH]; intros i cur; constructor.
  - simpl. split; [|lia]. case_bool_decide; [right|left]; lia.
  - eapply Forall_impl; [apply IH|]. intros b [[?|[? ?]] ?]; split; auto; right; lia.
Qed.

Lemma balance_spec totalCards maxPerBatch :
  0 < totalCards → 0 < maxPerBatch → totalCards + maxPerBatch ≤ int64_max →
  ∃ bs, BalanceBatches totalCards maxPerBatch = Some bs ∧
    concat (indices <$> bs) = seqZ 0 totalCards ∧
    Forall (λ b, 1 ≤ bc_Count b ≤ maxPerBatch ∧ bc_EndIndex b = bc_StartIndex b + bc_Count b - 1) bs ∧
    ∀ b b', b ∈ bs → b' ∈ bs → bc_Count b ≤ bc_Count b' + 1.
Proof.
  intros Ht Hm Hov. unfold BalanceBatches. rewrite !bool_decide_eq_false_2 by lia. simpl.
  rewrite !wrap64_id by (rewrite ?wrap64_id; unfold in64, int64_min, int64_max in *; lia).
  rewrite Z.quot_div_nonneg by lia. set (nb := (totalCards + maxPerBatch - 1) / maxPerBatch).
  assert (totalCards ≤ nb * maxPerBatch ∧ 1 ≤ nb ≤ totalCards) as [Hnb1 Hnb2].
  { pose proof (Z.div_mod (totalCards + maxPerBatch - 1) maxPerBatch ltac:(lia)) as Hd. fold nb in Hd.
    pose proof (Z.mod_pos_bound (totalCards + maxPerBatch - 1) maxPerBatch Hm). nia. }
  rewrite (bool_decide_eq_false_2 (nb ≤ 0)) by lia. rewrite Z.quot_div_nonneg, Z.rem_mod_nonneg by lia.
  set (base := totalCards / nb). set (rem := totalCards mod nb).
  pose proof (Z.div_mod totalCards nb ltac:(lia)) as Hd. fold base rem in Hd.
  pose proof (Z.mod_pos_bound totalCards nb ltac:(lia)) as Hrem. fold rem in Hrem.
  assert (1 ≤ base) as Hbase by nia. eexists. split; [reflexivity|]. split_and!.
  - rewrite balance_loop_covers by lia. f_equal. lia.
  - eapply Forall_impl; [apply balance_loop_sizes|]. intros b [[->|[-> ?]] ?]; split; auto; nia.
  - pose proof (balance_loop_sizes base rem (Z.to_nat nb) 0 0) as Hs. rewrite Forall_forall in Hs.
    intros b b' [[?|[? ?]] _]%Hs [[?|[? ?]] _]%Hs; lia.
Qed.

(** The batches cover the indices [0 .. totalCards-1] in order, each once;
    each batch is non-empty and within the limit, and no two differ in size
    by more than one. *)
Theorem BalanceBatches_partition totalCards maxPerBatch :
  0 < totalCards → 0 < maxPerBatch → totalCards + maxPerBatch ≤ int64_max →
  ∃ bs, BalanceBatches totalCards maxPerBatch = Some bs ∧
    concat (indices <$> bs) = seqZ 0 totalCards ∧
    Forall (λ b, 1 ≤ bc_Count b ≤ maxPerBatch ∧ bc_EndIndex b = bc_StartIndex b + bc_Count b - 1) bs ∧
    ∀ b b', b ∈ bs → b' ∈ bs → bc_Count b ≤ bc_Count b' + 1.
Proof. apply balance_spec. Qed.

(** Ten indices in batches of at most four. *)
Lemma BalanceBatches_partition_witness :
  option_map (λ bs, indices <$> bs) (BalanceBatches 10 4) = Some [[0; 1; 2; 3]; [4; 5; 6]; [7; 8; 9]] ∧
  ∃ bs, BalanceBatches 10 4 = Some bs ∧ concat (indices <$> bs) = seqZ 0 10 ∧
    Forall (λ b, 1 ≤ bc_Count b ≤ 4 ∧ bc_EndIndex b = bc_StartIndex b + bc_Count b - 1) bs ∧
    ∀ b b', b ∈ bs → b' ∈ bs → bc_Count b ≤ bc_Count b' + 1.
Proof.
  split; [vm_compute; reflexivity|]. apply (BalanceBatches_partition 10 4); [lia|lia|unfold int64_max; lia].
Defined.
