(* ===== verification/Filter.v ===== *)
(** * The scheduler filter ([pkg/scheduler/filter/filter_predicate.go])

    One call of the extender's filter verb, live or dry run.  The call reads
    the node and pod caches and may send events, patch one pod and put it into
    the pod cache; these effects are a state, and an error ends the call.  The
    candidate nodes are built in parallel batches, whose completion order is
    [Goroutines].  The event recorder is present, as the command sets it up;
    log lines and metrics are not modelled, apart from the outcome recorded
    for the accepted node. *)

From stdpp Require Import base list gmap strings.
From Stdlib Require Import ZArith Lia.
From S2P Require Import Prelude GoMap GoSort GoStrings Float64 GoFmt GoTime Kube Claims Reason Links Topology Device.
From S2P Require Import Endpoint RemoteGpu.
From S2P Require Import Footprint NodeInfo Affinity Request Scoring Numa Tiered Allocator NodeCheck Gate Client Batch.

Open Scope Z_scope.

Inductive filterMode := liveFilter | dryRunFilter.
Definition isDryRun (m : filterMode) : bool := match m with dryRunFilter => true | liveFilter => false end.

Record gpuFilter := {
  gf_nodes : gmap string Node;    (* nodeLister *)
  gf_pods : list Pod;             (* podLister *)
  gf_gpuTopology : bool;
  gf_maxGoroutines : Z            (* runtime.GOMAXPROCS(0) * 2 *)
}.

(** The answers of [ctx.Err()]: under the lock, and before the patch for a node. *)
Record call_context := { ctx_locked : option string; ctx_before_patch : string → option string }.

Inductive FilterEvent :=
| AllocatorEvent (ev : Event)
| ResourceInvalid (msg : string)
| PolicyInvalid (policy : SchedulerPolicy)
| FilteringSucceed (remote : bool) (node : string)
| FilteringFailed (msg : string)
| CrossPodUnsupported.

Record effects := {
  fx_events : list FilterEvent;
  fx_patches : list Pod;              (* sent to the API server *)
  fx_cache : list Pod;                (* put into the pod cache *)
  fx_placements : list TopologyOutcome
}.

Definition no_effects : effects := {| fx_events := []; fx_patches := []; fx_cache := []; fx_placements := [] |}.

Inductive filter_error :=
| ErrText (msg : string)
| ErrAlloc (e : alloc_error)
| ErrPatching (e : patch_error)
| ErrContext (msg : string)
| ErrCrash.                            (* a panic in a goroutine ends the process *)

Definition F (A : Type) : Type := effects → result filter_error A * effects.
Definition fret {A} (a : A) : F A := λ fx, (Ok a, fx).
Definition ferr {A} (e : filter_error) : F A := λ fx, (Fail e, fx).
Definition fbind {A B} (m : F A) (k : A → F B) : F B :=
  λ fx, match m fx with
        | (Ok a, fx') => k a fx'
        | (Fail e, fx') => (Fail e, fx')
        end.
Notation "'run' x '<-' m ';' k" := (fbind m (λ x, k))
  (at level 60, x binder, m at level 59, k at level 60, right associativity) : go_scope.

Definition emit (evs : list FilterEvent) : F unit :=
  λ fx, (Ok tt, {| fx_events := fx_events fx ++ evs; fx_patches := fx_patches fx; fx_cache := fx_cache fx;
                   fx_placements := fx_placements fx |}).
Definition sent (pod : Pod) : F unit :=
  λ fx, (Ok tt, {| fx_events := fx_events fx; fx_patches := fx_patches fx ++ [pod]; fx_cache := fx_cache fx;
                   fx_placements := fx_placements fx |}).
Definition Mutation (pod : Pod) : F unit :=
  λ fx, (Ok tt, {| fx_events := fx_events fx; fx_patches := fx_patches fx; fx_cache := fx_cache fx ++ [pod];
                   fx_placements := fx_placements fx |}).
Definition recordPlacement (outcome : TopologyOutcome) : F unit :=
  λ fx, (Ok tt, {| fx_events := fx_events fx; fx_patches := fx_patches fx; fx_cache := fx_cache fx;
                   fx_placements := fx_placements fx ++ [outcome] |}).
Definition lift {A} (r : result filter_error A) : F A := λ fx, (r, fx).

Local Open Scope go_scope.

Section filter.
Context `{Env} `{MapOrder} `{NodeDecoders} `{KubeLib} `{EndpointLib} `{ApiServer} `{Goroutines}.

(** ** Request checks *)


Definition checkNumberRequest (container : ContainerNeed) : option string :=
  if bool_decide (MaxDeviceCount < cn_Number container)
  then Some ("container " +:+ cn_Name container +:+ " requests vGPU number exceeding limit") else None.

Definition checkCoreRequest (container : ContainerNeed) : option string :=
  if bool_decide (HundredCore < cn_Cores container)
  then Some ("container " +:+ cn_Name container +:+ " requests vGPU core exceeding limit") else None.

Fixpoint first_invalid (containers : list ContainerNeed) : option string :=
  match containers with
  | [] => None
  | c :: cs =>
      match checkCoreRequest c with
      | Some e => Some e
      | None => match checkNumberRequest c with Some e => Some e | None => first_invalid cs end
      end
  end.

Definition CheckDeviceRequest (req : AllocationRequest) (mode : filterMode) : F unit :=
  match first_invalid (rq_Containers req) with
  | None => fret tt
  | Some e => run _ <- (if isDryRun mode then fret tt else emit [ResourceInvalid e]); ferr (ErrText e)
  end.

Definition IsScheduled (pod : Pod) : string * bool :=
  let nodeName := annotation pod PodPredicateNodeAnnotation in
  if bool_decide (nodeName = "") then ("", false)
  else
    let preAlloc := annotation pod PodVGPUPreAllocAnnotation in
    if bool_decide (preAlloc = "") then ("", false)
    else (nodeName, match PodDeviceClaim_UnmarshalText preAlloc with Ok _ => true | Fail _ => false end).

(** ** Gang siblings *)

(** [NewNodeInfo(node, WithGPUTopologyEnabled(b))] *)
Definition topology_options (b : bool) : NodeInfoOption :=
  {| no_excludedUidSet := ∅; no_nodePods := []; no_nodeConfig := None; no_nodeDevice := None;
     no_resetUsed := false; no_resetPods := false; no_gpuTopologyEnabled := b |}.

(** The loop state: the two tallies and the nodes built on demand. *)
Record sibling_state := {
  sb_domains : gmap string Z;
  sb_rails : gmap string Z;
  sb_built : gmap string NodeInfo
}.

Definition cast (votes : gmap string Z) (key : option string) : gmap string Z :=
  match key with Some k => vote votes k | None => votes end.

Definition cast_votes (s : sibling_state) (built : gmap string NodeInfo) (n : NodeInfo) (uuids : list string) : sibling_state :=
  {| sb_domains := cast (sb_domains s) (DomainOfUUIDs n uuids);
     sb_rails := cast (sb_rails s) (RailSignatureOfUUIDs n uuids); sb_built := built |}.

Definition sibling_step (nodeInfoByName : gmap string NodeInfo) (nodes : gmap string Node) (req : AllocationRequest)
    (s : sibling_state) (p : Pod) : result filter_error sibling_state :=
  if bool_decide (p_UID p = p_UID (rq_Pod req)) || negb (ShouldCountPodDeviceAllocation p) then Ok s
  else
    let uuids := PodPreAllocatedUUIDs p in
    if bool_decide (uuids = []) then Ok s
    else
      let nodeName := PodPlanSchedulingNode p in
      match nodeInfoByName !! nodeName with
      | Some n => Ok (cast_votes s (sb_built s) n uuids)
      | None =>
          match sb_built s !! nodeName with
          | Some n => Ok (cast_votes s (sb_built s) n uuids)
          | None =>
              match nodes !! nodeName with
              | None => Ok s
              | Some node =>
                  match NewNodeInfo node (topology_options true) with
                  | Fail ErrPanic => Fail ErrCrash
                  | Fail _ => Ok s
                  | Ok n => Ok (cast_votes s (<[nodeName := n]> (sb_built s)) n uuids)
                  end
              end
          end
      end.

Fixpoint tally_siblings nodeInfoByName nodes req (s : sibling_state) (pods : list Pod) : result filter_error sibling_state :=
  match pods with
  | [] => Ok s
  | p :: ps => let* s' := sibling_step nodeInfoByName nodes req s p in tally_siblings nodeInfoByName nodes req s' ps
  end.

Definition majority_less (votes : gmap string Z) : string → string → bool :=
  chain_less [λ i j, bool_decide (default 0 (votes !! j) < default 0 (votes !! i)); str_lt].

Definition majorityKey (votes : gmap string Z) : string :=
  match (range_str votes).*1 with
  | [] => ""
  | [k] => k
  | keys => default "" (head (sort_slice (majority_less votes) keys))
  end.

Definition FindGangSiblingDomain (pods : list Pod) (nodeInfoByName : gmap string NodeInfo) (nodes : gmap string Node)
    (req : AllocationRequest) : result filter_error (string * string) :=
  let* s := tally_siblings nodeInfoByName nodes req {| sb_domains := ∅; sb_rails := ∅; sb_built := ∅ |} pods in
  Ok (majorityKey (sb_domains s), majorityKey (sb_rails s)).

(** ** Building the candidates *)

Definition with_gang_keys (req : AllocationRequest) (domain rail : string) : AllocationRequest :=
  {| rq_Pod := rq_Pod req; rq_AccessMode := rq_AccessMode req; rq_ControllerOwner := rq_ControllerOwner req;
     rq_Containers := rq_Containers req; rq_Total := rq_Total req; rq_Max := rq_Max req;
     rq_NodePolicy := rq_NodePolicy req; rq_DevicePolicy := rq_DevicePolicy req; rq_Topology := rq_Topology req;
     rq_TopologyStrict := rq_TopologyStrict req; rq_GangName := rq_GangName req;
     rq_CrossPodTopology := rq_CrossPodTopology req; rq_GangDomainKey := domain; rq_GangRailKey := rail;
     rq_topoOutcome := rq_topoOutcome req; rq_Profile := rq_Profile req;
     rq_CheckDeviceUuid := rq_CheckDeviceUuid req; rq_CheckDeviceType := rq_CheckDeviceType req;
     rq_HasSequentialInit := rq_HasSequentialInit req |}.

Definition without_cross_pod (req : AllocationRequest) : AllocationRequest :=
  {| rq_Pod := rq_Pod req; rq_AccessMode := rq_AccessMode req; rq_ControllerOwner := rq_ControllerOwner req;
     rq_Containers := rq_Containers req; rq_Total := rq_Total req; rq_Max := rq_Max req;
     rq_NodePolicy := rq_NodePolicy req; rq_DevicePolicy := rq_DevicePolicy req; rq_Topology := rq_Topology req;
     rq_TopologyStrict := rq_TopologyStrict req; rq_GangName := rq_GangName req;
     rq_CrossPodTopology := false; rq_GangDomainKey := rq_GangDomainKey req; rq_GangRailKey := rq_GangRailKey req;
     rq_topoOutcome := rq_topoOutcome req; rq_Profile := rq_Profile req;
     rq_CheckDeviceUuid := rq_CheckDeviceUuid req; rq_CheckDeviceType := rq_CheckDeviceType req;
     rq_HasSequentialInit := rq_HasSequentialInit req |}.

Definition candidate_options (req : AllocationRequest) (topologyEnabled : bool) (nodePodsMap : gmap string (list Pod))
    (state : CycleState) (name : string) : NodeInfoOption :=
  {| no_excludedUidSet := {[ p_UID (rq_Pod req) ]};
     no_nodePods := default [] (nodePodsMap !! name);
     no_nodeConfig := match state !! nodeConfigKey name with Some (ConfigData c) => Some c | _ => None end;
     no_nodeDevice := match state !! nodeDeviceKey name with Some (DeviceData d) => Some d | _ => None end;
     no_resetUsed := false; no_resetPods := false; no_gpuTopologyEnabled := topologyEnabled |}.

Inductive candidate := Fits (n : RankedNode) | Unfit (r : FilterReason) | Crashed.

(** One iteration of a batch. *)
Definition build_candidate (req : AllocationRequest) (topologyEnabled : bool) (nodePodsMap : gmap string (list Pod))
    (state : CycleState) (node : Node) : candidate :=
  match NewNodeInfo node (candidate_options req topologyEnabled nodePodsMap state (n_Name node)) with
  | Fail ErrPanic => Crashed
  | Fail (ErrReason c) => Unfit (WithDetail (New NodeInfoBuildFailed) (Short (Some (New c))))
  | Ok nodeInfo =>
      let req := ResetStatistics req nodeInfo in
      match nodeCapacityGate req nodeInfo with
      | Some r => Unfit r
      | None => Fits {| rn_NodeInfo := nodeInfo; rn_AllocationRequest := Some req |}
      end
  end.

(** What a batch hands over under the mutex. *)
Record batch_state := {
  bs_infos : list RankedNode;
  bs_failed : gmap string FilterReason;
  bs_positions : gmap string Z
}.

Definition empty_batch : batch_state := {| bs_infos := []; bs_failed := ∅; bs_positions := ∅ |}.

Definition batch_step (build : Node → candidate) (nodes : list Node) (s : batch_state) (index : Z)
  : result filter_error batch_state :=
  match nodes !! Z.to_nat index with
  | None => Fail ErrCrash
  | Some node =>
      let positions := <[n_Name node := index]> (bs_positions s) in
      match build node with
      | Crashed => Fail ErrCrash
      | Unfit r => Ok {| bs_infos := bs_infos s; bs_failed := <[n_Name node := r]> (bs_failed s); bs_positions := positions |}
      | Fits n => Ok {| bs_infos := bs_infos s ++ [n]; bs_failed := bs_failed s; bs_positions := positions |}
      end
  end.

Fixpoint run_indices (build : Node → candidate) (nodes : list Node) (s : batch_state) (idx : list Z)
  : result filter_error batch_state :=
  match idx with
  | [] => Ok s
  | i :: idx' => let* s' := batch_step build nodes s i in run_indices build nodes s' idx'
  end.

(** [maps.Copy] and the append, under the mutex. *)
Definition merge_batch (s b : batch_state) : batch_state :=
  {| bs_infos := bs_infos s ++ bs_infos b; bs_failed := bs_failed b ∪ bs_failed s;
     bs_positions := bs_positions b ∪ bs_positions s |}.

Definition run_batches (build : Node → candidate) (nodes : list Node) (maxGoroutines : Z) : result filter_error batch_state :=
  let len := Z.of_nat (length nodes) in
  let batchSize := Z.quot (len + maxGoroutines - 1) maxGoroutines in
  match BalanceBatches len batchSize with
  | None => Fail ErrCrash
  | Some batches =>
      let* outs := rmap (λ b, run_indices build nodes empty_batch (indices b)) batches in
      Ok (fold_left merge_batch (completion outs) empty_batch)
  end.

Definition needs_gang_ordinal (f : gpuFilter) (req : AllocationRequest) : bool :=
  rq_CrossPodTopology req && (gf_gpuTopology f && UsesLinkTiers (rq_Topology req)) &&
  bool_decide (BaseTopology (rq_Topology req) = LinkTopology) &&
  (bool_decide (rq_GangName req ≠ "") || bool_decide (is_Some (rq_ControllerOwner req))).

(** The pods of the request's gang, or of its controller. *)
Definition gang_pods (pods : list Pod) (req : AllocationRequest) : list Pod :=
  if bool_decide (rq_GangName req ≠ "") then ListByIndexValue pods IndexPodGangName (rq_GangName req)
  else match rq_ControllerOwner req with
       | Some owner => ListByIndexValue pods IndexControlOwnerUID (or_UID owner)
       | None => []
       end.

Definition by_node_name (infos : list RankedNode) : gmap string NodeInfo :=
  fold_left (λ m n, <[rn_name n := rn_NodeInfo n]> m) infos ∅.

(** The request comes back with the gang's keys. *)
Definition preFilterNodeInfos (f : gpuFilter) (req : AllocationRequest) (nodes : list Node) (state : CycleState)
  : result filter_error (batch_state * AllocationRequest) :=
  let nodePodsMap := NodeMapByIndexValue (gf_pods f) IndexPodRequestVGPU "true" in
  let topologyEnabled := gf_gpuTopology f && UsesLinkTiers (rq_Topology req) in
  let* s := run_batches (build_candidate req topologyEnabled nodePodsMap state) nodes (gf_maxGoroutines f) in
  if bool_decide (bs_infos s = []) || negb (needs_gang_ordinal f req) then Ok (s, req)
  else
    let* keys := FindGangSiblingDomain (gang_pods (gf_pods f) req) (by_node_name (bs_infos s)) (gf_nodes f) req in
    Ok (s, with_gang_keys req keys.1 keys.2).

(** ** Ranking *)

Definition position_less (positions : gmap string Z) (req : AllocationRequest) : list (LessFunc RankedNode) :=
  ApplyTopologyMode req
    [λ p1 p2, bool_decide (default 0 (positions !! rn_name p1) < default 0 (positions !! rn_name p2))].

Definition sortNodeInfos (req : AllocationRequest) (infos : list RankedNode) (positions : gmap string Z)
    (mode : filterMode) : F (list RankedNode) :=
  if bool_decide (rq_NodePolicy req = BinpackPolicy) || bool_decide (rq_NodePolicy req = SpreadPolicy)
  then fret (sort_nodes req infos)
  else
    run _ <- (if bool_decide (rq_NodePolicy req = NonePolicy) || isDryRun mode then fret tt
              else emit [PolicyInvalid (rq_NodePolicy req)]);
    fret (sort_slice (chain_less (position_less positions req)) infos).

(** ** The device stage *)

(** One iteration of the loop over the ranked nodes: the allocator on this
    node, and in live mode the commit of what it wrote.  [Some r] is a refusal. *)
Definition attempt (cx : call_context) (req : AllocationRequest) (mode : filterMode) (recorder : bool) (info : RankedNode)
  : F (option FilterReason) :=
  let '(out, s) := Allocate {| ac_recorder := recorder; ac_simulate := isDryRun mode |} req
                     {| as_node := rn_NodeInfo info; as_outcome := rq_topoOutcome req; as_events := [] |} in
  run _ <- emit (AllocatorEvent <$> as_events s);
  match out with
  | Broken e => ferr (ErrAlloc e)
  | Rejected r => fret (Some r)
  | Done newPod =>
      if isDryRun mode then fret None
      else
        match ctx_before_patch cx (GetName (rn_NodeInfo info)) with
        | Some e => ferr (ErrContext e)
        | None =>
            run _ <- sent newPod;
            match PatchPodPreAllocatedMetadata newPod with
            | Fail e => ferr (ErrPatching e)
            | Ok patched =>
                run _ <- Mutation patched;
                run _ <- recordPlacement (as_outcome s);
                fret None
            end
        end
  end.

(** The loop; the event recorder is kept for the first node only. *)
Fixpoint try_nodes (cx : call_context) (req : AllocationRequest) (mode : filterMode) (recorder : bool)
    (infos : list RankedNode) (filteredNodes : list Node) (failed : gmap string FilterReason)
  : F (list Node * gmap string FilterReason) :=
  match infos with
  | [] => fret (filteredNodes, failed)
  | info :: rest =>
      let node := ni_node (rn_NodeInfo info) in
      match filteredNodes, mode with
      | winner :: _, liveFilter =>
          let r := WithDetail (New AlreadyScheduledElsewhere)
                     ("pod already matched to " +:+ n_Name winner +:+ " in this Filter pass") in
          try_nodes cx req mode recorder rest filteredNodes (<[n_Name node := r]> failed)
      | _, _ =>
          run refused <- attempt cx req mode recorder info;
          match refused with
          | Some r => try_nodes cx req mode false rest filteredNodes (<[n_Name node := r]> failed)
          | None => try_nodes cx req mode false rest (filteredNodes ++ [node]) failed
          end
      end
  end.

(** The pod already holds a current pre-allocation on [nodeName]. *)
Fixpoint steer_back (nodeName : string) (nodes : list Node) (found : option Node) (failed : gmap string FilterReason)
  : option Node * gmap string FilterReason :=
  match nodes with
  | [] => (found, failed)
  | node :: rest =>
      if bool_decide (found = None) && bool_decide (n_Name node = nodeName) then steer_back nodeName rest (Some node) failed
      else
        let r := WithDetail (New AlreadyScheduledElsewhere) ("pod already predicated on node " +:+ nodeName) in
        steer_back nodeName rest found (<[n_Name node := r]> failed)
  end.

Definition allocate_candidates (f : gpuFilter) (cx : call_context) (req : AllocationRequest) (nodes : list Node)
    (state : CycleState) (mode : filterMode) : F (list Node * gmap string FilterReason) :=
  run prepared <- lift (preFilterNodeInfos f req nodes state);
  let '(s, req) := prepared in
  match bs_infos s with
  | [] => fret ([], bs_failed s)
  | infos =>
      run ranked <- sortNodeInfos req infos (bs_positions s) mode;
      run out <- try_nodes cx req mode true ranked [] (bs_failed s);
      run _ <- match out.1, mode with
               | winner :: _, liveFilter =>
                   emit [FilteringSucceed (bool_decide (rq_AccessMode req = AccessModeRemote)) (n_Name winner)]
               | _, _ => fret tt
               end;
      fret out
  end.

Definition deviceFilter (f : gpuFilter) (cx : call_context) (req : AllocationRequest) (nodes : list Node)
    (state : CycleState) (mode : filterMode) : F (list Node * gmap string FilterReason) :=
  if bool_decide (nodes = []) then fret ([], ∅)
  else
    run _ <- CheckDeviceRequest req mode;
    match mode with
    | dryRunFilter => allocate_candidates f cx req nodes state mode
    | liveFilter =>
        let '(nodeName, scheduled) := IsScheduled (rq_Pod req) in
        if scheduled && ShouldCountPodDeviceAllocation (rq_Pod req) then
          match steer_back nodeName nodes None ∅ with
          | (Some node, failed) => fret ([node], failed)
          | (None, _) => ferr (ErrText ("pod " +:+ p_UID (rq_Pod req) +:+ " had been predicated"))
          end
        else
          match ctx_locked cx with
          | Some e => ferr (ErrContext e)
          | None => allocate_candidates f cx req nodes state mode
          end
    end.

(** ** The verb *)

Record ExtenderArgs := {
  ea_Pod : option Pod;
  ea_Nodes : option (list Node);
  ea_NodeNames : option (list string)
}.

Record ExtenderFilterResult := {
  er_Nodes : option (list Node);
  er_NodeNames : option (list string);
  er_FailedNodes : gmap string string;
  er_Error : option filter_error
}.

Definition error_result (e : filter_error) : ExtenderFilterResult :=
  {| er_Nodes := None; er_NodeNames := None; er_FailedNodes := ∅; er_Error := Some e |}.

Definition getNodesOnCache (f : gpuFilter) (nodeNames : list string) : list Node * gmap string FilterReason :=
  fold_left (λ '(filtered, failed) name,
      match gf_nodes f !! name with
      | None => (filtered, <[name := WithDetail (New NodeCacheMiss) (not_found_text name)]> failed)
      | Some node => (filtered ++ [node], failed)
      end) nodeNames ([], ∅).

(** An early answer, or the request with the candidates and the cache misses. *)
Definition preFilterRequestNodes (f : gpuFilter) (args : ExtenderArgs)
  : ExtenderFilterResult + AllocationRequest * list Node * gmap string FilterReason :=
  match ea_Pod args with
  | None => inl (error_result (ErrText "extenderArgs.Pod cannot be empty"))
  | Some pod =>
      if bool_decide (p_NodeName pod ≠ "")
      then inl (error_result (ErrText ("pod has been bound to node " +:+ Quote (p_NodeName pod))))
      else
        let req := BuildAllocationRequest pod in
        if bool_decide (rq_Containers req = [])
        then inl {| er_Nodes := ea_Nodes args; er_NodeNames := ea_NodeNames args; er_FailedNodes := ∅; er_Error := None |}
        else if bool_decide (p_OS pod = Some "windows")
        then inl (error_result (ErrText "vGPU does not support windows pod"))
        else
          match ea_NodeNames args, ea_Nodes args with
          | Some (name :: names), _ => let '(nodes, failed) := getNodesOnCache f (name :: names) in inr (req, nodes, failed)
          | _, Some (node :: nodes) => inr (req, node :: nodes, ∅)
          | _, _ => inl {| er_Nodes := ea_Nodes args; er_NodeNames := ea_NodeNames args; er_FailedNodes := ∅;
                           er_Error := Some (ErrText "No schedulable nodes") |}
          end
  end.

Definition reasonsToFailedNodesMap (reasons : gmap string FilterReason) (mode : filterMode) : gmap string string :=
  (λ r, if isDryRun mode then Detailed (Some r) else Short (Some r)) <$> reasons.

Definition buildFilterResult (args : ExtenderArgs) (filteredNodes : list Node) (nodeReasons : gmap string FilterReason)
    (mode : filterMode) : ExtenderFilterResult :=
  let named := match ea_NodeNames args with Some (_ :: _) => true | _ => false end in
  {| er_Nodes := if named then None else Some filteredNodes;
     er_NodeNames := if named then Some (n_Name <$> filteredNodes) else None;
     er_FailedNodes := reasonsToFailedNodesMap nodeReasons mode; er_Error := None |}.

(** The two stages, each skipped once no node is left. *)
Definition filter_chain (f : gpuFilter) (cx : call_context) (req : AllocationRequest) (nodes : list Node)
    (reasons : gmap string FilterReason) (mode : filterMode) : F (list Node * gmap string FilterReason) :=
  if bool_decide (nodes = []) then fret (nodes, reasons)
  else
    let s := nodeFilter req nodes ∅ in
    let reasons := nf_failed s ∪ reasons in
    if bool_decide (nf_filteredNodes s = []) then fret (nf_filteredNodes s, reasons)
    else
      run out <- deviceFilter f cx req (nf_filteredNodes s) (nf_state s) mode;
      fret (out.1, out.2 ∪ reasons).

(** The candidates, the reasons and the consumers of the call. *)
Definition filter_nodes (f : gpuFilter) (cx : call_context) (req : AllocationRequest) (nodes : list Node)
    (nodeReasons : gmap string FilterReason) (mode : filterMode)
  : F (list Node * gmap string FilterReason * list Node) :=
  if bool_decide (rq_AccessMode req = AccessModeRemote) then
    run _ <- (if rq_CrossPodTopology req && negb (isDryRun mode) then emit [CrossPodUnsupported] else fret tt);
    let req := without_cross_pod req in
    let '(consumers, nodeReasons) := remoteConsumerNodes nodes nodeReasons in
    match remoteServerNodes (gf_nodes f) req nodes with
    | Fail e => ferr (ErrText e)
    | Ok servers =>
        run out <- filter_chain f cx req (if bool_decide (consumers = []) then [] else servers) ∅ mode;
        let '(fit, reasons) := remoteFilterResult consumers out.1 (Z.of_nat (length servers)) out.2 nodeReasons in
        fret (fit, reasons, consumers)
    end
  else
    run out <- filter_chain f cx req nodes nodeReasons mode;
    fret (out.1, out.2, []).

Definition failure_message (req : AllocationRequest) (totalCandidates : Z) (nodeReasons : gmap string FilterReason)
    (consumers : list Node) : string :=
  let msg := FormatAggregate totalCandidates (Some <$> nodeReasons) aggregateBucketNodeLimit in
  match consumers with
  | consumer :: _ =>
      match nodeReasons !! n_Name consumer with
      | Some r =>
          if bool_decide (rq_AccessMode req = AccessModeRemote) && bool_decide (fr_Detail r ≠ "")
          then msg +:+ " Remote GPU servers: " +:+ fr_Detail r else msg
      | None => msg
      end
  | [] => msg
  end.

Definition gpuFilter_filter (f : gpuFilter) (cx : call_context) (args : ExtenderArgs) (mode : filterMode) (fx : effects)
  : ExtenderFilterResult * effects :=
  match preFilterRequestNodes f args with
  | inl result => (result, fx)
  | inr (req, nodes, nodeReasons) =>
      let totalCandidates := Z.of_nat (length nodes) + Z.of_nat (size nodeReasons) in
      match filter_nodes f cx req nodes nodeReasons mode fx with
      | (Fail e, fx') => (error_result e, fx')
      | (Ok (filteredNodes, reasons, consumers), fx') =>
          let fx'' :=
            if negb (isDryRun mode) && bool_decide (filteredNodes = []) && bool_decide (0 < totalCandidates)
            then (emit [FilteringFailed (failure_message req totalCandidates reasons consumers)] fx').2 else fx' in
          (buildFilterResult args filteredNodes reasons mode, fx'')
      end
  end.

Definition NodeNamesOfResult (result : ExtenderFilterResult) : list string :=
  match er_NodeNames result, er_Nodes result with
  | Some names, _ => names
  | None, Some nodes => n_Name <$> nodes
  | None, None => []
  end.

Definition filterResultLabel (result : ExtenderFilterResult) : string :=
  match er_Error result with
  | Some _ => "error"
  | None => if bool_decide (NodeNamesOfResult result = []) then "no_fit" else "fit"
  end.
End filter.
