(* ===== verification/DryRun.v ===== *)
(** * Dry runs ([WithSimulate] in [pkg/device/allocator/allocator.go])

    The preemption path asks the allocator what it would do.  Two relations
    on the allocator's computations: [agrees], same result and same
    accounting, whatever events and outcomes were recorded before; [silent],
    neither an event nor an outcome is recorded. *)

From stdpp Require Import base list gmap strings.
From Stdlib Require Import ZArith Lia.
From S2P Require Import Prelude GoMap GoSort GoStrings Float64 GoTime Kube Claims Reason UnionFind Links Topology.
From S2P Require Import Device Footprint NodeInfo Accounting Affinity Request Scoring SubsetSearch DemoNode Numa.
From S2P Require Import Tiered TieredSpec Allocator AllocatorSpec Placement NodeBuild EndToEnd.

Open Scope Z_scope.

Definition agrees {A} (m m' : M A) : Prop :=
  ∀ s s', as_node s = as_node s' → (m s).1 = (m' s').1 ∧ as_node (m s).2 = as_node (m' s').2.

Definition silent {A} (m : M A) : Prop :=
  ∀ s, as_events (m s).2 = as_events s ∧ as_outcome (m s).2 = as_outcome s.

(** ** Closure under the monad's operations *)

Lemma agrees_ret {A} (a : A) : agrees (ret a) (ret a).
Proof. by intros s s' ?. Qed.
Lemma agrees_reject {A} r : agrees (@reject A r) (reject r).
Proof. by intros s s' ?. Qed.
Lemma agrees_fail {A} e : agrees (@fail A e) (fail e).
Proof. by intros s s' ?. Qed.
Lemma agrees_get : agrees get_node get_node.
Proof. intros s s' E. simpl. by rewrite E. Qed.
Lemma agrees_put n : agrees (put_node n) (put_node n).
Proof. by intros s s' ?. Qed.
Lemma agrees_clear : agrees clear_outcome clear_outcome.
Proof. by intros s s' ?. Qed.
Lemma agrees_event cfg cfg' ev : agrees (sendEventf cfg ev) (sendEventf cfg' ev).
Proof. intros s s' ?. unfold sendEventf. simpl. by destruct (_ && _), (_ && _). Qed.
Lemma agrees_record cfg cfg' r a : agrees (recordOutcome cfg r a) (recordOutcome cfg' r a).
Proof. intros s s' ?. unfold recordOutcome. simpl. by destruct (ac_simulate cfg), (ac_simulate cfg'). Qed.

Lemma agrees_bind {A B} (m m' : M A) (k k' : A → M B) :
  agrees m m' → (∀ a, agrees (k a) (k' a)) → agrees (bind m k) (bind m' k').
Proof.
  intros Hm Hk s s' E. unfold bind. destruct (Hm s s' E) as [Hr Hn].
  destruct (m s) as [r t], (m' s') as [r' t']. simpl in *. subst r'. destruct r as [a|r|e]; simpl; [|done..].
  by apply Hk.
Qed.

Lemma silent_pure {A} (r : outcome A) : silent (λ s, (r, s)).
Proof. done. Qed.
Lemma silent_put n : silent (put_node n).
Proof. done. Qed.
Lemma silent_event cfg ev : ac_simulate cfg = true → silent (sendEventf cfg ev).
Proof. intros Hc s. unfold sendEventf. by rewrite Hc, andb_false_r. Qed.
Lemma silent_record cfg r a : ac_simulate cfg = true → silent (recordOutcome cfg r a).
Proof. intros Hc s. unfold recordOutcome. by rewrite Hc. Qed.

Lemma silent_bind {A B} (m : M A) (k : A → M B) : silent m → (∀ a, silent (k a)) → silent (bind m k).
Proof.
  intros Hm Hk s. unfold bind. specialize (Hm s). destruct (m s) as [[a|r|e] t]; simpl in *; [|done..].
  destruct (Hk a t) as [-> ->]. done.
Qed.

Create HintDb dryrun.
#[export] Hint Resolve agrees_ret agrees_reject agrees_fail agrees_get agrees_put agrees_clear agrees_event
  agrees_record agrees_bind silent_put silent_event silent_record silent_bind : dryrun.
#[export] Hint Extern 1 (silent (ret _)) => apply (silent_pure (Done _)) : dryrun.
#[export] Hint Extern 1 (silent (reject _)) => apply (silent_pure (Rejected _)) : dryrun.
#[export] Hint Extern 1 (silent (fail _)) => apply (silent_pure (Broken _)) : dryrun.
#[export] Hint Extern 1 (silent get_node) => (intros ?; split; reflexivity) : dryrun.

(** Walks through a definition: sequencing, then the branches both sides share. *)
Ltac walk :=
  repeat first
    [ solve [auto with dryrun]
    | apply agrees_bind; [|intros ?]
    | apply silent_bind; [|intros ?]
    | case_match ].

(** ** The allocator *)
Section allocator.
Context `{Env} `{MapOrder} (cfg cfg' : alloc_config).

Lemma agrees_topology req store need cores mem :
  agrees (allocateByTopologyMode cfg req store need cores mem) (allocateByTopologyMode cfg' req store need cores mem).
Proof. unfold allocateByTopologyMode, handleTopologyFallback, reportLinkDowngrade. walk. Qed.

Lemma agrees_one req need w : agrees (allocateOne cfg req need w) (allocateOne cfg' req need w).
Proof.
  unfold allocateOne. apply agrees_bind; [auto with dryrun|]. intros n. destruct (bool_decide _); [auto with dryrun|].
  destruct (resolveContainerNeeds _ _ _ _) as [cores mem]. destruct (filterDevices _ _ _ _ _) as [store counts].
  apply agrees_bind; [|intros claims; walk]. unfold pickDeviceClaims, sortDeviceStore.
  destruct (bool_decide _); [auto with dryrun|]. apply agrees_bind; [walk|intros; apply agrees_topology].
Qed.

Lemma agrees_accumulate req need w :
  agrees (allocateAndAccumulate cfg req need w) (allocateAndAccumulate cfg' req need w).
Proof. unfold allocateAndAccumulate. apply agrees_bind; [apply agrees_one|]. intros claim. walk. Qed.

Lemma agrees_init req preferred need : agrees (allocateInit cfg req preferred need) (allocateInit cfg' req preferred need).
Proof.
  unfold allocateInit. case_bool_decide; [apply agrees_one|]. intros s s' E.
  destruct (agrees_one req need (Some preferred) s s' E) as [Hr Hn].
  destruct (allocateOne cfg _ _ _ s) as [r t], (allocateOne cfg' _ _ _ s') as [r' t']. simpl in *. subst r'.
  destruct r; [done| |done]. by apply agrees_one.
Qed.

Lemma agrees_each {A B} (f f' : A → M B) l : (∀ a, agrees (f a) (f' a)) → agrees (each f l) (each f' l).
Proof. intros Hf. induction l as [|a l IH]; simpl; walk; auto. Qed.

Lemma agrees_containers req : agrees (allocateContainers cfg req) (allocateContainers cfg' req).
Proof.
  unfold allocateContainers. destruct (rq_HasSequentialInit req);
    [|apply agrees_each; intros need; apply agrees_accumulate].
  unfold two_pass. repeat (apply agrees_bind; [|intros ?]);
    try solve [auto with dryrun | apply agrees_each; intros ?; auto using agrees_accumulate, agrees_init].
  apply agrees_each. intros need. walk.
Qed.

Section simulate.
Context (Hsim : ac_simulate cfg = true).

Lemma silent_topology req store need cores mem : silent (allocateByTopologyMode cfg req store need cores mem).
Proof. unfold allocateByTopologyMode, handleTopologyFallback, reportLinkDowngrade. walk. Qed.

Lemma silent_one req need w : silent (allocateOne cfg req need w).
Proof.
  unfold allocateOne. apply silent_bind; [auto with dryrun|]. intros n. destruct (bool_decide _); [auto with dryrun|].
  destruct (resolveContainerNeeds _ _ _ _) as [cores mem]. destruct (filterDevices _ _ _ _ _) as [store counts].
  apply silent_bind; [|intros claims; walk]. unfold pickDeviceClaims, sortDeviceStore.
  destruct (bool_decide _); [auto with dryrun|]. apply silent_bind; [walk|intros; apply silent_topology].
Qed.

Lemma silent_accumulate req need w : silent (allocateAndAccumulate cfg req need w).
Proof. unfold allocateAndAccumulate. apply silent_bind; [apply silent_one|]. intros claim. walk. Qed.

Lemma silent_init req preferred need : silent (allocateInit cfg req preferred need).
Proof.
  unfold allocateInit. case_bool_decide; [apply silent_one|]. intros s.
  pose proof (silent_one req need (Some preferred) s) as Hs. destruct (allocateOne cfg _ _ _ s) as [[a|r|e] t]; simpl in *;
    [done| |done]. destruct (silent_one req need None t) as [-> ->]. done.
Qed.

Lemma silent_each {A B} (f : A → M B) l : (∀ a, silent (f a)) → silent (each f l).
Proof. intros Hf. induction l as [|a l IH]; simpl; walk; auto. Qed.

Lemma silent_containers req : silent (allocateContainers cfg req).
Proof.
  unfold allocateContainers. destruct (rq_HasSequentialInit req);
    [|apply silent_each; intros need; apply silent_accumulate].
  unfold two_pass. repeat (apply silent_bind; [|intros ?]);
    try solve [auto with dryrun | apply silent_each; intros ?; auto using silent_accumulate, silent_init].
  apply silent_each. intros need. walk.
Qed.
End simulate.
End allocator.

Lemma allocate_simulated `{Env} `{MapOrder} real simulated req s s' :
  ac_simulate simulated = true → as_node s = as_node s' →
  (Allocate simulated req s).1 = (Allocate real req s').1 ∧
  as_node (Allocate simulated req s).2 = as_node (Allocate real req s').2 ∧
  as_events (Allocate simulated req s).2 = as_events s ∧
  as_outcome (Allocate simulated req s).2 = {| to_Result := ""; to_Alignment := "" |}.
Proof.
  intros Hsim E.
  assert (agrees (Allocate simulated req) (Allocate real req)) as Ha.
  { unfold Allocate. apply agrees_bind; [apply agrees_clear|intros _].
    apply agrees_bind; [apply agrees_containers|]. intros claims. walk. }
  destruct (Ha s s' E) as [-> ->]. split; [done|]. split; [done|].
  unfold Allocate. unfold bind at 1 3. cbn [clear_outcome].
  match goal with |- as_events (?m ?t).2 = _ ∧ _ => assert (silent m) as Hs; [|by apply (Hs t)] end.
  apply silent_bind; [by apply silent_containers|]. intros claims t. done.
Qed.

(** C27 A dry run decides like a real one and leaves no trace: for any recorder
    and any events or outcomes recorded before, [Allocate] under [WithSimulate]
    gives the same result, the same pod and the same accounting as the real
    call on the same node, sends no event, and records no topology outcome. *)
Theorem Allocate_dry_run `{Env} `{MapOrder} real simulated req s s' :
  ac_simulate simulated = true → as_node s = as_node s' →
  (Allocate simulated req s).1 = (Allocate real req s').1 ∧
  as_node (Allocate simulated req s).2 = as_node (Allocate real req s').2 ∧
  as_events (Allocate simulated req s).2 = as_events s ∧
  as_outcome (Allocate simulated req s).2 = {| to_Result := ""; to_Alignment := "" |}.
Proof. apply allocate_simulated. Qed.

Module DryRunDemo.
Import DemoNode EndToEndDemo.

Definition simulation : alloc_config := {| ac_recorder := true; ac_simulate := true |}.

Lemma Allocate_dry_run_witness :
  (Allocate simulation req start).1 = Done placed_pod ∧
  (Allocate simulation req start).1 = (Allocate cfg req start).1 ∧
  as_node (Allocate simulation req start).2 = as_node (Allocate cfg req start).2 ∧
  as_events (Allocate simulation req start).2 = [] ∧
  as_outcome (Allocate simulation req start).2 = {| to_Result := ""; to_Alignment := "" |}.
Proof. split; [vm_compute; reflexivity|]. by apply (Allocate_dry_run cfg simulation req start start). Defined.
End DryRunDemo.
