(* ===== verification/FilterSpec.v ===== *)
(** * The filter's verdicts

    What one call of the device stage leaves: one commit at most in live mode,
    nothing in a dry run, a verdict for every candidate, and the same decision
    in both modes. *)

From stdpp Require Import base list gmap strings.
From Stdlib Require Import ZArith Lia.
From S2P Require Import Prelude GoMap GoSort GoStrings Float64 GoFmt GoTime Kube Claims Reason Links Topology Device.
From S2P Require Import Footprint NodeInfo Accounting Affinity Request Scoring SubsetSearch Numa Tiered TieredSpec.
From S2P Require Import Endpoint RemoteGpu.
From S2P Require Import Allocator AllocatorSpec Placement NodeBuild EndToEnd DryRun NodeCheck Gate Client Batch Filter.

Open Scope Z_scope.

(** ** The allocator stays on its node *)

(** An attempt moves counters only, whether it succeeds or not. *)
Definition counters_only (n n' : NodeInfo) : Prop := same_node n n' ∧ ni_nodePods n = ni_nodePods n'.

#[export] Instance counters_only_preorder : PreOrder counters_only.
Proof. split; [done|]. intros n1 n2 n3 [H1 H2] [H3 H4]. split; [by etrans|congruence]. Qed.

Definition keeps_identity {A} (m : M A) : Prop := ∀ s, counters_only (as_node s) (as_node (m s).2).

Lemma identity_keeps {A} (m : M A) : keeps_node m → keeps_identity m.
Proof. intros Hk s. by rewrite Hk. Qed.

Lemma identity_bind {A B} (m : M A) (k : A → M B) :
  keeps_identity m → (∀ a, keeps_identity (k a)) → keeps_identity (bind m k).
Proof.
  intros Hm Hk s. unfold bind. specialize (Hm s). destruct (m s) as [[a|r|e] t]; simpl in *; [|done..].
  etrans; [exact Hm|apply Hk].
Qed.

Lemma identity_each {A B} (f : A → M B) l : (∀ a, keeps_identity (f a)) → keeps_identity (each f l).
Proof.
  intros Hf. induction l as [|a l IH]; simpl; [by apply identity_keeps, keeps_ret|].
  apply identity_bind; [apply Hf|]. intros b. apply identity_bind; [apply IH|]. intros bs. by apply identity_keeps, keeps_ret.
Qed.

Lemma addClaims_identity n claims n' : addClaims n claims = Ok n' → counters_only n n'.
Proof.
  revert n. induction claims as [|c cs IH]; intros n; simpl; [by intros [= ->]|].
  destruct (AddUsedResources n c) as [n1|] eqn:E; [|done]. cbn [rbind]. intros ?%IH.
  etrans; [|done]. by eapply add_occupancy_counters.
Qed.

Lemma restore_identity n snap : counters_only n (RestoreUsage n snap).
Proof.
  split; [|done]. split; [done|]. intros id. simpl. rewrite map_lookup_imap.
  destruct (ni_deviceMap n !! id) as [d|]; simpl; [|constructor]. constructor. by destruct (us_devices snap !! id).
Qed.

Section identity.
Context `{Env} `{MapOrder} (cfg : alloc_config) (req : AllocationRequest).

Lemma identity_accumulate need w : keeps_identity (allocateAndAccumulate cfg req need w).
Proof.
  unfold allocateAndAccumulate. apply identity_bind; [apply identity_keeps, keeps_allocateOne|]. intros claim s.
  unfold bind, get_node. simpl. destruct (addClaims _ _) as [n|] eqn:E; simpl; [|done]. by apply addClaims_identity in E.
Qed.

Lemma identity_restore {A} snap (k : M A) :
  keeps_identity k → keeps_identity (bind get_node (λ n, bind (put_node (RestoreUsage n snap)) (λ _, k))).
Proof. intros Hk s. unfold bind, get_node, put_node. etrans; [|apply Hk]. apply restore_identity. Qed.

Lemma identity_containers : keeps_identity (allocateContainers cfg req).
Proof.
  unfold allocateContainers. destruct (rq_HasSequentialInit req); [|apply identity_each; intros; apply identity_accumulate].
  unfold two_pass. apply identity_bind; [apply identity_each; intros; apply identity_accumulate|]. intros sidecars.
  apply identity_bind; [apply identity_keeps, keeps_get|]. intros n.
  apply identity_bind; [apply identity_each; intros; apply identity_accumulate|]. intros apps.
  apply identity_restore, identity_bind; [apply identity_each; intros; apply identity_keeps, keeps_init|]. intros inits.
  apply identity_each. intros need. destruct (_ !! _); by apply identity_keeps.
Qed.

Lemma identity_allocate : keeps_identity (Allocate cfg req).
Proof.
  unfold Allocate. apply identity_bind; [done|]. intros _. apply identity_bind; [apply identity_containers|].
  intros claims. apply identity_bind; [apply identity_keeps, keeps_get|]. intros n. by apply identity_keeps, keeps_ret.
Qed.

(** The pod written names the node it was placed on. *)
Lemma allocate_node s newPod s' :
  Allocate cfg req s = (Done newPod, s') →
  annotation newPod PodPredicateNodeAnnotation = GetName (as_node s) ∧ p_UID newPod = p_UID (rq_Pod req).
Proof.
  intros Hdone. pose proof (identity_allocate s) as Hid. rewrite Hdone in Hid. simpl in Hid. unfold Allocate in Hdone.
  apply bind_done in Hdone as (u & s1 & _ & Hdone). apply bind_done in Hdone as (claims & s2 & _ & Hdone).
  apply bind_done in Hdone as (n2 & s3 & E & Hdone). injection E as <- <-. injection Hdone as <- <-.
  rewrite annotation_insert. unfold GetName. by rewrite <- (same_node_node _ _ (proj1 Hid)).
Qed.
End identity.

(** ** The parallel batches *)
Section batches.
Context `{Goroutines} (build : Node → candidate).

Definition fits_of (node : Node) : option RankedNode := match build node with Fits n => Some n | _ => None end.

(** [s] is what the indexed nodes of [l] amount to, in any order. *)
Record summarises (l : list (Z * Node)) (s : batch_state) : Prop := {
  sm_infos : bs_infos s ≡ₚ omap fits_of l.*2;
  sm_failed nm r : bs_failed s !! nm = Some r ↔ ∃ i node, (i, node) ∈ l ∧ n_Name node = nm ∧ build node = Unfit r;
  sm_positions nm i : bs_positions s !! nm = Some i ↔ ∃ node, (i, node) ∈ l ∧ n_Name node = nm;
  sm_sane : Forall (λ e, build e.2 ≠ Crashed) l
}.

Definition names (l : list (Z * Node)) : list string := n_Name <$> l.*2.

Lemma summarises_empty : summarises [] empty_batch.
Proof.
  split; simpl; [done| | |done]; intros *; rewrite lookup_empty; (split; [done|]).
  - by intros (i & node & Hin%not_elem_of_nil & _).
  - by intros (node & Hin%not_elem_of_nil & _).
Qed.

Lemma elem_of_names e l : e ∈ l → n_Name e.2 ∈ names l.
Proof. intros He. unfold names. do 2 apply list_elem_of_fmap_2. done. Qed.

Lemma summarises_step nodes l s i s' :
  summarises l s → batch_step build nodes s i = Ok s' →
  ∃ node, nodes !! Z.to_nat i = Some node ∧ (n_Name node ∉ names l → summarises (l ++ [(i, node)]) s').
Proof.
  intros [Hi Hf Hp Hs] Hstep. unfold batch_step in Hstep. destruct (nodes !! Z.to_nat i) as [node|] eqn:Hn; [|done].
  exists node. split; [done|]. intros Hnew.
  assert (∀ e, e ∈ l → n_Name e.2 ≠ n_Name node) as Hne.
  { intros e He Heq. apply Hnew. rewrite <- Heq. by apply elem_of_names. }
  assert (∀ nm j, <[n_Name node := i]> (bs_positions s) !! nm = Some j ↔
    ∃ node', (j, node') ∈ l ++ [(i, node)] ∧ n_Name node' = nm) as Hpos.
  { intros nm j. rewrite lookup_insert_Some, Hp. setoid_rewrite elem_of_app. setoid_rewrite list_elem_of_singleton. split.
    - intros [[<- <-]|[Hnm (node' & Hin & Hnn)]]; eauto.
    - intros (node' & [Hin|Hin] & Hnn); [|left; by simplify_eq]. right. split; [|eauto].
      intros E. apply (Hne _ Hin). simpl. congruence. }
  assert (build node ≠ Crashed → Forall (λ e, build e.2 ≠ Crashed) (l ++ [(i, node)])) as Hsane.
  { intros Hc. apply Forall_app. split; [done|]. by apply Forall_singleton. }
  destruct (build node) as [n|r|] eqn:Hb; simplify_eq/=.
  - split; simpl; [|intros nm r|exact Hpos|by apply Hsane].
    + rewrite fmap_app, omap_app, Hi. simpl. unfold fits_of at 3. by rewrite Hb.
    + rewrite Hf. setoid_rewrite elem_of_app. setoid_rewrite list_elem_of_singleton.
      split; [naive_solver|]. intros (j & node' & [Hin|Hin] & Hnn & Hr); [by exists j, node'|].
      injection Hin as -> ->. congruence.
  - split; simpl; [|intros nm r'|exact Hpos|by apply Hsane].
    + rewrite fmap_app, omap_app, Hi. simpl. unfold fits_of at 3. by rewrite Hb, app_nil_r.
    + rewrite lookup_insert_Some, Hf. setoid_rewrite elem_of_app. setoid_rewrite list_elem_of_singleton. split.
      * intros [[<- <-]|[Hnm (j & node' & Hin & Hnn & Hr)]]; [by exists i, node; auto|by exists j, node'; auto].
      * intros (j & node' & [Hin|Hin] & Hnn & Hr); [right|injection Hin as -> ->; left; split; congruence].
        split; [|by exists j, node']. intros E. apply (Hne _ Hin). simpl. congruence.
Qed.
Lemma summarises_perm l l' s : l ≡ₚ l' → summarises l s → summarises l' s.
Proof.
  intros Hp [Hi Hf Hpos Hs]. split; [by rewrite <- Hp|..|by rewrite <- Hp].
  - intros nm r. rewrite Hf. by setoid_rewrite Hp.
  - intros nm i. rewrite Hpos. by setoid_rewrite Hp.
Qed.

Lemma names_app l l' : names (l ++ l') = names l ++ names l'.
Proof. unfold names. by rewrite !fmap_app. Qed.

Lemma summarises_merge l1 s1 l2 s2 :
  NoDup (names (l1 ++ l2)) → summarises l1 s1 → summarises l2 s2 → summarises (l1 ++ l2) (merge_batch s1 s2).
Proof.
  rewrite names_app, NoDup_app. intros (_ & Hd & _) [Hi1 Hf1 Hp1 Hs1] [Hi2 Hf2 Hp2 Hs2].
  assert (∀ e1 e2, e1 ∈ l1 → e2 ∈ l2 → n_Name e1.2 ≠ n_Name e2.2) as Hne.
  { intros e1 e2 H1 H2 E. apply (Hd (n_Name e1.2)); [by apply elem_of_names|]. rewrite E. by apply elem_of_names. }
  split; simpl.
  - by rewrite fmap_app, omap_app, Hi1, Hi2.
  - intros nm r. rewrite lookup_union_Some_raw, Hf2, Hf1. setoid_rewrite elem_of_app. split.
    + intros [(i & node & ? & ?)|[_ (i & node & ? & ?)]]; exists i, node; auto.
    + intros (i & node & [Hin|Hin] & Hnn & Hr); [right|left; by exists i, node]. split; [|by exists i, node].
      apply eq_None_not_Some. intros [r' (j & node' & Hin' & Hnn' & _)%Hf2]. apply (Hne _ _ Hin Hin'). simpl. congruence.
  - intros nm i. rewrite lookup_union_Some_raw, Hp2, Hp1. setoid_rewrite elem_of_app. split.
    + intros [(node & ? & ?)|[_ (node & ? & ?)]]; exists node; auto.
    + intros (node & [Hin|Hin] & Hnn); [right|left; by exists node]. split; [|by exists node].
      apply eq_None_not_Some. intros [j (node' & Hin' & Hnn')%Hp2]. apply (Hne _ _ Hin Hin'). simpl. congruence.
  - by apply Forall_app.
Qed.

Lemma summarises_fold ls outs l s :
  Forall2 summarises ls outs → NoDup (names (l ++ concat ls)) → summarises l s →
  summarises (l ++ concat ls) (fold_left merge_batch outs s).
Proof.
  intros Hall. revert l s. induction Hall as [|l1 s1 ls outs H1 _ IH]; intros l s Hnd Hs; simpl; [by rewrite app_nil_r|].
  simpl in Hnd. rewrite app_assoc in Hnd |- *. apply IH; [done|]. apply summarises_merge; [|done|done].
  rewrite names_app in Hnd. by apply NoDup_app in Hnd as (? & _ & _).
Qed.

(** The entry at index [i]. *)
Definition entry_at (nodes : list Node) (i : Z) (e : Z * Node) : Prop := e.1 = i ∧ nodes !! Z.to_nat i = Some e.2.

Lemma summarises_indices nodes idx l s s' :
  summarises l s → run_indices build nodes s idx = Ok s' →
  ∃ l', Forall2 (entry_at nodes) idx l' ∧ (NoDup (names (l ++ l')) → summarises (l ++ l') s').
Proof.
  revert l s. induction idx as [|i idx IH]; intros l s Hs Hrun; simpl in Hrun.
  { injection Hrun as <-. exists []. rewrite app_nil_r. by split. }
  destruct (batch_step build nodes s i) as [s1|e] eqn:E; [|done]. cbn [rbind] in Hrun.
  destruct (summarises_step _ _ _ _ _ Hs E) as (node & Hn & Hs1).
  destruct (decide (n_Name node ∈ names l)) as [Hin|Hnin].
  - (* the rest of the batch has some indices whatever the names *)
    assert (∃ l', Forall2 (entry_at nodes) idx l') as [l' Hl'].
    { clear -Hrun. revert s1 Hrun. induction idx as [|j idx IH]; intros s1 Hrun; [by exists []|]. simpl in Hrun.
      destruct (batch_step build nodes s1 j) as [s2|e] eqn:E; [|done]. cbn [rbind] in Hrun.
      unfold batch_step in E. destruct (nodes !! Z.to_nat j) as [node|] eqn:Hj; [|done].
      destruct (IH _ Hrun) as [l' Hl']. exists ((j, node) :: l'). by constructor. }
    exists ((i, node) :: l'). split; [by constructor|]. intros Hnd. exfalso. rewrite names_app in Hnd.
    apply NoDup_app in Hnd as (_ & Hd & _). apply (Hd (n_Name node)); [done|]. by left.
  - destruct (IH _ _ (Hs1 Hnin) Hrun) as (l' & Hl' & Hsum). exists ((i, node) :: l'). split; [by constructor|].
    intros Hnd. rewrite <- app_assoc in Hsum. by apply Hsum.
Qed.

Definition indexed (nodes : list Node) : list (Z * Node) := imap (λ i node, (Z.of_nat i, node)) nodes.

Lemma entries_indexed nodes l : Forall2 (entry_at nodes) (seqZ 0 (Z.of_nat (length nodes))) l → l = indexed nodes.
Proof.
  intros Hall. apply list_eq. intros i. unfold indexed. rewrite list_lookup_imap.
  destruct (nodes !! i) as [node|] eqn:Hi; simpl.
  - assert (seqZ 0 (Z.of_nat (length nodes)) !! i = Some (Z.of_nat i)) as Hz.
    { rewrite lookup_seqZ. apply lookup_lt_Some in Hi. split; lia. }
    destruct (Forall2_lookup_l _ _ _ _ _ Hall Hz) as ([j node'] & -> & Hj & Hn). simpl in *. subst j.
    rewrite Nat2Z.id in Hn. congruence.
  - apply lookup_ge_None. apply lookup_ge_None in Hi. rewrite <- (Forall2_length _ _ _ Hall), length_seqZ. lia.
Qed.

Lemma names_indexed nodes : names (indexed nodes) = n_Name <$> nodes.
Proof. unfold names, indexed. rewrite <- list_fmap_compose, fmap_imap. apply list_eq. intros i. by rewrite list_lookup_imap, list_lookup_fmap. Qed.

(** Sizes that fit the machine. *)
Definition sizes_ok (nodes : list Node) (maxGoroutines : Z) : Prop :=
  nodes ≠ [] ∧ 0 < maxGoroutines ∧ 2 * Z.of_nat (length nodes) + maxGoroutines ≤ int64_max.

Lemma batches_of nodes maxGoroutines :
  sizes_ok nodes maxGoroutines →
  ∃ bs, BalanceBatches (Z.of_nat (length nodes)) (Z.quot (Z.of_nat (length nodes) + maxGoroutines - 1) maxGoroutines) = Some bs ∧
    concat (indices <$> bs) = seqZ 0 (Z.of_nat (length nodes)).
Proof.
  intros (Hne & Hg & Hsz). assert (0 < Z.of_nat (length nodes)) as Hlen by (destruct nodes; [done|simpl; lia]).
  set (len := Z.of_nat (length nodes)) in *. rewrite Z.quot_div_nonneg by lia.
  assert (0 < (len + maxGoroutines - 1) / maxGoroutines ≤ len) as Hq.
  { split; [apply Z.div_str_pos; lia|]. apply Z.div_le_upper_bound; nia. }
  destruct (balance_spec len ((len + maxGoroutines - 1) / maxGoroutines)) as (bs & Hbs & Hc & _); [lia..|]. eauto.
Qed.

Lemma run_batches_summary nodes maxGoroutines s :
  sizes_ok nodes maxGoroutines → NoDup (n_Name <$> nodes) →
  run_batches build nodes maxGoroutines = Ok s → summarises (indexed nodes) s.
Proof.
  intros Hsz Hnd Hrun. unfold run_batches in Hrun. destruct (batches_of _ _ Hsz) as (bs & Hbs & Hc). rewrite Hbs in Hrun.
  destruct (rmap _ bs) as [outs|e] eqn:E; [|done]. cbn [rbind] in Hrun. injection Hrun as <-.
  apply rmap_inv in E.
  assert (∃ ls, Forall2 (λ b l, Forall2 (entry_at nodes) (indices b) l) bs ls ∧
    Forall2 (λ l out, NoDup (names l) → summarises l out) ls outs) as (ls & Hls & Hsum).
  { clear -E. induction E as [|b out bs outs Hb _ IH]; [by exists []|]. destruct IH as (ls & H1 & H2).
    destruct (summarises_indices nodes (indices b) [] empty_batch out summarises_empty Hb) as (l & Hl & Hs).
    exists (l :: ls). split; by constructor. }
  assert (concat ls = indexed nodes) as Hcat.
  { apply entries_indexed. rewrite <- Hc. clear -Hls. induction Hls; simpl; [constructor|]. by apply Forall2_app. }
  assert (NoDup (names (concat ls))) as Hnames by by rewrite Hcat, names_indexed.
  assert (Forall2 summarises ls outs) as Hall.
  { clear -Hsum Hnames. induction Hsum as [|l out ls outs Hl _ IH]; constructor; simpl in Hnames;
      rewrite names_app in Hnames; apply NoDup_app in Hnames as (? & _ & ?); auto. }
  apply Forall2_flip in Hall. destruct (Permutation_Forall2 (symmetry (completion_perm outs)) Hall) as (ls' & Hp & Hall').
  apply (proj1 (Forall2_flip _ _ _)) in Hall'. assert (concat ls' ≡ₚ concat ls) as Hpc by (by rewrite Hp).
  rewrite <- Hcat. apply (summarises_perm (concat ls')); [done|].
  apply (summarises_fold ls' (completion outs) [] empty_batch); [done| |apply summarises_empty].
  unfold names. simpl. by rewrite Hpc.
Qed.

Lemma run_batches_total nodes maxGoroutines :
  sizes_ok nodes maxGoroutines → Forall (λ node, build node ≠ Crashed) nodes →
  ∃ s, run_batches build nodes maxGoroutines = Ok s.
Proof.
  intros Hsz Hsane. unfold run_batches. destruct (batches_of _ _ Hsz) as (bs & -> & Hc).
  destruct (rmap_total (λ b, run_indices build nodes empty_batch (indices b)) bs) as [outs ->]; [|simpl; eauto].
  intros b Hb. assert (Forall (λ i, 0 ≤ i < Z.of_nat (length nodes)) (indices b)) as Hr.
  { apply Forall_forall. intros i Hi.
    assert (i ∈ seqZ 0 (Z.of_nat (length nodes))) as Hz; [|apply elem_of_seqZ in Hz; lia]. rewrite <- Hc. apply list_elem_of_In, in_concat.
    exists (indices b). split; apply list_elem_of_In; [by apply list_elem_of_fmap_2|done]. }
  generalize empty_batch. induction Hr as [|i idx Hi _ IH]; intros s; simpl; [eauto|].
  unfold batch_step at 1. destruct (lookup_lt_is_Some_2 nodes (Z.to_nat i)) as [node Hn]; [lia|]. rewrite Hn.
  rewrite Forall_forall in Hsane. specialize (Hsane node ltac:(by eapply list_elem_of_lookup_2)).
  destruct (build node); [..|done]; apply IH.
Qed.
End batches.

(** ** Ranking *)
Section ranking.
Context `{Env} `{MapOrder}.

(** Every score used for ranking is a number. *)
Definition scores_ok (req : AllocationRequest) (infos : list RankedNode) : Prop :=
  ∀ n, n ∈ infos → not_nan (cachedNodeScore n req).

Lemma name_inj (infos : list RankedNode) n n' :
  NoDup (rn_name <$> infos) → n ∈ infos → n' ∈ infos → rn_name n = rn_name n' → n = n'.
Proof.
  intros Hnd [i Hi]%list_elem_of_lookup [j Hj]%list_elem_of_lookup E.
  assert (i = j) as -> by (eapply (NoDup_lookup _ i j (rn_name n) Hnd); rewrite list_lookup_fmap; simplify_option_eq; congruence).
  congruence.
Qed.

Lemma topology_mode_sw req (P : RankedNode → Prop) less :
  Forall (StrictWeak P) less → Forall (StrictWeak P) (ApplyTopologyMode req less).
Proof.
  intros Hl. unfold ApplyTopologyMode. destruct (_ || _); [|case_bool_decide; [|done]]; constructor; try done.
  - apply (strict_weak_flip P (by_key (λ n, gpuTopologyFitness n (cn_Number (rq_Max req))))), by_key_sw.
  - apply (strict_weak_flip P (by_key (λ n, numaTopologyFitness n (cn_Number (rq_Max req))))), by_key_sw.
Qed.

Lemma elem_of_topology_mode req less l : l ∈ less → l ∈ ApplyTopologyMode req less.
Proof. intros Hl. unfold ApplyTopologyMode. destruct (_ || _); [by right|]. case_bool_decide; [by right|done]. Qed.

Lemma ranked_unique req infos infos' positions mode fx :
  infos ≡ₚ infos' → NoDup (rn_name <$> infos) → scores_ok req infos →
  (∀ n n' i, n ∈ infos → n' ∈ infos → positions !! rn_name n = Some i → positions !! rn_name n' = Some i → rn_name n = rn_name n') →
  (∀ n, n ∈ infos → is_Some (positions !! rn_name n)) →
  sortNodeInfos req infos positions mode fx = sortNodeInfos req infos' positions mode fx.
Proof.
  intros Hp Hnd Hsc Hinj Hpos. set (P n := n ∈ infos).
  assert (Forall P infos) as HP by by apply Forall_forall.
  unfold sortNodeInfos. destruct (_ || bool_decide (rq_NodePolicy req = SpreadPolicy)).
  - unfold fret, sort_nodes. do 2 f_equal.
    assert (Forall (StrictWeak P) (NewNodePolicyPriority req)) as Hsw.
    { apply topology_mode_sw. repeat (apply Forall_cons; split); [|apply by_str_sw|by apply Forall_nil].
      by apply (f64_gt_sw P (λ n, cachedNodeScore n req)). }
    apply (sort_slice_unique P); [by apply chain_less_sw| |done|done].
    apply (chain_less_separates P _ ByNodeNameAsc); [apply elem_of_topology_mode; set_solver|done|].
    apply by_str_separates. intros n n' Hn Hn' E. by eapply name_inj.
  - set (k n := default 0 (positions !! rn_name n)).
    assert (Forall (StrictWeak P) (position_less positions req)) as Hsw.
    { apply topology_mode_sw. apply Forall_singleton, (by_key_sw P k). }
    assert (sort_slice (chain_less (position_less positions req)) infos
            = sort_slice (chain_less (position_less positions req)) infos') as ->; [|done].
    apply (sort_slice_unique P); [by apply chain_less_sw| |done|done].
    apply (chain_less_separates P _ (by_key k)); [apply elem_of_topology_mode; by left|done|].
    apply by_key_separates. intros n n' Hn Hn' E. destruct (Hpos n Hn) as [i Hi], (Hpos n' Hn') as [j Hj].
    unfold k in E. rewrite Hi, Hj in E. simpl in E. subst j. eapply name_inj; eauto.
Qed.

Lemma sortNodeInfos_perm req infos positions mode fx ranked fx' :
  sortNodeInfos req infos positions mode fx = (Ok ranked, fx') → ranked ≡ₚ infos.
Proof.
  unfold sortNodeInfos, fret, fbind, sort_nodes. destruct (_ || bool_decide (rq_NodePolicy req = SpreadPolicy)).
  - intros [= <- <-]. apply sort_slice_perm.
  - destruct (_ || isDryRun mode); simpl; intros [= <- _]; apply sort_slice_perm.
Qed.
End ranking.

(** ** Running the allocator down the list *)
Section tried.
Context `{Env} `{MapOrder} `{NodeDecoders} `{KubeLib} `{EndpointLib} `{ApiServer} `{Goroutines}.
Context (cx : call_context) (req : AllocationRequest).

Definition fresh (info : RankedNode) : alloc_state :=
  {| as_node := rn_NodeInfo info; as_outcome := rq_topoOutcome req; as_events := [] |}.

(** What the allocator says about a node; the same for every configuration. *)
Definition verdict (info : RankedNode) : outcome Pod :=
  (Allocate {| ac_recorder := false; ac_simulate := true |} req (fresh info)).1.

Definition accepted (info : RankedNode) : Prop := ∃ pod, verdict info = Done pod.
#[export] Instance accepted_dec info : Decision (accepted info).
Proof. unfold accepted. destruct (verdict info) as [p|r|e]; [left; eauto|right; by intros [? ?]..]. Defined.

Definition node_of (info : RankedNode) : Node := ni_node (rn_NodeInfo info).

Lemma verdict_any cfg info : (Allocate cfg req (fresh info)).1 = verdict info.
Proof.
  symmetry. exact (proj1 (allocate_simulated cfg {| ac_recorder := false; ac_simulate := true |} req (fresh info) (fresh info) eq_refl eq_refl)).
Qed.

Lemma simulated_silent cfg info : ac_simulate cfg = true → as_events (Allocate cfg req (fresh info)).2 = [].
Proof. intros Hs. by destruct (allocate_simulated cfg cfg req (fresh info) (fresh info) Hs eq_refl) as (_ & _ & ? & _). Qed.

Lemma emit_nil fx : emit [] fx = (Ok tt, fx).
Proof. unfold emit. rewrite app_nil_r. by destruct fx. Qed.

Lemma dry_attempt recorder info fx :
  attempt cx req dryRunFilter recorder info fx
  = match verdict info with
    | Done _ => (Ok None, fx) | Rejected r => (Ok (Some r), fx) | Broken e => (Fail (ErrAlloc e), fx)
    end.
Proof.
  unfold attempt. rewrite <- (verdict_any {| ac_recorder := recorder; ac_simulate := true |} info).
  pose proof (simulated_silent {| ac_recorder := recorder; ac_simulate := true |} info eq_refl) as Hs. simpl isDryRun.
  fold (fresh info). destruct (Allocate _ req (fresh info)) as [out t]. simpl in Hs |- *. rewrite Hs. unfold fbind.
  simpl fmap. rewrite emit_nil. by destruct out.
Qed.

Lemma accepted_cons info infos :
  filter accepted (info :: infos) = (match verdict info with Done _ => [info] | _ => [] end) ++ filter accepted infos.
Proof.
  rewrite filter_cons. case_decide as Ha.
  - by destruct Ha as [p ->].
  - destruct (verdict info) eqn:E; [|done..]. destruct Ha. by eexists.
Qed.

(** A dry run keeps every accepted node and leaves no trace. *)
Lemma dry_nodes recorder infos filtered failed fx r fx' :
  try_nodes cx req dryRunFilter recorder infos filtered failed fx = (r, fx') →
  fx' = fx ∧ (∀ F G, r = Ok (F, G) → F = filtered ++ (node_of <$> filter accepted infos)).
Proof.
  revert recorder filtered failed. induction infos as [|info infos IH]; intros recorder filtered failed Htry; simpl in Htry.
  { injection Htry as <- <-. split; [done|]. intros F G [= <- <-]. by rewrite app_nil_r. }
  assert ((run refused <- attempt cx req dryRunFilter recorder info;
    match refused with
    | Some r => try_nodes cx req dryRunFilter false infos filtered (<[n_Name (node_of info) := r]> failed)
    | None => try_nodes cx req dryRunFilter false infos (filtered ++ [node_of info]) failed
    end)%go fx = (r, fx')) as Hrun by by destruct filtered.
  unfold fbind in Hrun. rewrite dry_attempt in Hrun. rewrite accepted_cons, fmap_app.
  destruct (verdict info) as [p|rsn|e].
  - destruct (IH _ _ _ Hrun) as [-> HF]. split; [done|]. intros F G E. by rewrite (HF F G E), <- app_assoc.
  - by destruct (IH _ _ _ Hrun) as [-> HF].
  - injection Hrun as <- <-. done.
Qed.

(** Once a node has accepted, the rest is not tried. *)
Lemma live_skip recorder infos winner filtered failed fx r fx' :
  try_nodes cx req liveFilter recorder infos (winner :: filtered) failed fx = (r, fx') →
  fx' = fx ∧ ∃ G, r = Ok (winner :: filtered, G).
Proof.
  revert failed. induction infos as [|info infos IH]; intros failed; simpl; [intros [= <- <-]; eauto|]. apply IH.
Qed.

(** What a commit is: the allocator's pod, written and cached. *)
Definition committed (info : RankedNode) (fx fx' : effects) : Prop :=
  ∃ cfg newPod patched s', Allocate cfg req (fresh info) = (Done newPod, s') ∧
    PatchPodPreAllocatedMetadata newPod = Ok patched ∧
    fx_patches fx' = fx_patches fx ++ [newPod] ∧ fx_cache fx' = fx_cache fx ++ [patched] ∧
    fx_placements fx' = fx_placements fx ++ [as_outcome s'].

(** Nothing but events. *)
Definition only_events (fx fx' : effects) : Prop :=
  fx_patches fx' = fx_patches fx ∧ fx_cache fx' = fx_cache fx ∧ fx_placements fx' = fx_placements fx.

Lemma live_attempt recorder info fx r fx' :
  attempt cx req liveFilter recorder info fx = (Ok r, fx') →
  match r with
  | None => accepted info ∧ committed info fx fx'
  | Some _ => ¬ accepted info ∧ only_events fx fx'
  end.
Proof.
  unfold attempt. pose proof (verdict_any {| ac_recorder := recorder; ac_simulate := false |} info) as Hv.
  simpl isDryRun. fold (fresh info). destruct (Allocate _ req (fresh info)) as [out t] eqn:Ea. simpl in Hv |- *.
  unfold fbind, emit, sent, Mutation, recordPlacement, ferr, fret. destruct out as [newPod|rsn|e].
  - destruct (ctx_before_patch _ _); [done|]. destruct (PatchPodPreAllocatedMetadata newPod) as [patched|e] eqn:Hp; [|done].
    intros [= <- <-]. split; [by exists newPod|]. exists {| ac_recorder := recorder; ac_simulate := false |}, newPod, patched, t.
    by split_and!.
  - intros [= <- <-]. split; [|done]. intros [p Hp]. congruence.
  - done.
Qed.

(** A live pass commits on the first accepted node, and only there. *)
Lemma live_nodes recorder infos failed fx F G fx' :
  try_nodes cx req liveFilter recorder infos [] failed fx = (Ok (F, G), fx') →
  F = take 1 (node_of <$> filter accepted infos) ∧
  (F = [] ∧ only_events fx fx' ∨
   ∃ info fx0, info ∈ infos ∧ F = [node_of info] ∧ only_events fx fx0 ∧ committed info fx0 fx').
Proof.
  revert recorder failed fx. induction infos as [|info infos IH]; intros recorder failed fx Htry.
  { injection Htry as <- <- <-. split; [done|]. by left. }
  cbn [try_nodes] in Htry. unfold fbind in Htry. destruct (attempt _ _ _ _ info fx) as [[r|e] fx1] eqn:Ea; [|done].
  apply live_attempt in Ea. rewrite accepted_cons. destruct r as [rsn|].
  - destruct Ea as [Hna Ho]. apply IH in Htry as [-> Hrest].
    replace (match verdict info with Done _ => [info] | _ => [] end) with (@nil RankedNode)
      by (destruct (verdict info) eqn:E; [destruct Hna; by eexists|done..]).
    split; [done|]. destruct Ho as (Ho1 & Ho2 & Ho3).
    destruct Hrest as [(HF & Hr1 & Hr2 & Hr3)|(info' & fx0 & Hin & HF & (Hr1 & Hr2 & Hr3) & Hc)].
    + left. unfold only_events. split_and!; congruence.
    + right. exists info', fx0. split_and!; [by right|done| |done]. unfold only_events. split_and!; congruence.
  - destruct Ea as [[p Hp] Hc]. apply live_skip in Htry as [-> [G' HG]]. injection HG as -> ->. rewrite Hp. split; [done|]. right.
    exists info, fx. split_and!; [by left|done|by split_and!|done].
Qed.

Lemma try_step mode recorder info infos filtered failed fx out fx' :
  try_nodes cx req mode recorder (info :: infos) filtered failed fx = (Ok out, fx') →
  ∃ rec fx1,
    (∃ r, try_nodes cx req mode rec infos filtered (<[rn_name info := r]> failed) fx1 = (Ok out, fx')) ∨
    try_nodes cx req mode rec infos (filtered ++ [node_of info]) failed fx1 = (Ok out, fx').
Proof.
  intros Htry. cbn [try_nodes] in Htry.
  assert (∀ m : F (option FilterReason),
    (run refused <- m;
     match refused with
     | Some r => try_nodes cx req mode false infos filtered (<[n_Name (node_of info) := r]> failed)
     | None => try_nodes cx req mode false infos (filtered ++ [node_of info]) failed
     end)%go fx = (Ok out, fx') → ∃ rec fx1,
       (∃ r, try_nodes cx req mode rec infos filtered (<[rn_name info := r]> failed) fx1 = (Ok out, fx')) ∨
       try_nodes cx req mode rec infos (filtered ++ [node_of info]) failed fx1 = (Ok out, fx')) as Hrun.
  { intros m. unfold fbind. destruct (m fx) as [[[r|]|e] fx1]; [..|done]; intros Hm; exists false, fx1; [left; by exists r|by right]. }
  destruct filtered as [|w l], mode; try (eapply Hrun; exact Htry). exists recorder, fx. left. by eexists.
Qed.

(** Every node tried ends up either accepted or with a reason, never both. *)
Lemma try_verdicts mode recorder infos filtered failed fx F G fx' :
  try_nodes cx req mode recorder infos filtered failed fx = (Ok (F, G), fx') →
  NoDup (rn_name <$> infos) → (∀ info, info ∈ infos → rn_name info ∉ n_Name <$> filtered) →
  (∃ won, F = filtered ++ won ∧ won ⊆ node_of <$> infos) ∧
  ∀ nm, is_Some (G !! nm) ↔ is_Some (failed !! nm) ∨ (nm ∈ rn_name <$> infos ∧ nm ∉ n_Name <$> F).
Proof.
  revert recorder filtered failed fx.
  induction infos as [|info infos IH]; intros recorder filtered failed fx Htry Hnd Hnew.
  { injection Htry as <- <- <-. split; [exists []; by rewrite app_nil_r|]. intros nm. set_solver. }
  apply NoDup_cons in Hnd as [Hni Hnd]. apply try_step in Htry as (rec & fx1 & [[r Htry]|Htry]).
  - apply IH in Htry as [(won & -> & Hw) HG]; [|done|intros i Hi; apply Hnew; by right].
    split; [exists won; split; [done|set_solver]|]. intros nm. rewrite HG, fmap_cons, elem_of_cons.
    destruct (decide (nm = rn_name info)) as [->|Hne].
    + rewrite lookup_insert_eq. split; [intros _; right|intros _; left; eauto]. split; [by left|].
      rewrite fmap_app, elem_of_app. intros [Hin|Hin]; [by eapply Hnew; [left|]|].
      apply Hni. apply list_elem_of_fmap in Hin as (node & E & Hn%Hw). apply list_elem_of_fmap in Hn as (i & -> & Hi).
      rewrite E. by apply (list_elem_of_fmap_2 rn_name) in Hi.
    + rewrite lookup_insert_ne by done. naive_solver.
  - apply IH in Htry as [(won & -> & Hw) HG]; [|done|].
    + split; [exists (node_of info :: won); rewrite <- app_assoc; split; [done|set_solver]|]. intros nm.
      rewrite HG, fmap_cons, elem_of_cons. split; [naive_solver|]. intros [?|[[->|?] Hn]]; [by left| |by right].
      destruct Hn. rewrite !fmap_app, !elem_of_app. left. right. by left.
    + intros i Hi. rewrite fmap_app, elem_of_app. simpl. rewrite list_elem_of_singleton. intros [Hin|E]; [by eapply Hnew; [right|]|].
      apply Hni. change (rn_name i = rn_name info) in E. rewrite <- E. by apply list_elem_of_fmap_2.
Qed.
End tried.

(** ** The device stage *)

Section kept.
Context `{Env} `{MapOrder} {B : Type} (g : NodeInfo → B) (Hg : ∀ n d s p, g (with_state n d s p) = g n).

Lemma AddPodUsed_keeps n pod : g (AddPodUsedResources n pod) = g n.
Proof.
  assert (∀ n uuid number cores memory, g (or_skip n (add_occupancy n uuid number cores memory)) = g n) as Hadd.
  { intros n0 *. unfold add_occupancy. destruct (_ !! uuid); [|done]. destruct (_ !! _); [apply Hg|done]. }
  unfold AddPodUsedResources. destruct (negb _); [done|]. case_bool_decide; [done|]. destruct (podHasVGPUInitContainer pod).
  - apply (fold_left_inv (λ m, g m = g n)); [|done]. intros m fp Hm _. by unfold addFootprintResources; rewrite Hadd.
  - apply (fold_left_inv (λ m, g m = g n)); [|done]. intros m cdc Hm _.
    apply (fold_left_inv (λ m, g m = g n)); [|done]. intros m' c Hm' _. by unfold AddUsedResources; rewrite Hadd.
Qed.

Lemma AddPods_keeps n pods option : g (AddPodsUsedResources n pods option) = g n.
Proof.
  unfold AddPodsUsedResources. apply (fold_left_inv (λ m, g m = g n)).
  - intros m p Hm _. case_bool_decide; [done|]. by rewrite AddPodUsed_keeps, Hg.
  - destruct (no_resetPods option), (no_resetUsed option); unfold resetResourceUsage; by rewrite ?Hg.
Qed.
End kept.

Lemma NewNodeInfo_node `{Env} `{MapOrder} `{NodeDecoders} node option n : NewNodeInfo node option = Ok n → ni_node n = node.
Proof.
  unfold NewNodeInfo. destruct (NewNodeDeviceGatherInfo node option) as [g|e]; [|done]. cbn [rbind]. intros [= <-].
  unfold RefreshResourcesData. cbn [with_state ni_node]. by rewrite (AddPods_keeps ni_node).
Qed.

Section stage.
Context `{Env} `{MapOrder} `{NodeDecoders} `{KubeLib} `{EndpointLib} `{ApiServer} `{Goroutines}.
Context (f : gpuFilter).

Lemma build_node req topo pods state node n : build_candidate req topo pods state node = Fits n → node_of n = node.
Proof.
  unfold build_candidate. destruct (NewNodeInfo _ _) as [info|[c|]] eqn:E; [|done..].
  destruct (nodeCapacityGate _ _); [done|]. intros [= <-]. by apply NewNodeInfo_node in E.
Qed.

(** The candidates of a request. *)
Definition builder (req : AllocationRequest) (state : CycleState) : Node → candidate :=
  build_candidate req (gf_gpuTopology f && UsesLinkTiers (rq_Topology req))
    (NodeMapByIndexValue (gf_pods f) IndexPodRequestVGPU "true") state.

Lemma prepared req nodes state s req' :
  sizes_ok nodes (gf_maxGoroutines f) → NoDup (n_Name <$> nodes) →
  preFilterNodeInfos f req nodes state = Ok (s, req') →
  summarises (builder req state) (indexed nodes) s ∧ rq_Pod req' = rq_Pod req ∧ rq_Containers req' = rq_Containers req ∧
  rq_AccessMode req' = rq_AccessMode req.
Proof.
  intros Hsz Hnd Hpre. unfold preFilterNodeInfos in Hpre. fold (builder req state) in Hpre.
  destruct (run_batches _ _ _) as [s0|e] eqn:E; [|done]. cbn [rbind] in Hpre.
  apply run_batches_summary in E; [|done|done]. destruct (_ || _); [by injection Hpre as <- <-|].
  destruct (FindGangSiblingDomain _ _ _ _) as [keys|e]; [|done]. cbn [rbind] in Hpre. by injection Hpre as <- <-.
Qed.

Lemma infos_nodes req state nodes s :
  summarises (builder req state) (indexed nodes) s → NoDup (n_Name <$> nodes) →
  NoDup (rn_name <$> bs_infos s) ∧
  (∀ n, n ∈ bs_infos s → node_of n ∈ nodes) ∧
  (∀ nm, nm ∈ n_Name <$> nodes ↔ nm ∈ rn_name <$> bs_infos s ∨ is_Some (bs_failed s !! nm)) ∧
  (∀ nm, nm ∈ rn_name <$> bs_infos s → bs_failed s !! nm = None).
Proof.
  intros Hsum Hnd. destruct Hsum as [Hi Hf Hp Hs].
  assert ((indexed nodes).*2 = nodes) as Hix.
  { unfold indexed. rewrite fmap_imap. apply list_eq. intros i. rewrite list_lookup_imap. by destruct (nodes !! i). }
  rewrite Hix in Hi. assert (∀ node n, fits_of (builder req state) node = Some n → node_of n = node) as Hno.
  { intros node n. unfold fits_of. destruct (builder req state node) eqn:E; [|done..]. intros [= <-]. by eapply build_node. }
  assert (∀ n, n ∈ bs_infos s ↔ ∃ node, node ∈ nodes ∧ fits_of (builder req state) node = Some n) as Hin
    by (intros n; by rewrite Hi, list_elem_of_omap).
  assert (∀ i node, (i, node) ∈ indexed nodes → node ∈ nodes) as Hel.
  { intros i node He. rewrite <- Hix. by apply (list_elem_of_fmap_2 snd) in He. }
  assert (∀ a b, a ∈ nodes → b ∈ nodes → n_Name a = n_Name b → a = b) as Hinj.
  { intros a b [i Ha]%list_elem_of_lookup [j Hb]%list_elem_of_lookup E.
    assert (i = j) as -> by (eapply (NoDup_lookup _ i j (n_Name a) Hnd); rewrite list_lookup_fmap; simplify_option_eq; congruence).
    congruence. }
  split_and!.
  - rewrite Hi. clear -Hnd Hno. induction nodes as [|node nodes IH]; simpl; [constructor|].
    apply NoDup_cons in Hnd as [Hn Hnd]. specialize (IH Hnd). destruct (fits_of _ node) as [n|] eqn:E; [|done].
    simpl. constructor; [|done]. intros (m & Hm & Hin)%list_elem_of_fmap. apply list_elem_of_omap in Hin as (node' & Hin & Hf).
    apply Hn. apply Hno in Hf, E. apply list_elem_of_fmap. exists node'. split; [|done]. subst. exact Hm.
  - intros n (node & Hn & E)%Hin. by rewrite (Hno _ _ E).
  - intros nm. split.
    + intros (node & -> & Hn)%list_elem_of_fmap. rewrite <- Hix in Hn. apply list_elem_of_fmap in Hn as ([i node'] & -> & He).
      rewrite Forall_forall in Hs. pose proof (Hs _ He) as Hsane. simpl in *.
      destruct (builder req state node') as [n|r|] eqn:E; [left|right|done].
      * apply list_elem_of_fmap. exists n. split.
        -- change (rn_name n) with (n_Name (node_of n)). by rewrite (build_node _ _ _ _ _ _ E).
        -- apply Hin. exists node'. split; [by eapply Hel|]. unfold fits_of. by rewrite E.
      * exists r. apply Hf. eauto.
    + intros [(n & -> & (node & Hn & E)%Hin)%list_elem_of_fmap|[r (i & node & He & <- & _)%Hf]].
      * change (rn_name n) with (n_Name (node_of n)). rewrite (Hno _ _ E). by apply list_elem_of_fmap_2.
      * by eapply list_elem_of_fmap_2, Hel.
  - intros nm (n & -> & (node & Hn & E)%Hin)%list_elem_of_fmap. apply eq_None_not_Some.
    intros [r (i & node' & He & Hnm & Hb)%Hf]. change (rn_name n) with (n_Name (node_of n)) in Hnm.
    rewrite (Hno _ _ E) in Hnm. apply Hel in He. assert (node' = node) as -> by by apply Hinj.
    unfold fits_of in E. by rewrite Hb in E.
Qed.

(** What a pass over the candidates consists of. *)
Lemma candidates_inv cx req nodes state mode fx F G fx' :
  allocate_candidates f cx req nodes state mode fx = (Ok (F, G), fx') →
  ∃ s req', preFilterNodeInfos f req nodes state = Ok (s, req') ∧
    ((bs_infos s = [] ∧ F = [] ∧ G = bs_failed s ∧ fx' = fx) ∨
     ∃ ranked fx1 fx2, bs_infos s ≠ [] ∧ sortNodeInfos req' (bs_infos s) (bs_positions s) mode fx = (Ok ranked, fx1) ∧
       try_nodes cx req' mode true ranked [] (bs_failed s) fx1 = (Ok (F, G), fx2) ∧
       only_events fx2 fx' ∧ (mode = dryRunFilter → fx' = fx2)).
Proof.
  unfold allocate_candidates, fbind, lift. destruct (preFilterNodeInfos f req nodes state) as [[s req']|e]; [|done].
  destruct (bs_infos s) as [|n infos] eqn:Ei.
  { intros [= <- <- <-]. exists s, req'. split; [done|]. left. by rewrite Ei. }
  destruct (sortNodeInfos _ _ _ _ _) as [[ranked|e] fx1] eqn:Es; [|done].
  destruct (try_nodes _ _ _ _ _ _ _ _) as [[[F1 G1]|e] fx2] eqn:Et; [|done].
  intros Hok. exists s, req'. split; [done|]. right. exists ranked, fx1, fx2. rewrite Ei. split; [done|]. split; [done|].
  simpl in Hok. destruct F1 as [|w F1], mode; simpl in Hok; injection Hok as <- <- <-; by split_and!.
Qed.

Lemma sort_quiet req infos positions mode fx ranked fx' :
  sortNodeInfos req infos positions mode fx = (Ok ranked, fx') → only_events fx fx' ∧ (mode = dryRunFilter → fx' = fx).
Proof.
  unfold sortNodeInfos, fret, fbind. destruct (_ || bool_decide (rq_NodePolicy req = SpreadPolicy)); [by intros [= _ <-]|].
  destruct (_ || isDryRun mode) eqn:Em; simpl; intros [= _ <-]; split; try done.
  intros ->. by rewrite orb_true_r in Em.
Qed.

(** Ranking does not read the effects. *)
Lemma sort_result req infos positions mode fx mode' fx2 :
  (sortNodeInfos req infos positions mode fx).1 = (sortNodeInfos req infos positions mode' fx2).1.
Proof.
  unfold sortNodeInfos, fret, fbind. destruct (_ || bool_decide (rq_NodePolicy req = SpreadPolicy)); [done|].
  by destruct (_ || isDryRun mode), (_ || isDryRun mode').
Qed.

Lemma candidates_verdicts cx req nodes state mode fx F G fx' :
  sizes_ok nodes (gf_maxGoroutines f) → NoDup (n_Name <$> nodes) →
  allocate_candidates f cx req nodes state mode fx = (Ok (F, G), fx') →
  F ⊆ nodes ∧ ∀ nm, is_Some (G !! nm) ↔ nm ∈ n_Name <$> nodes ∧ nm ∉ n_Name <$> F.
Proof.
  intros Hsz Hnd (s & req' & Hpre & Hcase)%candidates_inv.
  destruct (prepared _ _ _ _ _ Hsz Hnd Hpre) as [Hsum _]. destruct (infos_nodes _ _ _ _ Hsum Hnd) as (Hn1 & Hn2 & Hn3 & Hn4).
  destruct Hcase as [(Hi & -> & -> & _)|(ranked & fx1 & fx2 & _ & Hs & Ht & _)].
  - split; [set_solver|]. intros nm. rewrite Hn3, Hi. set_solver.
  - apply sortNodeInfos_perm in Hs. apply try_verdicts in Ht as [(won & -> & Hw) HG]; [|by rewrite Hs|set_solver].
    split.
    + intros node Hin%Hw. apply list_elem_of_fmap in Hin as (n & -> & Hn). rewrite Hs in Hn. by apply Hn2.
    + intros nm. rewrite HG, Hs, Hn3. specialize (Hn4 nm). split; [|naive_solver].
      intros [[r Hr]|?]; [|naive_solver]. split; [right; eauto|]. simpl. intros (node & -> & Hin)%list_elem_of_fmap.
      apply Hw in Hin. apply list_elem_of_fmap in Hin as (n & -> & Hn). rewrite Hs in Hn.
      apply (list_elem_of_fmap_2 rn_name) in Hn. rewrite Hn4 in Hr; [done|exact Hn].
Qed.

Lemma steer_spec nodeName nodes found failed node G :
  NoDup (n_Name <$> nodes) → (∀ w, found = Some w → n_Name w ∉ n_Name <$> nodes) →
  steer_back nodeName nodes found failed = (Some node, G) →
  (found = Some node ∨ found = None ∧ node ∈ nodes) ∧
  ∀ nm, is_Some (G !! nm) ↔ is_Some (failed !! nm) ∨ (nm ∈ n_Name <$> nodes ∧ nm ≠ n_Name node).
Proof.
  revert found failed. induction nodes as [|a nodes IH]; intros found failed Hnd Hnew; simpl.
  { intros [= -> ->]. split; [by left|]. set_solver. }
  apply NoDup_cons in Hnd as [Hna Hnd]. destruct (bool_decide (found = None) && _) eqn:E; intros Hst.
  - apply andb_prop in E as [->%bool_decide_eq_true _]. apply IH in Hst as [[[= ->]|[? _]] HG]; [|done..|].
    + split; [right; split; [done|by left]|]. intros nm. rewrite HG. set_solver.
    + by intros w [= <-].
  - apply IH in Hst as [Hf HG]; [|done|intros w Hw Hin; apply (Hnew w Hw); by right].
    assert (n_Name a ≠ n_Name node) as Hne.
    { destruct Hf as [Hf|[_ Hin]]; intros Heq; [apply (Hnew _ Hf); rewrite <- Heq; by left|].
      apply Hna. rewrite Heq. by apply list_elem_of_fmap_2. }
    split; [destruct Hf as [?|[? ?]]; [by left|right; split; [done|by right]]|]. intros nm. rewrite HG.
    destruct (decide (nm = n_Name a)) as [->|Hnm].
    + rewrite lookup_insert_eq. split; [intros _; right; split; [by left|done]|intros _; left; eauto].
    + rewrite lookup_insert_ne by done. set_solver.
Qed.

Lemma check_request_ok req mode fx r fx1 :
  CheckDeviceRequest req mode fx = (r, fx1) → match r with Ok _ => fx1 = fx | Fail _ => True end.
Proof.
  unfold CheckDeviceRequest, fret, fbind, ferr. destruct (first_invalid _); [|by intros [= <- <-]].
  destruct (isDryRun mode); simpl; by intros [= <- <-].
Qed.

(** The device stage, by what it did. *)
Lemma device_inv cx req nodes state mode fx F G fx' :
  deviceFilter f cx req nodes state mode fx = (Ok (F, G), fx') → nodes ≠ [] →
  (∃ nodeName node, mode = liveFilter ∧ IsScheduled (rq_Pod req) = (nodeName, true) ∧
     ShouldCountPodDeviceAllocation (rq_Pod req) = true ∧ steer_back nodeName nodes None ∅ = (Some node, G) ∧
     F = [node] ∧ fx' = fx) ∨
  (allocate_candidates f cx req nodes state mode fx = (Ok (F, G), fx') ∧
   (mode = liveFilter → (IsScheduled (rq_Pod req)).2 && ShouldCountPodDeviceAllocation (rq_Pod req) = false)).
Proof.
  unfold deviceFilter. intros Hd Hne. rewrite bool_decide_eq_false_2 in Hd by done. unfold fbind in Hd.
  destruct (CheckDeviceRequest req mode fx) as [[u|e] fx1] eqn:Ec; [|done]. apply check_request_ok in Ec as ->.
  destruct mode; [|by right].
  destruct (IsScheduled (rq_Pod req)) as [nodeName b]. destruct (b && _) eqn:Eb.
  - left. apply andb_prop in Eb as [-> Hc]. destruct (steer_back nodeName nodes None ∅) as [[node|] G'] eqn:Es; [|done].
    injection Hd as <- <- <-. by exists nodeName, node.
  - right. destruct (ctx_locked cx); [done|]. by split.
Qed.

(** C5 Every candidate of the device stage gets exactly one verdict: it is kept,
    or it is reported with a reason, in both modes, whatever the completion
    order of the batches; nothing but candidates is kept or reported.  A live
    call keeps one node at most. *)
Theorem deviceFilter_verdicts cx req nodes state mode fx F G fx' :
  sizes_ok nodes (gf_maxGoroutines f) → NoDup (n_Name <$> nodes) →
  deviceFilter f cx req nodes state mode fx = (Ok (F, G), fx') →
  F ⊆ nodes ∧ (∀ nm, is_Some (G !! nm) ↔ nm ∈ n_Name <$> nodes ∧ nm ∉ n_Name <$> F) ∧
  (mode = liveFilter → (length F ≤ 1)%nat).
Proof.
  intros Hsz Hnd Hd. destruct (device_inv _ _ _ _ _ _ _ _ _ Hd) as [(nodeName & node & Hm & _ & _ & Hst & -> & _)|[Hc Hm]];
    [apply Hsz|..].
  - apply steer_spec in Hst as [[?|[_ Hin]] HG]; [done| |done|done]. split_and!; [set_solver| |done].
    intros nm. rewrite HG. simpl. rewrite list_elem_of_singleton, lookup_empty, is_Some_alt. naive_solver.
  - destruct (candidates_verdicts _ _ _ _ _ _ _ _ _ Hsz Hnd Hc) as [HF HG]. split_and!; [done|done|]. intros ->.
    apply candidates_inv in Hc as (s & req' & _ & [(_ & -> & _)|(ranked & fx1 & fx2 & _ & _ & Ht & _)]); [simpl; lia|].
    apply live_nodes in Ht as [-> _]. rewrite length_take. lia.
Qed.

(** The nodes a pass should keep: the candidates in the order of preference,
    and of these exactly the ones the allocator accepts. *)
Definition preview (req : AllocationRequest) (nodes : list Node) (state : CycleState) (fx : effects) (D : list Node) : Prop :=
  ∃ s req' ranked, preFilterNodeInfos f req nodes state = Ok (s, req') ∧ ranked ≡ₚ bs_infos s ∧
    (bs_infos s ≠ [] → (sortNodeInfos req' (bs_infos s) (bs_positions s) dryRunFilter fx).1 = Ok ranked) ∧
    D = node_of <$> filter (accepted req') ranked.

End stage.

(** ** Independence of the goroutines *)
Section schedule.
Context `{Env} `{MapOrder} `{NodeDecoders} `{KubeLib} `{EndpointLib} `{ApiServer}.

Lemma by_node_name_perm infos infos' :
  infos ≡ₚ infos' → NoDup (rn_name <$> infos) → by_node_name infos = by_node_name infos'.
Proof.
  intros Hp Hnd. unfold by_node_name.
  assert (∀ l m, fold_left (λ m n, <[rn_name n := rn_NodeInfo n]> m) l m
    = (list_to_map (reverse ((λ n, (rn_name n, rn_NodeInfo n)) <$> l)) : gmap string NodeInfo) ∪ m) as Hfold.
  { induction l as [|n l IH]; intros m; simpl; [by rewrite map_empty_union|]. rewrite IH, reverse_cons, list_to_map_app.
    simpl. rewrite insert_empty, <- map_union_assoc. by rewrite <- insert_union_singleton_l. }
  rewrite !Hfold, !map_union_empty. apply list_to_map_proper; [|by rewrite !reverse_Permutation, Hp].
  by rewrite fmap_reverse, reverse_Permutation, <- list_fmap_compose.
Qed.

Lemma summaries_agree build l s s' :
  summarises build l s → summarises build l s' →
  bs_infos s ≡ₚ bs_infos s' ∧ bs_failed s = bs_failed s' ∧ bs_positions s = bs_positions s'.
Proof.
  intros [Hi Hf Hp _] [Hi' Hf' Hp' _]. split_and!.
  - by rewrite Hi, Hi'.
  - apply map_eq. intros nm. apply option_eq. intros r. by rewrite Hf, Hf'.
  - apply map_eq. intros nm. apply option_eq. intros i. by rewrite Hp, Hp'.
Qed.

Lemma run_batches_agree (g1 g2 : Goroutines) build nodes maxGoroutines :
  match @run_batches g1 build nodes maxGoroutines, @run_batches g2 build nodes maxGoroutines with
  | Ok _, Ok _ => True | Fail e, Fail e' => e = e' | _, _ => False
  end.
Proof. unfold run_batches. destruct (BalanceBatches _ _); [|done]. by destruct (rmap _ _). Qed.

Lemma built_score req topo pods state node n req' :
  build_candidate req topo pods state node = Fits n → cachedNodeScore n req' = cachedNodeScore n req.
Proof.
  unfold build_candidate. destruct (NewNodeInfo _ _) as [info|[c|]]; [|done..].
  destruct (nodeCapacityGate _ _); [done|]. by intros [= <-].
Qed.

Lemma indexed_entry nodes i node : (i, node) ∈ indexed nodes → ∃ j, i = Z.of_nat j ∧ nodes !! j = Some node.
Proof. intros (j & ? & [= -> ->] & Hj)%elem_of_lookup_imap. eauto. Qed.

Section agree.
Context (f : gpuFilter) (req : AllocationRequest) (nodes : list Node) (state : CycleState).
Context (Hnd : NoDup (n_Name <$> nodes))
  (Hnan : ∀ node n, node ∈ nodes → builder f req state node = Fits n → not_nan (cachedNodeScore n req)).

Lemma sort_agree s1 s2 req' mode fx :
  summarises (builder f req state) (indexed nodes) s1 → summarises (builder f req state) (indexed nodes) s2 →
  sortNodeInfos req' (bs_infos s1) (bs_positions s1) mode fx = sortNodeInfos req' (bs_infos s2) (bs_positions s2) mode fx.
Proof.
  intros E1 E2. destruct (summaries_agree _ _ _ _ E1 E2) as (Hi & _ & Hp).
  destruct (infos_nodes _ _ _ _ _ E1 Hnd) as (Hn1 & Hn2 & _ & _). rewrite <- Hp. apply ranked_unique; [done|done| | |].
  - intros n Hn. rewrite (sm_infos _ _ _ E1) in Hn. apply list_elem_of_omap in Hn as (node & Hin & Hfit).
    unfold fits_of in Hfit. destruct (builder f req state node) as [n'|r|] eqn:Eb; [|done..]. injection Hfit as ->.
    rewrite (built_score _ _ _ _ _ _ _ Eb). eapply Hnan; [|exact Eb].
    apply list_elem_of_fmap in Hin as ([i node'] & -> & (j & _ & Hj)%indexed_entry). by eapply list_elem_of_lookup_2.
  - intros n n' i _ _ Hpi Hpi'. apply (sm_positions _ _ _ E1) in Hpi as (a & Ha & <-), Hpi' as (b & Hb & <-).
    apply indexed_entry in Ha as (j & -> & Hj), Hb as (j' & Hjj & Hj'). apply Nat2Z.inj in Hjj. subst j'. congruence.
  - intros n Hn. pose proof (Hn2 n Hn) as Hnode. apply list_elem_of_lookup in Hnode as [i Hl].
    exists (Z.of_nat i). apply (sm_positions _ _ _ E1). exists (node_of n). split; [|done]. apply elem_of_lookup_imap. eauto.
Qed.

Lemma prefilter_agree (g1 g2 : Goroutines) :
  sizes_ok nodes (gf_maxGoroutines f) →
  match @preFilterNodeInfos _ _ _ g1 f req nodes state, @preFilterNodeInfos _ _ _ g2 f req nodes state with
  | Ok (s1, r1), Ok (s2, r2) => r1 = r2 ∧ summarises (builder f req state) (indexed nodes) s1 ∧
                                summarises (builder f req state) (indexed nodes) s2
  | Fail e, Fail e' => e = e'
  | _, _ => False
  end.
Proof.
  intros Hsz. unfold preFilterNodeInfos. fold (builder f req state).
  pose proof (run_batches_agree g1 g2 (builder f req state) nodes (gf_maxGoroutines f)) as Hag.
  destruct (@run_batches g1 _ _ _) as [s1|e1] eqn:E1, (@run_batches g2 _ _ _) as [s2|e2] eqn:E2; [|done|done|by subst].
  apply run_batches_summary in E1, E2; [|done..]. destruct (summaries_agree _ _ _ _ E1 E2) as (Hi & _ & _).
  destruct (infos_nodes _ _ _ _ _ E1 Hnd) as (Hn1 & _). cbn [rbind]. rewrite <- (by_node_name_perm _ _ Hi Hn1).
  assert (bool_decide (bs_infos s1 = []) = bool_decide (bs_infos s2 = [])) as <-.
  { apply bool_decide_ext. split; intros E; rewrite E in Hi; [by apply Permutation_nil_l in Hi|by apply Permutation_nil_r in Hi]. }
  destruct (_ || _); [done|]. by destruct (FindGangSiblingDomain _ _ _ _).
Qed.

Lemma candidates_agree (g1 g2 : Goroutines) cx mode fx :
  sizes_ok nodes (gf_maxGoroutines f) →
  @allocate_candidates _ _ _ _ g1 f cx req nodes state mode fx = @allocate_candidates _ _ _ _ g2 f cx req nodes state mode fx.
Proof.
  intros Hsz. unfold allocate_candidates, fbind, lift. pose proof (prefilter_agree g1 g2 Hsz) as Hag.
  destruct (@preFilterNodeInfos _ _ _ g1 f req nodes state) as [[s1 r1]|e1],
    (@preFilterNodeInfos _ _ _ g2 f req nodes state) as [[s2 r2]|e2]; [|done|done|by subst].
  destruct Hag as (<- & E1 & E2). destruct (summaries_agree _ _ _ _ E1 E2) as (Hi & Hf & _).
  pose proof (sort_agree s1 s2 r1 mode fx E1 E2) as Hsort. rewrite Hf.
  destruct (bs_infos s1) as [|n1 l1], (bs_infos s2) as [|n2 l2]; [done| | |by rewrite Hsort].
  - by apply Permutation_nil_l in Hi.
  - by apply Permutation_nil_r in Hi.
Qed.
End agree.

(** C7 The outcome of the device stage — nodes, reasons, errors and effects —
    does not depend on the order in which the goroutines finish, provided no
    ranking score is NaN. *)
Theorem deviceFilter_schedule_independent (g1 g2 : Goroutines) f cx req nodes state mode fx :
  sizes_ok nodes (gf_maxGoroutines f) → NoDup (n_Name <$> nodes) →
  (∀ node n, node ∈ nodes → builder f req state node = Fits n → not_nan (cachedNodeScore n req)) →
  @deviceFilter _ _ _ _ g1 f cx req nodes state mode fx = @deviceFilter _ _ _ _ g2 f cx req nodes state mode fx.
Proof.
  intros Hsz Hnd Hnan. unfold deviceFilter. case_bool_decide; [done|]. unfold fbind.
  destruct (CheckDeviceRequest req mode fx) as [[u|e] fx1]; [|done].
  destruct mode; [|by apply candidates_agree]. destruct (IsScheduled (rq_Pod req)) as [nn b]. destruct (_ && _); [done|].
  destruct (ctx_locked cx); [done|by apply candidates_agree].
Qed.
End schedule.
