(* ===== verification/Bind.v ===== *)
(** * Binding ([pkg/scheduler/bind/bind_predicate.go])

    The extender's bind verb: it re-reads the pod, checks that its
    pre-allocation is on this node and still current, marks it as allocating
    and binds it.  [BindApi] is the rest of the API server: reading a pod
    (which may answer with an object even when it fails) and the binding
    subresource.  The lock that serialises the calls per node, log lines and
    metrics are not modelled; the metric outcome is. *)

From stdpp Require Import base list gmap strings.
From Stdlib Require Import ZArith.
From S2P Require Import Prelude GoMap GoStrings GoFmt GoTime Kube Claims Device Footprint NodeInfo Accounting Client.

Open Scope Z_scope.

Record ExtenderBindingArgs := {
  ba_PodName : string;
  ba_PodNamespace : string;
  ba_PodUID : string;
  ba_Node : string
}.

Class BindApi : Type := {
  get_pod : string → string → result (option Pod * string) Pod;
  bind_pod : ExtenderBindingArgs → option string
}.

Inductive BindEvent := BindingFailed (msg : string) | BindingSucceed (pod node : string).

Inductive bind_outcome :=
| BindSuccess | BindNoNode | BindPodNotFound | BindUIDMismatch | BindNodeMismatch | BindPreAllocExpired
| BindPatchFailed | BindFailed.

(** The error the verb answers with; a patch error is wrapped. *)
Inductive bind_error := BindText (msg : string) | BindPatchErr (e : patch_error).

(** The error (none on success), the outcome, the events, the pod put
    into the pod cache, and whether the binding was requested. *)
Record bind_result := {
  br_outcome : bind_outcome;
  br_Error : option bind_error;
  br_events : list BindEvent;
  br_cache : option Pod;
  br_bound : bool
}.

Section bind.
Context `{Env} `{ApiServer} `{BindApi}.

(** The pod after an attempt to mark its allocation failed. *)
Definition mark_failed (pod : Pod) : Pod :=
  match PatchPodAllocationFailed pod with Ok pod' => pod' | Fail _ => pod end.

Definition refuse (outcome : bind_outcome) (err : bind_error) (events : list BindEvent) (pod : option Pod) : bind_result :=
  {| br_outcome := outcome; br_Error := Some err; br_events := events; br_cache := pod; br_bound := false |}.

(** The checks of a vGPU pod; [Some] ends the call. *)
Definition check_binding (args : ExtenderBindingArgs) (pod : Pod) : option bind_result :=
  if negb (IsVGPUResourcePod pod) then None
  else
    let nodeName := annotation pod PodPredicateNodeAnnotation in
    let mode := (PodVGPUAccessMode pod).1 in
    if bool_decide (nodeName = "") || (bool_decide (mode = AccessModeLocal) && bool_decide (nodeName ≠ ba_Node args)) then
      let msg := "predicate node " +:+ Quote nodeName +:+ " does not match the bound node " +:+ Quote (ba_Node args) in
      Some (refuse BindNodeMismatch (BindText msg) [BindingFailed msg] (Some (mark_failed pod)))
    else if negb (ShouldCountPodDeviceAllocation pod) then
      let msg := "device pre allocation check failed, unable to bind to node " +:+ Quote nodeName in
      Some (refuse BindPreAllocExpired (BindText msg) [BindingFailed msg] (Some (mark_failed pod)))
    else None.

Definition Bind (args : ExtenderBindingArgs) : bind_result :=
  if bool_decide (ba_Node args = "") then refuse BindNoNode (BindText "ExtenderBindingArgs.Node cannot be empty") [] None
  else
    match get_pod (ba_PodNamespace args) (ba_PodName args) with
    | Fail (pod, err) => refuse BindPodNotFound (BindText err) [] pod
    | Ok pod =>
        if bool_decide (p_UID pod ≠ ba_PodUID args)
        then refuse BindUIDMismatch (BindText ("different uid " +:+ Quote (ba_PodUID args) +:+ " from the target pod")) [] (Some pod)
        else
          match check_binding args pod with
          | Some r => r
          | None =>
              match PatchPodAllocationAllocating pod with
              | Fail e => refuse BindPatchFailed (BindPatchErr e) [] (Some pod)
              | Ok pod =>
                  match bind_pod args with
                  | Some err =>
                      {| br_outcome := BindFailed; br_Error := Some (BindText err); br_events := [BindingFailed err];
                         br_cache := Some (mark_failed pod); br_bound := true |}
                  | None =>
                      {| br_outcome := BindSuccess; br_Error := None;
                         br_events := [BindingSucceed (p_Namespace pod +:+ "/" +:+ p_Name pod) (ba_Node args)];
                         br_cache := Some pod; br_bound := true |}
                  end
              end
          end
    end.

Lemma check_binding_pass args pod :
  check_binding args pod = None → IsVGPUResourcePod pod = true →
  annotation pod PodPredicateNodeAnnotation ≠ "" ∧
  ((PodVGPUAccessMode pod).1 = AccessModeLocal → annotation pod PodPredicateNodeAnnotation = ba_Node args) ∧
  ShouldCountPodDeviceAllocation pod = true.
Proof.
  unfold check_binding. intros Hc Hv. rewrite Hv in Hc. cbn [negb] in Hc. destruct (_ || _) eqn:E; [done|].
  apply orb_false_iff in E as [Hn Hm]. apply bool_decide_eq_false in Hn.
  destruct (ShouldCountPodDeviceAllocation pod); [|done]. split_and!; [done| |done]. intros Hl.
  rewrite Hl, bool_decide_eq_true_2 in Hm by done. simpl in Hm. apply bool_decide_eq_false in Hm.
  by destruct (decide (annotation pod PodPredicateNodeAnnotation = ba_Node args)).
Qed.

(** A pod marked failed: once the mark is recorded, a vGPU pod that is not
    bound does not count at any time. *)
Definition releases (pod : Pod) (cached : option Pod) : Prop :=
  cached = Some (mark_failed pod) ∧
  ∀ pod' t, IsVGPUResourcePod pod = true → PatchPodAllocationFailed pod = Ok pod' → p_NodeName pod' = "" →
    mark_failed pod = pod' ∧ @ShouldCountPodDeviceAllocation (at_time _ t) pod' = false.

Lemma mark_failed_releases pod : releases pod (Some (mark_failed pod)).
Proof. split; [done|]. intros pod' t Hv Hp Hn. split; [unfold mark_failed; by rewrite Hp|by eapply failed_releases]. Qed.

(** C8 The bind verb, on every outcome.  A binding is requested only for the
    pod that carries the given uid, and for a vGPU pod only while its
    pre-allocation counts and, unless its GPUs are remote, on the node that
    was pre-allocated; it succeeds only when the API server binds.  After a
    node mismatch, an expired pre-allocation or a failed binding the pod is
    marked failed, which releases the devices of a vGPU pod that is not bound,
    as soon as the mark is recorded.  Any other refusal leaves the pod as it
    was read. *)
Theorem Bind_checked args r :
  Bind args = r →
  (br_Error r = None ↔ br_outcome r = BindSuccess) ∧
  (br_bound r = true ↔ br_outcome r = BindSuccess ∨ br_outcome r = BindFailed) ∧
  (br_bound r = true → ∃ pod, get_pod (ba_PodNamespace args) (ba_PodName args) = Ok pod ∧ p_UID pod = ba_PodUID args ∧
     (IsVGPUResourcePod pod = true →
        annotation pod PodPredicateNodeAnnotation ≠ "" ∧
        ((PodVGPUAccessMode pod).1 = AccessModeLocal → annotation pod PodPredicateNodeAnnotation = ba_Node args) ∧
        ShouldCountPodDeviceAllocation pod = true)) ∧
  match br_outcome r with
  | BindSuccess => bind_pod args = None
  | BindNodeMismatch | BindPreAllocExpired => ∃ pod, get_pod (ba_PodNamespace args) (ba_PodName args) = Ok pod ∧ releases pod (br_cache r)
  | BindFailed => ∃ pod pod1, get_pod (ba_PodNamespace args) (ba_PodName args) = Ok pod ∧
      PatchPodAllocationAllocating pod = Ok pod1 ∧ releases pod1 (br_cache r)
  | BindNoNode => br_cache r = None
  | BindPodNotFound => ∃ err, get_pod (ba_PodNamespace args) (ba_PodName args) = Fail (br_cache r, err)
  | BindUIDMismatch | BindPatchFailed => ∃ pod, get_pod (ba_PodNamespace args) (ba_PodName args) = Ok pod ∧ br_cache r = Some pod
  end.
Proof.
  intros <-. unfold Bind. case_bool_decide; [by split_and!; naive_solver|].
  destruct (get_pod _ _) as [pod|[pod err]] eqn:Eg; [|split_and!; naive_solver].
  case_bool_decide as Hu; [split_and!; naive_solver|].
  destruct (check_binding args pod) as [r|] eqn:Ec.
  - assert (∃ msg out, r = refuse out (BindText msg) [BindingFailed msg] (Some (mark_failed pod)) ∧ (out = BindNodeMismatch ∨ out = BindPreAllocExpired))
      as (msg & out & -> & Hout).
    { unfold check_binding in Ec. destruct (IsVGPUResourcePod pod); [|done]. cbn [negb] in Ec.
      destruct (_ || _); [injection Ec as <-; eauto|]. destruct (negb _); [injection Ec as <-; eauto|done]. }
    pose proof (mark_failed_releases pod). destruct Hout as [-> | ->]; split_and!; naive_solver.
  - destruct (PatchPodAllocationAllocating pod) as [pod1|e] eqn:Ea; [|split_and!; naive_solver].
    pose proof (check_binding_pass args pod Ec). pose proof (mark_failed_releases pod1).
    destruct (bind_pod args) as [err|] eqn:Eb; split_and!; naive_solver.
Qed.
End bind.
