(* ===== verification/Commit.v ===== *)
(** * What a filter call commits

    A live filter call puts at most one pod into the pod cache: the pod as the
    API server answered the patch of what the allocator wrote.  This file
    accounts for that pod ([commit_accounted]) and shows that every path
    through the device stage adds such a pod or none. *)

From stdpp Require Import base list gmap strings.
From Stdlib Require Import ZArith Lia.
From S2P Require Import Prelude GoMap GoSort GoStrings Float64 GoFmt GoTime Kube Claims Reason Links Topology Device.
From S2P Require Import Footprint NodeInfo Accounting Affinity Request Scoring SubsetSearch Numa Tiered TieredSpec.
From S2P Require Import Endpoint RemoteGpu.
From S2P Require Import Allocator AllocatorSpec Placement NodeBuild EndToEnd DryRun NodeCheck Gate Client Batch Filter.
From S2P Require Import FilterSpec Bind.

Open Scope Z_scope.

(** A metadata patch leaves the pod's identity, its binding and its
    containers alone. *)
Record keeps_spec (pod pod' : Pod) : Prop := {
  ks_uid : p_UID pod' = p_UID pod;
  ks_node : p_NodeName pod' = p_NodeName pod;
  ks_init : p_InitContainers pod' = p_InitContainers pod;
  ks_app : p_Containers pod' = p_Containers pod
}.

Definition api_keeps_spec `{ApiServer} : Prop :=
  ∀ pod patch pod', patch_pod pod patch = Ok pod' → keeps_spec pod pod'.

(** ** Reservations depend on the claims and the init containers only *)

Lemma reserve_init x pod pod' claims u :
  p_InitContainers pod' = p_InitContainers pod → reserve x pod' claims u = reserve x pod claims u.
Proof.
  intros Hi. unfold reserve.
  assert (∀ c, is_sidecar pod' c ↔ is_sidecar pod c) as H1 by (intros c; unfold is_sidecar, is_sequential, sequentialInit_names, sidecar_names; by rewrite Hi).
  assert (∀ c, is_regular pod' c ↔ is_regular pod c) as H2 by (intros c; unfold is_regular, is_sequential, sequentialInit_names, sidecar_names; by rewrite Hi).
  assert (∀ c, is_sequential pod' c ↔ is_sequential pod c) as H3 by (intros c; unfold is_sequential, sequentialInit_names; by rewrite Hi).
  by rewrite (list_filter_iff _ _ _ H1), (list_filter_iff _ _ _ H2), (list_filter_iff _ _ _ H3).
Qed.

Lemma reserve_zero x pod claims u :
  Forall (λ c, container_on x u c = 0) claims → reserve x pod claims u = 0.
Proof.
  intros Hz. unfold reserve.
  assert (∀ l, Forall (λ c, container_on x u c = 0) l → Zsum (container_on x u <$> l) = 0) as Hs.
  { induction 1 as [|c l Hc _ IH]; [done|]. rewrite fmap_cons, Zsum_cons. lia. }
  rewrite !Hs by by apply Forall_filter.
  assert (Zmax0 (container_on x u <$> filter (is_sequential pod) claims) ≤ 0); [|pose proof (Zmax0_nonneg (container_on x u <$> filter (is_sequential pod) claims)); lia].
  apply Zmax0_le; [done|]. intros z (c & -> & [_ Hc]%list_elem_of_filter)%list_elem_of_fmap. rewrite Forall_forall in Hz. by rewrite Hz.
Qed.

(** ** One commit *)
Section commit.
Context `{Env} `{MapOrder} `{NodeDecoders} `{ApiServer}.
Context (node : Node) (opts : NodeInfoOption) (infos : list DeviceInfo) (n : NodeInfo) (req : AllocationRequest).
Context (Hinfos : device_infos node opts = Some infos) (Hreg : registry_ok infos)
  (Hopt1 : no_resetPods opts = false) (Hopt2 : no_resetUsed opts = false) (Hpods : pods_ok (built_pods node opts))
  (Hnew : NewNodeInfo node opts = Ok n) (Hbuilt : built req) (Hnames : distinct_names (rq_Pod req))
  (Hlim : limits_ok n (rq_Pod req)) (Henc : encodable n (rq_Pod req)) (Hunbound : p_NodeName (rq_Pod req) = "").
Context (cfg : alloc_config) (s s' : alloc_state) (newPod patched : Pod).
Context (Hs : as_node s = n) (Halloc : Allocate cfg req s = (Done newPod, s'))
  (Hpatch : PatchPodPreAllocatedMetadata newPod = Ok patched) (Hkeep : keeps_spec newPod patched).

Lemma commit_fresh : fresh_node infos (built_pods node opts) n ∧ sound_node n.
Proof.
  pose proof (newnode_fresh _ _ _ _ Hinfos Hreg Hopt1 Hopt2 Hpods Hnew) as Hf. split; [done|]. by eapply fresh_sound.
Qed.

Lemma commit_claims : ∃ claims, well_placed n req claims ∧ GetPodDeviceClaim patched = claims ∧
  p_InitContainers patched = p_InitContainers (rq_Pod req).
Proof.
  destruct commit_fresh as [_ Hsn]. rewrite <- Hs in Hsn, Hlim.
  destruct (allocate_placed cfg req s newPod s' Hbuilt Hnames Hsn Hlim Halloc) as (claims & _ & Hp & Heq).
  rewrite Hs in Hsn, Hlim, Hp. exists claims. split; [done|].
  assert (annotation newPod PodVGPUPreAllocAnnotation = PodDeviceClaim_MarshalText claims) as Hpre.
  { rewrite Heq, annotation_insert_ne by by apply key_ne. apply annotation_insert. }
  destruct (preallocated _ _ Hpatch) as (_ & _ & Ha & Hr & _). split.
  - unfold GetPodDeviceClaim. rewrite Ha, Hr, Hpre, (read_claims claims) by by eapply claims_encodable.
    simpl. case_bool_decide as Hl; [|done]. by destruct claims; [|simpl in Hl; lia].
  - rewrite (ks_init _ _ Hkeep), Heq. done.
Qed.

Lemma commit_plan : PodPlanSchedulingNode patched = n_Name node ∧ p_UID patched = p_UID (rq_Pod req).
Proof.
  destruct (allocate_node _ _ _ _ _ Halloc) as [Hn Hu]. destruct (preallocated _ _ Hpatch) as (_ & Ha & _).
  rewrite (ks_uid _ _ Hkeep), Hu. split; [|done]. unfold PodPlanSchedulingNode.
  assert (p_NodeName patched = "") as ->.
  { rewrite (ks_node _ _ Hkeep). unfold Allocate in Halloc. apply bind_done in Halloc as (u & s1 & _ & Hd).
    apply bind_done in Hd as (claims & s2 & _ & Hd). apply bind_done in Hd as (n2 & s3 & E & Hd). injection Hd as <- <-. done. }
  simpl. rewrite Ha, Hn, Hs. unfold GetName. by rewrite (NewNodeInfo_node _ _ _ Hnew).
Qed.

(** What the committed pod adds, GPU by GPU. *)
Lemma commit_accounted :
  pod_claims_ok patched ∧
  (∀ info x, info ∈ infos →
     pods_reserve x (di_Uuid info) (built_pods node opts) + reserve x patched (GetPodDeviceClaim patched) (di_Uuid info)
     ≤ Z.max (pods_reserve x (di_Uuid info) (built_pods node opts)) (total x (NewDevice info))) ∧
  (∀ x u, (∀ info, info ∈ infos → di_Uuid info ≠ u) → reserve x patched (GetPodDeviceClaim patched) u = 0).
Proof.
  unfold pod_claims_ok. destruct commit_fresh as [Hf Hsn]. destruct commit_claims as (claims & Hp & -> & Hi).
  pose proof (claims_are_bounded n req claims Hbuilt Hsn Hlim Henc Hp) as Hbd. split_and!.
  - done.
  - intros claim Hc Hseq. unfold podHasVGPUInitContainer. rewrite Hi.
    apply (claims_init_vgpu n req claims Hbuilt Hnames Hsn Hlim Hp claim Hc).
    unfold is_sequential, sequentialInit_names in *. by rewrite Hi in Hseq.
  - intros info x Hin. destruct (fn_devices _ _ _ Hf info Hin) as (d & Hd & Hc & Hu). destruct Hp as [_ Hfit].
    destruct (Hfit _ _ x Hd) as [_ Hle]. rewrite (reserve_init _ _ _ _ _ Hi), <- Hu.
    rewrite <- (same_card_total x _ _ Hc). apply same_card_fields in Hc as (_ & Hdu & _). simpl in Hdu. by rewrite <- Hdu.
  - intros x u Hnone. apply reserve_zero, Forall_forall. intros claim Hc.
    destruct (claim_of_need n req claims Hbuilt Hsn Hlim Hp claim Hc) as (need & _ & Hnn & Hpl).
    pose proof (placed_like_claims n req need claim (sn_ok n Hsn) Hnn Hpl) as Hall. unfold container_on, claims_on.
    rewrite filter_none; [done|]. eapply Forall_impl; [exact Hall|]. intros c (id & d & Hd & _ & Hdu & _) Hcu.
    destruct (fn_only _ _ _ Hf _ _ Hd) as (info & Hin & Hid). apply (Hnone info Hin).
    destruct (fn_devices _ _ _ Hf info Hin) as (d' & Hd' & Hc' & _). rewrite Hid in Hd'. simplify_eq.
    apply same_card_fields in Hc' as (_ & Hdu' & _). simpl in Hdu'. congruence.
Qed.
End commit.

(** ** What a filter call puts into the pod cache *)

Definition quiet {A} (m : F A) : Prop := ∀ fx, fx_cache (m fx).2 = fx_cache fx.

(** At most one pod, of which [P] holds. *)
Definition caches {A} (P : Pod → Prop) (m : F A) : Prop :=
  ∀ fx, fx_cache (m fx).2 = fx_cache fx ∨ ∃ pod, P pod ∧ fx_cache (m fx).2 = fx_cache fx ++ [pod].

Lemma quiet_ret {A} (a : A) : quiet (fret a).
Proof. done. Qed.
Lemma quiet_err {A} e : quiet (@ferr A e).
Proof. done. Qed.
Lemma quiet_lift {A} (r : result filter_error A) : quiet (lift r).
Proof. done. Qed.
Lemma quiet_emit evs : quiet (emit evs).
Proof. done. Qed.
Lemma quiet_sent pod : quiet (sent pod).
Proof. done. Qed.
Lemma quiet_placement o : quiet (recordPlacement o).
Proof. done. Qed.

Lemma quiet_bind {A B} (m : F A) (k : A → F B) : quiet m → (∀ a, quiet (k a)) → quiet (fbind m k).
Proof.
  intros Hm Hk fx. unfold fbind. specialize (Hm fx). destruct (m fx) as [[a|e] fx1]; simpl in *; [|done].
  by rewrite <- Hm, <- (Hk a fx1).
Qed.

Lemma caches_quiet {A} P (m : F A) : quiet m → caches P m.
Proof. intros Hm fx. left. apply Hm. Qed.

Lemma caches_after {A B} P (m : F A) (k : A → F B) : quiet m → (∀ a, caches P (k a)) → caches P (fbind m k).
Proof.
  intros Hm Hk fx. unfold fbind. specialize (Hm fx). destruct (m fx) as [[a|e] fx1]; simpl in *; [|by left].
  rewrite <- Hm. apply Hk.
Qed.

Lemma caches_before {A B} P (m : F A) (k : A → F B) : caches P m → (∀ a, quiet (k a)) → caches P (fbind m k).
Proof.
  intros Hm Hk fx. unfold fbind. specialize (Hm fx). destruct (m fx) as [[a|e] fx1]; simpl in *; [|done].
  by rewrite (Hk a fx1).
Qed.

Lemma caches_seq {A B} P (m : F A) (k : A → F B) :
  quiet m → (∀ fx a fx', m fx = (Ok a, fx') → caches P (k a)) → caches P (fbind m k).
Proof.
  intros Hm Hk fx. unfold fbind. specialize (Hm fx). destruct (m fx) as [[a|e] fx1] eqn:E; simpl in *; [|by left].
  rewrite <- Hm. by eapply Hk.
Qed.

Lemma caches_impl {A} (P Q : Pod → Prop) (m : F A) : (∀ pod, P pod → Q pod) → caches P m → caches Q m.
Proof. intros HPQ Hm fx. destruct (Hm fx) as [?|(pod & Hp & ?)]; [by left|right; eauto]. Qed.

Create HintDb effects.
#[export] Hint Resolve quiet_ret quiet_err quiet_lift quiet_emit quiet_sent quiet_placement quiet_bind caches_quiet : effects.

Section caching.
Context `{Env} `{MapOrder} `{NodeDecoders} `{KubeLib} `{EndpointLib} `{ApiServer} `{Goroutines}.

(** The allocator accepted the node and its pod was written. *)
Definition written (req : AllocationRequest) (info : RankedNode) (patched : Pod) : Prop :=
  ∃ cfg newPod s', Allocate cfg req (fresh req info) = (Done newPod, s') ∧ PatchPodPreAllocatedMetadata newPod = Ok patched.

Lemma attempt_caches cx req mode recorder info : caches (written req info) (attempt cx req mode recorder info).
Proof.
  unfold attempt. fold (fresh req info). destruct (Allocate _ req (fresh req info)) as [out t] eqn:Ea.
  apply caches_after; [auto with effects|]. intros _. destruct out as [newPod|r|e]; [|auto with effects..].
  destruct (isDryRun mode); [auto with effects|]. destruct (ctx_before_patch _ _); [auto with effects|].
  apply caches_after; [auto with effects|]. intros _.
  destruct (PatchPodPreAllocatedMetadata newPod) as [patched|e] eqn:Ep; [|auto with effects].
  apply caches_before; [|intros; apply quiet_bind; auto with effects].
  intros fx. right. exists patched. split; [|done]. by eexists _, _, _.
Qed.

Lemma attempt_fails cx req mode recorder info fx e fx' :
  attempt cx req mode recorder info fx = (Fail e, fx') → fx_cache fx' = fx_cache fx.
Proof.
  unfold attempt. destruct (Allocate _ _ _) as [out t]. unfold fbind, emit, sent, Mutation, recordPlacement, ferr, fret.
  destruct out as [newPod|r|e']; [|done|by intros [= _ <-]]. destruct (isDryRun mode); [done|].
  destruct (ctx_before_patch _ _); [by intros [= _ <-]|]. destruct (PatchPodPreAllocatedMetadata newPod); [done|]. by intros [= _ <-].
Qed.

Lemma refused_quiet cx req recorder info fx r fx' :
  attempt cx req liveFilter recorder info fx = (Ok (Some r), fx') → fx_cache fx' = fx_cache fx.
Proof. intros Ha. apply live_attempt in Ha as [_ (_ & ? & _)]. done. Qed.

Lemma live_caches cx req recorder infos failed :
  caches (λ pod, ∃ info, info ∈ infos ∧ written req info pod) (try_nodes cx req liveFilter recorder infos [] failed).
Proof.
  revert recorder failed. induction infos as [|info infos IH]; intros recorder failed; simpl; [auto with effects|].
  intros fx. unfold fbind. pose proof (attempt_caches cx req liveFilter recorder info fx) as Hc.
  destruct (attempt _ _ _ _ info fx) as [[[r|]|e] fx1] eqn:Ea.
  - rewrite <- (refused_quiet _ _ _ _ _ _ _ Ea). destruct (IH false (<[n_Name (ni_node (rn_NodeInfo info)) := r]> failed) fx1)
      as [?|(pod & (i & Hi & Hw) & ?)]; [by left|]. right. exists pod. split; [|done]. exists i. split; [by right|done].
  - simpl app. destruct (try_nodes _ _ _ _ _ _ _ fx1) as [r2 fx2] eqn:Et. apply live_skip in Et as [-> _]. simpl in *.
    destruct Hc as [?|(pod & Hw & ?)]; [by left|]. right. exists pod. split; [|done]. exists info. split; [by left|done].
  - left. simpl. by eapply attempt_fails.
Qed.

Lemma dry_quiet cx req recorder infos filtered failed : quiet (try_nodes cx req dryRunFilter recorder infos filtered failed).
Proof.
  intros fx. destruct (try_nodes _ _ _ _ _ _ _ fx) as [r fx'] eqn:Et. by apply dry_nodes in Et as [-> _].
Qed.

Lemma quiet_sort req infos positions mode : quiet (sortNodeInfos req infos positions mode).
Proof. unfold sortNodeInfos. destruct (_ || _); [auto with effects|]. apply quiet_bind; [|auto with effects]. destruct (_ || _); auto with effects. Qed.

(** ** The candidates a batch run keeps *)

Lemma run_indices_fits build nodes s idx s' info :
  run_indices build nodes s idx = Ok s' → info ∈ bs_infos s' →
  info ∈ bs_infos s ∨ ∃ node, node ∈ nodes ∧ build node = Fits info.
Proof.
  revert s. induction idx as [|i idx IH]; intros s Hr Hin; simpl in Hr; [injection Hr as <-; by left|].
  destruct (batch_step build nodes s i) as [s1|e] eqn:Es; [|done]. cbn [rbind] in Hr.
  destruct (IH _ Hr Hin) as [Hi|?]; [|by right]. unfold batch_step in Es.
  destruct (nodes !! Z.to_nat i) as [node|] eqn:En; [|done]. destruct (build node) as [n|r|] eqn:Eb; [| |done].
  - injection Es as <-. simpl in Hi. apply elem_of_app in Hi as [?| ->%list_elem_of_singleton]; [by left|].
    right. exists node. split; [by eapply list_elem_of_lookup_2|done].
  - injection Es as <-. by left.
Qed.

Lemma merged_infos outs s info :
  info ∈ bs_infos (fold_left merge_batch outs s) → info ∈ bs_infos s ∨ ∃ out, out ∈ outs ∧ info ∈ bs_infos out.
Proof.
  revert s. induction outs as [|out outs IH]; intros s Hin; simpl in *; [by left|].
  destruct (IH _ Hin) as [[?|?]%elem_of_app|(o & ? & ?)]; [by left|right; exists out; split; [by left|done]|].
  right. exists o. split; [by right|done].
Qed.

Lemma run_batches_fits build nodes maxGoroutines s info :
  run_batches build nodes maxGoroutines = Ok s → info ∈ bs_infos s → ∃ node, node ∈ nodes ∧ build node = Fits info.
Proof.
  unfold run_batches. destruct (BalanceBatches _ _) as [bs|]; [|done]. destruct (rmap _ bs) as [outs|e] eqn:E; [|done].
  cbn [rbind]. intros [= <-] [Hi|(out & Ho & Hi)]%merged_infos; [by apply elem_of_nil in Hi|].
  rewrite completion_perm in Ho. apply rmap_inv in E. destruct (Forall2_elem_of_r _ _ _ _ E Ho) as (b & _ & Hb).
  destruct (run_indices_fits _ _ _ _ _ _ Hb Hi) as [Hn|?]; [by apply elem_of_nil in Hn|done].
Qed.

(** ** The device stage *)

(** The node is the one the cache holds under its name. *)
Definition known (f : gpuFilter) (node : Node) : Prop := gf_nodes f !! n_Name node = Some node.

(** [patched] is what a call for [pod] committed: the allocator's choice on a
    known node, built from the pod cache without the pod itself. *)
Definition commits (f : gpuFilter) (pod : Pod) (state : CycleState) (patched : Pod) : Prop :=
  ∃ req req' topo node info,
    rq_Pod req = pod ∧ rq_Pod req' = pod ∧ built req' ∧ known f node ∧
    NewNodeInfo node (candidate_options req topo (NodeMapByIndexValue (gf_pods f) IndexPodRequestVGPU "true") state (n_Name node))
      = Ok (rn_NodeInfo info) ∧ written req' info patched.

Lemma fits_info req topo pods state node info :
  build_candidate req topo pods state node = Fits info →
  NewNodeInfo node (candidate_options req topo pods state (n_Name node)) = Ok (rn_NodeInfo info).
Proof.
  unfold build_candidate. destruct (NewNodeInfo _ _) as [n|[c|]]; [|done..]. destruct (nodeCapacityGate _ _); [done|].
  by intros [= <-].
Qed.

Lemma prefilter_built f req nodes state s req' :
  built req → preFilterNodeInfos f req nodes state = Ok (s, req') →
  rq_Pod req' = rq_Pod req ∧ built req' ∧ ∀ info, info ∈ bs_infos s → ∃ node, node ∈ nodes ∧
    NewNodeInfo node (candidate_options req (gf_gpuTopology f && UsesLinkTiers (rq_Topology req))
      (NodeMapByIndexValue (gf_pods f) IndexPodRequestVGPU "true") state (n_Name node)) = Ok (rn_NodeInfo info).
Proof.
  intros Hb. unfold preFilterNodeInfos. destruct (run_batches _ _ _) as [s0|e] eqn:Er; [|done]. cbn [rbind].
  assert (∀ info, info ∈ bs_infos s0 → ∃ node, node ∈ nodes ∧
    NewNodeInfo node (candidate_options req (gf_gpuTopology f && UsesLinkTiers (rq_Topology req))
      (NodeMapByIndexValue (gf_pods f) IndexPodRequestVGPU "true") state (n_Name node)) = Ok (rn_NodeInfo info)) as Hi.
  { intros info (node & Hn & Hf)%(run_batches_fits _ _ _ _ _ Er). exists node. split; [done|]. exact (fits_info _ _ _ _ _ _ Hf). }
  destruct (_ || _); [by intros [= <- <-]|].
  destruct (FindGangSiblingDomain _ _ _ _) as [keys|e]; [|done]. cbn [rbind]. by intros [= <- <-].
Qed.

Lemma candidates_caches f cx req nodes state mode :
  built req → Forall (known f) nodes →
  caches (commits f (rq_Pod req) state) (allocate_candidates f cx req nodes state mode).
Proof.
  intros Hb Hk. unfold allocate_candidates. apply caches_seq; [auto with effects|]. intros ? [s req'] ? [= Ep _].
  destruct (prefilter_built _ _ _ _ _ _ Hb Ep) as (Hp & Hb' & Hi).
  destruct (bs_infos s) as [|i0 infos] eqn:Ei; [auto with effects|]. rewrite <- Ei in *. clear Ei.
  apply caches_seq; [apply quiet_sort|]. intros ? ranked ? Hs%sortNodeInfos_perm.
  apply caches_before; [|intros out; apply quiet_bind; [destruct out.1, mode|]; auto with effects].
  destruct mode; [|apply caches_quiet, dry_quiet].
  eapply caches_impl; [|apply live_caches]. intros patched (info & Hin & Hw). rewrite Hs in Hin.
  destruct (Hi info Hin) as (node & Hn & Hnew). rewrite Forall_forall in Hk. rewrite <- Hp.
  exists req, req', (gf_gpuTopology f && UsesLinkTiers (rq_Topology req)), node, info. split_and!; auto.
Qed.

Lemma device_caches f cx req nodes state mode :
  built req → Forall (known f) nodes →
  caches (commits f (rq_Pod req) state) (deviceFilter f cx req nodes state mode).
Proof.
  intros Hb Hk. unfold deviceFilter. case_bool_decide; [auto with effects|].
  apply caches_seq.
  { unfold CheckDeviceRequest. destruct (first_invalid _); [|auto with effects]. destruct (isDryRun mode); auto with effects. }
  intros _ _ _ _. destruct mode; [|by apply candidates_caches]. destruct (IsScheduled _) as [nodeName scheduled].
  destruct (_ && _).
  - destruct (steer_back _ _ _ _) as [[node|] failed]; auto with effects.
  - destruct (ctx_locked cx); [auto with effects|]. by apply candidates_caches.
Qed.

(** ** The cycle state holds what the annotations say *)

Definition decodes (node : Node) (devices : NodeDeviceInfo) : Prop :=
  node_annotation node NodeDeviceRegisterAnnotation ≠ "" ∧
  decode_NodeDeviceInfo (node_annotation node NodeDeviceRegisterAnnotation) = Some devices.

Definition configured (node : Node) (config : NodeConfigInfo) : Prop :=
  node_annotation node NodeConfigInfoAnnotation ≠ "" ∧
  decode_NodeConfigInfo (node_annotation node NodeConfigInfoAnnotation) = Some config.

(** For the nodes of the cache. *)
Definition state_decoded (f : gpuFilter) (state : CycleState) : Prop :=
  (∀ node d, known f node → state !! nodeDeviceKey (n_Name node) = Some (DeviceData d) → decodes node d) ∧
  (∀ node c, known f node → state !! nodeConfigKey (n_Name node) = Some (ConfigData c) → configured node c).

Lemma suffix_inj (a b c : string) : a +:+ c = b +:+ c → a = b.
Proof.
  intros E. assert (String.length a = String.length b) as Hl.
  { assert (String.length (a +:+ c) = String.length (b +:+ c)) as Hc by by rewrite E. rewrite !str_length_app in Hc. lia. }
  revert b E Hl. induction a as [|x a IH]; intros [|y b] E Hl; [done..|]. simpl in *. injection E as -> E. f_equal. apply IH; [done|lia].
Qed.

Lemma check_node_decodes node fs d c e : check_node node fs = Ok (d, c, e) → decodes node d ∧ configured node c.
Proof.
  unfold check_node, decodes, configured. destruct (negb _); [done|]. case_bool_decide; [done|].
  destruct (decode_NodeDeviceInfo _) as [d'|]; [|done]. case_bool_decide; [done|].
  destruct (decode_NodeConfigInfo _) as [c'|]; [|done]. case_bool_decide; [done|]. case_bool_decide; [done|].
  match goal with |- rbind ?r _ = _ → _ => destruct r; [|done] end. cbn [rbind].
  destruct (first_reason _ _ _ _ _); [done|]. by intros [= <- <- <-].
Qed.

Lemma cycle_lookup (s : CycleState) k v j : <[k := v]> s !! j = if decide (k = j) then Some v else s !! j.
Proof. apply lookup_insert. Qed.

Lemma nodeFilter_decoded f req nodes state :
  state_decoded f state → Forall (known f) nodes →
  state_decoded f (nf_state (nodeFilter req nodes state)) ∧ Forall (known f) (nf_filteredNodes (nodeFilter req nodes state)).
Proof.
  unfold nodeFilter. intros Hs Hk.
  assert (state_decoded f (nf_state {| nf_filteredNodes := []; nf_failed := ∅; nf_state := state |}) ∧
    Forall (known f) (nf_filteredNodes {| nf_filteredNodes := []; nf_failed := ∅; nf_state := state |})) as Hi by done.
  revert Hi. generalize {| nf_filteredNodes := []; nf_failed := ∅; nf_state := state |}. clear Hs.
  induction Hk as [|node nodes Hn _ IH]; intros s [Hs Hf]; [done|]. simpl. apply IH. clear IH. unfold nodeFilter_step.
  destruct (bool_decide _); [done|]. destruct (_ && _); [done|].
  destruct (check_node _ _) as [[[d c] e]|r] eqn:Ec; [|done]. apply check_node_decodes in Ec as [Hd Hc]. simpl.
  split; [|apply Forall_app; split; [done|by repeat constructor]]. destruct Hs as [Hsd Hsc].
  assert (∀ node', known f node' → n_Name node' = n_Name node → node' = node) as Hsame.
  { unfold known in *. intros node' Hk' E. rewrite E in Hk'. congruence. }
  split; intros node' v Hk'; rewrite !cycle_lookup; repeat case_decide; try done; try by eauto.
  - intros [= <-]. by rewrite (Hsame node') by (done || by symmetry; eapply suffix_inj).
  - intros [= <-]. by rewrite (Hsame node') by (done || by symmetry; eapply suffix_inj).
Qed.

(** ** The verb *)

Lemma chain_caches f cx req nodes reasons mode :
  built req → Forall (known f) nodes →
  caches (λ patched, ∃ state, state_decoded f state ∧ commits f (rq_Pod req) state patched)
    (filter_chain f cx req nodes reasons mode).
Proof.
  intros Hb Hk. unfold filter_chain. case_bool_decide; [auto with effects|].
  assert (state_decoded f ∅) as He by (split; intros ? ? _ He; by apply lookup_empty_Some in He).
  destruct (nodeFilter_decoded f req nodes ∅ He Hk) as [Hs Hf].
  case_bool_decide; [auto with effects|]. apply caches_before; [|auto with effects].
  eapply caches_impl; [|by apply device_caches]. eauto.
Qed.

Lemma servers_known f req nodes servers :
  (∀ name node, gf_nodes f !! name = Some node → n_Name node = name) →
  remoteServerNodes (gf_nodes f) req nodes = Ok servers → Forall (known f) nodes → Forall (known f) servers.
Proof.
  intros Hn. unfold remoteServerNodes. destruct (remoteSelector _) as [sel|e]; [|done]. cbn [rbind]. intros [= <-] Hk.
  apply Forall_forall. intros node Hin. rewrite elem_of_sort_slice in Hin. apply elem_of_app in Hin as [Hin|Hin].
  - apply list_elem_of_filter in Hin as [_ Hin]. apply list_elem_of_fmap in Hin as ([name node'] & -> & Hin). simpl.
    rewrite elem_of_range_str in Hin. unfold known. by rewrite (Hn _ _ Hin).
  - apply list_elem_of_filter in Hin as [_ Hin]. rewrite Forall_forall in Hk. by apply Hk.
Qed.

Lemma filter_nodes_caches f cx req nodes reasons mode :
  (∀ name node, gf_nodes f !! name = Some node → n_Name node = name) → built req → Forall (known f) nodes →
  caches (λ patched, ∃ state, state_decoded f state ∧ commits f (rq_Pod req) state patched)
    (filter_nodes f cx req nodes reasons mode).
Proof.
  intros Hn Hb Hk. unfold filter_nodes. case_bool_decide.
  - apply caches_after; [destruct (_ && _); auto with effects|]. intros _.
    destruct (remoteConsumerNodes nodes reasons) as [consumers reasons'].
    destruct (remoteServerNodes _ _ _) as [servers|e] eqn:Es; [|auto with effects].
    apply caches_before; [|intros out; destruct (remoteFilterResult _ _ _ _ _); auto with effects].
    apply (chain_caches f cx (without_cross_pod req)); [done|]. case_bool_decide; [constructor|]. by eapply servers_known.
  - apply caches_before; [|auto with effects]. by apply chain_caches.
Qed.

(** The candidates named in the arguments are known. *)
Definition known_args (f : gpuFilter) (args : ExtenderArgs) : Prop := Forall (known f) (default [] (ea_Nodes args)).

Lemma cached_known f names :
  (∀ name node, gf_nodes f !! name = Some node → n_Name node = name) → Forall (known f) (getNodesOnCache f names).1.
Proof.
  intros Hn. unfold getNodesOnCache.
  assert (Forall (known f) (@nil Node, ∅ : gmap string FilterReason).1) as Hi by constructor. revert Hi. generalize (@nil Node, ∅ : gmap string FilterReason).
  induction names as [|name names IH]; intros [filtered failed] Hi; simpl; [done|]. apply IH.
  destruct (gf_nodes f !! name) as [node|] eqn:E; [|done]. simpl. apply Forall_app. split; [done|]. repeat constructor.
  unfold known. by rewrite (Hn _ _ E).
Qed.

(** A call of the filter verb adds one committed pod to the cache, or none. *)
Lemma filter_caches f cx args mode fx :
  (∀ name node, gf_nodes f !! name = Some node → n_Name node = name) → known_args f args →
  fx_cache (gpuFilter_filter f cx args mode fx).2 = fx_cache fx ∨
  ∃ pod patched state, ea_Pod args = Some pod ∧ p_NodeName pod = "" ∧ state_decoded f state ∧ commits f pod state patched ∧
    fx_cache (gpuFilter_filter f cx args mode fx).2 = fx_cache fx ++ [patched].
Proof.
  intros Hn Hargs. unfold gpuFilter_filter. destruct (preFilterRequestNodes f args) as [r|[[req nodes] reasons]] eqn:Ep; [by left|].
  assert (∃ pod, ea_Pod args = Some pod ∧ p_NodeName pod = "" ∧ req = BuildAllocationRequest pod ∧ Forall (known f) nodes)
    as (pod & Hpod & Hnn & -> & Hk).
  { unfold preFilterRequestNodes in Ep. destruct (ea_Pod args) as [pod|]; [|done]. exists pod.
    destruct (decide (p_NodeName pod = "")) as [E|]; [|rewrite bool_decide_eq_true_2 in Ep; done].
    rewrite bool_decide_eq_false_2 in Ep by (intros Hc; by apply Hc). do 2 (case_bool_decide; [done|]).
    unfold known_args in Hargs.
    destruct (ea_NodeNames args) as [[|name names]|]; [destruct (ea_Nodes args) as [[|n0 ns]|]; [done| |done]| |
      destruct (ea_Nodes args) as [[|n0 ns]|]; [done| |done]]; try (injection Ep as <- <- <-; by split_and!).
    destruct (getNodesOnCache f (name :: names)) as [ns failed] eqn:Eg. injection Ep as <- <- <-. split_and!; [done..|].
    pose proof (cached_known f (name :: names) Hn) as Hc. by rewrite Eg in Hc. }
  destruct (BuildAllocationRequest_built pod) as [Hb Hp].
  destruct (filter_nodes_caches f cx _ nodes reasons mode Hn Hb Hk fx) as [Hc|(patched & (state & Hs & Hcm) & Hc)];
    destruct (filter_nodes _ _ _ _ _ _ fx) as [[[[filtered reasons'] consumers]|e] fx1]; simpl in *;
    [left; by destruct (_ && _)|by left|right..]; exists pod, patched, state; split_and!; try done; by destruct (_ && _).
Qed.
End caching.
