(* ===== verification/Cluster.v ===== *)
(** * The cluster over time

    The scheduler as a state machine over the clock and the pods of the
    cluster: filter and bind calls, pods arriving, changing and leaving, time
    passing.  The invariant is that on no registered GPU the pods that count
    reserve more than its capacity.  A filter call and a bind call are atomic,
    as under the serialising locks; the nodes do not change. *)

From stdpp Require Import base list gmap strings.
From Stdlib Require Import ZArith Lia Ascii.
From S2P Require Import Prelude GoMap GoSort GoStrings Float64 GoFmt GoTime Kube Claims Reason Links Topology Device.
From S2P Require Import Footprint NodeInfo Accounting Affinity Request Scoring SubsetSearch Numa Tiered TieredSpec.
From S2P Require Import Endpoint RemoteGpu.
From S2P Require Import Allocator AllocatorSpec Placement NodeBuild EndToEnd DryRun NodeCheck Gate Client Batch Filter.
From S2P Require Import FilterSpec Bind Commit Admission AdmissionSpec.

Open Scope Z_scope.

(** ** What the pods of a cluster reserve *)

(** The pod cache with [pod] in place of its previous version. *)
Definition put (pods : list Pod) (pod : Pod) : list Pod := filter (λ p, p_UID p ≠ p_UID pod) pods ++ [pod].

Section occupancy.
Context `{Env}.

(** What a pod holds of GPU [u] of the node [name]. *)
Definition charge (name : string) (x : dim) (u : string) (pod : Pod) : Z :=
  if IsVGPUResourcePod pod && bool_decide (PodPlanSchedulingNode pod = name) &&
     bool_decide (p_Phase pod ≠ PodSucceeded ∧ p_Phase pod ≠ PodFailed) && ShouldCountPodDeviceAllocation pod
  then reserve x pod (GetPodDeviceClaim pod) u else 0.

Definition occupancy (pods : list Pod) (name : string) (x : dim) (u : string) : Z := Zsum (charge name x u <$> pods).

Lemma charge_range name x u pod :
  pod_claims_ok pod → 0 ≤ charge name x u pod ≤ reserve x pod (GetPodDeviceClaim pod) u.
Proof. intros [Hb _]. pose proof (reserve_nonneg x u pod _ Hb). unfold charge. destruct (_ && _); lia. Qed.

Lemma occupancy_filter (P : Pod → Prop) `{!∀ p, Decision (P p)} pods name x u :
  Forall pod_claims_ok pods → occupancy (filter P pods) name x u ≤ occupancy pods name x u.
Proof.
  intros Hok. unfold occupancy. rewrite (Zsum_filter_split P _ pods).
  assert (0 ≤ Zsum (charge name x u <$> filter (λ p, ¬ P p) pods)); [|lia].
  apply Zsum_nonneg, Forall_fmap, Forall_filter. eapply Forall_impl; [exact Hok|]. intros p Hp. by apply charge_range.
Qed.

Lemma occupancy_put pods pod name x u :
  occupancy (put pods pod) name x u = occupancy (filter (λ p, p_UID p ≠ p_UID pod) pods) name x u + charge name x u pod.
Proof. unfold occupancy, put. apply Zsum_snoc. Qed.

(** The pods a candidate node is built from reserve what the cluster says. *)
Lemma occupancy_excluded pods name (excluded : gset string) x u :
  pods_reserve x u (counted_pods (default [] (NodeMapByIndexValue pods IndexPodRequestVGPU "true" !! name)) name excluded)
  = occupancy (filter (λ p, p_UID p ∉ excluded) pods) name x u.
Proof.
  rewrite node_map_lookup. unfold counted_pods, PodsOnNode, ListByIndexValue, pods_reserve, occupancy.
  rewrite !list_filter_filter. induction pods as [|p pods IH]; [done|]. rewrite !filter_cons.
  assert ("true" ∈ IndexPodRequestVGPU p ↔ IsVGPUResourcePod p = true) as Hv.
  { unfold IndexPodRequestVGPU. destruct (IsVGPUResourcePod p); rewrite list_elem_of_singleton; done. }
  destruct (decide (p_UID p ∈ excluded)) as [E|E].
  - rewrite (decide_False (P := p_UID p ∉ excluded)) by auto. rewrite decide_False by tauto. exact IH.
  - rewrite (decide_True (P := p_UID p ∉ excluded)) by done. rewrite fmap_cons, Zsum_cons, <- IH. unfold charge at 1.
    case_decide as Hd.
    + rewrite fmap_cons, Zsum_cons. destruct_and! Hd.
      rewrite (proj1 Hv) by done. rewrite !bool_decide_eq_true_2 by done. simpl.
      match goal with Hc : ShouldCountPodDeviceAllocation p = true |- _ => by rewrite Hc end.
    + destruct (IsVGPUResourcePod p) eqn:Ei; [|done]. destruct (decide (PodPlanSchedulingNode p = name)) as [Ep|];
        [rewrite (bool_decide_eq_true_2 _ Ep)|by rewrite bool_decide_eq_false_2]. simpl.
      case_bool_decide as Hph; [|done]. destruct (ShouldCountPodDeviceAllocation p) eqn:Es; [|done]. exfalso. apply Hd.
      destruct Hph. split_and!; try done. by apply Hv.
Qed.

Lemma occupancy_counted pods name uid x u :
  pods_reserve x u (counted_pods (default [] (NodeMapByIndexValue pods IndexPodRequestVGPU "true" !! name)) name {[uid]})
  = occupancy (filter (λ p, p_UID p ≠ uid) pods) name x u.
Proof. rewrite occupancy_excluded. f_equal. apply list_filter_iff. intros p. set_solver. Qed.
End occupancy.

(** ** What the nodes offer *)
Section capacity.
Context `{Env} `{NodeDecoders}.

(** The GPUs a node registers. *)
Definition registry (node : Node) : list DeviceInfo :=
  let text := node_annotation node NodeDeviceRegisterAnnotation in
  if bool_decide (text = "") then [] else default [] (decode_NodeDeviceInfo text).

Definition gpu_capacity (node : Node) (x : dim) (u : string) : Z :=
  match filter (λ info, di_Uuid info = u) (registry node) with
  | info :: _ => total x (NewDevice info)
  | [] => 0
  end.

(** The nodes are filed under their names and register each card once, with
    machine-integer capacities and identifiers the annotations can carry. *)
Record cluster_ok (nodes : gmap string Node) : Prop := {
  co_names name node : nodes !! name = Some node → n_Name node = name;
  co_registry name node : nodes !! name = Some node → registry_ok (registry node);
  co_codec name node : nodes !! name = Some node →
    Forall (λ info, in64 (di_Id info) ∧ clean [" "; "_"; ","; "]"; ";"]%char (di_Uuid info) = true) (registry node)
}.

(** The pod's containers have distinct names (as Kubernetes demands), and
    requests that are machine integers on every node. *)
Record modest (nodes : gmap string Node) (pod : Pod) : Prop := {
  md_names : distinct_names pod;
  md_clean : Forall (λ c, clean [" "; "["; "]"; ";"]%char (c_Name c) = true) (p_InitContainers pod ++ p_Containers pod);
  md_small name node info x : nodes !! name = Some node → info ∈ registry node →
    Z.of_nat (length (p_InitContainers pod ++ p_Containers pod)) * total x (NewDevice info) ≤ int64_max;
  md_limits : Forall (λ c, 0 ≤ GetResourceOfContainer c VGPUCoreResourceName ∧
      0 ≤ GetResourceOfContainer c VGPUMemoryResourceName ∧
      ∀ name node cfg, nodes !! name = Some node → configured node cfg →
        GetResourceOfContainer c VGPUMemoryResourceName * Z.max 1 (nc_MemoryFactor cfg) ≤ int64_max)
    (p_InitContainers pod ++ p_Containers pod)
}.

(** The invariant: pods are listed once, their claims are well-formed, and no
    GPU is reserved beyond its capacity. *)
Record within (nodes : gmap string Node) (pods : list Pod) : Prop := {
  wi_uids : NoDup (p_UID <$> pods);
  wi_claims : Forall pod_claims_ok pods;
  wi_fit name node x u : nodes !! name = Some node → occupancy pods name x u ≤ gpu_capacity node x u
}.

Lemma decodes_registry node infos : decodes node infos → registry node = infos.
Proof. intros [Hne Hd]. unfold registry. by rewrite bool_decide_eq_false_2, Hd. Qed.

Lemma capacity_registered node info x :
  registry_ok (registry node) → info ∈ registry node → gpu_capacity node x (di_Uuid info) = total x (NewDevice info).
Proof.
  intros [_ Hu _] Hin. unfold gpu_capacity.
  destruct (filter _ _) as [|info' infos] eqn:E.
  - exfalso. assert (info ∈ filter (λ i, di_Uuid i = di_Uuid info) (registry node)) as Hf by by apply list_elem_of_filter.
    rewrite E in Hf. by apply elem_of_nil in Hf.
  - assert (info' ∈ filter (λ i, di_Uuid i = di_Uuid info) (registry node)) as Hf by (rewrite E; by left).
    apply list_elem_of_filter in Hf as [Heq Hf].
    apply list_elem_of_lookup in Hf as [i Hi], Hin as [j Hj].
    assert (i = j) as -> by (eapply (NoDup_lookup _ i j (di_Uuid info) Hu); rewrite list_lookup_fmap; simplify_option_eq; congruence).
    congruence.
Qed.

Lemma capacity_unregistered node x u : (∀ info, info ∈ registry node → di_Uuid info ≠ u) → gpu_capacity node x u = 0.
Proof. intros Hn. unfold gpu_capacity. rewrite filter_none; [done|]. by apply Forall_forall. Qed.

Lemma capacity_bound node x u : registry_ok (registry node) → 0 ≤ gpu_capacity node x u ≤ int64_max.
Proof.
  intros Hr. unfold gpu_capacity. destruct (filter _ _) as [|info infos] eqn:E; [done|].
  assert (info ∈ filter (λ i, di_Uuid i = u) (registry node)) as Hf by (rewrite E; by left).
  apply list_elem_of_filter in Hf as [_ Hf]. pose proof (ro_totals _ Hr) as Ht. rewrite Forall_forall in Ht. by apply Ht.
Qed.

Lemma within_filter nodes pods (P : Pod → Prop) `{!∀ p, Decision (P p)} : within nodes pods → within nodes (filter P pods).
Proof.
  intros [Hu Hc Hf]. split.
  - eapply sublist_NoDup; [exact Hu|]. apply fmap_sublist, sublist_filter.
  - by apply Forall_filter.
  - intros name node x u Hn. etrans; [by apply occupancy_filter|by apply Hf].
Qed.

(** Replacing a pod keeps the invariant when on every GPU what it holds, with
    the others, stays within the capacity. *)
Lemma within_put nodes pods pod :
  within nodes pods → pod_claims_ok pod →
  (∀ name node x u, nodes !! name = Some node →
     occupancy (filter (λ p, p_UID p ≠ p_UID pod) pods) name x u + charge name x u pod ≤ gpu_capacity node x u) →
  within nodes (put pods pod).
Proof.
  intros Hw Hp Hle. destruct (within_filter _ _ (λ p, p_UID p ≠ p_UID pod) Hw) as [Hu Hc Hf]. split.
  - unfold put. rewrite fmap_app. apply NoDup_app. split_and!; [done| |repeat constructor; by intros ?%elem_of_nil].
    intros id (p & -> & [Hne _]%list_elem_of_filter)%list_elem_of_fmap. by intros ?%list_elem_of_singleton.
  - unfold put. apply Forall_app. split; [done|constructor; [done|constructor]].
  - intros name node x u Hn. rewrite occupancy_put. by apply Hle.
Qed.

(** In particular when it holds no more than its previous version. *)
Lemma within_replace nodes pods pod pod' :
  within nodes pods → pod ∈ pods → p_UID pod' = p_UID pod → pod_claims_ok pod' →
  (∀ name x u, charge name x u pod' ≤ charge name x u pod) → within nodes (put pods pod').
Proof.
  intros Hw Hin Hu Hp Hle. apply within_put; [done|done|]. intros name node x u Hn.
  etrans; [|by apply (wi_fit _ _ Hw)]. unfold occupancy at 2. rewrite (Zsum_filter_split (λ p, p_UID p ≠ p_UID pod') _ pods).
  fold (occupancy (filter (λ p, p_UID p ≠ p_UID pod') pods) name x u).
  assert (charge name x u pod ≤ Zsum (charge name x u <$> filter (λ p, ¬ p_UID p ≠ p_UID pod') pods)).
  { apply Zsum_elem_le.
    - intros p [_ Hp']%list_elem_of_filter. pose proof (wi_claims _ _ Hw) as Hc. rewrite Forall_forall in Hc. by apply charge_range, Hc.
    - apply list_elem_of_filter. split; [|done]. intros Hne. apply Hne. by rewrite Hu. }
  specialize (Hle name x u). lia.
Qed.
End capacity.

(** ** A filter call *)
Section filter_call.
Context `{Env} `{MapOrder} `{NodeDecoders} `{KubeLib} `{EndpointLib} `{ApiServer} `{Goroutines}.

Lemma register_config infos g g' : register_devices infos g = Ok g' → dg_NodeConfigInfo g' = dg_NodeConfigInfo g.
Proof.
  revert g. induction infos as [|info infos IH]; intros g; simpl; [by intros [= <-]|].
  destruct (set_entry _ _ _); [|done]. cbn [rbind]. by intros ->%IH.
Qed.

Lemma newnode_config node opts n :
  NewNodeInfo node opts = Ok n →
  match no_nodeConfig opts with Some c => ni_config n = c | None => configured node (ni_config n) end.
Proof.
  unfold NewNodeInfo. destruct (NewNodeDeviceGatherInfo node opts) as [g|e] eqn:Eg; [|done]. cbn [rbind]. intros [= <-].
  unfold RefreshResourcesData. cbn [with_state ni_config]. rewrite (AddPods_keeps ni_config) by done. simpl.
  unfold NewNodeDeviceGatherInfo in Eg.
  match type of Eg with rbind ?r _ = _ => destruct r as [infos|e]; [|discriminate Eg] end. cbn [rbind] in Eg.
  match type of Eg with rbind ?r _ = _ => destruct r as [cfg|e] eqn:Ec; [|discriminate Eg] end. cbn [rbind] in Eg.
  destruct (register_devices _ _) as [g1|e] eqn:Er; [|done]. cbn [rbind] in Eg. apply register_config in Er. simpl in Er.
  assert (dg_NodeConfigInfo g = cfg) as ->.
  { clear Ec. destruct (no_gpuTopologyEnabled opts); [|congruence]. cbv zeta in Eg. revert Eg. case_bool_decide; intros Eg; [congruence|].
    destruct (add_links _ _); [|done]. cbn [rbind] in Eg. injection Eg as <-. done. }
  destruct (no_nodeConfig opts); [congruence|]. clear Eg Er. cbv zeta in Ec. unfold configured.
  revert Ec. case_bool_decide; intros Ec; [done|].
  destruct (decode_NodeConfigInfo _); [|done]. split; congruence.
Qed.

Context (f : gpuFilter) (pod : Pod) (state : CycleState).
Context (Hok : cluster_ok (gf_nodes f)) (Hw : within (gf_nodes f) (gf_pods f)) (Hpod : modest (gf_nodes f) pod)
  (Hstate : state_decoded f state).

Section candidate.
Context (req : AllocationRequest) (topo : bool) (node : Node) (n : NodeInfo).
Context (Hreq : rq_Pod req = pod) (Hknown : known f node).
Let opts := candidate_options req topo (NodeMapByIndexValue (gf_pods f) IndexPodRequestVGPU "true") state (n_Name node).
Context (Hnew : NewNodeInfo node opts = Ok n).

Lemma candidate_registry : device_infos node opts = Some (registry node).
Proof.
  assert (∃ infos, device_infos node opts = Some infos) as [infos Hi].
  { unfold NewNodeInfo in Hnew. destruct (NewNodeDeviceGatherInfo node opts) as [g|e] eqn:Eg; [|done].
    apply gather_registered in Eg as (infos & Hi & _). eauto. }
  rewrite Hi. f_equal. unfold device_infos in Hi. destruct (no_nodeDevice opts) as [d|] eqn:Ed.
  - symmetry. apply decodes_registry. assert (d = infos) as <- by congruence. unfold opts in Ed. simpl in Ed.
    destruct (state !! nodeDeviceKey (n_Name node)) as [[d'| |]|] eqn:Es; [|done..]. destruct Hstate as [Hd _].
    apply Hd; [done|]. congruence.
  - unfold registry. cbv zeta in Hi. case_bool_decide; [done|]. by rewrite Hi.
Qed.

Lemma candidate_pods x u : pods_reserve x u (built_pods node opts) = occupancy (filter (λ p, p_UID p ≠ p_UID pod) (gf_pods f)) (n_Name node) x u.
Proof. unfold built_pods, opts, candidate_options. simpl. rewrite occupancy_counted. by rewrite Hreq. Qed.

Lemma candidate_le x u : pods_reserve x u (built_pods node opts) ≤ gpu_capacity node x u.
Proof.
  rewrite candidate_pods. etrans; [apply occupancy_filter, (wi_claims _ _ Hw)|]. by apply (wi_fit _ _ Hw).
Qed.

Lemma candidate_pods_ok : pods_ok (built_pods node opts).
Proof.
  split.
  - unfold built_pods, counted_pods, PodsOnNode, opts. simpl. rewrite node_map_lookup. unfold ListByIndexValue.
    repeat apply Forall_filter. apply (wi_claims _ _ Hw).
  - intros x u. etrans; [apply candidate_le|]. by eapply capacity_bound, (co_registry _ Hok).
Qed.

Lemma candidate_fresh : fresh_node (registry node) (built_pods node opts) n.
Proof. eapply newnode_fresh; [exact candidate_registry|by eapply (co_registry _ Hok)|done|done|exact candidate_pods_ok|exact Hnew]. Qed.

Lemma candidate_card id d :
  ni_deviceMap n !! id = Some d → ∃ info, info ∈ registry node ∧ same_card d (NewDevice info).
Proof.
  intros Hd. destruct candidate_fresh as [Hdev Honly _ _ _]. destruct (Honly _ _ Hd) as (info & Hin & <-).
  destruct (Hdev _ Hin) as (d' & Hd' & Hc & _). simplify_eq. eauto.
Qed.

Lemma candidate_limits : limits_ok n pod.
Proof.
  pose proof (newnode_config _ _ _ Hnew) as Hc. assert (configured node (ni_config n)) as Hcfg.
  { unfold opts in Hc. simpl in Hc. destruct (state !! nodeConfigKey (n_Name node)) as [[| c |]|] eqn:Es; [exact Hc| |exact Hc..].
    subst c. destruct Hstate as [_ Hd]. by apply Hd. }
  eapply Forall_impl; [exact (md_limits _ _ Hpod)|]. intros c (? & ? & Hm). split_and!; [done|done|]. by eapply Hm.
Qed.

Lemma candidate_encodable : encodable n pod.
Proof.
  split; [exact (md_clean _ _ Hpod)|..].
  - intros id d (info & Hin & (Hi & Hu & _)%same_card_fields)%candidate_card. rewrite Hi, Hu. simpl.
    pose proof (co_codec _ Hok _ _ Hknown) as Hcd. rewrite Forall_forall in Hcd. by apply Hcd.
  - intros id d x (info & Hin & Hc)%candidate_card. rewrite (same_card_total x _ _ Hc). by eapply (md_small _ _ Hpod).
Qed.
End candidate.

(** What a filter call commits keeps the cluster within its capacities. *)
Lemma commit_within patched :
  api_keeps_spec → p_NodeName pod = "" → commits f pod state patched → within (gf_nodes f) (put (gf_pods f) patched).
Proof.
  intros Hapi Hnn (req & req' & topo & node & info & Hr & Hr' & Hb & Hk & Hnew & cfg & newPod & s' & Ha & Hp).
  assert (keeps_spec newPod patched) as Hks.
  { unfold PatchPodPreAllocatedMetadata, PatchPodMetadata in Hp. case_bool_decide; [done|].
    destruct (patch_pod _ _) as [p'|] eqn:E; [|done]. injection Hp as <-. by eapply Hapi. }
  pose proof (candidate_limits _ _ _ _ Hk Hnew) as Hlim. pose proof (candidate_encodable _ _ _ _ Hr Hk Hnew) as Henc.
  rewrite <- Hr' in Hlim, Henc, Hnn. pose proof (md_names _ _ Hpod) as Hnames. rewrite <- Hr' in Hnames.
  destruct (commit_accounted _ _ _ _ req' (candidate_registry _ _ _ _ Hk Hnew) (co_registry _ Hok _ _ Hk) eq_refl eq_refl
    (candidate_pods_ok _ topo _ Hr Hk) Hnew Hb Hnames Hlim Henc _ (fresh req' info) _ _ _ eq_refl Ha Hp Hks) as (Hpc & Hfit & Hnone).
  destruct (commit_plan _ _ _ req' Hnew Hnn _ (fresh req' info) _ _ _ eq_refl Ha Hp Hks) as [Hplan Huid]. rewrite Hr' in Huid.
  apply within_put; [done|done|]. rewrite Huid. intros name node' x u Hn.
  destruct (decide (name = n_Name node)) as [->|Hne].
  - unfold known in Hk. rewrite Hk in Hn. injection Hn as <-.
    pose proof (candidate_le req topo node Hr Hk x u) as Hle. rewrite (candidate_pods _ _ _ Hr) in Hle.
    pose proof (charge_range (n_Name node) x u patched Hpc) as Hch.
    destruct (decide (u ∈ di_Uuid <$> registry node)) as [(i & -> & Hi)%list_elem_of_fmap|Hu].
    + specialize (Hfit i x Hi). rewrite (candidate_pods _ _ _ Hr) in Hfit.
      rewrite capacity_registered in * by (done || by eapply (co_registry _ Hok)). lia.
    + rewrite (Hnone x u) in Hch; [lia|]. intros i Hi <-. apply Hu. by apply list_elem_of_fmap_2.
  - assert (charge name x u patched = 0) as ->.
    { unfold charge. rewrite Hplan, (bool_decide_eq_false_2 (n_Name node = name)) by congruence. by rewrite andb_false_r. }
    rewrite Z.add_0_r. by apply (wi_fit _ _ (within_filter _ _ _ Hw)).
Qed.
End filter_call.

(** ** A bind call *)

(** A merge patch changes the keys it names, and nothing but metadata. *)
Record patched_like (pod : Pod) (patch : PatchMetadata) (pod' : Pod) : Prop := {
  pl_spec : keeps_spec pod pod';
  pl_phase : p_Phase pod' = p_Phase pod;
  pl_annotations k : pm_Annotations patch !! k = None → p_Annotations pod' !! k = p_Annotations pod !! k
}.

Definition merge_patches `{ApiServer} : Prop :=
  ∀ pod patch pod', patch_pod pod patch = Ok pod' → patched_like pod patch pod'.

(** What the binding subresource does to the pod. *)
Definition bound_to (p : Pod) (node : string) : Pod :=
  {| p_Name := p_Name p; p_Namespace := p_Namespace p; p_UID := p_UID p;
     p_Labels := p_Labels p; p_Annotations := p_Annotations p;
     p_OwnerReferences := p_OwnerReferences p; p_GetControllerOf := p_GetControllerOf p;
     p_DeletionTimestamp := p_DeletionTimestamp p; p_NodeName := node;
     p_Containers := p_Containers p; p_InitContainers := p_InitContainers p;
     p_PodGroupName := p_PodGroupName p; p_Phase := p_Phase p;
     p_StatusReason := p_StatusReason p; p_ContainerStatuses := p_ContainerStatuses p;
     p_InitContainerStatuses := p_InitContainerStatuses p;
     p_PodScheduledCondition := p_PodScheduledCondition p; p_OS := p_OS p; p_Priority := p_Priority p;
     p_CreationTimestamp := p_CreationTimestamp p; p_Tolerations := p_Tolerations p;
     p_IsCriticalPod := p_IsCriticalPod p; p_Rest := p_Rest p |}.

Section bind_call.
Context `{Env}.

(** An update that makes a released pre-allocation count again, for example a
    scheduling condition that no longer says Unschedulable. *)
Definition revives (pod pod' : Pod) : Prop :=
  IsVGPUResourcePod pod = true ∧ ShouldCountPodDeviceAllocation pod = false ∧ ShouldCountPodDeviceAllocation pod' = true.

Lemma not_revives pod pod' :
  (IsVGPUResourcePod pod = true → ShouldCountPodDeviceAllocation pod' = true → ShouldCountPodDeviceAllocation pod = true) ↔ ¬ revives pod pod'.
Proof.
  unfold revives. destruct (IsVGPUResourcePod pod), (ShouldCountPodDeviceAllocation pod), (ShouldCountPodDeviceAllocation pod'); naive_solver.
Qed.

(** A later version of a pod that reserves the same, or nothing any more: the
    containers and the claims stay, and no released claim is revived. *)
Record no_more (pod pod' : Pod) : Prop := {
  nm_uid : p_UID pod' = p_UID pod;
  nm_init : p_InitContainers pod' = p_InitContainers pod;
  nm_app : p_Containers pod' = p_Containers pod;
  nm_claims : GetPodDeviceClaim pod' = GetPodDeviceClaim pod;
  nm_plan : IsVGPUResourcePod pod = true → ShouldCountPodDeviceAllocation pod' = true →
    PodPlanSchedulingNode pod' = PodPlanSchedulingNode pod;
  nm_live : p_Phase pod = PodSucceeded ∨ p_Phase pod = PodFailed → p_Phase pod' = PodSucceeded ∨ p_Phase pod' = PodFailed;
  nm_counts : ¬ revives pod pod'
}.

Lemma no_more_within `{NodeDecoders} nodes pods pod pod' :
  within nodes pods → pod ∈ pods → no_more pod pod' → within nodes (put pods pod').
Proof.
  intros Hw Hin [Hu Hi Ha Hc Hp Hl Hnr]. pose proof (proj2 (not_revives pod pod') Hnr) as Hs. pose proof (wi_claims _ _ Hw) as Hok. rewrite Forall_forall in Hok.
  specialize (Hok _ Hin) as Hpc. eapply within_replace; [done|exact Hin|done|..].
  - destruct Hpc as [Hb Hv]. unfold pod_claims_ok. rewrite Hc. split; [done|].
    unfold init_claims_vgpu, is_sequential, sequentialInit_names, podHasVGPUInitContainer in *. by rewrite Hi.
  - intros name x u. pose proof (charge_range name x u pod Hpc) as Hr. unfold charge at 1.
    assert (IsVGPUResourcePod pod' = IsVGPUResourcePod pod) as -> by (unfold IsVGPUResourcePod; by rewrite Hi, Ha).
    destruct (IsVGPUResourcePod pod) eqn:Ev; [|simpl; lia]. destruct (ShouldCountPodDeviceAllocation pod') eqn:Es; [|rewrite andb_false_r; lia].
    rewrite andb_true_r, (Hp eq_refl eq_refl), Hc, (reserve_init _ _ _ _ _ Hi). simpl.
    destruct (_ && _) eqn:E; [|lia]. apply andb_true_iff in E as [E1 E2]. apply bool_decide_eq_true in E2.
    unfold charge. rewrite Ev, E1, (Hs eq_refl eq_refl), bool_decide_eq_true_2; [done|].
    split; intros ?; destruct Hl as [?|?]; tauto.
Qed.

Lemma no_more_refl pod : no_more pod pod.
Proof. split; try done. by apply not_revives. Qed.

(** Only metadata changed, and of the annotations only the time. *)
Record retimed (pod pod' : Pod) : Prop := {
  rt_spec : keeps_spec pod pod';
  rt_phase : p_Phase pod' = p_Phase pod;
  rt_annotations k : k ≠ PodPredicateTimeAnnotation → HasAnnotation pod' k = HasAnnotation pod k
}.

Lemma retimed_refl pod : retimed pod pod.
Proof. by split. Qed.

Lemma retimed_trans pod1 pod2 pod3 : retimed pod1 pod2 → retimed pod2 pod3 → retimed pod1 pod3.
Proof.
  intros [[] ? Ha] [[] ? Hb]. split; [split; congruence|congruence|]. intros k Hk. by rewrite Hb, Ha.
Qed.

Lemma retimed_annotation pod pod' k : retimed pod pod' → k ≠ PodPredicateTimeAnnotation → annotation pod' k = annotation pod k.
Proof. intros [_ _ Ha] Hk. unfold annotation. by rewrite Ha. Qed.

Lemma retimed_claims pod pod' : retimed pod pod' → GetPodDeviceClaim pod' = GetPodDeviceClaim pod.
Proof. intros Hr. unfold GetPodDeviceClaim. by rewrite !(retimed_annotation _ _ _ Hr) by by apply key_ne. Qed.

Lemma retimed_mode pod pod' : retimed pod pod' → PodVGPUAccessMode pod' = PodVGPUAccessMode pod.
Proof. intros Hr. unfold PodVGPUAccessMode. by rewrite !(retimed_annotation _ _ _ Hr) by by apply key_ne. Qed.

Lemma retimed_no_more pod pod' :
  retimed pod pod' →
  (IsVGPUResourcePod pod = true → ShouldCountPodDeviceAllocation pod' = true → ShouldCountPodDeviceAllocation pod = true) →
  no_more pod pod'.
Proof.
  intros Hr Hc. pose proof (retimed_mode _ _ Hr) as Hm. pose proof (retimed_claims _ _ Hr) as Hcl.
  assert (annotation pod' PodPredicateNodeAnnotation = annotation pod PodPredicateNodeAnnotation) as Hn
    by (apply (retimed_annotation _ _ _ Hr); by apply key_ne).
  destruct Hr as [[Hu Hnn Hi Ha] Hp _]. split; try done; [|by rewrite Hp|by apply not_revives].
  intros _ _. unfold PodPlanSchedulingNode. by rewrite Hm, Hnn, Hn.
Qed.

Context `{ApiServer} (Hmerge : merge_patches).

Lemma patch_retimed pod patch pod' :
  (∀ k, k ≠ PodPredicateTimeAnnotation → pm_Annotations patch !! k = None) →
  PatchPodMetadata pod patch = Ok pod' → retimed pod pod'.
Proof.
  intros Hk. unfold PatchPodMetadata. destruct (patch_pod pod patch) as [p|] eqn:E; [|done]. intros [= <-].
  destruct (Hmerge _ _ _ E) as [Hs Hp Ha]. split; [done|done|]. intros k Hne. unfold HasAnnotation. by rewrite Ha by auto.
Qed.

Lemma allocating_retimed pod pod' : PatchPodAllocationAllocating pod = Ok pod' → retimed pod pod'.
Proof.
  unfold PatchPodAllocationAllocating. destruct (_ || _); [|intros [= <-]; apply retimed_refl].
  apply patch_retimed. intros k Hk. simpl. by rewrite lookup_singleton_ne.
Qed.

Lemma failed_retimed pod : retimed pod (mark_failed pod).
Proof.
  unfold mark_failed, PatchPodAllocationFailed. destruct (_ || _); [|apply retimed_refl].
  destruct (PatchPodMetadata _ _) as [p|] eqn:E; [|apply retimed_refl].
  eapply patch_retimed; [|exact E]. intros k Hk. simpl. by rewrite lookup_singleton_ne.
Qed.

(** Marking a pod failed never makes it count. *)
Lemma mark_failed_counts pod :
  IsVGPUResourcePod pod = true → ShouldCountPodDeviceAllocation (mark_failed pod) = true → ShouldCountPodDeviceAllocation pod = true.
Proof.
  intros Hv. destruct (PatchPodAllocationFailed pod) as [p|e] eqn:E; unfold mark_failed; rewrite E; [|done]. intros Hc.
  assert (p_NodeName p = p_NodeName pod) as Hn.
  { pose proof (failed_retimed pod) as [[_ Hn _ _] _ _]. unfold mark_failed in Hn. by rewrite E in Hn. }
  destruct (decide (p_NodeName pod = "")) as [E0|E0].
  - rewrite E0 in Hn. pose proof (failed_releases H pod p time_now Hv E Hn) as Hf.
    assert (at_time H time_now = H) as Ht by by destruct H. rewrite Ht in Hf. congruence.
  - unfold ShouldCountPodDeviceAllocation. by rewrite bool_decide_eq_true_2.
Qed.

(** The API server a bind call talks to: it answers with the cluster's pods,
    with an empty object when it fails, and binds no pod twice. *)
Record serves `{BindApi} (pods : list Pod) (args : ExtenderBindingArgs) : Prop := {
  sv_get pod : get_pod (ba_PodNamespace args) (ba_PodName args) = Ok pod → pod ∈ pods;
  sv_fail pod err : get_pod (ba_PodNamespace args) (ba_PodName args) = Fail (Some pod, err) → GetPodDeviceClaim pod = [];
  sv_bind pod : get_pod (ba_PodNamespace args) (ba_PodName args) = Ok pod → bind_pod args = None → p_NodeName pod = ""
}.

(** The pods after the call: the one it read, patched, and bound on success. *)
Definition after_bind (pods : list Pod) (args : ExtenderBindingArgs) (r : bind_result) : list Pod :=
  match br_cache r with
  | Some pod => put pods (if bool_decide (br_Error r = None) then bound_to pod (ba_Node args) else pod)
  | None => pods
  end.

Lemma bound_no_more args pod pod' :
  check_binding args pod = None → p_NodeName pod = "" → ba_Node args ≠ "" → retimed pod pod' →
  no_more pod (bound_to pod' (ba_Node args)).
Proof.
  intros Hc Hn Hb Hr. pose proof (retimed_mode _ _ Hr) as Hm. pose proof (retimed_claims _ _ Hr) as Hcl.
  assert (annotation pod' PodPredicateNodeAnnotation = annotation pod PodPredicateNodeAnnotation) as Ha
    by (apply (retimed_annotation _ _ _ Hr); by apply key_ne).
  destruct Hr as [[Hu _ Hi Hap] Hp _]. split; try done.
  - intros Hv _. destruct (check_binding_pass _ _ Hc Hv) as (_ & Hloc & _). unfold PodPlanSchedulingNode. rewrite Hn. simpl.
    change (PodVGPUAccessMode (bound_to pod' (ba_Node args))) with (PodVGPUAccessMode pod').
    change (annotation (bound_to pod' (ba_Node args))) with (annotation pod'). rewrite Hm, bool_decide_eq_true_2 by done. simpl.
    case_bool_decide as El; [|done]. by rewrite Hloc.
  - simpl. by rewrite Hp.
  - apply not_revives. intros Hv _. by destruct (check_binding_pass _ _ Hc Hv) as (_ & _ & ?).
Qed.

Lemma bind_within `{BindApi} `{NodeDecoders} nodes pods args :
  within nodes pods → serves pods args → within nodes (after_bind pods args (Bind args)).
Proof.
  intros Hw [Hget Hfail Hbind]. unfold after_bind, Bind. case_bool_decide as Hne; [done|].
  destruct (get_pod _ _) as [pod|[opod err]] eqn:Eg.
  2:{ simpl. destruct opod as [pod|]; [|done]. specialize (Hfail _ _ eq_refl). apply within_put; [done|..].
      - unfold pod_claims_ok. rewrite Hfail. split; [split; [constructor|done]|by intros ? ?%elem_of_nil].
      - intros name node x u Hn. assert (charge name x u pod = 0) as ->; [|rewrite Z.add_0_r; by apply (wi_fit _ _ (within_filter _ _ _ Hw))].
        unfold charge. rewrite Hfail. by destruct (_ && _). }
  specialize (Hget _ eq_refl). specialize (Hbind _ eq_refl).
  case_bool_decide; [simpl; by eapply no_more_within, no_more_refl|].
  assert (no_more pod (mark_failed pod)) as Hmf
    by (apply retimed_no_more; [apply failed_retimed|apply mark_failed_counts]).
  destruct (check_binding args pod) as [r|] eqn:Ec.
  - assert (∃ msg out, r = refuse out (BindText msg) [BindingFailed msg] (Some (mark_failed pod))) as (msg & out & ->).
    { unfold check_binding in Ec. destruct (negb _); [done|]. destruct (_ || _); [injection Ec as <-; eauto|].
      destruct (negb _); [injection Ec as <-; eauto|done]. }
    simpl. by eapply no_more_within.
  - destruct (PatchPodAllocationAllocating pod) as [pod1|e] eqn:Ea; [|simpl; by eapply no_more_within, no_more_refl].
    apply allocating_retimed in Ea. destruct (bind_pod args) as [err|] eqn:Eb; simpl.
    + eapply no_more_within; [done|exact Hget|]. apply retimed_no_more.
      * eapply retimed_trans; [exact Ea|apply failed_retimed].
      * intros Hv _. by destruct (check_binding_pass _ _ Ec Hv) as (_ & _ & ?).
    + eapply no_more_within; [done|exact Hget|]. apply bound_no_more; auto.
Qed.
End bind_call.

(** ** The state machine *)

Record world := { w_time : Z; w_pods : list Pod }.

Section machine.
Context (e : Env) `{NodeDecoders} `{KubeLib} `{EndpointLib} (nodes : gmap string Node).

Inductive step : world → world → Prop :=
| step_tick w t : w_time w ≤ t → step w {| w_time := t; w_pods := w_pods w |}
| step_arrive w pod : GetPodDeviceClaim pod = [] → p_UID pod ∉ (p_UID <$> w_pods w) →
    step w {| w_time := w_time w; w_pods := put (w_pods w) pod |}
| step_admit w (h : PodHelpers) (c : ResourceInfosCodec) o random raw pod :
    @MutateCreate e h c o random raw = Ok pod → p_UID pod ∉ (p_UID <$> w_pods w) →
    step w {| w_time := w_time w; w_pods := put (w_pods w) pod |}
| step_leave w uid : step w {| w_time := w_time w; w_pods := filter (λ p, p_UID p ≠ uid) (w_pods w) |}
| step_change w pod pod' : pod ∈ w_pods w → @no_more (at_time e (w_time w)) pod pod' →
    step w {| w_time := w_time w; w_pods := put (w_pods w) pod' |}
| step_filter w (o : MapOrder) (g : Goroutines) (a : ApiServer) f cx args mode :
    merge_patches → gf_nodes f = nodes → gf_pods f = w_pods w → known_args f args →
    (∀ pod, ea_Pod args = Some pod → modest nodes pod) →
    step w {| w_time := w_time w;
              w_pods := foldl put (w_pods w)
                (fx_cache (@gpuFilter_filter (at_time e (w_time w)) _ _ _ _ _ _ f cx args mode no_effects).2) |}
| step_bind w (a : ApiServer) (b : BindApi) args :
    merge_patches → @serves (at_time e (w_time w)) b (w_pods w) args →
    step w {| w_time := w_time w;
              w_pods := after_bind (w_pods w) args (@Bind (at_time e (w_time w)) _ _ args) |}.

(** A cluster that starts without pods. *)
Inductive reachable : world → Prop :=
| reach_init t : reachable {| w_time := t; w_pods := [] |}
| reach_step w w' : reachable w → step w w' → reachable w'.

Lemma within_later pods t1 t2 :
  t1 ≤ t2 → @within (at_time e t1) _ nodes pods → @within (at_time e t2) _ nodes pods.
Proof.
  intros Ht [Hu Hc Hf]. split; [done|exact Hc|]. intros name node x u Hn.
  etrans; [|exact (Hf name node x u Hn)]. apply Zsum_fmap_le. intros pod Hin. rewrite Forall_forall in Hc.
  pose proof (@charge_range (at_time e t1) name x u pod (Hc _ Hin)) as Hr. unfold charge in *.
  change (@IsVGPUResourcePod (at_time e t2)) with (@IsVGPUResourcePod (at_time e t1)).
  change (@PodPlanSchedulingNode (at_time e t2)) with (@PodPlanSchedulingNode (at_time e t1)).
  change (@GetPodDeviceClaim (at_time e t2)) with (@GetPodDeviceClaim (at_time e t1)).
  destruct (@ShouldCountPodDeviceAllocation (at_time e t2) pod) eqn:E.
  - by rewrite (counts_antitone e pod t1 t2 Ht E).
  - rewrite andb_false_r. lia.
Qed.

Lemma cluster_ok_at t : cluster_ok nodes → @cluster_ok (at_time e t) _ nodes.
Proof. intros [Hn Hr Hc]. split; [exact Hn|exact Hr|exact Hc]. Qed.

Lemma modest_at t pod : modest nodes pod → @modest (at_time e t) _ nodes pod.
Proof. intros [Hn Hc Hs Hl]. split; [exact Hn|exact Hc|exact Hs|exact Hl]. Qed.

(** A pod that holds nothing can always be added. *)
Lemma arrive_within t pods pod :
  GetPodDeviceClaim pod = [] → @within (at_time e t) _ nodes pods → @within (at_time e t) _ nodes (put pods pod).
Proof.
  intros Hc Hw. apply within_put; [done|..].
  - unfold pod_claims_ok. change (@GetPodDeviceClaim (at_time e t)) with (@GetPodDeviceClaim e). rewrite Hc.
    split; [split; [constructor|done]|by intros ? ?%elem_of_nil].
  - intros name node x u Hn. etrans; [|by apply (wi_fit _ _ (within_filter _ _ (λ p, p_UID p ≠ p_UID pod) Hw))].
    assert (@charge (at_time e t) name x u pod = 0) as ->; [|lia]. unfold charge.
    change (@GetPodDeviceClaim (at_time e t)) with (@GetPodDeviceClaim e). rewrite Hc. by destruct (_ && _).
Qed.

Lemma step_within w w' :
  cluster_ok nodes → step w w' → @within (at_time e (w_time w)) _ nodes (w_pods w) →
  @within (at_time e (w_time w')) _ nodes (w_pods w').
Proof.
  intros Hok Hstep Hw. destruct Hstep as [w t Ht|w pod Hc Hu|w h c o rnd raw pod Hadm Hu|w uid|w pod pod' Hin Hnm|w o g a f cx args mode Hm Hfn Hfp Hka Hmod|
    w a b args Hm Hs]; simpl in *.
  - by eapply within_later.
  - by apply arrive_within.
  - apply arrive_within; [|done]. by eapply unallocated, admitted_clean.
  - by apply within_filter.
  - by eapply no_more_within.
  - pose proof (cluster_ok_at (w_time w) Hok) as Hok'.
    assert (∀ pod, ea_Pod args = Some pod → @modest (at_time e (w_time w)) _ nodes pod) as Hmod' by (intros; by apply modest_at, Hmod).
    subst nodes. rewrite <- Hfp in Hw |- *.
    destruct (@filter_caches (at_time e (w_time w)) _ _ _ _ _ _ f cx args mode no_effects (co_names _ Hok) Hka)
      as [->|(pod & patched & state & Hpod & Hnn & Hst & Hcm & ->)]; [done|]. simpl.
    eapply commit_within; [exact Hok'|exact Hw|exact (Hmod' _ Hpod)|exact Hst| |exact Hnn|exact Hcm].
    intros p patch p' Hp. by apply Hm in Hp as [].
  - by apply bind_within.
Qed.

Lemma reachable_within w :
  cluster_ok nodes → reachable w → @within (at_time e (w_time w)) _ nodes (w_pods w).
Proof.
  intros Hok. induction 1 as [t|w w' _ IH Hs]; [|by eapply step_within].
  split; [constructor|constructor|]. intros name node x u Hn. by apply capacity_bound, (co_registry _ Hok name).
Qed.

(** C1 The scheduler never overcommits a GPU.  The nodes are fixed and their
    registrations well formed ([cluster_ok]), the limits of the pods given to
    the filter do not overflow ([modest]); in every state the cluster can reach by filter and bind calls (any map order, any
    goroutine schedule, any outcome of the API calls), pods being admitted with
    whatever annotations they carry, arriving without an allocation, leaving,
    being updated without a change of their allocation and without reviving a
    released one ([no_more]), and time passing, the slots, cores and memory
    reserved on a registered GPU by all the pods that count there are within
    its capacity. *)
Theorem cluster_never_overcommits w name node info x :
  cluster_ok nodes → reachable w → nodes !! name = Some node → info ∈ registry node →
  @occupancy (at_time e (w_time w)) (w_pods w) name x (di_Uuid info) ≤ total x (NewDevice info).
Proof.
  intros Hok Hr Hn Hin. rewrite <- (capacity_registered node info x (co_registry _ Hok _ _ Hn) Hin).
  by apply (wi_fit _ _ (reachable_within w Hok Hr)).
Qed.
End machine.
