(* ===== verification/ClusterDemo.v ===== *)
(** * A concrete cluster

    Two nodes with four cards each, an API server that merges patches, and a
    pod that is filtered and bound: the theorems on the filter verb, the bind
    verb and the cluster applied to it. *)

From stdpp Require Import base list gmap strings.
From Stdlib Require Import ZArith Lia Ascii.
From S2P Require Import Prelude GoMap GoSort GoStrings Float64 GoFmt GoTime Kube Claims Reason Links Topology Device.
From S2P Require Import Footprint NodeInfo Accounting Affinity Request Scoring SubsetSearch DemoNode Numa Tiered TieredSpec.
From S2P Require Import Endpoint RemoteGpu.
From S2P Require Import Allocator AllocatorSpec Placement NodeBuild EndToEnd DryRun NodeCheck Gate Client Batch Filter.
From S2P Require Import FilterSpec Bind Commit Cluster.

Open Scope Z_scope.

Module ClusterDemo.
Import DemoNode.

Definition clock : Env := {| globalDomainName := "nvidia.com"; time_now := 7 * Second; stuckGracePeriod := Minute |}.
#[export] Existing Instance clock.

Definition decode : NodeDecoders :=
  {| device_error_text _ := "malformed"; config_error_text _ := "malformed";
     decode_NodeDeviceInfo text := if bool_decide (text = "four cards") then Some cards else None;
     decode_NodeConfigInfo text := if bool_decide (text = "plain") then Some config else None;
     decode_NodeTopology _ := Some (links_of edges <$> [0; 1; 2; 3]); decode_GPURail _ := None |}.
#[export] Existing Instance decode.

(** No selectors, no taints, no remote servers. *)
Definition kube : KubeLib :=
  {| not_found_text name := "node " +:+ name +:+ " not found"; ParseToRequirements _ := Fail "unsupported";
     FindMatchingUntoleratedTaint _ _ _ := false |}.
#[export] Existing Instance kube.
Definition endpoints : EndpointLib :=
  {| url_Parse _ := Fail "unsupported"; url_String _ := ""; ParseIP _ := None; unmarshal_endpoints _ := Fail "unsupported";
     marshal_endpoints _ := "" |}.
#[export] Existing Instance endpoints.
#[export] Existing Instance ClientDemo.server.
#[export] Existing Instance in_order.

Definition host (name : string) : Node :=
  {| n_Name := name; n_Labels := ∅;
     n_Annotations := list_to_map [(NodeDeviceRegisterAnnotation, "four cards"); (NodeConfigInfoAnnotation, "plain");
                                   (NodeDeviceTopologyAnnotation, "published")];
     n_Allocatable := {[ VGPUNumberResourceName := 40 ]}; n_DeletionTimestamp := None; n_Taints := [] |}.

Definition nodes : gmap string Node := list_to_map [("node-a", host "node-a"); ("node-b", host "node-b")].

Definition limits (number cores memory : Z) : list (string * Z) :=
  [(VGPUNumberResourceName, number); (VGPUCoreResourceName, cores); (VGPUMemoryResourceName, memory)].

(** Two NVLink-connected GPUs, half of the cores of each. *)
Definition train : Pod :=
  Demo.pod "train" [(DeviceTopologyModeAnnotation, "Link-Strict")] [Demo.container "download" (limits 2 0 8000)]
    [Demo.container "train" (limits 2 50 10000)].

Definition cx : call_context := {| ctx_locked := None; ctx_before_patch _ := None |}.
Definition predicate (pods : list Pod) : gpuFilter :=
  {| gf_nodes := nodes; gf_pods := pods; gf_gpuTopology := true; gf_maxGoroutines := 8 |}.
Definition args : ExtenderArgs :=
  {| ea_Pod := Some train; ea_Nodes := None; ea_NodeNames := Some ["node-b"; "node-a"; "node-c"] |}.

Definition outcome := gpuFilter_filter (predicate []) cx args liveFilter no_effects.
Example filtered : er_NodeNames outcome.1 = Some ["node-b"] ∧
  (λ p, annotation p PodVGPUPreAllocAnnotation) <$> fx_cache outcome.2
  = ["download[0_GPU-0_0_8000,1_GPU-1_0_8000];train[0_GPU-0_50_10000,1_GPU-1_50_10000]"].
Proof. vm_compute. done. Qed.

(** ** The device stage *)

Definition req : AllocationRequest := BuildAllocationRequest train.
Definition hosts : list Node := [host "node-a"; host "node-b"].
Definition state : CycleState := nf_state (nodeFilter req hosts ∅).
Definition stage (mode : filterMode) := deviceFilter (predicate []) cx req hosts state mode no_effects.
Definition kept (mode : filterMode) : list Node := match (stage mode).1 with Ok (F, _) => F | Fail _ => [] end.
Definition refused (mode : filterMode) : gmap string FilterReason := match (stage mode).1 with Ok (_, G) => G | Fail _ => ∅ end.

Lemma stage_ok mode : deviceFilter (predicate []) cx req hosts state mode no_effects = (Ok (kept mode, refused mode), (stage mode).2).
Proof. destruct mode; vm_compute; reflexivity. Qed.

Lemma hosts_sizes : sizes_ok hosts (gf_maxGoroutines (predicate [])).
Proof. split; [discriminate|]. split; vm_compute; congruence. Qed.

Lemma hosts_names : NoDup (n_Name <$> hosts).
Proof. refine (bool_decide_unpack _ _). vm_compute. done. Qed.

Lemma deviceFilter_verdicts_witness :
  n_Name <$> kept liveFilter = ["node-a"] ∧
  kept liveFilter ⊆ hosts ∧
  (∀ nm, is_Some (refused liveFilter !! nm) ↔ nm ∈ n_Name <$> hosts ∧ nm ∉ n_Name <$> kept liveFilter) ∧
  (liveFilter = liveFilter → (length (kept liveFilter) ≤ 1)%nat).
Proof.
  split; [vm_compute; reflexivity|].
  exact (deviceFilter_verdicts (predicate []) cx req hosts state liveFilter no_effects (kept liveFilter) (refused liveFilter)
    (stage liveFilter).2 hosts_sizes hosts_names (stage_ok liveFilter)).
Defined.


Lemma deviceFilter_schedule_independent_witness :
  @deviceFilter _ _ _ _ in_order (predicate []) cx req hosts state liveFilter no_effects
  = @deviceFilter _ _ _ _ out_of_order (predicate []) cx req hosts state liveFilter no_effects.
Proof.
  apply (deviceFilter_schedule_independent in_order out_of_order (predicate []) cx req hosts state liveFilter no_effects);
    [exact hosts_sizes|exact hosts_names|].
  assert (Forall (λ node, match builder (predicate []) req state node with
                          | Fits n => not_nan (cachedNodeScore n req) | _ => True end) hosts) as Hall.
  { constructor; [|constructor; [|constructor]]; vm_compute; discriminate. }
  rewrite Forall_forall in Hall. intros node n Hin Hb. specialize (Hall node Hin). cbv beta in Hall. by rewrite Hb in Hall.
Defined.

(** ** Binding what was filtered *)

Definition committed_pod : Pod := default train (head (fx_cache outcome.2)).
Definition api : BindApi :=
  {| get_pod _ name := if bool_decide (name = "train") then Ok committed_pod else Fail (None, "not found"); bind_pod _ := None |}.
#[export] Existing Instance api.
Definition binding : ExtenderBindingArgs :=
  {| ba_PodName := "train"; ba_PodNamespace := "default"; ba_PodUID := "uid-train"; ba_Node := "node-b" |}.

Lemma Bind_checked_witness :
  br_outcome (Bind binding) = BindSuccess ∧
  ∃ pod, get_pod "default" "train" = Ok pod ∧ p_UID pod = "uid-train" ∧
    (IsVGPUResourcePod pod = true →
       annotation pod PodPredicateNodeAnnotation ≠ "" ∧
       ((PodVGPUAccessMode pod).1 = AccessModeLocal → annotation pod PodPredicateNodeAnnotation = "node-b") ∧
       ShouldCountPodDeviceAllocation pod = true).
Proof.
  split; [vm_compute; reflexivity|].
  apply (proj1 (proj2 (proj2 (Bind_checked binding (Bind binding) eq_refl)))). vm_compute. reflexivity.
Defined.

(** ** Three steps of the cluster *)

Lemma server_merges : merge_patches.
Proof.
  intros pod patch pod' [= <-]. split; [by split|done|]. intros k Hk. simpl. unfold ClientDemo.merge.
  rewrite map_lookup_imap, lookup_union_r by done. rewrite lookup_fmap. by destruct (p_Annotations pod !! k).
Qed.

Lemma nodes_are_hosts name node : nodes !! name = Some node → node = host name.
Proof.
  unfold nodes. simpl. intros [[<- <-]|[_ [[<- <-]|[_ Hn]]%lookup_insert_Some]]%lookup_insert_Some; [done|done|].
  by rewrite lookup_empty in Hn.
Qed.

Lemma host_registry name : registry (host name) = cards.
Proof. reflexivity. Qed.

Lemma nodes_ok : cluster_ok nodes.
Proof.
  split; intros name node ->%nodes_are_hosts; [done| |]; rewrite host_registry.
  - exact EndToEndDemo.cards_ok.
  - unfold in64. refine (bool_decide_unpack _ _). vm_compute. done.
Qed.

Lemma train_modest : modest nodes train.
Proof.
  split.
  - unfold distinct_names. refine (bool_decide_unpack _ _). vm_compute. done.
  - refine (bool_decide_unpack _ _). vm_compute. done.
  - intros name node info x ->%nodes_are_hosts. rewrite host_registry. intros Hin.
    assert (Forall (λ info, Forall (λ x, 2 * total x (NewDevice info) ≤ int64_max) [Number; Cores; Memory]) cards) as Hall
      by (refine (bool_decide_unpack _ _); vm_compute; done).
    rewrite Forall_forall in Hall. specialize (Hall info Hin). rewrite Forall_forall in Hall. apply Hall. destruct x; set_solver.
  - assert (Forall (λ c, 0 ≤ GetResourceOfContainer c VGPUCoreResourceName ∧ 0 ≤ GetResourceOfContainer c VGPUMemoryResourceName ∧
      GetResourceOfContainer c VGPUMemoryResourceName * 1 ≤ int64_max) (p_InitContainers train ++ p_Containers train)) as Hall
      by (refine (bool_decide_unpack _ _); vm_compute; done).
    eapply Forall_impl; [exact Hall|]. intros c (? & ? & ?). split_and!; [done|done|].
    intros name node cfg ->%nodes_are_hosts [_ Hc]. vm_compute in Hc. by injection Hc as <-.
Qed.

Definition empty_world : world := {| w_time := 7 * Second; w_pods := [] |}.
Definition arrived : world := {| w_time := 7 * Second; w_pods := put [] train |}.
Definition allocated : world :=
  {| w_time := 7 * Second; w_pods := foldl put (put [] train)
       (fx_cache (gpuFilter_filter (predicate (put [] train)) cx args liveFilter no_effects).2) |}.
Definition bound : world := {| w_time := 7 * Second; w_pods := after_bind (w_pods allocated) binding (Bind binding) |}.

Lemma committed_in : head (w_pods allocated) = Some committed_pod ∧ p_NodeName committed_pod = "".
Proof. split; vm_compute; reflexivity. Qed.

Lemma api_get ns pod : @get_pod api ns "train" = Ok pod → pod = committed_pod.
Proof. intros E. exact (f_equal (λ r, match r with Ok p => p | Fail _ => pod end) (eq_sym E)). Qed.

Lemma bound_reachable : reachable clock nodes bound.
Proof.
  apply reach_step with allocated; [apply reach_step with arrived; [apply reach_step with empty_world; [apply reach_init|]|]|].
  - apply (step_arrive clock nodes empty_world train); [vm_compute; reflexivity|apply not_elem_of_nil].
  - apply (step_filter clock nodes arrived canonical_order in_order ClientDemo.server (predicate (put [] train)) cx args liveFilter).
    + exact server_merges.
    + done.
    + done.
    + constructor.
    + intros pod [= <-]. exact train_modest.
  - apply (step_bind clock nodes allocated ClientDemo.server api binding); [exact server_merges|]. split.
    + intros pod ->%api_get. apply head_Some_elem_of. exact (proj1 committed_in).
    + intros pod err Hf. discriminate Hf.
    + intros pod ->%api_get _. exact (proj2 committed_in).
Qed.

Lemma cluster_never_overcommits_witness :
  (p_NodeName <$> w_pods bound) = ["node-b"] ∧
  @occupancy (at_time clock (7 * Second)) (w_pods bound) "node-b" Memory "GPU-0" = 10000 ∧
  @occupancy (at_time clock (7 * Second)) (w_pods bound) "node-b" Memory "GPU-0" ≤ total Memory (NewDevice (card 0 0 24000)).
Proof.
  split; [vm_compute; reflexivity|]. split; [vm_compute; reflexivity|].
  apply (cluster_never_overcommits clock nodes bound "node-b" (host "node-b") (card 0 0 24000) Memory nodes_ok bound_reachable).
  - reflexivity.
  - rewrite host_registry. by left.
Defined.
End ClusterDemo.
