(* ===== verification/Preempt.v ===== *)
(** * Preemption ([pkg/scheduler/preempt/preempt_predicate.go])

    The extender's preempt verb: for every node the scheduler proposes with a
    set of victims, the allocator is asked whether the pod fits once they are
    gone; if not, further victims are added one by one.  [KubeletTypes] and
    [PdbLister] are the library functions it calls.  The event recorder is
    present, as the command sets it up; log lines and metrics are not
    modelled. *)

From stdpp Require Import base list gmap strings.
From Stdlib Require Import ZArith Lia.
From S2P Require Import Prelude GoMap GoSort GoStrings Float64 GoFmt GoTime Kube Claims Reason Links Topology Device.
From S2P Require Import Endpoint RemoteGpu.
From S2P Require Import Footprint NodeInfo Accounting Affinity Request Scoring Numa Tiered Allocator NodeCheck Gate.
From S2P Require Import Client Batch Filter.

Open Scope Z_scope.

(** [kubelettypes.Preemptable] and [corev1helpers.PodPriority]. *)
Class KubeletTypes : Type := {
  Preemptable : Pod → Pod → bool;
  PodPriority : Pod → Z;
  preemptable_lower preemptor preemptee :
    Preemptable preemptor preemptee = true →
    (p_IsCriticalPod preemptor = true ∧ p_IsCriticalPod preemptee = false) ∨
    ∃ a b, p_Priority preemptor = Some a ∧ p_Priority preemptee = Some b ∧ b < a
}.

Record PodDisruptionBudget := {
  pdb_DeletionTimestamp : option Z;
  pdb_DisruptedPods : gmap string Z;
  pdb_DisruptionsAllowed : Z
}.

Class PdbLister : Type := { GetPodPodDisruptionBudgets : Pod → result string (list PodDisruptionBudget) }.

(** Pods and whole entries may be [nil]. *)
Record Victims := { vi_Pods : list (option Pod); vi_NumPDBViolations : Z }.
Record MetaVictims := { mv_Pods : list (option string); mv_NumPDBViolations : Z }.

Record ExtenderPreemptionArgs := {
  pa_Pod : option Pod;
  pa_NodeNameToVictims : gmap string (option Victims);
  pa_NodeNameToMetaVictims : gmap string (option MetaVictims)
}.

(** The result carries one entry per node; an entry that was passed through may be [nil]. *)
Definition ExtenderPreemptionResult : Type := gmap string (option MetaVictims).

Inductive PreemptEvent := GangDisrupted (gangs : list string) | PreemptionFailed (candidates : Z).

Record vgpuPreempt := {
  vp_nodes : gmap string Node;
  vp_pods : list Pod;
  vp_gpuTopology : bool;
  vp_maxGoroutines : Z
}.

Section preempt.
Context `{Env} `{MapOrder} `{NodeDecoders} `{KubeLib} `{EndpointLib} `{KubeletTypes} `{PdbLister} `{Goroutines}.

(** ** Converting the arguments *)

Definition meta_of (uids : list (option string)) (violations : Z) : MetaVictims :=
  {| mv_Pods := uids; mv_NumPDBViolations := violations |}.

Definition uid_of (pod : option Pod) : option string := match pod with Some p => Some (p_UID p) | None => None end.
Definition has_nil (v : option Victims) : bool :=
  match v with Some vs => existsb (λ p, bool_decide (p = None)) (vi_Pods vs) | None => false end.

(** The victims as they are logged; [None] is the panic on a [nil] pod. *)
Definition NodeVictims (args : ExtenderPreemptionArgs) : option (gmap string (option MetaVictims)) :=
  if negb (bool_decide (pa_NodeNameToMetaVictims args = ∅)) then Some (pa_NodeNameToMetaVictims args)
  else if bool_decide (map_Forall (λ _ v, has_nil v = false) (pa_NodeNameToVictims args))
  then Some (omap (M := gmap string) (λ v, match v with
                        | Some vs => Some (Some (meta_of (uid_of <$> vi_Pods vs) (vi_NumPDBViolations vs)))
                        | None => None
                        end) (pa_NodeNameToVictims args))
  else None.

(** The uids of the pods that are not [nil]. *)
Definition present_uids (pods : list (option Pod)) : list (option string) :=
  filter (λ u, u ≠ None) (uid_of <$> pods).

Definition passthrough (args : ExtenderPreemptionArgs) : ExtenderPreemptionResult :=
  if negb (bool_decide (pa_NodeNameToMetaVictims args = ∅)) then pa_NodeNameToMetaVictims args
  else omap (M := gmap string) (λ v, match v with
                  | Some vs => Some (Some (meta_of (present_uids (vi_Pods vs)) (vi_NumPDBViolations vs)))
                  | None => None
                  end) (pa_NodeNameToVictims args).

(** The pods of a meta entry that the cache still has. *)
Definition resolve_meta (pods : list Pod) (meta : MetaVictims) : option Victims :=
  let found := omap (λ mp, match mp with
                           | Some uid => match ListByIndexValue pods IndexPodMetadataUid uid with
                                         | pod :: _ => Some (Some pod)
                                         | [] => None
                                         end
                           | None => None
                           end) (mv_Pods meta) in
  if bool_decide (length found = 0%nat) then None
  else Some {| vi_Pods := found; vi_NumPDBViolations := mv_NumPDBViolations meta |}.

Definition resolveVictimsMap (p : vgpuPreempt) (args : ExtenderPreemptionArgs) : gmap string (option Victims) :=
  if negb (bool_decide (pa_NodeNameToVictims args = ∅)) then pa_NodeNameToVictims args
  else omap (M := gmap string) (λ meta, match meta with
                     | Some m => match resolve_meta (vp_pods p) m with Some vs => Some (Some vs) | None => None end
                     | None => None
                     end) (pa_NodeNameToMetaVictims args).

(** ** Eligibility *)

Definition ProtectedTerminating : string := "terminating".
Definition ProtectedCritical : string := "critical".
Definition ProtectedDaemonSet : string := "daemonset".
Definition ProtectedBinding : string := "binding".
Definition ProtectedGangSibling : string := "gang_sibling".

Definition isProtectedFromPreemption (pod : Pod) (gangName : string) : option string :=
  if bool_decide (is_Some (p_DeletionTimestamp pod)) then Some ProtectedTerminating
  else if bool_decide (p_Phase pod = PodSucceeded) || bool_decide (p_Phase pod = PodFailed) then Some ProtectedTerminating
  else if p_IsCriticalPod pod then Some ProtectedCritical
  else if match p_GetControllerOf pod with Some owner => bool_decide (or_Kind owner = "DaemonSet") | None => false end
  then Some ProtectedDaemonSet
  else if bool_decide (p_NodeName pod = "") && ShouldCountPodDeviceAllocation pod then Some ProtectedBinding
  else if bool_decide (gangName ≠ "") && bool_decide (gangName = default "" (PodGangKey pod)) then Some ProtectedGangSibling
  else None.

Definition isPodAlreadyDisrupted (pod : Pod) (pdb : PodDisruptionBudget) : bool :=
  bool_decide (is_Some (pdb_DisruptedPods pdb !! p_Name pod)).

Definition pdb_blocks (pod : Pod) (pdb : PodDisruptionBudget) : bool :=
  if bool_decide (is_Some (pdb_DeletionTimestamp pdb)) then false
  else if isPodAlreadyDisrupted pod pdb then false
  else bool_decide (pdb_DisruptionsAllowed pdb ≤ 0).

Definition violationOfPDBs (pod : Pod) : bool :=
  match GetPodPodDisruptionBudgets pod with
  | Fail _ => false
  | Ok budgets => existsb (pdb_blocks pod) budgets
  end.

(** ** Order of the victims *)

Definition anchorComponentUUIDs (req : AllocationRequest) (n : NodeInfo) : gset string :=
  if bool_decide (BaseTopology (rq_Topology req) ≠ LinkTopology) || negb (HasGPUTopology n) then ∅
  else if negb (rq_CrossPodTopology req) || (bool_decide (rq_GangName req = "") && bool_decide (rq_ControllerOwner req = None))
  then ∅
  else
    match GangAnchorComponent n (rq_GangName req) (rq_ControllerOwner req) {[ p_UID (rq_Pod req) ]} with
    | Some root => list_to_set (ComponentUUIDs n root)
    | None =>
        match ComponentByDomain n (rq_GangDomainKey req) with
        | Some root => list_to_set (ComponentUUIDs n root)
        | None => ∅
        end
    end.

Definition on_target (targetUUIDs : gset string) (pod : Pod) : bool :=
  existsb (λ u, bool_decide (u ∈ targetUUIDs)) (PodPreAllocatedUUIDs pod).

(** [onTarget] is a map by uid: pods that share a uid share the flag. *)
Definition target_uids (targetUUIDs : gset string) (pods : list Pod) : gset string :=
  list_to_set (p_UID <$> filter (λ p, on_target targetUUIDs p = true) pods).

Definition victim_less (targets : gset string) (a b : Pod) : bool :=
  let at_ := bool_decide (p_UID a ∈ targets) in
  let bt := bool_decide (p_UID b ∈ targets) in
  if negb (Bool.eqb at_ bt) then at_
  else
    let aGang := bool_decide (is_Some (PodHasGangName a)) in
    let bGang := bool_decide (is_Some (PodHasGangName b)) in
    if negb (Bool.eqb aGang bGang) then negb aGang
    else if negb (bool_decide (PodPriority a = PodPriority b)) then bool_decide (PodPriority a < PodPriority b)
    else bool_decide (p_CreationTimestamp b < p_CreationTimestamp a).

Definition sortVictimsByPreference (pods : list Pod) (targetUUIDs : gset string) : list Pod :=
  let targets := if bool_decide (0 < size targetUUIDs)%nat then target_uids targetUUIDs pods else ∅ in
  sort_slice (victim_less targets) pods.

Definition is_candidate (req : AllocationRequest) (n : NodeInfo) (excludedUidSet : gset string) (candidate : Pod) : bool :=
  negb (bool_decide (p_UID candidate = p_UID (rq_Pod req)) || bool_decide (p_UID candidate ∈ excludedUidSet)) &&
  bool_decide (p_NodeName candidate = GetName n) && Preemptable (rq_Pod req) candidate &&
  bool_decide (isProtectedFromPreemption candidate (rq_GangName req) = None) && negb (violationOfPDBs candidate).

Definition findAdditionalVictims (req : AllocationRequest) (n : NodeInfo) (allVGPUPods : list Pod)
    (excludedUidSet : gset string) : list Pod :=
  sortVictimsByPreference (filter (λ c, is_candidate req n excludedUidSet c = true) allVGPUPods) (anchorComponentUUIDs req n).

(** ** One node *)

Definition pdbViolationsUpperBound (originalCount keptLen addedLen : Z) : Z :=
  let carriedOver := if bool_decide (keptLen < originalCount) then keptLen else originalCount in
  carriedOver +w addedLen.

Definition exclusion_options (excludedUidSet : gset string) : NodeInfoOption :=
  {| no_excludedUidSet := excludedUidSet; no_nodePods := []; no_nodeConfig := None; no_nodeDevice := None;
     no_resetUsed := true; no_resetPods := true; no_gpuTopologyEnabled := false |}.

Definition simulated : alloc_config := {| ac_recorder := false; ac_simulate := true |}.

(** The code of the refusal, the verdict, and the node as the attempt leaves it. *)
Definition canAllocate (req : AllocationRequest) (n : NodeInfo) (allVGPUPods : list Pod) (excludedUidSet : gset string)
  : Code * bool * NodeInfo :=
  let n := AddPodsUsedResources n allVGPUPods (exclusion_options excludedUidSet) in
  let '(out, s) := Allocate simulated req {| as_node := n; as_outcome := rq_topoOutcome req; as_events := [] |} in
  match out with
  | Broken _ => (AllocatorInternalError, false, as_node s)
  | Rejected r => (fr_Primary r, false, as_node s)
  | Done _ => ("", true, as_node s)
  end.

(** The checks that no eviction can help with; [true] drops the node. *)
Definition hopeless (req : AllocationRequest) (n : NodeInfo) : bool :=
  if IsRemoteServerNode (ni_node n) then true
  else if bool_decide (is_Some (CheckNode (ni_node n) [GetMemoryPolicyFunc (rq_Pod req)])) then true
  else if bool_decide (GetSchedulableDeviceCount n < cn_Number (rq_Max req)) then true
  else if bool_decide (GetMaxDeviceCores n < cn_Cores (rq_Max req)) then true
  else if bool_decide (GetMaxDeviceMemory n < cn_Memory (rq_Max req)) then true
  else if rq_CheckDeviceUuid req || rq_CheckDeviceType req then
    let matched := Z.of_nat (length (filter (λ dev, matches_constraints req dev = true) (range (ni_deviceMap n)).*2)) in
    bool_decide (matched < cn_Number (rq_Max req))
  else false.

(** The proposed victims that are not protected. *)
Definition evictable (req : AllocationRequest) (pods : list (option Pod)) : list Pod :=
  filter (λ v, isProtectedFromPreemption v (rq_GangName req) = None) (omap id pods).

(** Victims added one by one until the pod fits. *)
Fixpoint add_victims (req : AllocationRequest) (n : NodeInfo) (allVGPUPods : list Pod) (excludedUidSet : gset string)
    (keep additional : list Pod) : option (list Pod) :=
  match additional with
  | [] => None
  | cand :: rest =>
      let excludedUidSet := {[ p_UID cand ]} ∪ excludedUidSet in
      let keep := keep ++ [cand] in
      let '(_, ok, n) := canAllocate req n allVGPUPods excludedUidSet in
      if ok then Some keep else add_victims req n allVGPUPods excludedUidSet keep rest
  end.

Definition refineForNode (req : AllocationRequest) (n : NodeInfo) (victims : Victims) (allVGPUPods : list Pod)
  : option (list Pod * Z) :=
  if hopeless req n then None
  else
    let keep := evictable req (vi_Pods victims) in
    let excludedUidSet : gset string := list_to_set (p_UID <$> keep) in
    let keptFromInput := Z.of_nat (length keep) in
    let '(_, ok, n) := canAllocate req n allVGPUPods excludedUidSet in
    if ok then Some (keep, pdbViolationsUpperBound (vi_NumPDBViolations victims) keptFromInput 0)
    else
      let additional := findAdditionalVictims req n allVGPUPods excludedUidSet in
      match add_victims req n allVGPUPods excludedUidSet keep additional with
      | Some keep =>
          let added := Z.of_nat (length keep) - keptFromInput in
          Some (keep, pdbViolationsUpperBound (vi_NumPDBViolations victims) keptFromInput added)
      | None => None
      end.

(** ** The verb *)

(** The keys in the order the batches process them; [None] is a panic. *)
Definition in_batches (keys : list string) (maxGoroutines : Z) : option (list string) :=
  let len := Z.of_nat (length keys) in
  let batchSize := Z.quot (len + maxGoroutines - 1) maxGoroutines in
  batches ← BalanceBatches len batchSize;
  Some (concat (completion ((λ b, take (Z.to_nat (bc_EndIndex b + 1 - bc_StartIndex b)) (drop (Z.to_nat (bc_StartIndex b)) keys))
                  <$> batches))).

(** The nodes without pods, each with the demand of the request on it. *)
Definition build_node (p : vgpuPreempt) (req : AllocationRequest) (topologyEnabled : bool) (built : gmap string RankedNode)
    (nodeName : string) : result filter_error (gmap string RankedNode) :=
  match vp_nodes p !! nodeName with
  | None => Ok built
  | Some node =>
      if bool_decide (is_Some (n_DeletionTimestamp node)) then Ok built
      else
        match NewNodeInfo node (topology_options topologyEnabled) with
        | Fail ErrPanic => Fail ErrCrash
        | Fail _ => Ok built
        | Ok n => Ok (<[nodeName := {| rn_NodeInfo := n; rn_AllocationRequest := Some (ResetStatistics req n) |}]> built)
        end
  end.

Fixpoint build_nodes p req topologyEnabled (built : gmap string RankedNode) (names : list string)
  : result filter_error (gmap string RankedNode) :=
  match names with
  | [] => Ok built
  | name :: rest => let* built := build_node p req topologyEnabled built name in build_nodes p req topologyEnabled built rest
  end.

Definition refined_entry (refined : list Pod * Z) : MetaVictims :=
  meta_of ((λ vp, Some (p_UID vp)) <$> refined.1) refined.2.

(** The second pass, node by node: the result and the gangs hit. *)
Definition refine_step (req : AllocationRequest) (victimsMap : gmap string (option Victims)) (infos : gmap string RankedNode)
    (nodePodsMap : gmap string (list Pod)) (s : gmap string (option MetaVictims) * gset string) (nodeName : string)
  : gmap string (option MetaVictims) * gset string :=
  match victimsMap !! nodeName, infos !! nodeName with
  | Some (Some victims), Some info =>
      match refineForNode (default req (rn_AllocationRequest info)) (rn_NodeInfo info) victims (default [] (nodePodsMap !! nodeName)) with
      | None => s
      | Some ([], _) => s
      | Some refined => (<[nodeName := Some (refined_entry refined)]> s.1, list_to_set (omap PodGangKey refined.1) ∪ s.2)
      end
  | _, _ => s
  end.

Inductive preempt_outcome := PreemptPassthrough | PreemptNoVictims | PreemptVictims.

Record preempt_result := {
  pr_victims : ExtenderPreemptionResult;
  pr_events : list PreemptEvent;
  pr_outcome : preempt_outcome
}.

Definition pass (args : ExtenderPreemptionArgs) : result filter_error preempt_result :=
  Ok {| pr_victims := passthrough args; pr_events := []; pr_outcome := PreemptPassthrough |}.

(** The gang of the request decides the domain to aim at: computed on the
    request, after the per-node copies were taken. *)
Definition gang_keys (p : vgpuPreempt) (req : AllocationRequest) (infos : gmap string RankedNode)
  : result filter_error (string * string) :=
  let crossPodEnabled := vp_gpuTopology p && UsesLinkTiers (rq_Topology req) && bool_decide (BaseTopology (rq_Topology req) = LinkTopology) in
  if rq_CrossPodTopology req && crossPodEnabled &&
     (bool_decide (rq_GangName req ≠ "") || bool_decide (is_Some (rq_ControllerOwner req)))
  then FindGangSiblingDomain (gang_pods (vp_pods p) req) (rn_NodeInfo <$> infos) (vp_nodes p) req
  else Ok (rq_GangDomainKey req, rq_GangRailKey req).

Definition preempt_nodes (p : vgpuPreempt) (req : AllocationRequest) (victimsMap : gmap string (option Victims))
  : result filter_error preempt_result :=
  let nodePodsMap := NodeMapByIndexValue (vp_pods p) IndexPodRequestVGPU "true" in
  match in_batches (range_str victimsMap).*1 (vp_maxGoroutines p) with
  | None => Fail ErrCrash
  | Some victimKeys =>
      let topologyEnabled := vp_gpuTopology p && UsesLinkTiers (rq_Topology req) in
      let* infos := build_nodes p req topologyEnabled ∅ victimKeys in
      let* keys := gang_keys p req infos in
      let req := with_gang_keys req keys.1 keys.2 in
      let '(victims, gangs) := fold_left (refine_step req victimsMap infos nodePodsMap) victimKeys (∅, ∅) in
      Ok {| pr_victims := victims;
            pr_events := (if bool_decide (gangs = ∅) then [] else [GangDisrupted (sort_strings (elements gangs))]) ++
                         (if bool_decide (victims = ∅) then [PreemptionFailed (Z.of_nat (size victimsMap))] else []);
            pr_outcome := if bool_decide (victims = ∅) then PreemptNoVictims else PreemptVictims |}
  end.

Definition Preempt (p : vgpuPreempt) (args : ExtenderPreemptionArgs) : result filter_error preempt_result :=
  match NodeVictims args with
  | None => Fail ErrCrash
  | Some _ =>
      match pa_Pod args with
      | None => pass args
      | Some pod =>
          let req := BuildAllocationRequest pod in
          if bool_decide (rq_Containers req = []) then pass args
          else if bool_decide (rq_AccessMode req = AccessModeRemote) then pass args
          else
            let victimsMap := resolveVictimsMap p args in
            if bool_decide (victimsMap = ∅)
            then Ok {| pr_victims := ∅; pr_events := []; pr_outcome := PreemptNoVictims |}
            else preempt_nodes p req victimsMap
      end
  end.
End preempt.
