(* ===== verification/PreemptSpec.v ===== *)
(** * What preemption promises

    Trying a node leaves nothing behind ([reaccount]); the refined victims
    are the shortest acceptable prefix of the preference order
    ([refine_reference]); once they are gone the pod fits beside the pods
    that stay. *)

From stdpp Require Import base list gmap strings.
From Stdlib Require Import ZArith Lia.
From S2P Require Import Prelude GoMap GoSort GoStrings Float64 GoFmt GoTime Kube Claims Reason Links Topology Device.
From S2P Require Import Footprint NodeInfo Accounting Affinity Request Scoring SubsetSearch Numa Tiered Allocator.
From S2P Require Import Endpoint RemoteGpu.
From S2P Require Import AllocatorSpec Placement NodeBuild EndToEnd NodeCheck Gate Client Batch Filter.
From S2P Require Import FilterSpec Commit Cluster Preempt.

Open Scope Z_scope.

(** ** Accounting a node again *)

(** The node with the pods that stay once [excluded] are gone. *)
Definition reaccount `{Env} `{MapOrder} (n : NodeInfo) (pods : list Pod) (excluded : gset string) : NodeInfo :=
  AddPodsUsedResources n pods (exclusion_options excluded).

Section reaccount.
Context `{Env} `{MapOrder}.

(** Counters and pods of the last attempt are wiped first. *)
Lemma reaccount_same n n' pods excluded : same_node n n' → reaccount n' pods excluded = reaccount n pods excluded.
Proof.
  intros Hs. pose proof (same_node_node _ _ Hs) as Hnode. destruct Hs as [Hrest Hdev].
  apply with_state_inj in Hrest as [Hstats Hrest]. unfold reaccount, AddPodsUsedResources, exclusion_options, GetName. simpl.
  rewrite Hnode. f_equal. unfold resetResourceUsage. simpl. rewrite Hstats.
  assert (ResetUsed <$> ni_deviceMap n' = ResetUsed <$> ni_deviceMap n) as ->.
  { apply map_eq. intros id. rewrite !lookup_fmap. specialize (Hdev id). inversion Hdev as [d d' Hc|]; simpl; [|done]. by f_equal. }
  unfold with_state in *. simpl in *. symmetry. apply (Hrest _ _ []).
Qed.

Lemma reset_device n id d : ni_deviceMap (resetResourceUsage n) !! id = Some d → ∀ x, used x d = 0.
Proof. simpl. rewrite lookup_fmap. intros (d0 & _ & ->)%fmap_Some x. by destruct x. Qed.

Lemma reset_same n : same_node n (resetResourceUsage (with_state n (ni_deviceMap n) (ni_stats n) [])).
Proof.
  split; [done|]. intros id. simpl. rewrite lookup_fmap. destruct (ni_deviceMap n !! id); simpl; by constructor.
Qed.

Lemma fold_same {A} (f : NodeInfo → A → NodeInfo) l n : (∀ n a, same_node n (f n a)) → same_node n (fold_left f l n).
Proof. intros Hf. revert n. induction l as [|a l IH]; intros n; [done|]. simpl. etrans; [apply Hf|apply IH]. Qed.

Lemma add_pod_same n pod : same_node n (AddPodUsedResources n pod).
Proof.
  assert (∀ n u a b c, same_node n (or_skip n (add_occupancy n u a b c))) as Hstep.
  { intros n0 u a b c. destruct (add_occupancy n0 u a b c) eqn:E; [|done]. by apply add_occupancy_counters in E as [? _]. }
  unfold AddPodUsedResources. destruct (negb _); [done|]. cbv zeta. destruct (bool_decide _); [done|].
  destruct (podHasVGPUInitContainer pod); repeat (apply fold_same; intros ? ?); apply Hstep.
Qed.

Lemma reaccount_keeps n pods excluded : same_node n (reaccount n pods excluded).
Proof.
  etrans; [apply reset_same|]. apply (fold_same (λ n pod, _)). intros n0 pod. destruct (bool_decide _); [done|].
  etrans; [apply same_node_pods|apply add_pod_same].
Qed.

(** Every counter is what the pods that stay reserve. *)
Lemma reaccount_occupied n pods excluded :
  node_indexed n → pods_ok (counted_pods pods (GetName n) excluded) →
  same_node n (reaccount n pods excluded) ∧
  ∀ id d, ni_deviceMap (reaccount n pods excluded) !! id = Some d →
    ∀ x, used x d = pods_reserve x (d_uuid d) (counted_pods pods (GetName n) excluded).
Proof.
  intros Hn [Hpok Hpb]. pose proof (reset_same n) as Hs0. set (n0 := resetResourceUsage _) in Hs0.
  assert (occupied_by n0 (reaccount n pods excluded)
    (λ x u, pods_reserve x u (counted_pods pods (GetName n) excluded))) as [Hs Hocc].
  { apply add_pods_fold; [by eapply same_node_indexed| |done].
    intros id d x Hd. by rewrite (reset_device _ _ _ Hd x). }
  split; [by etrans|]. intros id d' Hd' x. symmetry in Hs. destruct (same_node_lookup _ _ _ _ Hs Hd') as (d & Hd & Hc).
  destruct (Hocc _ _ Hd) as (d2 & Hd2 & Hu). simplify_eq. destruct (same_card_fields _ _ Hc) as (_ & Huu & _).
  rewrite Hu, (reset_device _ _ _ Hd x), <- Huu. apply wrap64_id.
  pose proof (pods_reserve_nonneg x (d_uuid d') _ Hpok). pose proof (Hpb x (d_uuid d')).
  unfold in64, int64_min, int64_max in *. lia.
Qed.

Lemma reaccount_sound n pods excluded :
  sound_node n → pods_ok (counted_pods pods (GetName n) excluded) → sound_node (reaccount n pods excluded).
Proof.
  intros [Hok Hwf Hmax] Hp. destruct (reaccount_occupied n pods excluded (no_indexed _ Hok) Hp) as [Hs Hu].
  destruct (same_node_config _ _ Hs) as (_ & _ & Hm & _). split; [by eapply node_ok_same| |by rewrite <- Hm].
  intros id d Hd x. rewrite (Hu _ _ Hd x). symmetry in Hs. destruct (same_node_lookup _ _ _ _ Hs Hd) as (d0 & Hd0 & Hc).
  rewrite (same_card_total x _ _ Hc). destruct Hp as [Hpok Hpb]. split; [|by apply Hwf in Hd0; apply (Hd0 x)].
  split; [by apply pods_reserve_nonneg|apply Hpb].
Qed.

(** Fewer pods reserve less. *)
Lemma counted_excluded pods nodeName excluded :
  counted_pods pods nodeName excluded = filter (λ p, p_UID p ∉ excluded) (counted_pods pods nodeName ∅).
Proof.
  unfold counted_pods. rewrite list_filter_filter. apply list_filter_iff. intros p. set_solver.
Qed.

Lemma pods_reserve_filter x u (P : Pod → Prop) `{∀ p, Decision (P p)} pods :
  Forall pod_claims_ok pods → pods_reserve x u (filter P pods) ≤ pods_reserve x u pods.
Proof.
  unfold pods_reserve. induction 1 as [|p l [Hb _] Hl IH]; [done|]. rewrite filter_cons, !fmap_cons, Zsum_cons.
  pose proof (reserve_nonneg x u p _ Hb). destruct (decide (P p)); [rewrite fmap_cons, Zsum_cons|]; lia.
Qed.

Lemma pods_ok_excluded pods nodeName excluded :
  pods_ok (counted_pods pods nodeName ∅) → pods_ok (counted_pods pods nodeName excluded).
Proof.
  intros [Hok Hb]. rewrite counted_excluded. split; [by apply Forall_filter|]. intros x u.
  etrans; [by apply pods_reserve_filter|apply Hb].
Qed.
End reaccount.

(** ** The victims of one node *)
Section refine.
Context `{Env} `{MapOrder} `{NodeDecoders} `{KubeLib} `{EndpointLib} `{KubeletTypes} `{PdbLister}.
Context (req : AllocationRequest) (n : NodeInfo) (pods : list Pod).

Definition uids (victims : list Pod) : gset string := list_to_set (p_UID <$> victims).

Definition after (victims : list Pod) : NodeInfo := reaccount n pods (uids victims).

(** The allocator serves the pod on the node without [victims]. *)
Definition accepts (victims : list Pod) : bool :=
  match (Allocate simulated req {| as_node := after victims; as_outcome := rq_topoOutcome req; as_events := [] |}).1 with
  | Done _ => true
  | _ => false
  end.

Definition further (base : list Pod) : list Pod := findAdditionalVictims req (after base) pods (uids base).

(** The fewest further victims, in order of preference, that make room. *)
Definition refine_reference (victims : Victims) : option (list Pod * Z) :=
  if hopeless req n then None
  else
    let base := evictable req (vi_Pods victims) in
    k ← find (λ k, accepts (base ++ take k (further base))) (seq 0 (S (length (further base))));
    Some (base ++ take k (further base),
          pdbViolationsUpperBound (vi_NumPDBViolations victims) (Z.of_nat (length base)) (Z.of_nat k)).

Lemma canAllocate_accepts victims n' :
  same_node n n' →
  ∃ c n2, canAllocate req n' pods (uids victims) = (c, accepts victims, n2) ∧ counters_only (after victims) n2.
Proof.
  intros Hs. unfold canAllocate, accepts, after. rewrite <- (reaccount_same n n') by done.
  change (AddPodsUsedResources n' pods (exclusion_options (uids victims))) with (reaccount n' pods (uids victims)).
  set (s := {| as_node := _ |}). pose proof (identity_allocate simulated req s) as Hid.
  destruct (Allocate simulated req s) as [[p|r|e] s']; simpl in *; eauto.
Qed.

Lemma additional_same n1 n2 excluded :
  counters_only n1 n2 → findAdditionalVictims req n2 pods excluded = findAdditionalVictims req n1 pods excluded.
Proof.
  intros [[Hs _] Hp]. destruct n1, n2. unfold with_state in Hs. simpl in *. injection Hs. intros. subst. reflexivity.
Qed.

Lemma uids_snoc keep cand : {[ p_UID cand ]} ∪ uids keep = uids (keep ++ [cand]).
Proof. unfold uids. rewrite fmap_app, list_to_set_app_L. simpl. set_solver. Qed.

Lemma add_victims_find extra keep n' :
  same_node n n' →
  add_victims req n' pods (uids keep) keep extra =
  (λ k, keep ++ take k extra) <$> find (λ k, accepts (keep ++ take k extra)) (seq 1 (length extra)).
Proof.
  revert keep n'. induction extra as [|cand extra IH]; intros keep n' Hs; [done|].
  cbn [add_victims length seq find]. rewrite uids_snoc.
  destruct (canAllocate_accepts (keep ++ [cand]) n' Hs) as (c & n2 & -> & [Hc _]).
  change (take 1 (cand :: extra)) with [cand]. destruct (accepts (keep ++ [cand])); [done|].
  rewrite IH by (etrans; [apply reaccount_keeps|exact Hc]). rewrite <- (seq_shift _ 1).
  generalize (seq 1 (length extra)). intros l.
  induction l as [|k l IHl]; [done|]. simpl. rewrite <- app_assoc. simpl.
  destruct (accepts (keep ++ cand :: take k extra)); [simpl; by rewrite <- app_assoc|exact IHl].
Qed.

Lemma refine_greedy victims : refineForNode req n victims pods = refine_reference victims.
Proof.
  unfold refineForNode, refine_reference. destruct (hopeless req n); [done|]. set (base := evictable req _).
  destruct (canAllocate_accepts base n) as (c & n2 & E & Hc); [done|]. unfold uids in E. rewrite E. clear E. cbv zeta.
  cbn [seq find]. rewrite take_0, app_nil_r. destruct (accepts base); [simpl; by rewrite take_0, app_nil_r|].
  rewrite (additional_same _ _ _ Hc). change (list_to_set (p_UID <$> base)) with (uids base).
  change (findAdditionalVictims req (after base) pods (uids base)) with (further base).
  rewrite add_victims_find by (etrans; [apply reaccount_keeps|apply Hc]).
  destruct (find _ (seq 1 _)) as [k|] eqn:Ef; [|done]. simpl. do 3 f_equal.
  apply find_some in Ef as [Hin _]. apply in_seq in Hin. rewrite length_app, length_take. lia.
Qed.
End refine.

(** ** Which pods may be evicted *)
Section policy.
Context `{Env} `{MapOrder} `{NodeDecoders} `{KubeLib} `{EndpointLib} `{KubeletTypes} `{PdbLister}.

(** A proposed victim, or one of the node's own pods that the preemptor
    outranks and no disruption budget holds. *)
Record victim_ok (req : AllocationRequest) (name : string) (proposed : list (option Pod)) (pods : list Pod) (v : Pod) : Prop := {
  vk_free : isProtectedFromPreemption v (rq_GangName req) = None;
  vk_source : Some v ∈ proposed ∨
    (v ∈ pods ∧ p_UID v ≠ p_UID (rq_Pod req) ∧ p_NodeName v = name ∧ Preemptable (rq_Pod req) v = true ∧
     violationOfPDBs v = false)
}.

Lemma evictable_ok req name pods proposed : Forall (victim_ok req name proposed pods) (evictable req proposed).
Proof.
  apply Forall_forall. intros v [Hv Hin]%list_elem_of_filter. apply list_elem_of_omap in Hin as (o & Hin & Ho).
  simpl in Ho. subst o. split; [done|by left].
Qed.

Lemma further_ok req n pods proposed excluded :
  Forall (victim_ok req (GetName n) proposed pods) (findAdditionalVictims req n pods excluded).
Proof.
  apply Forall_forall. intros v Hv. unfold findAdditionalVictims, sortVictimsByPreference in Hv. rewrite sort_slice_perm in Hv.
  apply list_elem_of_filter in Hv as [Hc Hin]. unfold is_candidate in Hc.
  rewrite !andb_true_iff, !negb_true_iff, orb_false_iff, !bool_decide_eq_true, !bool_decide_eq_false in Hc.
  destruct_and! Hc. split; [done|]. right. split_and!; done.
Qed.

Lemma refined_ok req n victims pods vs viol :
  refineForNode req n victims pods = Some (vs, viol) →
  accepts req n pods vs = true ∧ Forall (victim_ok req (GetName n) (vi_Pods victims) pods) vs.
Proof.
  rewrite refine_greedy. unfold refine_reference. destruct (hopeless req n); [done|].
  set (base := evictable _ _). destruct (find _ _) as [k|] eqn:Ef; [|done]. simpl. intros [= <- _].
  apply find_some in Ef as [_ Hacc]. split; [done|]. apply Forall_app. split; [apply evictable_ok|].
  apply Forall_take. unfold further. replace (GetName n) with (GetName (after n pods base)); [apply further_ok|].
  unfold GetName, after. by rewrite <- (same_node_node _ _ (reaccount_keeps n pods (uids base))).
Qed.

(** C10 The victims of a node are the proposed ones that are not protected,
    followed by the fewest further pods, taken in order of preference, whose
    removal lets the allocator place the pod; there are none exactly when
    even all of them would not help.  That each attempt reuses the node the
    last one left does not show. *)
Theorem refineForNode_greedy req n victims pods :
  refineForNode req n victims pods = refine_reference req n pods victims.
Proof. apply refine_greedy. Qed.
End policy.

(** ** The whole verb *)
Section room.
Context `{Env} `{MapOrder} `{NodeDecoders} `{KubeLib} `{EndpointLib} `{KubeletTypes} `{PdbLister}.
Context (nodes : gmap string Node) (pods : list Pod) (pod : Pod).
Context (Hok : cluster_ok nodes) (Hw : within nodes pods) (Hpod : modest nodes pod).
Context (name : string) (node : Node) (topo : bool) (n : NodeInfo).
Context (Hnode : nodes !! name = Some node) (Hnew : NewNodeInfo node (topology_options topo) = Ok n).

Definition pods_of : list Pod := default [] (NodeMapByIndexValue pods IndexPodRequestVGPU "true" !! name).

Lemma empty_registry : device_infos node (topology_options topo) = Some (registry node).
Proof.
  unfold NewNodeInfo in Hnew. destruct (NewNodeDeviceGatherInfo node _) as [g|e] eqn:Eg; [|done].
  apply gather_registered in Eg as (infos & Hi & _). unfold device_infos, registry in *. simpl in *.
  case_bool_decide; [done|]. by rewrite Hi.
Qed.

Lemma empty_fresh : fresh_node (registry node) [] n.
Proof.
  apply (newnode_fresh node (topology_options topo)); [exact empty_registry|by eapply co_registry|done..|by split| exact Hnew].
Qed.

Lemma empty_name : GetName n = name.
Proof.
  unfold GetName. rewrite (NewNodeInfo_node _ _ _ Hnew). by eapply co_names.
Qed.

Lemma staying_le excluded x u :
  pods_reserve x u (counted_pods pods_of name excluded) ≤ gpu_capacity node x u.
Proof.
  unfold pods_of. rewrite occupancy_excluded. etrans; [apply occupancy_filter, (wi_claims _ _ Hw)|]. by apply (wi_fit _ _ Hw).
Qed.

Lemma staying_ok excluded : pods_ok (counted_pods pods_of name excluded).
Proof.
  split.
  - unfold counted_pods, PodsOnNode, pods_of. rewrite node_map_lookup. unfold ListByIndexValue.
    repeat apply Forall_filter. apply (wi_claims _ _ Hw).
  - intros x u. etrans; [apply staying_le|]. by eapply capacity_bound, (co_registry _ Hok).
Qed.

(** The pod has room beside the pods that stay. *)
Definition has_room (victims : list Pod) (claims : PodDeviceClaim) : Prop :=
  ∀ info x, info ∈ registry node →
    occupancy (filter (λ p, p_UID p ∉ uids victims) pods) name x (di_Uuid info) + reserve x pod claims (di_Uuid info)
    ≤ gpu_capacity node x (di_Uuid info).

Lemma accepts_room req victims :
  built req → rq_Pod req = pod → accepts req n pods_of victims = true →
  ∃ claims, Forall2 container_served (rq_Containers req) claims ∧ has_room victims claims.
Proof.
  intros Hb Hr Hacc. unfold accepts in Hacc. set (s := {| as_node := _ |}) in Hacc.
  destruct (Allocate simulated req s) as [[newPod|r|e] s'] eqn:Ha; [|done..].
  pose proof (staying_ok (uids victims)) as Hst. rewrite <- empty_name in Hst.
  assert (sound_node n) as Hn by (eapply fresh_sound; [by eapply co_registry| |exact empty_fresh]; by split).
  assert (sound_node (as_node s)) as Hs by by apply reaccount_sound.
  destruct (reaccount_occupied n pods_of (uids victims) (no_indexed _ (sn_ok _ Hn)) Hst) as [Hsame Hused].
  assert (limits_ok (as_node s) (rq_Pod req)) as Hlim.
  { rewrite Hr. eapply Forall_impl; [exact (md_limits _ _ Hpod)|]. intros c (? & ? & Hm). split_and!; [done|done|].
    apply (Hm name node); [done|]. destruct (same_node_config _ _ Hsame) as [Hcfg _]. simpl. unfold after.
    rewrite <- Hcfg. exact (newnode_config _ _ _ Hnew). }
  assert (distinct_names (rq_Pod req)) as Hnames by (rewrite Hr; apply (md_names _ _ Hpod)).
  destruct (allocate_placed _ _ _ _ _ Hb Hnames Hs Hlim Ha) as (claims & _ & [Hall Hfit] & _).
  exists claims. split; [eapply Forall2_impl; [exact Hall|]; intros need claim; apply placed_served|].
  intros info x Hin. destruct empty_fresh as [Hdev _ _ _ _]. destruct (Hdev info Hin) as (d & Hd & Hc & _).
  destruct (same_node_lookup _ _ _ _ Hsame Hd) as (d' & Hd' & Hc').
  assert (same_card d' (NewDevice info)) as Hcard by (etrans; [symmetry; exact Hc'|exact Hc]).
  assert (d_uuid d' = di_Uuid info) as Hu by by apply same_card_fields in Hcard as (_ & -> & _).
  specialize (Hfit _ d' x Hd'). rewrite Hr, Hu, (Hused _ _ Hd' x), Hu, (same_card_total x _ _ Hcard), empty_name in Hfit.
  pose proof (staying_le (uids victims) x (di_Uuid info)) as Hle. unfold pods_of in *. rewrite occupancy_excluded in *.
  rewrite (capacity_registered _ _ _ (co_registry _ Hok _ _ Hnode) Hin) in *. lia.
Qed.
End room.

Section verb.
Context `{Env} `{MapOrder} `{NodeDecoders} `{KubeLib} `{EndpointLib} `{KubeletTypes} `{PdbLister} `{Goroutines}.
Context (p : vgpuPreempt).

(** The nodes built hold no pods yet; each carries its own copy of the request. *)
Definition built_for (req : AllocationRequest) (topo : bool) (name : string) (info : RankedNode) : Prop :=
  ∃ node, vp_nodes p !! name = Some node ∧ NewNodeInfo node (topology_options topo) = Ok (rn_NodeInfo info) ∧
          rn_AllocationRequest info = Some (ResetStatistics req (rn_NodeInfo info)).

Lemma build_nodes_spec req topo names built infos :
  map_Forall (built_for req topo) built → build_nodes p req topo built names = Ok infos → map_Forall (built_for req topo) infos.
Proof.
  revert built. induction names as [|name names IH]; intros built Hb; simpl; [by intros [= <-]|].
  destruct (build_node p req topo built name) as [built'|e] eqn:E; [|done]. cbn [rbind]. apply IH. clear IH.
  unfold build_node in E. destruct (vp_nodes p !! name) as [node|] eqn:En; [|by simplify_eq].
  destruct (bool_decide _); [by simplify_eq|]. destruct (NewNodeInfo node _) as [n|[]] eqn:Enew; simplify_eq; try done.
  apply map_Forall_insert_2; [|done]. exists node. done.
Qed.

(** Every entry of the result is the refinement of its node. *)
Lemma refine_steps_spec req victimsMap infos podsMap names s :
  let result := fold_left (refine_step req victimsMap infos podsMap) names s in
  ∀ name mv, result.1 !! name = Some mv → s.1 !! name = Some mv ∨
    ∃ victims info refined, victimsMap !! name = Some (Some victims) ∧ infos !! name = Some info ∧
      refineForNode (default req (rn_AllocationRequest info)) (rn_NodeInfo info) victims (default [] (podsMap !! name)) = Some refined ∧
      refined.1 ≠ [] ∧ mv = Some (refined_entry refined).
Proof.
  revert s. induction names as [|nm names IH]; intros s; simpl; [by left|]. intros name mv Hmv.
  destruct (IH _ _ _ Hmv) as [Hs|]; [|by right]. clear IH Hmv. unfold refine_step in Hs.
  destruct (victimsMap !! nm) as [[victims|]|] eqn:Ev; [|by left..].
  destruct (infos !! nm) as [info|] eqn:Ei; [|by left].
  destruct (refineForNode _ _ _ _) as [[[|v vs] viol]|] eqn:Er; [by left| |by left]. simpl in Hs.
  destruct (decide (nm = name)) as [->|Hne]; [|rewrite lookup_insert_ne in Hs by done; by left].
  rewrite lookup_insert_eq in Hs. injection Hs as <-. right. by exists victims, info, (v :: vs, viol).
Qed.

(** The domain the gang's siblings voted for never reaches a node: each
    refinement reads the copy of the request taken before the vote. *)
Lemma gang_keys_unused req topo victimsMap infos podsMap names s k1 k2 :
  map_Forall (built_for req topo) infos →
  fold_left (refine_step (with_gang_keys req k1 k2) victimsMap infos podsMap) names s
  = fold_left (refine_step req victimsMap infos podsMap) names s.
Proof.
  intros Hb. revert s. induction names as [|name names IH]; intros s; simpl; [done|]. rewrite IH. f_equal.
  unfold refine_step. destruct (victimsMap !! name) as [[v|]|]; [|done..].
  destruct (infos !! name) as [info|] eqn:Ei; [|done]. destruct (Hb _ _ Ei) as (node & _ & _ & ->). done.
Qed.

Lemma preempt_entry args r name mv :
  Preempt p args = Ok r → pr_outcome r = PreemptVictims → pr_victims r !! name = Some mv →
  ∃ pod node topo n victims refined, pa_Pod args = Some pod ∧ vp_nodes p !! name = Some node ∧
    NewNodeInfo node (topology_options topo) = Ok n ∧ resolveVictimsMap p args !! name = Some (Some victims) ∧
    refineForNode (ResetStatistics (BuildAllocationRequest pod) n) n victims (pods_of (vp_pods p) name) = Some refined ∧
    refined.1 ≠ [] ∧ mv = Some (refined_entry refined).
Proof.
  unfold Preempt, pass. destruct (NodeVictims args); [|done]. destruct (pa_Pod args) as [pod|]; [|by intros [= <-]].
  cbv zeta. destruct (bool_decide _); [by intros [= <-]|]. destruct (bool_decide _); [by intros [= <-]|].
  destruct (bool_decide _); [by intros [= <-]|]. unfold preempt_nodes. destruct (in_batches _ _) as [keys|]; [|done].
  set (topo := vp_gpuTopology p && _). destruct (build_nodes p _ topo ∅ keys) as [infos|e] eqn:Eb; [|done]. cbn [rbind].
  destruct (gang_keys p _ infos) as [gk|e]; [|done]. cbn [rbind].
  set (req' := with_gang_keys _ _ _). destruct (fold_left _ keys _) as [vs gangs] eqn:Ef.
  intros [= <-] _ Hmv. simpl in Hmv.
  pose proof (refine_steps_spec req' (resolveVictimsMap p args) infos
    (NodeMapByIndexValue (vp_pods p) IndexPodRequestVGPU "true") keys (∅, ∅)) as Hsteps. cbv zeta in Hsteps. rewrite Ef in Hsteps.
  destruct (Hsteps name mv Hmv) as [Hno|(victims & info & refined & Hv & Hi & Href & Hne & ->)]; [simpl in Hno; by apply lookup_empty_Some in Hno|].
  apply build_nodes_spec in Eb; [|apply map_Forall_empty]. destruct (Eb _ _ Hi) as (node & Hnode & Hnew & Hr).
  rewrite Hr in Href. exists pod, node, topo, (rn_NodeInfo info), victims, refined. done.
Qed.

End verb.
