(* ===== verification/PreemptDemo.v ===== *)
(** * A preemption on the concrete cluster

    Four pods hold the cards of one node; a pod of higher priority that asks
    for two NVLink-connected cards evicts two of them, one of which the
    scheduler had proposed. *)

From stdpp Require Import base list gmap strings.
From Stdlib Require Import ZArith Lia.
From S2P Require Import Prelude GoMap GoSort GoStrings Float64 GoFmt GoTime Kube Claims Reason Links Topology Device.
From S2P Require Import Footprint NodeInfo Accounting Affinity Request Scoring SubsetSearch DemoNode Numa Tiered Allocator.
From S2P Require Import Endpoint RemoteGpu.
From S2P Require Import AllocatorSpec Placement NodeBuild EndToEnd NodeCheck Gate Client Batch Filter FilterSpec Commit.
From S2P Require Import Cluster ClusterDemo Preempt PreemptSpec.

Open Scope Z_scope.

Module PreemptDemo.
Import DemoNode ClusterDemo.

Definition prioritised (p : Pod) (priority : Z) (node : string) : Pod :=
  {| p_Name := p_Name p; p_Namespace := p_Namespace p; p_UID := p_UID p; p_Labels := p_Labels p;
     p_Annotations := p_Annotations p; p_OwnerReferences := p_OwnerReferences p; p_GetControllerOf := p_GetControllerOf p;
     p_DeletionTimestamp := p_DeletionTimestamp p; p_NodeName := node; p_Containers := p_Containers p;
     p_InitContainers := p_InitContainers p; p_PodGroupName := p_PodGroupName p; p_Phase := p_Phase p;
     p_StatusReason := p_StatusReason p; p_ContainerStatuses := p_ContainerStatuses p;
     p_InitContainerStatuses := p_InitContainerStatuses p; p_PodScheduledCondition := p_PodScheduledCondition p;
     p_OS := p_OS p; p_Priority := Some priority; p_CreationTimestamp := p_CreationTimestamp p;
     p_Tolerations := p_Tolerations p; p_IsCriticalPod := p_IsCriticalPod p; p_Rest := p_Rest p |}.

Definition outranks (a b : Pod) : bool :=
  match p_Priority a, p_Priority b with Some x, Some y => bool_decide (y < x) | _, _ => false end.

#[export] Program Instance kubelet : KubeletTypes :=
  {| Preemptable := outranks; PodPriority p := default 0 (p_Priority p) |}.
Next Obligation.
  intros a b. unfold outranks. destruct (p_Priority a) as [x|], (p_Priority b) as [y|]; [|done..].
  intros ?%bool_decide_eq_true. right. eauto.
Qed.
#[export] Instance no_budgets : PdbLister := {| GetPodPodDisruptionBudgets _ := Ok [] |}.

(** One pod per card, bound and counted. *)
Definition resident (i : Z) : Pod :=
  prioritised (Demo.pod ("r" +:+ Itoa i)
    [(PodVGPUPreAllocAnnotation, "main[" +:+ Itoa i +:+ "_GPU-" +:+ Itoa i +:+ "_80_20000]"); (PodPredicateNodeAnnotation, "node-b")]
    [] [Demo.container "main" (limits 1 80 20000)]) i "node-b".

Definition residents : list Pod := resident <$> [0; 1; 2; 3].
Definition urgent : Pod := prioritised train 10 "".

Definition extender : vgpuPreempt :=
  {| vp_nodes := nodes; vp_pods := residents; vp_gpuTopology := true; vp_maxGoroutines := 8 |}.
Definition request : ExtenderPreemptionArgs :=
  {| pa_Pod := Some urgent;
     pa_NodeNameToVictims := {[ "node-b" := Some {| vi_Pods := [Some (resident 1)]; vi_NumPDBViolations := 0 |} ]};
     pa_NodeNameToMetaVictims := ∅ |}.

Definition answer : preempt_result :=
  match Preempt extender request with
  | Ok r => r
  | Fail _ => {| pr_victims := ∅; pr_events := []; pr_outcome := PreemptPassthrough |}
  end.

Lemma answered : Preempt extender request = Ok answer ∧ pr_outcome answer = PreemptVictims ∧
  pr_victims answer !! "node-b" = Some (Some {| mv_Pods := [Some "uid-r1"; Some "uid-r0"]; mv_NumPDBViolations := 1 |}).
Proof. split_and!; vm_compute; reflexivity. Qed.

(** A node that already has room, whose only proposed victim is protected, is
    left out of the answer instead of being kept as it is. *)
Definition terminating : Pod :=
  {| p_Name := "r9"; p_Namespace := "default"; p_UID := "uid-r9"; p_Labels := ∅; p_Annotations := ∅; p_OwnerReferences := [];
     p_GetControllerOf := None; p_DeletionTimestamp := Some 1; p_NodeName := "node-a"; p_Containers := []; p_InitContainers := [];
     p_PodGroupName := None; p_Phase := "Running"; p_StatusReason := ""; p_ContainerStatuses := []; p_InitContainerStatuses := [];
     p_PodScheduledCondition := None; p_OS := None; p_Priority := Some 0; p_CreationTimestamp := 0; p_Tolerations := [];
     p_IsCriticalPod := false; p_Rest := Demo.rest |}.

Definition spared : ExtenderPreemptionArgs :=
  {| pa_Pod := Some urgent;
     pa_NodeNameToVictims := {[ "node-a" := Some {| vi_Pods := [Some terminating]; vi_NumPDBViolations := 0 |} ]};
     pa_NodeNameToMetaVictims := ∅ |}.

Lemma protected_only_dropped :
  Preempt extender spared = Ok {| pr_victims := ∅; pr_events := [PreemptionFailed 1]; pr_outcome := PreemptNoVictims |} ∧
  match NewNodeInfo (host "node-a") (topology_options true) with
  | Ok n => refineForNode (ResetStatistics (BuildAllocationRequest urgent) n) n
              {| vi_Pods := [Some terminating]; vi_NumPDBViolations := 0 |} [] = Some ([], 0)
  | Fail _ => False
  end.
Proof. split; vm_compute; reflexivity. Qed.

(** ** The residents are within the capacities *)

Definition resident_claim (i : Z) : list ContainerDeviceClaim :=
  [{| cdc_Name := "main"; cdc_DeviceClaims := [{| dc_Id := i; dc_Uuid := "GPU-" +:+ Itoa i; dc_Cores := 80; dc_Memory := 20000 |}] |}].

Definition slots : list Z := [0; 1; 2; 3].

Lemma resident_claims : Forall (λ i, GetPodDeviceClaim (resident i) = resident_claim i) slots.
Proof. repeat (apply Forall_cons; split); [vm_compute; reflexivity..|done]. Qed.

Lemma resident_plain i : sidecar_names (resident i) = ∅ ∧ sequentialInit_names (resident i) = ∅.
Proof. done. Qed.

Lemma resident_reserve i x u :
  i ∈ slots → reserve x (resident i) (GetPodDeviceClaim (resident i)) u
  = if decide ("GPU-" +:+ Itoa i = u) then match x with Number => 1 | Cores => 80 | Memory => 20000 end else 0.
Proof.
  intros Hi. pose proof resident_claims as Hc. rewrite Forall_forall in Hc. rewrite (Hc i Hi). destruct (resident_plain i) as [Hn1 Hn2]. unfold reserve, resident_claim.
  rewrite (filter_none (is_sidecar (resident i))) by (constructor; [unfold is_sidecar; rewrite Hn1; set_solver|done]).
  rewrite (filter_none (is_sequential (resident i))) by (constructor; [unfold is_sequential; rewrite Hn2; set_solver|done]).
  rewrite (filter_all (is_regular (resident i))) by (constructor; [unfold is_regular, is_sequential; rewrite Hn1, Hn2; set_solver|done]).
  simpl. unfold container_on, claims_on. simpl. rewrite filter_cons. simpl. destruct (decide _), x; done.
Qed.

Lemma resident_ok i : i ∈ slots → pod_claims_ok (resident i).
Proof.
  intros Hi. pose proof resident_claims as Hc. rewrite Forall_forall in Hc. split.
  - rewrite (Hc i Hi). split; [repeat constructor; intros []; done|]. intros x u. simpl. unfold container_on, claims_on. simpl.
    rewrite filter_cons. destruct (decide _), x; done.
  - intros cdc _. unfold is_sequential. rewrite (proj2 (resident_plain i)). set_solver.
Qed.

Lemma residents_within : within nodes residents.
Proof.
  split.
  - refine (bool_decide_unpack _ _). vm_compute. done.
  - apply Forall_fmap, Forall_forall. apply resident_ok.
  - intros name node x u ->%nodes_are_hosts. unfold occupancy, residents. change [0; 1; 2; 3] with slots.
    assert (∀ i, i ∈ slots → charge name x u (resident i) ≤ if decide ("GPU-" +:+ Itoa i = u) then
      match x with Number => 1 | Cores => 80 | Memory => 20000 end else 0) as Hle.
    { intros i Hi. rewrite <- (resident_reserve i x u Hi). by apply charge_range, resident_ok. }
    unfold slots in *. simpl.
    pose proof (Hle 0 ltac:(set_solver)). pose proof (Hle 1 ltac:(set_solver)).
    pose proof (Hle 2 ltac:(set_solver)). pose proof (Hle 3 ltac:(set_solver)). clear Hle.
    unfold gpu_capacity. rewrite host_registry. unfold cards. rewrite !filter_cons. unfold card. simpl.
    repeat (destruct (decide (_ = u)); [subst u; try discriminate|]); destruct x; simpl in *; try lia.
Qed.

Lemma urgent_modest : modest nodes urgent.
Proof. destruct train_modest as [Hn Hc Hs Hl]. split; [exact Hn|exact Hc|exact Hs|exact Hl]. Qed.

End PreemptDemo.
