(* ===== verification/Demos.v ===== *)
(** * The theorems at concrete inputs

    Each lemma applies a theorem of an earlier file to the demo node or to a
    small pod, so that its hypotheses are seen to hold. *)

From stdpp Require Import base list gmap strings.
From Stdlib Require Import ZArith Lia Sorted.
From S2P Require Import Prelude GoMap GoSort GoStrings Float64 GoTime Kube Claims Reason UnionFind Links Topology.
From S2P Require Import Uniform Device Footprint NodeInfo Accounting Affinity Request Scoring SubsetSearch DemoNode.
From S2P Require Import Numa Tiered TieredSpec Allocator AllocatorSpec Placement NodeBuild EndToEnd.

Open Scope Z_scope.

Module Demos.
Import DemoNode.

Definition claim (id cores memory : Z) : DeviceClaim :=
  {| dc_Id := id; dc_Uuid := "GPU-" +:+ Itoa id; dc_Cores := cores; dc_Memory := memory |}.

(** An init container heavier than the two app containers together, which share a card. *)
Definition claims : list ContainerDeviceClaim :=
  [{| cdc_Name := "warmup"; cdc_DeviceClaims := [claim 0 80 4000; claim 1 10 100] |};
   {| cdc_Name := "left"; cdc_DeviceClaims := [claim 0 20 1000] |};
   {| cdc_Name := "right"; cdc_DeviceClaims := [claim 0 30 6000] |}].

Definition vgpu (name : string) : Container := Demo.container name [(VGPUNumberResourceName, 1)].

Definition pod (name : string) : Pod :=
  Demo.pod name [(PodVGPUPreAllocAnnotation, PodDeviceClaim_MarshalText claims);
                 (KubeGroupNameAnnotation, "gang"); (PodPredicateNodeAnnotation, "node-a")]
    [vgpu "warmup"] [vgpu "left"; vgpu "right"].

(** ** Claims and footprints *)

Lemma PodDeviceClaim_roundtrip_witness :
  PodDeviceClaim_MarshalText claims
    = "warmup[0_GPU-0_80_4000,1_GPU-1_10_100];left[0_GPU-0_20_1000];right[0_GPU-0_30_6000]" ∧
  PodDeviceClaim_UnmarshalText (PodDeviceClaim_MarshalText claims) = Ok claims.
Proof.
  split; [vm_compute; reflexivity|]. apply (PodDeviceClaim_roundtrip claims); [discriminate|].
  refine (bool_decide_unpack _ _). vm_compute. exact I.
Defined.

Lemma demo_bounded : claims_bounded claims.
Proof.
  apply claims_bounded_total; [|intros []; vm_compute; discriminate].
  repeat (apply Forall_cons; split); first [by apply Forall_nil|intros []; vm_compute; discriminate].
Qed.

Lemma ReducePodFootprint_peak_witness :
  peak Cores (fp_get (ReducePodFootprint (pod "p") claims) "GPU-0") = 80 ∧
  peak Memory (fp_get (ReducePodFootprint (pod "p") claims) "GPU-0") = 7000 ∧
  peak Memory (fp_get (ReducePodFootprint (pod "p") claims) "GPU-0")
  = Zsum (container_on Memory "GPU-0" <$> filter (is_sidecar (pod "p")) claims) +
    Z.max (Zsum (container_on Memory "GPU-0" <$> filter (is_regular (pod "p")) claims))
          (Zmax0 (container_on Memory "GPU-0" <$> filter (is_sequential (pod "p")) claims)).
Proof.
  split; [vm_compute; reflexivity|]. split; [vm_compute; reflexivity|].
  apply (ReducePodFootprint_peak Memory (pod "p") claims "GPU-0"). exact demo_bounded.
Defined.

(** ** Topology *)

Lemma tieredComponents_faithful_witness :
  largest (Some (computeTieredComponents (ni_deviceList info))) TierNVLink = 2 ∧
  (∀ i j, (i < length (ni_deviceList info))%nat → (j < length (ni_deviceList info))%nat →
     rootOf (Some (computeTieredComponents (ni_deviceList info))) TierNVLink (Z.of_nat i)
     = rootOf (Some (computeTieredComponents (ni_deviceList info))) TierNVLink (Z.of_nat j)
     ↔ linked (ni_deviceList info) TierNVLink i j) ∧
  ∃ m : nat, largest (Some (computeTieredComponents (ni_deviceList info))) TierNVLink = Z.of_nat m ∧
    max_group (length (ni_deviceList info)) (linked (ni_deviceList info) TierNVLink) m.
Proof.
  split; [vm_compute; reflexivity|]. apply (tieredComponents_faithful (ni_deviceList info) TierNVLink).
  vm_compute. discriminate.
Defined.

(** NVLink inside the pairs, cross-CPU links between them: uniform at the
    tightest tier, not at the loosest. *)
Lemma isUniform_iff_witness :
  isUniform (Some (computeTieredComponents (ni_deviceList info))) TierAny = false ∧
  isUniform (Some (computeTieredComponents (ni_deviceList info))) TierNVLink = true ∧
  (isUniform (Some (computeTieredComponents (ni_deviceList info))) TierNVLink = true
   ↔ uniform_links (ni_deviceList info) TierNVLink).
Proof.
  split; [vm_compute; reflexivity|]. split; [vm_compute; reflexivity|].
  apply (isUniform_iff (ni_deviceList info) TierNVLink). vm_compute. discriminate.
Defined.

(** ** Sorting *)

Definition binpack : AllocationRequest :=
  BuildAllocationRequest (Demo.pod "p" [(DeviceSchedulerPolicyAnnotation, "binpack")] [] []).

Lemma sort_devices_order_independent_witness :
  sort_devices binpack devices = sort_devices binpack (reverse devices) ∧
  ∀ sorted, sorted ≡ₚ reverse devices →
    StronglySorted (not_after (chain_less (NewDevicePolicyPriority binpack))) sorted →
    sorted = sort_devices binpack devices.
Proof.
  apply (sort_devices_order_independent binpack devices (reverse devices)).
  - repeat (apply Forall_cons; split); [..|by apply Forall_nil]; intros []; vm_compute; split; discriminate.
  - refine (bool_decide_unpack _ _). vm_compute. done.
  - symmetry. apply reverse_Permutation.
Defined.

(** ** Accounting *)


Lemma info_in64 : counters_in64 info.
Proof.
  intros id d x Hd. destruct (sn_wf _ EndToEndDemo.info_sound id d Hd x). unfold in64, int64_min. lia.
Qed.

Lemma pod_claims_demo : pod_claims_ok (pod "a") ∧ pod_claims_ok (pod "b").
Proof.
  assert (GetPodDeviceClaim (pod "a") = claims ∧ GetPodDeviceClaim (pod "b") = claims) as [Ha Hb]
    by (split; vm_compute; reflexivity).
  split; unfold pod_claims_ok; [rewrite Ha|rewrite Hb]; (split; [exact demo_bounded|]);
    intros c _ _; vm_compute; reflexivity.
Qed.

(** Two pods of the node; the second one is excluded. *)
Definition account : NodeInfoOption :=
  {| no_excludedUidSet := {["uid-b"]}; no_nodePods := []; no_nodeConfig := None; no_nodeDevice := None;
     no_resetUsed := false; no_resetPods := false; no_gpuTopologyEnabled := false |}.


Definition loaded : NodeInfo := AddPodUsedResources info (pod "a").

Lemma RestoreUsage_SnapshotUsage_witness :
  ni_deviceMap loaded ≠ ni_deviceMap info ∧ RestoreUsage loaded (SnapshotUsage info) = info.
Proof.
  split.
  - intros E. assert (d_usedMemory <$> ni_deviceMap loaded !! 0 = d_usedMemory <$> ni_deviceMap info !! 0) as E' by by rewrite E.
    vm_compute in E'. discriminate E'.
  - apply (RestoreUsage_SnapshotUsage info loaded); [|vm_compute; reflexivity].
    destruct (AddPod_spec info (pod "a")) as [Hs _]; [apply EndToEndDemo.info_sound|exact info_in64|vm_compute; reflexivity| | |exact Hs];
      apply pod_claims_demo.
Defined.

(** Written at ten seconds, not scheduled since. *)
Definition waiting_for (reason : string) : Pod :=
  let p := InsertAnnotation (pod "a") PodPredicateTimeAnnotation "10000000000" in
  {| p_Name := p_Name p; p_Namespace := p_Namespace p; p_UID := p_UID p; p_Labels := p_Labels p;
     p_Annotations := p_Annotations p; p_OwnerReferences := []; p_GetControllerOf := None;
     p_DeletionTimestamp := None; p_NodeName := ""; p_Containers := p_Containers p;
     p_InitContainers := p_InitContainers p; p_PodGroupName := None; p_Phase := "Pending"; p_StatusReason := "";
     p_ContainerStatuses := []; p_InitContainerStatuses := [];
     p_PodScheduledCondition := Some {| pc_Status := ConditionFalse; pc_Reason := reason;
                                     pc_LastTransitionUnix := 5 |};
     p_OS := None; p_Priority := None; p_CreationTimestamp := 0; p_Tolerations := []; p_IsCriticalPod := false; p_Rest := Demo.rest |}.

Definition stuck : Pod := waiting_for PodReasonUnschedulable.

(** Time alone does not bring a released pre-allocation back, but an update of
    the scheduling condition does. *)
Example released_then_revived :
  @ShouldCountPodDeviceAllocation (at_time Demo.env 10000000001) stuck = false ∧
  @ShouldCountPodDeviceAllocation (at_time Demo.env 10000000001) (waiting_for "SchedulerError") = true.
Proof. split; vm_compute; reflexivity. Qed.

Lemma stale_allocation_released_witness :
  @ShouldCountPodDeviceAllocation (at_time Demo.env 0) stuck = true ∧
  @ShouldCountPodDeviceAllocation (at_time Demo.env 10000000001) stuck = false.
Proof.
  split; [vm_compute; reflexivity|]. apply (stale_allocation_released Demo.env stuck) with (written := 10000000000).
  - split; [reflexivity|]. eexists. split_and!; reflexivity.
  - vm_compute. reflexivity.
  - vm_compute. split; [discriminate|reflexivity].
  - vm_compute. reflexivity.
Defined.

Lemma numa_choice_order_witness :
  HasNUMATopology info = true ∧ ∃ (o1 o2 : MapOrder) store, ∀ policy, policy ∈ [BinpackPolicy; SpreadPolicy] →
     (d_id <$> default [] (@pickNUMA o1 info store UniformProfile policy 2)) ≠
     (d_id <$> default [] (@pickNUMA o2 info store UniformProfile policy 2)).
Proof. split; [vm_compute; reflexivity|]. apply (numa_choice_order info). vm_compute. reflexivity. Defined.

(** ** Elections *)

(** The node with two pods of the gang. *)
Definition gang_node : NodeInfo :=
  match build cards (links_of edges <$> [0; 1; 2; 3]) [pod "a"; pod "b"] with Ok n => n | Fail _ => info end.

Lemma DomainOfUUIDs_elected_witness :
  DomainOfUUIDs gang_node ["GPU-2"; "GPU-3"; "GPU-0"; "GPU-2"] = Some "ord:1" ∧
  (DomainOfUUIDs gang_node ["GPU-2"; "GPU-3"; "GPU-0"; "GPU-2"] = Some "ord:1" ↔
   wins (domains_of gang_node ∅ ["GPU-2"; "GPU-3"; "GPU-0"; "GPU-2"]) (λ d d', str_lt d d' = true) "ord:1").
Proof.
  split; [vm_compute; reflexivity|].
  apply (DomainOfUUIDs_elected gang_node ["GPU-2"; "GPU-3"; "GPU-0"; "GPU-2"] "ord:1").
  assert (map_Forall (λ _ d, d ≠ "") (nv_Domain (ni_nvlink gang_node))) as Hall; [|exact Hall].
  refine (bool_decide_unpack _ _). vm_compute. exact I.
Defined.

Lemma GangAnchorComponent_elected_witness :
  GangAnchorComponent gang_node "default/gang" None ∅ = Some 0 ∧
  (GangAnchorComponent gang_node "default/gang" None ∅ = Some 0 ↔
   wins (sibling_roots gang_node "default/gang" None ∅) (λ r r', ordinal_of gang_node r < ordinal_of gang_node r') 0).
Proof.
  split; [vm_compute; reflexivity|].
  apply (GangAnchorComponent_elected gang_node "default/gang" None ∅ 0); [|left; discriminate].
  assert (Forall (λ r, Forall (λ r', ordinal_of gang_node r = ordinal_of gang_node r' → r = r')
            (sibling_roots gang_node "default/gang" None ∅)) (sibling_roots gang_node "default/gang" None ∅)) as Hall
    by (refine (bool_decide_unpack _ _); vm_compute; exact I).
  intros r r' Hr Hr'. rewrite Forall_forall in Hall. specialize (Hall r Hr). rewrite Forall_forall in Hall. by apply Hall.
Defined.
(** ** Demand *)

Lemma train_asks :
  asks_fit (nc_MemoryFactor (ni_config info)) (HasSameCapacity info) (GetMaxDeviceMemory info)
    (rq_Containers EndToEndDemo.req).
Proof.
  split; [|intros []; vm_compute; discriminate..]. intros need x Hn.
  assert (Forall (λ need, ∀ x, 0 ≤ node_ask info x need ≤ int64_max) (rq_Containers EndToEndDemo.req)) as Hall.
  { repeat (apply Forall_cons; split); [intros []; vm_compute; split; discriminate..|by apply Forall_nil]. }
  rewrite Forall_forall in Hall. by apply Hall.
Qed.

Lemma ResetStatistics_demand_witness :
  need_dim Memory (rq_Max (ResetStatistics EndToEndDemo.req info)) = 10000 ∧
  need_dim Memory (rq_Total (ResetStatistics EndToEndDemo.req info)) = 1000 + Z.max 20000 16000.
Proof.
  pose proof (ResetStatistics_demand EndToEndDemo.req info Memory train_asks ltac:(vm_compute; discriminate)) as [Hm Ht].
  rewrite Hm, Ht. split; vm_compute; reflexivity.
Defined.
End Demos.
